(** * KaliAI orchestrator: the query pipeline of [kali_orchestrator/agent.py]

    A shallow embedding of [OrchestratorAgent] (target extraction, scope
    enforcement, dangerous-action gate, plugin dispatch, finding recording)
    together with the parts of the Python runtime it calls ([str] methods,
    [re.findall], the [ipaddress] module), followed by the properties of the
    specification proved or refuted against it.

    Conventions.
    - A Python [str] is a [string]; a character is a code point in
      U+0000..U+00FF (an [ascii] read as Latin-1).  Case mapping and the
      regular-expression classes [\d], [\w] follow CPython on that range.
    - A Python exception is a value of [exn]; a call that may raise returns a
      [result].
    - A dictionary whose values have the type [Any] (a plugin result, a
      finding payload, an evidence map) is a [PyDict] of [PyVal]s; a
      dictionary with fixed keys and typed values is a record.
    - Part I holds the definitions, Part II the lemmas and theorems. *)

From Stdlib Require Import String Ascii List Bool Arith ZArith Lia DecimalString.
From Stdlib Require Import Sorting.Sorted.
Import ListNotations.
Open Scope string_scope.
Open Scope list_scope.
Open Scope nat_scope.

(* ================================================================== *)
(** * Part I — definitions *)
(* ================================================================== *)

(** ** Python strings *)
Module PyStr.

Definition ord (c : ascii) : nat := nat_of_ascii c.

Definition in_range (lo hi : nat) (c : ascii) : bool :=
  (lo <=? ord c) && (ord c <=? hi).

(** [str.lower()] on one code point of U+0000..U+00FF: [A-Z] and the
    Latin-1 capitals U+00C0..U+00DE (the sign U+00D7 apart) move up by 32. *)
Definition lower_char (c : ascii) : ascii :=
  if in_range 65 90 c || (in_range 192 222 c && negb (ord c =? 215))
  then ascii_of_nat (ord c + 32)
  else c.

Fixpoint lower (s : string) : string :=
  match s with
  | EmptyString => EmptyString
  | String c s' => String (lower_char c) (lower s')
  end.

(** [sub in s] *)
Fixpoint contains (sub s : string) : bool :=
  prefix sub s ||
  match s with
  | EmptyString => false
  | String _ s' => contains sub s'
  end.

(** [s.endswith(suf)] *)
Definition endswith (s suf : string) : bool :=
  (String.length suf <=? String.length s) &&
  (substring (String.length s - String.length suf) (String.length suf) s =? suf)%string.

(** [s.split(sep)] for a one-character separator: never the empty list. *)
Fixpoint split (sep : ascii) (s : string) : list string :=
  match s with
  | EmptyString => [EmptyString]
  | String c s' =>
      if Ascii.eqb c sep then EmptyString :: split sep s'
      else match split sep s' with
           | h :: t => String c h :: t
           | [] => [String c EmptyString]
           end
  end.

(** [s.partition(sep)]: the text before the first [sep], and the text after
    it when there is one. *)
Fixpoint partition (sep : ascii) (s : string) : string * option string :=
  match s with
  | EmptyString => (EmptyString, None)
  | String c s' =>
      if Ascii.eqb c sep then (EmptyString, Some s')
      else let (a, b) := partition sep s' in (String c a, b)
  end.

(** [sep.join(parts)] *)
Definition join (sep : string) (parts : list string) : string :=
  String.concat sep parts.

(** [x in xs] for a list of strings *)
Definition mem (x : string) (xs : list string) : bool :=
  existsb (String.eqb x) xs.

(** Truth value of an [Optional[str]]: [None] and [""] are false. *)
Definition truthy (o : option string) : bool :=
  match o with
  | Some s => negb (s =? "")%string
  | None => false
  end.

(** [o or default] for an [Optional[str]] *)
Definition or_else (o : option string) (default : string) : string :=
  match o with
  | Some s => if (s =? "")%string then default else s
  | None => default
  end.

(** [s.isascii() and s.isdigit()]: non-empty, decimal digits [0-9] only. *)
Definition is_ascii_digit (c : ascii) : bool := in_range 48 57 c.

Definition isascii_isdigit (s : string) : bool :=
  negb (s =? "")%string && forallb is_ascii_digit (list_ascii_of_string s).

(** [int(s, 10)] on a string of decimal digits *)
Definition int10 (s : string) : Z :=
  fold_left (fun acc c => (10 * acc + (Z.of_nat (ord c) - 48))%Z)
            (list_ascii_of_string s) 0%Z.

End PyStr.

(** ** Python exceptions *)

(** The exceptions the pipeline can meet.  [ValueError] (with its
    subclasses [AddressValueError], [NetmaskValueError]) and [TypeError]
    are the two classes [ipaddress] raises and [_check_scope] tells apart;
    their messages are never read and are left out.  [Exception msg] is
    an exception of any other class derived from [Exception], of which
    only [str(e) = msg] is read.  [KeyboardInterrupt] and [SystemExit]
    derive from [BaseException] alone: no [except Exception] clause
    catches them. *)
Inductive exn : Type :=
| ValueError
| TypeError
| Exception (msg : string)
| KeyboardInterrupt
| SystemExit.

(** [isinstance(e, Exception)] *)
Definition is_exception (e : exn) : bool :=
  match e with
  | KeyboardInterrupt | SystemExit => false
  | _ => true
  end.

Inductive result (A : Type) : Type :=
| Ok (a : A)
| Raise (e : exn).
Arguments Ok {A} a.
Arguments Raise {A} e.

(** Sequencing of calls that may raise: the first exception ends the
    sequence. *)
Definition bind {A B : Type} (m : result A) (k : A -> result B) : result B :=
  match m with
  | Ok a => k a
  | Raise e => Raise e
  end.

Notation "x <- m ;; k" := (bind m (fun x => k))
  (at level 61, m at next level, right associativity).

(** [try: m  except Exception as e: handler(e)]: an exception that is not
    an [Exception] passes through the clause. *)
Definition try_except {A : Type} (m : result A) (handler : exn -> result A)
  : result A :=
  match m with
  | Ok a => Ok a
  | Raise e => if is_exception e then handler e else Raise e
  end.

(** ** Unicode ([unicodedata], version 14.0.0, as CPython 3.11 has it)

    A Python [str] is a sequence of code points.  The strings of the
    model hold the code points below 256; a text holds any. *)
Module Unicode.
Local Open Scope N_scope.

Definition text : Type := list N.

(** The code points of a string of the model, and the string of a text
    of code points below 256. *)
Definition codes (s : string) : text := map N_of_ascii (list_ascii_of_string s).
Definition string_of_codes (t : text) : string :=
  string_of_list_ascii (map ascii_of_N t).

(** Equality of texts, and membership in a list of texts. *)
Fixpoint eqb (a b : text) : bool :=
  match a, b with
  | [], [] => true
  | x :: a', y :: b' => (x =? y) && eqb a' b'
  | _, _ => false
  end.

Definition mem (x : text) (xs : list text) : bool := existsb (eqb x) xs.

(** [c] lies between [lo] and [hi], both included. *)
Definition between (lo hi c : N) : bool := (lo <=? c) && (c <=? hi).

(** [c] lies in one of the ranges. *)
Definition in_ranges (ranges : list (N * N)) (c : N) : bool :=
  existsb (fun r => between (fst r) (snd r) c) ranges.

(** The code points for which [str.isalpha] holds (the categories Lu, Ll,
    Lt, Lm and Lo), as ranges with both ends included. *)
Definition alpha_ranges : list (N * N) :=
  [(65, 90); (97, 122); (170, 170); (181, 181); (186, 186); (192, 214);
   (216, 246); (248, 705); (710, 721); (736, 740); (748, 748); (750, 750);
   (880, 884); (886, 887); (890, 893); (895, 895); (902, 902); (904, 906);
   (908, 908); (910, 929); (931, 1013); (1015, 1153); (1162, 1327);
   (1329, 1366); (1369, 1369); (1376, 1416); (1488, 1514); (1519, 1522);
   (1568, 1610); (1646, 1647); (1649, 1747); (1749, 1749); (1765, 1766);
   (1774, 1775); (1786, 1788); (1791, 1791); (1808, 1808); (1810, 1839);
   (1869, 1957); (1969, 1969); (1994, 2026); (2036, 2037); (2042, 2042);
   (2048, 2069); (2074, 2074); (2084, 2084); (2088, 2088); (2112, 2136);
   (2144, 2154); (2160, 2183); (2185, 2190); (2208, 2249); (2308, 2361);
   (2365, 2365); (2384, 2384); (2392, 2401); (2417, 2432); (2437, 2444);
   (2447, 2448); (2451, 2472); (2474, 2480); (2482, 2482); (2486, 2489);
   (2493, 2493); (2510, 2510); (2524, 2525); (2527, 2529); (2544, 2545);
   (2556, 2556); (2565, 2570); (2575, 2576); (2579, 2600); (2602, 2608);
   (2610, 2611); (2613, 2614); (2616, 2617); (2649, 2652); (2654, 2654);
   (2674, 2676); (2693, 2701); (2703, 2705); (2707, 2728); (2730, 2736);
   (2738, 2739); (2741, 2745); (2749, 2749); (2768, 2768); (2784, 2785);
   (2809, 2809); (2821, 2828); (2831, 2832); (2835, 2856); (2858, 2864);
   (2866, 2867); (2869, 2873); (2877, 2877); (2908, 2909); (2911, 2913);
   (2929, 2929); (2947, 2947); (2949, 2954); (2958, 2960); (2962, 2965);
   (2969, 2970); (2972, 2972); (2974, 2975); (2979, 2980); (2984, 2986);
   (2990, 3001); (3024, 3024); (3077, 3084); (3086, 3088); (3090, 3112);
   (3114, 3129); (3133, 3133); (3160, 3162); (3165, 3165); (3168, 3169);
   (3200, 3200); (3205, 3212); (3214, 3216); (3218, 3240); (3242, 3251);
   (3253, 3257); (3261, 3261); (3293, 3294); (3296, 3297); (3313, 3314);
   (3332, 3340); (3342, 3344); (3346, 3386); (3389, 3389); (3406, 3406);
   (3412, 3414); (3423, 3425); (3450, 3455); (3461, 3478); (3482, 3505);
   (3507, 3515); (3517, 3517); (3520, 3526); (3585, 3632); (3634, 3635);
   (3648, 3654); (3713, 3714); (3716, 3716); (3718, 3722); (3724, 3747);
   (3749, 3749); (3751, 3760); (3762, 3763); (3773, 3773); (3776, 3780);
   (3782, 3782); (3804, 3807); (3840, 3840); (3904, 3911); (3913, 3948);
   (3976, 3980); (4096, 4138); (4159, 4159); (4176, 4181); (4186, 4189);
   (4193, 4193); (4197, 4198); (4206, 4208); (4213, 4225); (4238, 4238);
   (4256, 4293); (4295, 4295); (4301, 4301); (4304, 4346); (4348, 4680);
   (4682, 4685); (4688, 4694); (4696, 4696); (4698, 4701); (4704, 4744);
   (4746, 4749); (4752, 4784); (4786, 4789); (4792, 4798); (4800, 4800);
   (4802, 4805); (4808, 4822); (4824, 4880); (4882, 4885); (4888, 4954);
   (4992, 5007); (5024, 5109); (5112, 5117); (5121, 5740); (5743, 5759);
   (5761, 5786); (5792, 5866); (5873, 5880); (5888, 5905); (5919, 5937);
   (5952, 5969); (5984, 5996); (5998, 6000); (6016, 6067); (6103, 6103);
   (6108, 6108); (6176, 6264); (6272, 6276); (6279, 6312); (6314, 6314);
   (6320, 6389); (6400, 6430); (6480, 6509); (6512, 6516); (6528, 6571);
   (6576, 6601); (6656, 6678); (6688, 6740); (6823, 6823); (6917, 6963);
   (6981, 6988); (7043, 7072); (7086, 7087); (7098, 7141); (7168, 7203);
   (7245, 7247); (7258, 7293); (7296, 7304); (7312, 7354); (7357, 7359);
   (7401, 7404); (7406, 7411); (7413, 7414); (7418, 7418); (7424, 7615);
   (7680, 7957); (7960, 7965); (7968, 8005); (8008, 8013); (8016, 8023);
   (8025, 8025); (8027, 8027); (8029, 8029); (8031, 8061); (8064, 8116);
   (8118, 8124); (8126, 8126); (8130, 8132); (8134, 8140); (8144, 8147);
   (8150, 8155); (8160, 8172); (8178, 8180); (8182, 8188); (8305, 8305);
   (8319, 8319); (8336, 8348); (8450, 8450); (8455, 8455); (8458, 8467);
   (8469, 8469); (8473, 8477); (8484, 8484); (8486, 8486); (8488, 8488);
   (8490, 8493); (8495, 8505); (8508, 8511); (8517, 8521); (8526, 8526);
   (8579, 8580); (11264, 11492); (11499, 11502); (11506, 11507);
   (11520, 11557); (11559, 11559); (11565, 11565); (11568, 11623);
   (11631, 11631); (11648, 11670); (11680, 11686); (11688, 11694);
   (11696, 11702); (11704, 11710); (11712, 11718); (11720, 11726);
   (11728, 11734); (11736, 11742); (11823, 11823); (12293, 12294);
   (12337, 12341); (12347, 12348); (12353, 12438); (12445, 12447);
   (12449, 12538); (12540, 12543); (12549, 12591); (12593, 12686);
   (12704, 12735); (12784, 12799); (13312, 19903); (19968, 42124);
   (42192, 42237); (42240, 42508); (42512, 42527); (42538, 42539);
   (42560, 42606); (42623, 42653); (42656, 42725); (42775, 42783);
   (42786, 42888); (42891, 42954); (42960, 42961); (42963, 42963);
   (42965, 42969); (42994, 43009); (43011, 43013); (43015, 43018);
   (43020, 43042); (43072, 43123); (43138, 43187); (43250, 43255);
   (43259, 43259); (43261, 43262); (43274, 43301); (43312, 43334);
   (43360, 43388); (43396, 43442); (43471, 43471); (43488, 43492);
   (43494, 43503); (43514, 43518); (43520, 43560); (43584, 43586);
   (43588, 43595); (43616, 43638); (43642, 43642); (43646, 43695);
   (43697, 43697); (43701, 43702); (43705, 43709); (43712, 43712);
   (43714, 43714); (43739, 43741); (43744, 43754); (43762, 43764);
   (43777, 43782); (43785, 43790); (43793, 43798); (43808, 43814);
   (43816, 43822); (43824, 43866); (43868, 43881); (43888, 44002);
   (44032, 55203); (55216, 55238); (55243, 55291); (63744, 64109);
   (64112, 64217); (64256, 64262); (64275, 64279); (64285, 64285);
   (64287, 64296); (64298, 64310); (64312, 64316); (64318, 64318);
   (64320, 64321); (64323, 64324); (64326, 64433); (64467, 64829);
   (64848, 64911); (64914, 64967); (65008, 65019); (65136, 65140);
   (65142, 65276); (65313, 65338); (65345, 65370); (65382, 65470);
   (65474, 65479); (65482, 65487); (65490, 65495); (65498, 65500);
   (65536, 65547); (65549, 65574); (65576, 65594); (65596, 65597);
   (65599, 65613); (65616, 65629); (65664, 65786); (66176, 66204);
   (66208, 66256); (66304, 66335); (66349, 66368); (66370, 66377);
   (66384, 66421); (66432, 66461); (66464, 66499); (66504, 66511);
   (66560, 66717); (66736, 66771); (66776, 66811); (66816, 66855);
   (66864, 66915); (66928, 66938); (66940, 66954); (66956, 66962);
   (66964, 66965); (66967, 66977); (66979, 66993); (66995, 67001);
   (67003, 67004); (67072, 67382); (67392, 67413); (67424, 67431);
   (67456, 67461); (67463, 67504); (67506, 67514); (67584, 67589);
   (67592, 67592); (67594, 67637); (67639, 67640); (67644, 67644);
   (67647, 67669); (67680, 67702); (67712, 67742); (67808, 67826);
   (67828, 67829); (67840, 67861); (67872, 67897); (67968, 68023);
   (68030, 68031); (68096, 68096); (68112, 68115); (68117, 68119);
   (68121, 68149); (68192, 68220); (68224, 68252); (68288, 68295);
   (68297, 68324); (68352, 68405); (68416, 68437); (68448, 68466);
   (68480, 68497); (68608, 68680); (68736, 68786); (68800, 68850);
   (68864, 68899); (69248, 69289); (69296, 69297); (69376, 69404);
   (69415, 69415); (69424, 69445); (69488, 69505); (69552, 69572);
   (69600, 69622); (69635, 69687); (69745, 69746); (69749, 69749);
   (69763, 69807); (69840, 69864); (69891, 69926); (69956, 69956);
   (69959, 69959); (69968, 70002); (70006, 70006); (70019, 70066);
   (70081, 70084); (70106, 70106); (70108, 70108); (70144, 70161);
   (70163, 70187); (70272, 70278); (70280, 70280); (70282, 70285);
   (70287, 70301); (70303, 70312); (70320, 70366); (70405, 70412);
   (70415, 70416); (70419, 70440); (70442, 70448); (70450, 70451);
   (70453, 70457); (70461, 70461); (70480, 70480); (70493, 70497);
   (70656, 70708); (70727, 70730); (70751, 70753); (70784, 70831);
   (70852, 70853); (70855, 70855); (71040, 71086); (71128, 71131);
   (71168, 71215); (71236, 71236); (71296, 71338); (71352, 71352);
   (71424, 71450); (71488, 71494); (71680, 71723); (71840, 71903);
   (71935, 71942); (71945, 71945); (71948, 71955); (71957, 71958);
   (71960, 71983); (71999, 71999); (72001, 72001); (72096, 72103);
   (72106, 72144); (72161, 72161); (72163, 72163); (72192, 72192);
   (72203, 72242); (72250, 72250); (72272, 72272); (72284, 72329);
   (72349, 72349); (72368, 72440); (72704, 72712); (72714, 72750);
   (72768, 72768); (72818, 72847); (72960, 72966); (72968, 72969);
   (72971, 73008); (73030, 73030); (73056, 73061); (73063, 73064);
   (73066, 73097); (73112, 73112); (73440, 73458); (73648, 73648);
   (73728, 74649); (74880, 75075); (77712, 77808); (77824, 78894);
   (82944, 83526); (92160, 92728); (92736, 92766); (92784, 92862);
   (92880, 92909); (92928, 92975); (92992, 92995); (93027, 93047);
   (93053, 93071); (93760, 93823); (93952, 94026); (94032, 94032);
   (94099, 94111); (94176, 94177); (94179, 94179); (94208, 100343);
   (100352, 101589); (101632, 101640); (110576, 110579); (110581, 110587);
   (110589, 110590); (110592, 110882); (110928, 110930); (110948, 110951);
   (110960, 111355); (113664, 113770); (113776, 113788); (113792, 113800);
   (113808, 113817); (119808, 119892); (119894, 119964); (119966, 119967);
   (119970, 119970); (119973, 119974); (119977, 119980); (119982, 119993);
   (119995, 119995); (119997, 120003); (120005, 120069); (120071, 120074);
   (120077, 120084); (120086, 120092); (120094, 120121); (120123, 120126);
   (120128, 120132); (120134, 120134); (120138, 120144); (120146, 120485);
   (120488, 120512); (120514, 120538); (120540, 120570); (120572, 120596);
   (120598, 120628); (120630, 120654); (120656, 120686); (120688, 120712);
   (120714, 120744); (120746, 120770); (120772, 120779); (122624, 122654);
   (123136, 123180); (123191, 123197); (123214, 123214); (123536, 123565);
   (123584, 123627); (124896, 124902); (124904, 124907); (124909, 124910);
   (124912, 124926); (124928, 125124); (125184, 125251); (125259, 125259);
   (126464, 126467); (126469, 126495); (126497, 126498); (126500, 126500);
   (126503, 126503); (126505, 126514); (126516, 126519); (126521, 126521);
   (126523, 126523); (126530, 126530); (126535, 126535); (126537, 126537);
   (126539, 126539); (126541, 126543); (126545, 126546); (126548, 126548);
   (126551, 126551); (126553, 126553); (126555, 126555); (126557, 126557);
   (126559, 126559); (126561, 126562); (126564, 126564); (126567, 126570);
   (126572, 126578); (126580, 126583); (126585, 126588); (126590, 126590);
   (126592, 126601); (126603, 126619); (126625, 126627); (126629, 126633);
   (126635, 126651); (131072, 173791); (173824, 177976); (177984, 178205);
   (178208, 183969); (183984, 191456); (194560, 195101); (196608, 201546)].

(** The code points for which [str.isdecimal] holds (the decimal digits of
    every script). *)
Definition decimal_ranges : list (N * N) :=
  [(48, 57); (1632, 1641); (1776, 1785); (1984, 1993); (2406, 2415);
   (2534, 2543); (2662, 2671); (2790, 2799); (2918, 2927); (3046, 3055);
   (3174, 3183); (3302, 3311); (3430, 3439); (3558, 3567); (3664, 3673);
   (3792, 3801); (3872, 3881); (4160, 4169); (4240, 4249); (6112, 6121);
   (6160, 6169); (6470, 6479); (6608, 6617); (6784, 6793); (6800, 6809);
   (6992, 7001); (7088, 7097); (7232, 7241); (7248, 7257); (42528, 42537);
   (43216, 43225); (43264, 43273); (43472, 43481); (43504, 43513);
   (43600, 43609); (44016, 44025); (65296, 65305); (66720, 66729);
   (68912, 68921); (69734, 69743); (69872, 69881); (69942, 69951);
   (70096, 70105); (70384, 70393); (70736, 70745); (70864, 70873);
   (71248, 71257); (71360, 71369); (71472, 71481); (71904, 71913);
   (72016, 72025); (72784, 72793); (73040, 73049); (73120, 73129);
   (92768, 92777); (92864, 92873); (93008, 93017); (120782, 120831);
   (123200, 123209); (123632, 123641); (125264, 125273); (130032, 130041)].

(** The code points for which [str.isdigit] holds. *)
Definition digit_ranges : list (N * N) :=
  [(48, 57); (178, 179); (185, 185); (1632, 1641); (1776, 1785);
   (1984, 1993); (2406, 2415); (2534, 2543); (2662, 2671); (2790, 2799);
   (2918, 2927); (3046, 3055); (3174, 3183); (3302, 3311); (3430, 3439);
   (3558, 3567); (3664, 3673); (3792, 3801); (3872, 3881); (4160, 4169);
   (4240, 4249); (4969, 4977); (6112, 6121); (6160, 6169); (6470, 6479);
   (6608, 6618); (6784, 6793); (6800, 6809); (6992, 7001); (7088, 7097);
   (7232, 7241); (7248, 7257); (8304, 8304); (8308, 8313); (8320, 8329);
   (9312, 9320); (9332, 9340); (9352, 9360); (9450, 9450); (9461, 9469);
   (9471, 9471); (10102, 10110); (10112, 10120); (10122, 10130);
   (42528, 42537); (43216, 43225); (43264, 43273); (43472, 43481);
   (43504, 43513); (43600, 43609); (44016, 44025); (65296, 65305);
   (66720, 66729); (68160, 68163); (68912, 68921); (69216, 69224);
   (69714, 69722); (69734, 69743); (69872, 69881); (69942, 69951);
   (70096, 70105); (70384, 70393); (70736, 70745); (70864, 70873);
   (71248, 71257); (71360, 71369); (71472, 71481); (71904, 71913);
   (72016, 72025); (72784, 72793); (73040, 73049); (73120, 73129);
   (92768, 92777); (92864, 92873); (93008, 93017); (120782, 120831);
   (123200, 123209); (123632, 123641); (125264, 125273); (127232, 127242);
   (130032, 130041)].

(** The code points for which [str.isnumeric] holds. *)
Definition numeric_ranges : list (N * N) :=
  [(48, 57); (178, 179); (185, 185); (188, 190); (1632, 1641); (1776, 1785);
   (1984, 1993); (2406, 2415); (2534, 2543); (2548, 2553); (2662, 2671);
   (2790, 2799); (2918, 2927); (2930, 2935); (3046, 3058); (3174, 3183);
   (3192, 3198); (3302, 3311); (3416, 3422); (3430, 3448); (3558, 3567);
   (3664, 3673); (3792, 3801); (3872, 3891); (4160, 4169); (4240, 4249);
   (4969, 4988); (5870, 5872); (6112, 6121); (6128, 6137); (6160, 6169);
   (6470, 6479); (6608, 6618); (6784, 6793); (6800, 6809); (6992, 7001);
   (7088, 7097); (7232, 7241); (7248, 7257); (8304, 8304); (8308, 8313);
   (8320, 8329); (8528, 8578); (8581, 8585); (9312, 9371); (9450, 9471);
   (10102, 10131); (11517, 11517); (12295, 12295); (12321, 12329);
   (12344, 12346); (12690, 12693); (12832, 12841); (12872, 12879);
   (12881, 12895); (12928, 12937); (12977, 12991); (13317, 13317);
   (13443, 13443); (14378, 14378); (15181, 15181); (19968, 19968);
   (19971, 19971); (19975, 19975); (19977, 19977); (20061, 20061);
   (20108, 20108); (20116, 20116); (20118, 20118); (20159, 20160);
   (20191, 20191); (20200, 20200); (20237, 20237); (20336, 20336);
   (20740, 20740); (20806, 20806); (20841, 20841); (20843, 20843);
   (20845, 20845); (21313, 21313); (21315, 21317); (21324, 21324);
   (21441, 21444); (22235, 22235); (22769, 22769); (22777, 22777);
   (24186, 24186); (24318, 24319); (24332, 24334); (24336, 24336);
   (25342, 25342); (25420, 25420); (26578, 26578); (28422, 28422);
   (29590, 29590); (30334, 30334); (32902, 32902); (33836, 33836);
   (36014, 36014); (36019, 36019); (36144, 36144); (38433, 38433);
   (38470, 38470); (38476, 38476); (38520, 38520); (38646, 38646);
   (42528, 42537); (42726, 42735); (43056, 43061); (43216, 43225);
   (43264, 43273); (43472, 43481); (43504, 43513); (43600, 43609);
   (44016, 44025); (63851, 63851); (63859, 63859); (63864, 63864);
   (63922, 63922); (63953, 63953); (63955, 63955); (63997, 63997);
   (65296, 65305); (65799, 65843); (65856, 65912); (65930, 65931);
   (66273, 66299); (66336, 66339); (66369, 66369); (66378, 66378);
   (66513, 66517); (66720, 66729); (67672, 67679); (67705, 67711);
   (67751, 67759); (67835, 67839); (67862, 67867); (68028, 68029);
   (68032, 68047); (68050, 68095); (68160, 68168); (68221, 68222);
   (68253, 68255); (68331, 68335); (68440, 68447); (68472, 68479);
   (68521, 68527); (68858, 68863); (68912, 68921); (69216, 69246);
   (69405, 69414); (69457, 69460); (69573, 69579); (69714, 69743);
   (69872, 69881); (69942, 69951); (70096, 70105); (70113, 70132);
   (70384, 70393); (70736, 70745); (70864, 70873); (71248, 71257);
   (71360, 71369); (71472, 71483); (71904, 71922); (72016, 72025);
   (72784, 72812); (73040, 73049); (73120, 73129); (73664, 73684);
   (74752, 74862); (92768, 92777); (92864, 92873); (93008, 93017);
   (93019, 93025); (93824, 93846); (119520, 119539); (119648, 119672);
   (120782, 120831); (123200, 123209); (123632, 123641); (125127, 125135);
   (125264, 125273); (126065, 126123); (126125, 126127); (126129, 126132);
   (126209, 126253); (126255, 126269); (127232, 127244); (130032, 130041);
   (131073, 131073); (131172, 131172); (131298, 131298); (131361, 131361);
   (133418, 133418); (133507, 133507); (133516, 133516); (133532, 133532);
   (133866, 133866); (133885, 133885); (133913, 133913); (140176, 140176);
   (141720, 141720); (146203, 146203); (156269, 156269); (194704, 194704)].

Definition isalpha (c : N) : bool := in_ranges alpha_ranges c.
Definition isdecimal (c : N) : bool := in_ranges decimal_ranges c.
Definition isdigit (c : N) : bool := in_ranges digit_ranges c.
Definition isnumeric (c : N) : bool := in_ranges numeric_ranges c.

(** [Py_UNICODE_ISALNUM] *)
Definition isalnum (c : N) : bool :=
  isalpha c || isdecimal c || isdigit c || isnumeric c.

End Unicode.

(** ** Python regular expressions ([re])

    The fragment of [re] syntax the agent's two patterns use, on a text
    of any code points, with the backtracking search of CPython's engine:
    alternatives and repetitions are tried in priority order (greedy
    first), the first overall success wins.  A pattern is a [str]
    pattern: [\d], [\w] and [\b] follow the Unicode database.  A pattern
    that can match the empty string is outside the model of [findall];
    the agent's patterns always consume text. *)
Module Re.
Import Unicode.
Local Open Scope N_scope.

(** The code point of a character written in a pattern. *)
Definition code (c : ascii) : N := N_of_ascii c.

(** [\d]: [SRE_UNI_IS_DIGIT], a decimal digit of any script *)
Definition is_digit (c : N) : bool := isdecimal c.

(** [\w]: [SRE_UNI_IS_WORD], an alphanumeric code point or the
    underscore *)
Definition is_word (c : N) : bool := isalnum c || (c =? 95).

(** One member of a bracketed set [[...]] *)
Inductive class_item : Type :=
| CChar (c : ascii)
| CRange (lo hi : ascii)
| CDigit.

Definition item_has (i : class_item) (c : N) : bool :=
  match i with
  | CChar d => c =? code d
  | CRange lo hi => between (code lo) (code hi) c
  | CDigit => is_digit c
  end.

Definition in_set (cs : list class_item) (c : N) : bool :=
  existsb (fun i => item_has i c) cs.

Inductive regex : Type :=
| Empty                            (* matches without consuming *)
| Chars (cs : list class_item)     (* one character of a set *)
| Cat (r1 r2 : regex)              (* r1 r2 *)
| Or (r1 r2 : regex)               (* r1 preferred over r2 *)
| Plus (r : regex)                 (* r+, greedy *)
| Boundary.                        (* \b *)

Definition Lit (c : ascii) : regex := Chars [CChar c].
(** [r?] *)
Definition Opt (r : regex) : regex := Or r Empty.
(** [r*] *)
Definition Star (r : regex) : regex := Or (Plus r) Empty.
(** [r{n}] *)
Fixpoint Times (n : nat) (r : regex) : regex :=
  match n with
  | O => Empty
  | S n' => Cat r (Times n' r)
  end.
(** [r{0,n}], greedy *)
Fixpoint UpTo (n : nat) (r : regex) : regex :=
  match n with
  | O => Empty
  | S n' => Opt (Cat r (UpTo n' r))
  end.
(** [r{m,n}] *)
Definition Between (m n : nat) (r : regex) : regex :=
  Cat (Times m r) (UpTo (n - m) r).
(** [r{m,}] *)
Definition AtLeast (m : nat) (r : regex) : regex :=
  Cat (Times m r) (Star r).

(** The character before the current position after reading [w]. *)
Definition last_of (prev : option N) (w : text) : option N :=
  fold_left (fun _ c => Some c) w prev.

Definition word_opt (o : option N) : bool :=
  match o with
  | Some c => is_word c
  | None => false
  end.

(** [\b] holds between [prev] and the head of [rest] when exactly one of
    them is a word character (the ends of the text count as non-word). *)
Definition is_boundary (prev : option N) (rest : text) : bool :=
  xorb (word_opt prev) (word_opt (hd_error rest)).

(** A continuation: it receives the position reached (the character
    before it, the text after it) and answers with the text left after
    the whole match, or fails. *)
Definition cont : Type := option N -> text -> option text.

(** The loop of a greedy [+] over a [body]: after one round that consumed
    text, further rounds are tried before the continuation. *)
Fixpoint iterate (body : option N -> text -> cont -> option text)
         (k : cont) (fuel : nat) (prev : option N) (s : text)
  : option text :=
  match fuel with
  | O => None
  | S fuel' =>
      body prev s (fun p' s' =>
        if (length s' <? length s)%nat
        then match iterate body k fuel' p' s' with
             | Some x => Some x
             | None => k p' s'
             end
        else k p' s')
  end.

(** The backtracking matcher, in continuation-passing style: a failure of
    [k] makes the matcher try its next choice. *)
Fixpoint run (r : regex) (prev : option N) (s : text) (k : cont)
  : option text :=
  match r with
  | Empty => k prev s
  | Chars cs =>
      match s with
      | c :: s' => if in_set cs c then k (Some c) s' else None
      | [] => None
      end
  | Cat r1 r2 => run r1 prev s (fun p' s' => run r2 p' s' k)
  | Or r1 r2 =>
      match run r1 prev s k with
      | Some x => Some x
      | None => run r2 prev s k
      end
  | Plus r1 => iterate (run r1) k (S (length s)) prev s
  | Boundary => if is_boundary prev s then k prev s else None
  end.

(** A match starting exactly at the current position: the text left. *)
Definition match_here (r : regex) (prev : option N) (s : text)
  : option text :=
  run r prev s (fun _ rest => Some rest).

(** The matched text, given what is left of [s]. *)
Definition consumed (s rest : text) : text :=
  firstn (length s - length rest) s.

(** The left-to-right scan of [re.findall]: the match at the leftmost
    position, then the scan resumes where that match ended. *)
Fixpoint scan (fuel : nat) (r : regex) (prev : option N) (s : text)
  : list text :=
  match fuel with
  | O => []
  | S fuel' =>
      let step :=
        match s with
        | c :: s' => scan fuel' r (Some c) s'
        | [] => []
        end in
      match match_here r prev s with
      | Some rest =>
          match consumed s rest with
          | [] => [] :: step
          | m => m :: scan fuel' r (last_of prev m) rest
          end
      | None => step
      end
  end.

(** [re.findall(r, s)] for a pattern without capturing groups *)
Definition findall (r : regex) (s : text) : list text :=
  scan (S (length s)) r None s.

(** *** What a pattern denotes

    [matches r prev w rest]: the word [w] is matched by [r] when it stands
    after the character [prev] and before the text [rest]. *)
Inductive matches : regex -> option N -> text -> text -> Prop :=
| MEmpty p rest : matches Empty p [] rest
| MChars cs c p rest : in_set cs c = true -> matches (Chars cs) p [c] rest
| MCat r1 r2 p w1 w2 rest :
    matches r1 p w1 (w2 ++ rest) ->
    matches r2 (last_of p w1) w2 rest ->
    matches (Cat r1 r2) p (w1 ++ w2) rest
| MOrL r1 r2 p w rest : matches r1 p w rest -> matches (Or r1 r2) p w rest
| MOrR r1 r2 p w rest : matches r2 p w rest -> matches (Or r1 r2) p w rest
| MPlus1 r p w rest : matches r p w rest -> matches (Plus r) p w rest
| MPlusS r p w1 w2 rest :
    matches r p w1 (w2 ++ rest) ->
    matches (Plus r) (last_of p w1) w2 rest ->
    matches (Plus r) p (w1 ++ w2) rest
| MBoundary p rest : is_boundary p rest = true -> matches Boundary p [] rest.

(** [r] denotes the language [L], whatever stands around the word. *)
Definition denotes (r : regex) (L : text -> Prop) : Prop :=
  forall p w rest, matches r p w rest <-> L w.

(** One or more words of [L], one after the other. *)
Inductive rep1 (L : text -> Prop) : text -> Prop :=
| rep1_one w : L w -> rep1 L w
| rep1_more w1 w2 : L w1 -> rep1 L w2 -> rep1 L (w1 ++ w2).

End Re.

(** ** The [ipaddress] module (CPython 3.11, [Lib/ipaddress.py])

    Only what [_check_scope] calls: [ip_network(s, strict=False)],
    [ip_address(s)], [subnet_of] and [in].  The parsing helpers return
    [None] where the Python raises [AddressValueError] or
    [NetmaskValueError]; the messages of the exceptions are left out. *)
Module IpAddress.
Import PyStr.
Local Open Scope Z_scope.

Definition IPV4LENGTH : Z := 32.
Definition IPV6LENGTH : Z := 128.

(** [_ALL_ONES] of a family of [bits] bits *)
Definition all_ones (bits : Z) : Z := 2 ^ bits - 1.

(** An [IPv4Address] or [IPv6Address]: [_version], [_ip], [_scope_id]
    (always [None] for version 4). *)
Record Address : Type := mkAddress {
  version : nat;
  ip : Z;
  scope_id : option string
}.

(** An [IPv4Network] or [IPv6Network]; its version is the one of its
    network address. *)
Record Network : Type := mkNetwork {
  network_address : Address;
  netmask : Z;
  prefixlen : Z
}.

Definition net_version (n : Network) : nat := version (network_address n).

Definition max_prefixlen (v : nat) : Z :=
  if (v =? 4)%nat then IPV4LENGTH else IPV6LENGTH.

(** [int.from_bytes(octets, 'big')] *)
Definition from_bytes_big (l : list Z) : Z :=
  fold_left (fun acc b => acc * 256 + b) l 0.

(** All of a list of optional values, or nothing. *)
Fixpoint sequence {A : Type} (l : list (option A)) : option (list A) :=
  match l with
  | [] => Some []
  | None :: _ => None
  | Some a :: l' =>
      match sequence l' with
      | Some r => Some (a :: r)
      | None => None
      end
  end.

(** [_BaseV4._parse_octet] *)
Definition parse_octet (octet_str : string) : option Z :=
  if (octet_str =? "")%string then None
  else if negb (isascii_isdigit octet_str) then None
  else if (3 <? String.length octet_str)%nat then None
  else if negb (octet_str =? "0")%string && prefix "0" octet_str then None
  else let octet_int := int10 octet_str in
       if 255 <? octet_int then None else Some octet_int.

(** [_BaseV4._ip_int_from_string] *)
Definition v4_ip_int_from_string (ip_str : string) : option Z :=
  if (ip_str =? "")%string then None
  else let octets := split "." ip_str in
       if negb (length octets =? 4)%nat then None
       else option_map from_bytes_big (sequence (map parse_octet octets)).

(** [IPv4Address(addr_str)] *)
Definition IPv4Address (addr_str : string) : option Address :=
  if contains "/" addr_str then None
  else option_map (fun i => mkAddress 4 i None) (v4_ip_int_from_string addr_str).

(** [_ip_int_from_prefix] *)
Definition ip_int_from_prefix (bits prefixlen : Z) : Z :=
  Z.lxor (all_ones bits) (Z.shiftr (all_ones bits) prefixlen).

(** [int.bit_length()] of a non-negative integer *)
Definition bit_length (n : Z) : Z :=
  if n <=? 0 then 0 else Z.log2 n + 1.

(** [_count_righthand_zero_bits] *)
Definition count_righthand_zero_bits (number bits : Z) : Z :=
  if number =? 0 then bits
  else Z.min bits (bit_length (Z.land (Z.lnot number) (number - 1))).

(** [_prefix_from_ip_int]; [None] where the Python raises [ValueError]. *)
Definition prefix_from_ip_int (bits ip_int : Z) : option Z :=
  let trailing_zeroes := count_righthand_zero_bits ip_int bits in
  let prefixlen := bits - trailing_zeroes in
  let leading_ones := Z.shiftr ip_int trailing_zeroes in
  let ones := Z.shiftl 1 prefixlen - 1 in
  if negb (leading_ones =? ones) then None else Some prefixlen.

(** [_prefix_from_prefix_string]; [int()] refuses more than 4300 digits. *)
Definition prefix_from_prefix_string (bits : Z) (prefixlen_str : string) : option Z :=
  if negb (isascii_isdigit prefixlen_str) then None
  else if (4300 <? String.length prefixlen_str)%nat then None
  else let p := int10 prefixlen_str in
       if negb ((0 <=? p) && (p <=? bits)) then None else Some p.

(** [_prefix_from_ip_string] (IPv4 masks only reach it) *)
Definition v4_prefix_from_ip_string (ip_str : string) : option Z :=
  match v4_ip_int_from_string ip_str with
  | None => None
  | Some ip_int =>
      match prefix_from_ip_int IPV4LENGTH ip_int with
      | Some p => Some p
      | None => prefix_from_ip_int IPV4LENGTH (Z.lxor ip_int (all_ones IPV4LENGTH))
      end
  end.

(** [_BaseV4._make_netmask] on a string: the netmask and the prefix length *)
Definition v4_make_netmask (arg : string) : option (Z * Z) :=
  match
    match prefix_from_prefix_string IPV4LENGTH arg with
    | Some p => Some p
    | None => v4_prefix_from_ip_string arg
    end
  with
  | Some p => Some (ip_int_from_prefix IPV4LENGTH p, p)
  | None => None
  end.

(** [_split_addr_prefix] on a string: the address and the mask when one is
    written. *)
Definition split_addr_prefix (address : string) : option (string * option string) :=
  let addr := split "/" address in
  if (2 <? length addr)%nat then None
  else match addr with
       | [a; m] => Some (a, Some m)
       | a :: _ => Some (a, None)
       | [] => None
       end.

(** The tail of a network constructor, once address and mask are parsed:
    with [strict=False] the host bits are masked off. *)
Definition make_network (a : Address) (mask : Z * Z) : Network :=
  let (nm, p) := mask in
  let packed := ip a in
  if Z.land packed nm =? packed
  then mkNetwork a nm p
  else mkNetwork (mkAddress (version a) (Z.land packed nm) None) nm p.

(** [IPv4Network(address, strict=False)] *)
Definition IPv4Network (address : string) : option Network :=
  match split_addr_prefix address with
  | None => None
  | Some (addr, mask) =>
      match IPv4Address addr with
      | None => None
      | Some a =>
          match
            match mask with
            | Some m => v4_make_netmask m
            | None => Some (ip_int_from_prefix IPV4LENGTH IPV4LENGTH, IPV4LENGTH)
            end
          with
          | None => None
          | Some nm => Some (make_network a nm)
          end
      end
  end.

Definition is_hex_digit (c : ascii) : bool :=
  in_range 48 57 c || in_range 65 70 c || in_range 97 102 c.

Definition hex_value (c : ascii) : Z :=
  if in_range 48 57 c then Z.of_nat (ord c) - 48
  else if in_range 97 102 c then Z.of_nat (ord c) - 87
  else Z.of_nat (ord c) - 55.

(** [int(s, 16)] on a string of hexadecimal digits *)
Definition int16 (s : string) : Z :=
  fold_left (fun acc c => 16 * acc + hex_value c) (list_ascii_of_string s) 0.

Definition hex_digit (n : Z) : ascii :=
  if n <? 10 then ascii_of_nat (48 + Z.to_nat n) else ascii_of_nat (87 + Z.to_nat n).

Fixpoint hex_go (fuel : nat) (n : Z) (acc : string) : string :=
  match fuel with
  | O => acc
  | S fuel' =>
      let acc' := String (hex_digit (n mod 16)) acc in
      if n / 16 =? 0 then acc' else hex_go fuel' (n / 16) acc'
  end.

(** ['%x' % n] for [0 <= n < 65536] *)
Definition hex (n : Z) : string := hex_go 4 n "".

(** [_BaseV6._parse_hextet]; [int('', 16)] raises as well. *)
Definition parse_hextet (hextet_str : string) : option Z :=
  if negb (forallb is_hex_digit (list_ascii_of_string hextet_str)) then None
  else if (4 <? String.length hextet_str)%nat then None
  else if (hextet_str =? "")%string then None
  else Some (int16 hextet_str).

(** The two loops that fold hextets into the address. *)
Definition shift_hextets (acc : Z) (hs : list Z) : Z :=
  fold_left (fun a h => Z.lor (Z.shiftl a 16) h) hs acc.

Definition hextets_to_int (parts : list string) (parts_hi parts_lo parts_skipped : nat)
  : option Z :=
  match sequence (map parse_hextet (firstn parts_hi parts)),
        sequence (map parse_hextet (skipn (length parts - parts_lo) parts)) with
  | Some hi, Some lo =>
      Some (shift_hextets (Z.shiftl (shift_hextets 0 hi) (16 * Z.of_nat parts_skipped)) lo)
  | _, _ => None
  end.

Definition is_empty (s : string) : bool := (s =? "")%string.

(** [_BaseV6._ip_int_from_string] *)
Definition v6_ip_int_from_string (ip_str : string) : option Z :=
  if is_empty ip_str then None
  else
    let parts := split ":" ip_str in
    if (length parts <? 3)%nat then None
    else
      let parts_opt :=
        if contains "." (last parts "")
        then match IPv4Address (last parts "") with
             | None => None
             | Some a =>
                 Some (removelast parts ++
                       [hex (Z.land (Z.shiftr (ip a) 16) 65535);
                        hex (Z.land (ip a) 65535)])
             end
        else Some parts in
      match parts_opt with
      | None => None
      | Some parts =>
          let n := length parts in
          if (9 <? n)%nat then None
          else
            match filter (fun i => is_empty (nth i parts "")) (seq 1 (n - 2)) with
            | _ :: _ :: _ => None
            | [skip_index] =>
                let hi0 := skip_index in
                let lo0 := (n - skip_index - 1)%nat in
                let hi := if is_empty (nth 0 parts "")
                          then (if (hi0 - 1 =? 0)%nat then Some O else None)
                          else Some hi0 in
                let lo := if is_empty (last parts "")
                          then (if (lo0 - 1 =? 0)%nat then Some O else None)
                          else Some lo0 in
                match hi, lo with
                | Some parts_hi, Some parts_lo =>
                    if (8 <=? parts_hi + parts_lo)%nat then None
                    else hextets_to_int parts parts_hi parts_lo
                                        (8 - (parts_hi + parts_lo))
                | _, _ => None
                end
            | [] =>
                if negb (n =? 8)%nat then None
                else if is_empty (nth 0 parts "") then None
                else if is_empty (last parts "") then None
                else hextets_to_int parts n 0 0
            end
      end.

(** [_BaseV6._split_scope_id] *)
Definition split_scope_id (ip_str : string) : option (string * option string) :=
  match partition "%" ip_str with
  | (addr, None) => Some (addr, None)
  | (addr, Some scope) =>
      if is_empty scope || contains "%" scope then None
      else Some (addr, Some scope)
  end.

(** [IPv6Address(addr_str)] *)
Definition IPv6Address (addr_str : string) : option Address :=
  if contains "/" addr_str then None
  else match split_scope_id addr_str with
       | None => None
       | Some (addr, scope) =>
           option_map (fun i => mkAddress 6 i scope) (v6_ip_int_from_string addr)
       end.

(** [_BaseV6._make_netmask] on a string: a prefix length only *)
Definition v6_make_netmask (arg : string) : option (Z * Z) :=
  option_map (fun p => (ip_int_from_prefix IPV6LENGTH p, p))
             (prefix_from_prefix_string IPV6LENGTH arg).

(** [IPv6Network(address, strict=False)] *)
Definition IPv6Network (address : string) : option Network :=
  match split_addr_prefix address with
  | None => None
  | Some (addr, mask) =>
      match IPv6Address addr with
      | None => None
      | Some a =>
          match
            match mask with
            | Some m => v6_make_netmask m
            | None => Some (ip_int_from_prefix IPV6LENGTH IPV6LENGTH, IPV6LENGTH)
            end
          with
          | None => None
          | Some nm => Some (make_network a nm)
          end
      end
  end.

(** [ipaddress.ip_address(address)] *)
Definition ip_address (address : string) : result Address :=
  match IPv4Address address with
  | Some a => Ok a
  | None =>
      match IPv6Address address with
      | Some a => Ok a
      | None => Raise ValueError
      end
  end.

(** [ipaddress.ip_network(address, strict=False)] *)
Definition ip_network (address : string) : result Network :=
  match IPv4Network address with
  | Some n => Ok n
  | None =>
      match IPv6Network address with
      | Some n => Ok n
      | None => Raise ValueError
      end
  end.

Definition hostmask (n : Network) : Z :=
  Z.lxor (netmask n) (all_ones (max_prefixlen (net_version n))).

(** [broadcast_address]: a fresh address object, without scope id *)
Definition broadcast_address (n : Network) : Address :=
  mkAddress (net_version n) (Z.lor (ip (network_address n)) (hostmask n)) None.

Definition scope_eqb (a b : option string) : bool :=
  match a, b with
  | None, None => true
  | Some x, Some y => (x =? y)%string
  | _, _ => false
  end.

(** [x == y] on addresses; [IPv6Address.__eq__] compares the scope ids. *)
Definition address_eq (x y : Address) : bool :=
  (ip x =? ip y) && (version x =? version y)%nat && scope_eqb (scope_id x) (scope_id y).

(** [x < y], [x <= y], [x >= y] on addresses of one version
    ([functools.total_ordering] over [__lt__] and [__eq__]). *)
Definition address_lt (x y : Address) : bool := ip x <? ip y.
Definition address_le (x y : Address) : bool := address_lt x y || address_eq x y.
Definition address_ge (x y : Address) : bool := negb (address_lt x y).

(** [a.subnet_of(b)] *)
Definition subnet_of (a b : Network) : result bool :=
  if negb (net_version a =? net_version b)%nat then Raise TypeError
  else Ok (address_le (network_address b) (network_address a)
           && address_ge (broadcast_address b) (broadcast_address a)).

(** [other in self] for an address [other] *)
Definition net_contains (self : Network) (other : Address) : bool :=
  if negb (net_version self =? version other)%nat then false
  else Z.land (ip other) (netmask self) =? ip (network_address self).

End IpAddress.

(** ** Configuration ([kali_orchestrator/config.py])

    The two sections of [OrchestratorConfig] the pipeline reads. *)
Module Config.

Record ScopeConfig : Type := mkScopeConfig {
  allowed_ips : list string;
  allowed_domains : list string;
  strict_mode : bool
}.

Record SafetyConfig : Type := mkSafetyConfig {
  require_confirmation : bool;
  dangerous_actions : list string;
  containerized_execution : bool
}.

Record OrchestratorConfig : Type := mkOrchestratorConfig {
  scope : ScopeConfig;
  safety : SafetyConfig
}.

(** The defaults of the [Field] declarations. *)
Definition default_scope : ScopeConfig := mkScopeConfig [] [] true.
Definition default_safety : SafetyConfig :=
  mkSafetyConfig true ["exploit"; "payload"; "inject"] true.
Definition default_config : OrchestratorConfig :=
  mkOrchestratorConfig default_scope default_safety.

End Config.

(** ** Scope enforcement ([OrchestratorAgent._check_scope]) *)
Module Scope.
Import PyStr IpAddress Config.

(** The body of the [try] for one entry of [allowed_ips]: [Ok true] is
    [return True], [Ok false] falls out of the [if]s. *)
Definition ip_rule_body (allowed_ip target : string) : result bool :=
  if contains "/" allowed_ip then
    match ip_network allowed_ip with
    | Raise e => Raise e
    | Ok network =>
        if contains "/" target then
          match ip_network target with
          | Raise e => Raise e
          | Ok target_net => subnet_of target_net network
          end
        else
          match ip_address target with
          | Raise e => Raise e
          | Ok target_ip => Ok (net_contains network target_ip)
          end
    end
  else Ok (target =? allowed_ip)%string.

(** [try: ... except ValueError: pass] *)
Definition ip_rule (allowed_ip target : string) : result bool :=
  match ip_rule_body allowed_ip target with
  | Raise ValueError => Ok false
  | r => r
  end.

(** The loop over [allowed_ips]; [Ok false] when it runs to its end. *)
Fixpoint check_ips (rules : list string) (target : string) : result bool :=
  match rules with
  | [] => Ok false
  | allowed_ip :: rest =>
      match ip_rule allowed_ip target with
      | Ok true => Ok true
      | Ok false => check_ips rest target
      | Raise e => Raise e
      end
  end.

(** The test of one entry of [allowed_domains]. *)
Definition domain_rule (target allowed_domain : string) : bool :=
  (target =? allowed_domain)%string
  || endswith target ("." ++ allowed_domain)%string.

(** The loop over [allowed_domains]. *)
Fixpoint check_domains (rules : list string) (target : string) : bool :=
  match rules with
  | [] => false
  | allowed_domain :: rest =>
      if domain_rule target allowed_domain then true
      else check_domains rest target
  end.

Definition _check_scope (cfg : ScopeConfig) (target : string) : result bool :=
  if negb (strict_mode cfg) then Ok true
  else
    match check_ips (allowed_ips cfg) target with
    | Ok true => Ok true
    | Ok false => Ok (check_domains (allowed_domains cfg) target)
    | Raise e => Raise e
    end.

End Scope.

(** ** Values of type [Any] *)

(** A value of Python type [Any], as JSON carries it: what a plugin may
    put under a key of its result, what an evidence map or a raw tool
    result holds.  The float [PFloat m e] is [m * 2 ^ e]. *)
#[warnings="-register-all"]
Inductive PyVal : Type :=
| PNone
| PBool (b : bool)
| PInt (z : Z)
| PFloat (m e : Z)
| PStr (s : string)
| PList (l : list PyVal)
| PDict (d : list (string * PyVal)).

(** A [Dict[str, Any]]: the pairs in insertion order, the keys distinct. *)
Definition PyDict : Type := list (string * PyVal).

(** [d.get(key)] *)
Fixpoint dict_get (d : PyDict) (key : string) : option PyVal :=
  match d with
  | [] => None
  | (k, v) :: d' => if (k =? key)%string then Some v else dict_get d' key
  end.

(** [d.get(key, default)] *)
Definition get_or (d : PyDict) (key : string) (default : PyVal) : PyVal :=
  match dict_get d key with
  | Some v => v
  | None => default
  end.

(** What the interpreter does with a value of type [Any]; the messages of
    the exceptions are CPython's. *)
Module PyAny.

(** [type(v).__name__] *)
Definition type_name (v : PyVal) : string :=
  match v with
  | PNone => "NoneType"
  | PBool _ => "bool"
  | PInt _ => "int"
  | PFloat _ _ => "float"
  | PStr _ => "str"
  | PList _ => "list"
  | PDict _ => "dict"
  end.

(** [bool(v)] *)
Definition truthy (v : PyVal) : bool :=
  match v with
  | PNone => false
  | PBool b => b
  | PInt z => negb (z =? 0)%Z
  | PFloat m _ => negb (m =? 0)%Z
  | PStr s => negb (s =? "")%string
  | PList l => match l with [] => false | _ => true end
  | PDict d => match d with [] => false | _ => true end
  end.

(** [for x in v]: the items of a list, the keys of a dictionary, the
    characters of a string; [TypeError] otherwise. *)
Definition iter (v : PyVal) : result (list PyVal) :=
  match v with
  | PList l => Ok l
  | PDict d => Ok (map (fun kv => PStr (fst kv)) d)
  | PStr s => Ok (map (fun c => PStr (String c "")) (list_ascii_of_string s))
  | _ => Raise (Exception ("'" ++ type_name v ++ "' object is not iterable"))
  end.

(** [len(v)]; [TypeError] for a value without a length. *)
Definition len (v : PyVal) : result nat :=
  match v with
  | PList l => Ok (length l)
  | PDict d => Ok (length d)
  | PStr s => Ok (String.length s)
  | _ => Raise (Exception ("object of type '" ++ type_name v ++ "' has no len()"))
  end.

(** [v.get(key, default)]; [AttributeError] when [v] is not a dictionary. *)
Definition get (v : PyVal) (key : string) (default : PyVal) : result PyVal :=
  match v with
  | PDict d => Ok (get_or d key default)
  | _ => Raise (Exception ("'" ++ type_name v ++ "' object has no attribute 'get'"))
  end.

End PyAny.

(** ** Session memory ([kali_orchestrator/memory.py]) *)

Module Finding.
Record t : Type := mk {
  id : string;
  timestamp : string;
  target : string;
  type : string;
  severity : string;
  description : string;
  evidence : PyDict;
  recommendations : list string
}.

(** [Finding] is a pydantic model (version 2): its constructor validates
    the arguments.  Among the values of [PyVal] a [str] field takes a
    string, [evidence] a dictionary, [recommendations] a list of strings,
    and nothing else. *)
Definition as_str (v : PyVal) : option string :=
  match v with
  | PStr s => Some s
  | _ => None
  end.

Definition as_dict (v : PyVal) : option PyDict :=
  match v with
  | PDict d => Some d
  | _ => None
  end.

Fixpoint as_strs (l : list PyVal) : option (list string) :=
  match l with
  | [] => Some []
  | v :: l' =>
      match as_str v, as_strs l' with
      | Some s, Some r => Some (s :: r)
      | _, _ => None
      end
  end.

Definition as_str_list (v : PyVal) : option (list string) :=
  match v with
  | PList l => as_strs l
  | _ => None
  end.

Definition refused {A : Type} (field : string) (v : PyVal) (o : option A)
  : list (string * PyVal) :=
  match o with
  | Some _ => []
  | None => [(field, v)]
  end.

(** [Finding(id=..., ..., recommendations=...)]: the instance, or the
    fields that were refused with the values given for them. *)
Definition validate (id timestamp : string)
           (target type severity description evidence recommendations : PyVal)
  : t + list (string * PyVal) :=
  match as_str target, as_str type, as_str severity, as_str description,
        as_dict evidence, as_str_list recommendations with
  | Some t, Some ty, Some sv, Some de, Some ev, Some rc =>
      inl (mk id timestamp t ty sv de ev rc)
  | _, _, _, _, _, _ =>
      inr (refused "target" target (as_str target)
           ++ refused "type" type (as_str type)
           ++ refused "severity" severity (as_str severity)
           ++ refused "description" description (as_str description)
           ++ refused "evidence" evidence (as_dict evidence)
           ++ refused "recommendations" recommendations
                      (as_str_list recommendations))
  end.
End Finding.

Module ToolExecution.
Record t : Type := mk {
  timestamp : string;
  tool : string;
  command : string;
  target : string;
  output : string;
  exit_code : Z;
  duration_seconds : Z     (* the float 0.0 of the source, always *)
}.
End ToolExecution.

Module SessionMemory.
Record t : Type := mk {
  session_id : string;
  created_at : string;
  updated_at : string;
  conversation_history : list (string * string);   (* role, content *)
  findings : list Finding.t;
  tool_executions : list ToolExecution.t;
  context : PyDict
}.
End SessionMemory.

(** What surrounds the pipeline: the wall clock and the session store.
    [datetime.now()] reads the clock and moves it on by one tick; [disk]
    holds the files of [base_dir], each a name and the text written to
    it, the newest writing of a name first. *)
Module World.
Record t : Type := mk {
  current_session : option SessionMemory.t;    (* MemoryManager.current_session *)
  clock : nat;
  disk : list (string * string)
}.
End World.

(** The renderings of the clock that the code asks for. *)
Module Clock.
Record t : Type := mk {
  isoformat : nat -> string;        (* datetime.now().isoformat() *)
  timestamp : nat -> string;        (* str(datetime.now().timestamp()) *)
  strftime : nat -> string          (* .strftime("%Y%m%d_%H%M%S") *)
}.
End Clock.

Module MemoryManager.
Import SessionMemory World.

Section WithClock.
Variable clk : Clock.t.

Definition tick (w : World.t) : World.t :=
  World.mk (current_session w) (S (clock w)) (disk w).

Definition set_session (s : SessionMemory.t) (w : World.t) : World.t :=
  World.mk (Some s) (clock w) (disk w).

(** [create_session()] without an id: three readings of the clock. *)
Definition create_session (w : World.t) : World.t :=
  let sid := ("session_" ++ Clock.strftime clk (clock w))%string in
  let created := Clock.isoformat clk (clock w + 1) in
  let updated := Clock.isoformat clk (clock w + 2) in
  World.mk (Some (SessionMemory.mk sid created updated [] [] [] []))
           (clock w + 3) (disk w).

(** [if self.current_session is None: self.create_session()] *)
Definition ensure_session (w : World.t) : World.t :=
  match current_session w with
  | None => create_session w
  | Some _ => w
  end.

(** The session after [ensure_session]; the fallback is never reached. *)
Definition session_of (w : World.t) : SessionMemory.t :=
  match current_session w with
  | Some s => s
  | None => SessionMemory.mk "" "" "" [] [] [] []
  end.

Definition add_conversation (role content : string) (w : World.t) : World.t :=
  let w := ensure_session w in
  let s := session_of w in
  tick (set_session
          (SessionMemory.mk (session_id s) (created_at s)
             (Clock.isoformat clk (clock w))
             (conversation_history s ++ [(role, content)])
             (findings s) (tool_executions s) (context s)) w).

Definition add_finding (finding : Finding.t) (w : World.t) : World.t :=
  let w := ensure_session w in
  let s := session_of w in
  tick (set_session
          (SessionMemory.mk (session_id s) (created_at s)
             (Clock.isoformat clk (clock w))
             (conversation_history s)
             (findings s ++ [finding]) (tool_executions s) (context s)) w).

Definition add_tool_execution (execution : ToolExecution.t) (w : World.t) : World.t :=
  let w := ensure_session w in
  let s := session_of w in
  tick (set_session
          (SessionMemory.mk (session_id s) (created_at s)
             (Clock.isoformat clk (clock w))
             (conversation_history s)
             (findings s) (tool_executions s ++ [execution]) (context s)) w).

(** [save_session()] without an id.  [writable] tells whether [open]
    returns the file (it raises an [OSError] otherwise, and the file is
    left as it was); opening truncates the file.  [dump s] is what
    [json.dump(s.model_dump(mode="json"), f, indent=2)] does: the text it
    writes, and the exception that cuts the writing short, if any; the
    file is closed on the way out and keeps what was written.  The
    method returns [True] after a complete writing and [False] when an
    [Exception] was caught. *)
Definition save_session (writable : bool)
           (dump : SessionMemory.t -> string * option exn) (w : World.t)
  : result bool * World.t :=
  match current_session w with
  | None => (Ok false, w)
  | Some s =>
      let s' := SessionMemory.mk (session_id s) (created_at s)
                  (Clock.isoformat clk (clock w))
                  (conversation_history s) (findings s)
                  (tool_executions s) (context s) in
      if writable then
        let (written, raised) := dump s' in
        let w' := World.mk (Some s') (S (clock w))
                    (((session_id s ++ ".json")%string, written) :: disk w) in
        match raised with
        | None => (Ok true, w')
        | Some e => (try_except (Raise e) (fun _ => Ok false), w')
        end
      else (Ok false, World.mk (Some s') (S (clock w)) (disk w))
  end.

End WithClock.

(** [l[-n:]] *)
Definition last_n {A : Type} (n : nat) (l : list A) : list A :=
  skipn (length l - n) l.

(** The dictionary built by [get_context()] *)
Record LLMContext : Type := mkLLMContext {
  ctx_conversation_history : list (string * string);
  ctx_recent_findings : list Finding.t;
  ctx_recent_tool_executions : list ToolExecution.t;
  ctx_total_findings : nat;
  ctx_session_id : string;
  ctx_context : PyDict
}.

Definition get_context (w : World.t) : option LLMContext :=
  match current_session w with
  | None => None
  | Some s =>
      Some (mkLLMContext (last_n 10 (conversation_history s))
              (last_n 5 (findings s)) (last_n 5 (tool_executions s))
              (length (findings s)) (session_id s) (context s))
  end.

End MemoryManager.

(** ** Plugins ([kali_orchestrator/plugins])

    A plugin result is the dictionary [execute] returns, a [Dict[str, Any]]:
    nothing is assumed of the values under its keys. *)

(** One entry of [context["open_ports"]] *)
Module OpenPort.
Record t : Type := mk {
  port : PyVal;
  service : PyVal;
  version : PyVal
}.
End OpenPort.

(** The [context] dictionary built once per query *)
Module RequestContext.
Record t : Type := mk {
  query : string;
  target : option string;
  findings : list Finding.t;
  open_ports : list OpenPort.t;
  conversation_history : list (string * string)
}.
End RequestContext.

(** [BasePlugin]: a name, the [matches] predicate and [execute], which
    returns a result dictionary or raises. *)
Module BasePlugin.
Record t : Type := mk {
  name : string;
  matches : string -> bool;
  execute : RequestContext.t -> result PyDict
}.
End BasePlugin.

(** [NmapWrapper]: the three scans the plugin asks for, each returning the
    dictionary of the scan. *)
Module NmapWrapper.
Record t : Type := mk {
  quick_scan : string -> result PyDict;
  full_scan : string -> result PyDict;
  scan_http_services : string -> result PyDict
}.
End NmapWrapper.

(** [plugins/nmap_plugin.py] *)
Module NmapPlugin.
Import PyStr.

Definition name : string := "nmap".

Definition nmap_keywords : list string :=
  ["scan"; "port"; "nmap"; "service"; "open port"; "port scan"].

Definition matches (query : string) : bool :=
  let query_lower := lower query in
  existsb (fun keyword => contains keyword query_lower) nmap_keywords.

(** The payload appended for one entry of [result["open_ports"]] *)
Definition port_finding (target : string) (port_info : PyVal) : result PyVal :=
  port <- PyAny.get port_info "port" PNone ;;
  service <- PyAny.get port_info "service" (PStr "") ;;
  version <- PyAny.get port_info "version" (PStr "") ;;
  Ok (PDict [("type", PStr "open_port"); ("target", PStr target);
             ("port", port); ("service", service); ("version", version);
             ("severity", PStr "info")]).

(** [for port_info in result["open_ports"]: findings.append(...)] *)
Fixpoint port_findings (target : string) (ports : list PyVal)
  : result (list PyVal) :=
  match ports with
  | [] => Ok []
  | port_info :: rest =>
      finding <- port_finding target port_info ;;
      findings <- port_findings target rest ;;
      Ok (finding :: findings)
  end.

Definition execute (nmap : NmapWrapper.t) (context : RequestContext.t)
  : result PyDict :=
  let target := or_else (RequestContext.target context) "" in
  if (target =? "")%string then
    Ok [("success", PBool false); ("error", PStr "No target specified")]
  else
    let query := lower (RequestContext.query context) in
    let scan_type :=
      if contains "full" query || contains "all ports" query then "full"
      else if contains "http" query || contains "web" query then "http"
      else "quick" in
    result <-
      (if (scan_type =? "full")%string then NmapWrapper.full_scan nmap target
       else if (scan_type =? "http")%string
            then NmapWrapper.scan_http_services nmap target
            else NmapWrapper.quick_scan nmap target) ;;
    findings <-
      match dict_get result "open_ports" with
      | Some open_ports =>
          ports <- PyAny.iter open_ports ;; port_findings target ports
      | None => Ok []
      end ;;
    Ok [("success", get_or result "success" (PBool true));
        ("plugin", PStr name);
        ("target", PStr target);
        ("scan_type", PStr scan_type);
        ("open_ports", get_or result "open_ports" (PList []));
        ("findings", PList findings);
        ("raw_result", PDict result)].

Definition plugin (nmap : NmapWrapper.t) : BasePlugin.t :=
  BasePlugin.mk name matches (execute nmap).

End NmapPlugin.

(** ** The orchestrator ([kali_orchestrator/agent.py]) *)

(** The result envelope: the dictionary [process_query] returns, a field
    being [None] when the key is absent. *)
Module Envelope.
Record t : Type := mk {
  success : bool;
  error : option string;
  target : option (option string);
  requires_confirmation : option bool;
  action : option string;
  message : option string;
  query : option string;
  plugins_executed : option (list string);
  results : option (list PyDict);
  response : option string;
  llm_planning : option string
}.
End Envelope.

Module Agent.
Import PyStr Re Config Scope MemoryManager.

(** The collaborators behind narrow interfaces: the clock, the language
    model ([self.llm.generate], which may raise), [str()] of a value that
    is not a string (it may raise: an integer of more than 4300 digits
    gives a [ValueError]), the text of the error the validation of a
    [Finding] raises for the fields it refuses, whether session files can
    be opened for writing, and what [json.dump] writes of a session. *)
Record Collaborators : Type := mkCollaborators {
  clk : Clock.t;
  llm_generate : string -> option LLMContext -> result string;
  str_of_value : PyVal -> result string;
  validation_message : list (string * PyVal) -> string;
  disk_writable : bool;
  json_dump : SessionMemory.t -> string * option exn
}.

(** [self.config] and [self.plugins] *)
Record t : Type := mk {
  config : OrchestratorConfig;
  plugins : list BasePlugin.t
}.

(** *** [_extract_target] *)

Definition digit : regex := Chars [CDigit].

(** [\b(?:\d{1,3}\.){3}\d{1,3}(?:/\d{1,2})?\b] *)
Definition ip_pattern : regex :=
  Cat Boundary
    (Cat (Times 3 (Cat (Between 1 3 digit) (Lit ".")))
       (Cat (Between 1 3 digit)
          (Cat (Opt (Cat (Lit "/") (Between 1 2 digit))) Boundary))).

Definition alnum : regex :=
  Chars [CRange "a" "z"; CRange "A" "Z"; CRange "0" "9"].
Definition alnum_dash : regex :=
  Chars [CRange "a" "z"; CRange "A" "Z"; CRange "0" "9"; CChar "-"].
Definition alpha : regex :=
  Chars [CRange "a" "z"; CRange "A" "Z"].

(** [[a-zA-Z0-9](?:[a-zA-Z0-9-]{0,61}[a-zA-Z0-9])?] *)
Definition label : regex :=
  Cat alnum (Opt (Cat (Between 0 61 alnum_dash) alnum)).

(** [\b(?:[a-zA-Z0-9](?:[a-zA-Z0-9-]{0,61}[a-zA-Z0-9])?\.)+[a-zA-Z]{2,}\b] *)
Definition domain_pattern : regex :=
  Cat Boundary
    (Cat (Plus (Cat label (Lit ".")))
       (Cat (AtLeast 2 alpha) Boundary)).

Definition excluded : list string := ["example.com"; "localhost"; "127.0.0.1"].

(** The [for domain in domain_matches] loop *)
Fixpoint first_not_excluded (domain_matches : list Unicode.text)
  : option Unicode.text :=
  match domain_matches with
  | [] => None
  | domain :: rest =>
      if negb (Unicode.mem domain (map Unicode.codes excluded)) then Some domain
      else first_not_excluded rest
  end.

(** [_extract_target] on a query of any code points. *)
Definition _extract_target_text (query : Unicode.text) : option Unicode.text :=
  match findall ip_pattern query with
  | m :: _ => Some m
  | [] => first_not_excluded (findall domain_pattern query)
  end.

(** [_extract_target] on a string of the model: the same function, on the
    code points of the string. *)
Definition _extract_target (query : string) : option string :=
  option_map Unicode.string_of_codes
             (_extract_target_text (Unicode.codes query)).

(** *** [_is_dangerous_action] *)

(** The [for keyword in ...dangerous_actions] loop *)
Fixpoint any_keyword_in (keywords : list string) (query_lower : string) : bool :=
  match keywords with
  | [] => false
  | keyword :: rest =>
      if contains keyword query_lower then true
      else any_keyword_in rest query_lower
  end.

Definition _is_dangerous_action (cfg : SafetyConfig) (query : string) : bool :=
  let query_lower := lower query in
  any_keyword_in (dangerous_actions cfg) query_lower.

(** *** Helpers of [process_query] *)

Definition evidence_get (f : Finding.t) (key : string) (default : PyVal) : PyVal :=
  get_or (Finding.evidence f) key default.

Definition _extract_open_ports_from_memory (w : World.t) : list OpenPort.t :=
  match World.current_session w with
  | None => []
  | Some s =>
      map (fun finding =>
             OpenPort.mk (evidence_get finding "port" PNone)
                         (evidence_get finding "service" (PStr ""))
                         (evidence_get finding "version" (PStr "")))
          (filter (fun finding => (Finding.type finding =? "open_port")%string)
                  (SessionMemory.findings s))
  end.

Definition nl : string := String (ascii_of_nat 10) "".

Definition _build_planning_prompt (query : string) (context : RequestContext.t) : string :=
  let prompt_parts :=
    ["You are an AI assistant helping with penetration testing operations.";
     "Analyze the user's request and determine what tools and actions are needed.";
     "";
     "User query: " ++ query]%string in
  let prompt_parts :=
    if truthy (RequestContext.target context)
    then prompt_parts ++ [("Target: " ++ or_else (RequestContext.target context) "")%string]
    else prompt_parts in
  let prompt_parts :=
    match RequestContext.findings context with
    | [] => prompt_parts
    | findings =>
        prompt_parts ++ [(nl ++ "Recent findings:")%string] ++
        map (fun finding =>
               ("- " ++ Finding.type finding ++ ": " ++ Finding.description finding)%string)
            (firstn 5 findings)
    end in
  join nl (prompt_parts ++
           [(nl ++ "What tools should be executed? Provide a brief plan.")%string]).

Definition str_of_nat (n : nat) : string :=
  NilEmpty.string_of_uint (Nat.to_uint n).

(** The two status marks (U+2713, U+2717) lie outside U+0000..U+00FF and
    are kept as their UTF-8 bytes. *)
Definition mark_ok : string :=
  String (ascii_of_nat 226) (String (ascii_of_nat 156) (String (ascii_of_nat 147) "")).
Definition mark_failed : string :=
  String (ascii_of_nat 226) (String (ascii_of_nat 156) (String (ascii_of_nat 151) "")).

Definition str_of_exn (e : exn) : string :=
  match e with
  | Exception msg => msg
  | _ => ""
  end.

Definition opt_or {A : Type} (o : option A) (default : A) : A :=
  match o with
  | Some a => a
  | None => default
  end.

Section Pipeline.
Variable env : Collaborators.
Variable self : t.

(** [str(v)], as an f-string and [str()] compute it *)
Definition py_str (v : PyVal) : result string :=
  match v with
  | PStr s => Ok s
  | _ => str_of_value env v
  end.

(** *** [_generate_response_summary] *)

(** The lines added for one entry of [results]: the status line, whose
    f-string formats the name of the plugin, then the two counts. *)
Definition summary_of_result (result_ : PyDict) : result (list string) :=
  let plugin_name := get_or result_ "plugin" (PStr "unknown") in
  let success := get_or result_ "success" (PBool false) in
  let status := if PyAny.truthy success then mark_ok else mark_failed in
  plugin_name <- py_str plugin_name ;;
  found <-
    match dict_get result_ "findings" with
    | Some findings =>
        count <- PyAny.len findings ;;
        Ok [("  Found " ++ str_of_nat count ++ " finding(s)")%string]
    | None => Ok []
    end ;;
  suggested <-
    match dict_get result_ "suggested_exploits" with
    | Some suggested_exploits =>
        count <- PyAny.len suggested_exploits ;;
        Ok [("  Suggested " ++ str_of_nat count ++ " exploit(s)")%string]
    | None => Ok []
    end ;;
  Ok ([(status ++ " " ++ plugin_name)%string] ++ found ++ suggested).

(** [for result in results] *)
Fixpoint summary_of_results (results : list PyDict) : result (list string) :=
  match results with
  | [] => Ok []
  | result :: rest =>
      lines <- summary_of_result result ;;
      more <- summary_of_results rest ;;
      Ok (lines ++ more)
  end.

Definition _generate_response_summary (w : World.t) (query : string)
           (results : list PyDict) (llm_planning : string) : result string :=
  let summary_parts := [("Processed query: " ++ query ++ nl)%string] in
  summary_parts <-
    match results with
    | [] => Ok (summary_parts ++ ["No matching plugins found for this query."])
    | _ =>
        lines <- summary_of_results results ;;
        Ok (summary_parts ++ ["Execution results:"] ++ lines)
    end ;;
  let findings_count :=
    match World.current_session w with
    | Some s => length (SessionMemory.findings s)
    | None => 0
    end in
  let summary_parts :=
    if 0 <? findings_count
    then summary_parts ++
         [(nl ++ "Total findings in session: " ++ str_of_nat findings_count)%string;
          "Consider running additional scans or generating a report."]
    else summary_parts in
  Ok (join nl summary_parts).

(** *** The recorder inside the plugin loop *)

(** [Finding(id=..., timestamp=..., target=target or finding_data.get(...),
    ...)], the clock standing at [c] (read twice: for the id, then for the
    timestamp).  The arguments are evaluated in the order written; the
    model's validation comes last. *)
Definition make_finding (plugin_name : string) (target : option string)
           (c : nat) (finding_data : PyVal) : result Finding.t :=
  let id := (plugin_name ++ "_" ++ Clock.timestamp (clk env) c)%string in
  let timestamp := Clock.isoformat (clk env) (c + 1) in
  target_v <-
    (if truthy target then Ok (PStr (or_else target ""))
     else PyAny.get finding_data "target" (PStr "")) ;;
  type_v <- PyAny.get finding_data "type" (PStr "unknown") ;;
  severity_v <- PyAny.get finding_data "severity" (PStr "info") ;;
  description_v <- PyAny.get finding_data "description" (PStr "") ;;
  evidence_v <- PyAny.get finding_data "evidence" (PDict []) ;;
  recommendations_v <- PyAny.get finding_data "recommendations" (PList []) ;;
  match Finding.validate id timestamp target_v type_v severity_v
                         description_v evidence_v recommendations_v with
  | inl finding => Ok finding
  | inr refused => Raise (Exception (validation_message env refused))
  end.

(** One turn of [for finding_data in plugin_result["findings"]]: build the
    [Finding] and [add_finding] it.  The two readings of the clock stay
    when the construction raises. *)
Definition record_finding (plugin_name : string) (target : option string)
           (w : World.t) (finding_data : PyVal) : result unit * World.t :=
  match make_finding plugin_name target (World.clock w) finding_data with
  | Ok finding => (Ok tt, add_finding (clk env) finding (tick (tick w)))
  | Raise e => (Raise e, tick (tick w))
  end.

(** The turns of the loop, up to the first that raises. *)
Fixpoint record_each (plugin_name : string) (target : option string)
         (payloads : list PyVal) (w : World.t) : result unit * World.t :=
  match payloads with
  | [] => (Ok tt, w)
  | finding_data :: rest =>
      match record_finding plugin_name target w finding_data with
      | (Ok _, w) => record_each plugin_name target rest w
      | (Raise e, w) => (Raise e, w)
      end
  end.

(** [if "findings" in plugin_result: for finding_data in ...] *)
Definition record_findings (plugin_name : string) (target : option string)
           (plugin_result : PyDict) (w : World.t) : result unit * World.t :=
  match dict_get plugin_result "findings" with
  | Some findings =>
      match PyAny.iter findings with
      | Ok payloads => record_each plugin_name target payloads w
      | Raise e => (Raise e, w)
      end
  | None => (Ok tt, w)
  end.

(** [if "raw_result" in plugin_result: ...add_tool_execution(...)].  The
    arguments of [ToolExecution] are evaluated in the order written: the
    clock is read, then [str(raw_result)] and [str(plugin_result)] are
    computed, and either may raise. *)
Definition record_execution (plugin_name : string) (target : option string)
           (plugin_result : PyDict) (w : World.t) : result unit * World.t :=
  match dict_get plugin_result "raw_result" with
  | Some raw_result =>
      let timestamp := Clock.isoformat (clk env) (World.clock w) in
      let w := tick w in
      match py_str raw_result with
      | Ok command =>
          match py_str (PDict plugin_result) with
          | Ok output =>
              let execution :=
                ToolExecution.mk timestamp plugin_name command
                  (or_else target "") output
                  (if PyAny.truthy (get_or plugin_result "success" PNone)
                   then 0%Z else 1%Z)
                  0%Z in
              (Ok tt, add_tool_execution (clk env) execution w)
          | Raise e => (Raise e, w)
          end
      | Raise e => (Raise e, w)
      end
  | None => (Ok tt, w)
  end.

(** The result appended by the [except Exception] of the loop. *)
Definition failed_result (plugin_name : string) (e : exn) : PyDict :=
  [("success", PBool false); ("plugin", PStr plugin_name);
   ("error", PStr (str_of_exn e))].

(** The body of the [try] of the plugin loop: the call to [execute], the
    [results.append] and the two recordings.  It gives the results list
    as it stands when the body ends, and the exception that ended it, if
    any. *)
Definition try_plugin (plugin : BasePlugin.t) (context : RequestContext.t)
           (target : option string) (results : list PyDict) (w : World.t)
  : (list PyDict * option exn) * World.t :=
  match BasePlugin.execute plugin context with
  | Ok plugin_result =>
      let results := results ++ [plugin_result] in
      match record_findings (BasePlugin.name plugin) target plugin_result w with
      | (Ok _, w) =>
          match record_execution (BasePlugin.name plugin) target
                                 plugin_result w with
          | (Ok _, w) => ((results, None), w)
          | (Raise e, w) => ((results, Some e), w)
          end
      | (Raise e, w) => ((results, Some e), w)
      end
  | Raise e => ((results, Some e), w)
  end.

(** [for plugin in matching_plugins: try: ... except Exception: ...]: the
    handler appends a failed result and the loop goes on; an exception
    that is not an [Exception] ends the loop and leaves the method. *)
Fixpoint run_plugins (matching_plugins : list BasePlugin.t)
         (context : RequestContext.t) (target : option string)
         (results : list PyDict) (w : World.t)
  : result (list PyDict) * World.t :=
  match matching_plugins with
  | [] => (Ok results, w)
  | plugin :: rest =>
      match try_plugin plugin context target results w with
      | ((results, None), w) => run_plugins rest context target results w
      | ((results, Some e), w) =>
          if is_exception e then
            run_plugins rest context target
                        (results ++ [failed_result (BasePlugin.name plugin) e]) w
          else (Raise e, w)
      end
  end.

(** *** The four envelopes *)

Definition out_of_scope_envelope (error_msg target : string) : Envelope.t :=
  Envelope.mk false (Some error_msg) (Some (Some target))
              None None None None None None None None.

Definition confirmation_message : string :=
  "This action requires explicit confirmation. Please confirm to proceed.".

Definition requires_confirmation_envelope (query : string) : Envelope.t :=
  Envelope.mk false None None (Some true) (Some query)
              (Some confirmation_message) None None None None None.

Definition completed_envelope (query : string) (target : option string)
           (plugins_executed : list string) (results : list PyDict)
           (response llm_response : string) : Envelope.t :=
  Envelope.mk true None (Some target) None None None (Some query)
              (Some plugins_executed) (Some results) (Some response)
              (Some llm_response).

Definition error_envelope (error_msg query : string) : Envelope.t :=
  Envelope.mk false (Some error_msg) None None None None (Some query)
              None None None None.

(** *** [process_query] *)

(** [context], as built for a query with the session of [w] *)
Definition build_context (query : string) (target : option string)
           (w : World.t) : RequestContext.t :=
  RequestContext.mk query target
    (SessionMemory.findings (session_of w))
    (_extract_open_ports_from_memory w)
    (last_n 5 (SessionMemory.conversation_history (session_of w))).

(** The call to the language model for the planning text *)
Definition planning (query : string) (context : RequestContext.t)
           (w : World.t) : result string :=
  llm_generate env (_build_planning_prompt query context) (get_context w).

(** The world when the gates are reached: session ensured, query logged. *)
Definition entry (query : string) (w : World.t) : World.t :=
  add_conversation (clk env) "user" query (ensure_session (clk env) w).

(** "Find matching plugins" and "Execute plugins": the plugins selected,
    the list of results and the world after the loop. *)
Definition dispatch (query : string) (context : RequestContext.t)
           (target : option string) (w : World.t)
  : list BasePlugin.t * (result (list PyDict) * World.t) :=
  let matching_plugins :=
    filter (fun p => BasePlugin.matches p query) (plugins self) in
  (matching_plugins, run_plugins matching_plugins context target [] w).

(** The outer [except Exception]: the error is logged in the conversation
    and reported in the envelope; an exception that is not an [Exception]
    leaves the method. *)
Definition pipeline_failed (query : string) (e : exn) (w : World.t)
  : result Envelope.t * World.t :=
  if is_exception e then
    let error_msg := ("Error processing query: " ++ str_of_exn e)%string in
    let w := add_conversation (clk env) "assistant" error_msg w in
    (Ok (error_envelope error_msg query), w)
  else (Raise e, w).

(** From "Generate response summary" to the [return] of the [try], after
    a plugin loop that ran to its end; the exception that ended the loop
    otherwise reaches the outer handler. *)
Definition summarise (query : string) (target : option string)
           (llm_response : string)
           (dispatched : list BasePlugin.t * (result (list PyDict) * World.t))
  : result Envelope.t * World.t :=
  let '(matching_plugins, (results, w)) := dispatched in
  match results with
  | Ok results =>
      match _generate_response_summary w query results llm_response with
      | Ok response =>
          let w := add_conversation (clk env) "assistant" response w in
          match save_session (clk env) (disk_writable env) (json_dump env) w with
          | (Ok _, w) =>
              (Ok (completed_envelope query target
                     (map BasePlugin.name matching_plugins)
                     results response llm_response), w)
          | (Raise e, w) => pipeline_failed query e w
          end
      | Raise e => pipeline_failed query e w
      end
  | Raise e => pipeline_failed query e w
  end.

(** From "Build execution context" to the end: the planning call, the
    dispatch, the summary, under the outer [try]. *)
Definition plan_and_dispatch (query : string) (target : option string)
           (w : World.t) : result Envelope.t * World.t :=
  let context := build_context query target w in
  match planning query context w with
  | Ok llm_response =>
      summarise query target llm_response (dispatch query context target w)
  | Raise e => pipeline_failed query e w
  end.

(** From "Check for dangerous actions" on. *)
Definition safety_gate (query : string) (require_confirmation : option bool)
           (target : option string) (w : World.t)
  : result Envelope.t * World.t :=
  if _is_dangerous_action (safety (config self)) query
     && opt_or require_confirmation
               (Config.require_confirmation (safety (config self)))
  then (Ok (requires_confirmation_envelope query), w)
  else plan_and_dispatch query target w.

Definition process_query (query : string) (require_confirmation : option bool)
           (w : World.t) : result Envelope.t * World.t :=
  let w := entry query w in
  let target := _extract_target query in
  let proceed := safety_gate query require_confirmation target w in
  match target with
  | Some t =>
      if truthy target then
        match _check_scope (scope (config self)) t with
        | Ok true => proceed
        | Ok false =>
            let error_msg := ("Target " ++ t ++ " is out of scope")%string in
            let w := add_conversation (clk env) "assistant"
                                      ("Error: " ++ error_msg)%string w in
            (Ok (out_of_scope_envelope error_msg t), w)
        | Raise e => (Raise e, w)
        end
      else proceed
  | None => proceed
  end.

End Pipeline.

End Agent.

(** ** Vocabulary of the specification

    The notions the claims are stated with: strings, blocks of addresses,
    tokens and literals are defined without reference to the code; the
    last sections name the stages of the pipeline and what a well-formed
    payload is. *)
Module Spec.
Import PyStr.

(** [s] ends with [suf]. *)
Definition ends_with (s suf : string) : Prop :=
  exists p, s = (p ++ suf)%string.

(** [k] occurs in [s] as a substring. *)
Definition occurs (k s : string) : Prop :=
  exists pre post, s = (pre ++ k ++ post)%string.

(** [k] occurs in [s] when letter case is ignored on both sides. *)
Definition occurs_ignoring_case (k s : string) : Prop :=
  occurs (lower k) (lower s).

(** *** Networks as blocks of addresses *)
Section Blocks.
Import IpAddress.
Local Open Scope Z_scope.







End Blocks.

(** *** Tokens in a text

    [P prev m rest] says that the word [m], standing after the character
    [prev] and before the text [rest], is a token. *)
Section Tokens.
Variable P : option N -> Unicode.text -> Unicode.text -> Prop.

(** A token [m] stands in [q] at offset [i]. *)
Definition token_at (q : Unicode.text) (i : nat) (m : Unicode.text) : Prop :=
  exists pre post,
    q = pre ++ m ++ post /\ length pre = i /\ P (Re.last_of None pre) m post.

(** [m] is the first token of [q]: it stands at the leftmost offset where
    a token starts, and no token that starts there is longer. *)
Definition first_token (q : Unicode.text) (m : Unicode.text) : Prop :=
  exists i,
    token_at q i m /\
    forall j m', token_at q j m' ->
                 i <= j /\ (j = i -> length m' <= length m).

(** [Tokens prev s ms]: [ms] is the left-to-right tokenisation of [s]
    (which stands after [prev]): each token is the longest one at the
    leftmost offset where a token starts, and the search resumes where it
    ended. *)
Inductive Tokens : option N -> Unicode.text -> list Unicode.text -> Prop :=
| TokensNone p s :
    (forall gap m rest, s = gap ++ m ++ rest -> ~ P (Re.last_of p gap) m rest) ->
    Tokens p s []
| TokensHit p gap m rest ms :
    m <> [] ->
    P (Re.last_of p gap) m rest ->
    (forall gap' m' rest',
        gap ++ m ++ rest = gap' ++ m' ++ rest' ->
        length gap' < length gap -> ~ P (Re.last_of p gap') m' rest') ->
    (forall m' rest',
        m ++ rest = m' ++ rest' ->
        P (Re.last_of p gap) m' rest' -> length m' <= length m) ->
    Tokens (Re.last_of (Re.last_of p gap) m) rest ms ->
    Tokens p (gap ++ m ++ rest) (m :: ms).

End Tokens.

(** *** The two kinds of literal the extractor looks for *)

Definition all_chars (cls : N -> bool) (w : Unicode.text) : Prop :=
  Forall (fun c => cls c = true) w.

(** The code points of the dot, the slash, the hyphen and the colon *)
Definition dot : N := 46.
Definition slash : N := 47.
Definition hyphen : N := 45.

(** ASCII letters, ASCII letters and digits, and the characters inside a
    label *)
Definition letter (c : N) : bool :=
  Unicode.between 97 122 c || Unicode.between 65 90 c.
Definition alphanumeric (c : N) : bool := letter c || Unicode.between 48 57 c.
Definition label_char (c : N) : bool := alphanumeric c || (c =? hyphen)%N.

(** One to three digits, where a digit is a decimal digit of any script
    (what [\d] matches in a [str] pattern) *)
Definition octet_shaped (o : Unicode.text) : Prop :=
  all_chars Re.is_digit o /\ 1 <= length o <= 3.

(** Nothing, or a slash and one or two digits *)
Definition prefix_suffix_shaped (sfx : Unicode.text) : Prop :=
  sfx = [] \/
  exists d, sfx = slash :: d /\ all_chars Re.is_digit d /\ 1 <= length d <= 2.

(** Four dot-separated groups of one to three digits, then an optional
    [/prefix] *)
Definition ipv4_shaped (w : Unicode.text) : Prop :=
  exists o1 o2 o3 o4 sfx,
    w = (o1 ++ [dot]) ++ (o2 ++ [dot]) ++ (o3 ++ [dot]) ++ o4 ++ sfx /\
    octet_shaped o1 /\ octet_shaped o2 /\ octet_shaped o3 /\ octet_shaped o4 /\
    prefix_suffix_shaped sfx.

(** A label: one letter or digit, or up to 63 characters that begin and
    end with a letter or digit and have letters, digits and hyphens
    between. *)
Definition label_shaped (l : Unicode.text) : Prop :=
  exists c1 tail,
    l = c1 :: tail /\ alphanumeric c1 = true /\
    (tail = [] \/
     exists mid c2, tail = mid ++ [c2] /\ all_chars label_char mid /\
                    length mid <= 61 /\ alphanumeric c2 = true).

(** A chain of one or more labels, each followed by a dot, then a
    top-level name of two or more letters. *)
Definition domain_shaped (w : Unicode.text) : Prop :=
  exists labels tld,
    labels <> [] /\ Forall label_shaped labels /\
    w = concat (map (fun l => l ++ [dot]) labels) ++ tld /\
    all_chars letter tld /\ 2 <= length tld.

(** A word of a given shape that stands between two word boundaries (a
    word character is an alphanumeric code point of any script or the
    underscore, what [\w] matches in a [str] pattern). *)
Definition bounded (shape : Unicode.text -> Prop)
           (prev : option N) (m rest : Unicode.text) : Prop :=
  Re.is_boundary prev (m ++ rest) = true /\
  shape m /\
  Re.is_boundary (Re.last_of prev m) rest = true.

Definition ipv4_literal := bounded ipv4_shaped.
Definition domain_literal := bounded domain_shaped.

(** The dotted quad of the specification: four dot-separated groups of
    one to three of the digits 0 to 9, then an optional [/prefix] of one
    or two of them. *)
Definition ascii_digit (c : N) : bool := Unicode.between 48 57 c.

Definition ascii_ipv4_shaped (w : Unicode.text) : Prop :=
  ipv4_shaped w /\ all_chars (fun c => ascii_digit c || (c =? dot)%N || (c =? slash)%N) w.

Definition ascii_ipv4_literal := bounded ascii_ipv4_shaped.


(** The findings and tool executions of the current session (none when no
    session is open). *)
Definition findings_of (w : World.t) : list Finding.t :=
  match World.current_session w with
  | Some s => SessionMemory.findings s
  | None => []
  end.

Definition executions_of (w : World.t) : list ToolExecution.t :=
  match World.current_session w with
  | Some s => SessionMemory.tool_executions s
  | None => []
  end.

Section Gates.
Import Config Scope Agent.
Variable env : Collaborators.
Variable self : Agent.t.

(** The scope gate lets the query through: no target was extracted, or
    the scope check answered true. *)
Definition scope_gate_open (query : string) : Prop :=
  match _extract_target query with
  | Some t =>
      truthy (Some t) = true -> _check_scope (scope (config self)) t = Ok true
  | None => True
  end.

(** Confirmation is required: by the per-call override, else by the
    configuration. *)
Definition confirmation_required (require_confirmation : option bool) : bool :=
  opt_or require_confirmation
         (Config.require_confirmation (safety (config self))).

(** The safety gate lets the query through. *)
Definition safety_gate_open (query : string) (require_confirmation : option bool) : Prop :=
  _is_dangerous_action (safety (config self)) query
  && confirmation_required require_confirmation = false.

(** The planning call, as [process_query] makes it, returned [resp]. *)
Definition planning_returns (query : string) (w : World.t) (resp : string) : Prop :=
  planning env query
           (build_context query (_extract_target query) (entry env query w))
           (entry env query w) = Ok resp.


(** [f] is the [Finding] the recorder builds from a payload, at some
    reading of the clock. *)
Definition built_from (target : option string) (np : string * PyVal)
           (f : Finding.t) : Prop :=
  exists c, make_finding env (fst np) target c (snd np) = Ok f.

(** The exception, if any, with which the recorder refuses a payload (it
    does not depend on the clock nor on the name of the plugin). *)
Definition payload_error (target : option string) (fd : PyVal) : option exn :=
  match make_finding env "" target 0 fd with
  | Ok _ => None
  | Raise e => Some e
  end.

(** The payloads before the first that the recorder refuses, and the
    exception of that one. *)
Fixpoint accepted_prefix (target : option string) (payloads : list PyVal)
  : list PyVal * option exn :=
  match payloads with
  | [] => ([], None)
  | fd :: rest =>
      match payload_error target fd with
      | Some e => ([], Some e)
      | None => let (l, e) := accepted_prefix target rest in (fd :: l, e)
      end
  end.

(** What recording the findings of a result [r] comes to: the payloads
    recorded, and the exception that ended the recording, if any. *)
Definition recording_of (target : option string) (r : PyDict)
  : list PyVal * option exn :=
  match dict_get r "findings" with
  | Some findings =>
      match PyAny.iter findings with
      | Ok payloads => accepted_prefix target payloads
      | Raise e => ([], Some e)
      end
  | None => ([], None)
  end.

(** The exception, if any, with which the text of a value is refused. *)
Definition str_error (v : PyVal) : option exn :=
  match py_str env v with
  | Ok _ => None
  | Raise e => Some e
  end.

(** The exception, if any, that ends the logging of the tool execution of
    a result [r]: the text of its raw result is computed, then the text
    of [r] itself. *)
Definition logging_error (r : PyDict) : option exn :=
  match dict_get r "raw_result" with
  | Some raw_result =>
      match str_error raw_result with
      | Some e => Some e
      | None => str_error (PDict r)
      end
  | None => None
  end.

(** The exception, if any, that ends the two recordings of a returned
    result [r]: the findings come first. *)
Definition recording_error (target : option string) (r : PyDict) : option exn :=
  match snd (recording_of target r) with
  | Some e => Some e
  | None => logging_error r
  end.

(** The exception, if any, that ends the turn of a selected plugin. *)
Definition turn_error (context : RequestContext.t) (target : option string)
           (p : BasePlugin.t) : option exn :=
  match BasePlugin.execute p context with
  | Ok r => recording_error target r
  | Raise e => Some e
  end.

(** The exception, if any, with which the turn of a selected plugin
    leaves the loop: one that is not an [Exception]. *)
Definition interrupt_of (context : RequestContext.t) (target : option string)
           (p : BasePlugin.t) : option exn :=
  match turn_error context target p with
  | Some e => if is_exception e then None else Some e
  | None => None
  end.

(** The selected plugins whose turn comes (all of them, unless a turn
    leaves the loop), and the exception that leaves the loop, if any. *)
Fixpoint turns (context : RequestContext.t) (target : option string)
         (ps : list BasePlugin.t) : list BasePlugin.t * option exn :=
  match ps with
  | [] => ([], None)
  | p :: rest =>
      match interrupt_of context target p with
      | Some e => ([p], Some e)
      | None => let (l, e) := turns context target rest in (p :: l, e)
      end
  end.

(** The entries a selected plugin leaves in the results list: the result
    it returned, followed by a failed result when recording that result
    raised; or the failed result alone when [execute] raised. *)
Definition entries_of (context : RequestContext.t) (target : option string)
           (p : BasePlugin.t) : list PyDict :=
  match BasePlugin.execute p context with
  | Ok r =>
      r :: match recording_error target r with
           | Some e => [failed_result (BasePlugin.name p) e]
           | None => []
           end
  | Raise e => [failed_result (BasePlugin.name p) e]
  end.

(** The payloads of a selected plugin that are recorded, each with the
    name of the plugin. *)
Definition payloads_of (context : RequestContext.t) (target : option string)
           (p : BasePlugin.t) : list (string * PyVal) :=
  match BasePlugin.execute p context with
  | Ok r => map (pair (BasePlugin.name p)) (fst (recording_of target r))
  | Raise _ => []
  end.

End Gates.

(** *** Payloads the [Finding] model accepts *)

Definition is_string (v : PyVal) : bool :=
  match v with PStr _ => true | _ => false end.

Definition is_dictionary (v : PyVal) : bool :=
  match v with PDict _ => true | _ => false end.

Definition is_string_list (v : PyVal) : bool :=
  match v with PList l => forallb is_string l | _ => false end.

(** A payload is well formed when it is a dictionary in which, where the
    key is present, the type, the severity and the description are
    strings, the evidence is a dictionary and the recommendations are a
    list of strings; its target has to be a string only when the pipeline
    extracted none. *)
Definition well_formed_fields (target : option string) (d : PyDict) : bool :=
  (truthy target || is_string (get_or d "target" (PStr "")))
  && is_string (get_or d "type" (PStr "unknown"))
  && is_string (get_or d "severity" (PStr "info"))
  && is_string (get_or d "description" (PStr ""))
  && is_dictionary (get_or d "evidence" (PDict []))
  && is_string_list (get_or d "recommendations" (PList [])).

Definition well_formed_payload (target : option string) (fd : PyVal) : bool :=
  match fd with
  | PDict d => well_formed_fields target d
  | _ => false
  end.

(** A result is well formed when its findings, if it has any, are a list
    of well-formed payloads. *)
Definition well_formed_result (target : option string) (r : PyDict) : bool :=
  match dict_get r "findings" with
  | None => true
  | Some (PList payloads) => forallb (well_formed_payload target) payloads
  | Some _ => false
  end.

(** The payloads a result lists. *)
Definition declared_payloads (r : PyDict) : list PyVal :=
  match dict_get r "findings" with
  | Some (PList payloads) => payloads
  | _ => []
  end.


End Spec.

(** ** Scenarios

    Concrete collaborators, configurations and plugins on which the
    theorems are instantiated. *)
Module Scenario.
Import PyStr Config MemoryManager Agent.

Definition clk0 : Clock.t :=
  Clock.mk (fun n => "T" ++ str_of_nat n)%string str_of_nat str_of_nat.

(** The language model answers "plan" and never fails; every value has
    a text (left empty); the validation error names the fields that were
    refused; the disk is writable and a session is written in full (by
    its id, for a text). *)
Definition env0 : Collaborators :=
  mkCollaborators clk0 (fun _ _ => Ok "plan") (fun _ => Ok "")
    (fun refused => ("invalid Finding: " ++ join ", " (map fst refused))%string)
    true (fun s => (SessionMemory.session_id s, None)).

(** No session yet, the clock at zero, an empty store. *)
Definition w0 : World.t := World.mk None 0 [].

(** A scan that finds no open port. *)
Definition no_ports : PyDict :=
  [("success", PBool true); ("open_ports", PList [])].

Definition nmap0 : NmapWrapper.t :=
  NmapWrapper.mk (fun _ => Ok no_ports) (fun _ => Ok no_ports)
                 (fun _ => Ok no_ports).

(** The scope rules of the specification's scenarios, with the default
    safety settings (keywords exploit, payload, inject; confirmation on). *)
Definition cfg_lab : OrchestratorConfig :=
  mkOrchestratorConfig (mkScopeConfig ["192.168.1.0/24"] [] true) default_safety.

(** Strict mode with both allow-lists empty. *)
Definition cfg_closed : OrchestratorConfig :=
  mkOrchestratorConfig (mkScopeConfig [] [] true) default_safety.

Definition agent_lab : Agent.t := Agent.mk cfg_lab [NmapPlugin.plugin nmap0].
Definition agent_closed : Agent.t := Agent.mk cfg_closed [NmapPlugin.plugin nmap0].


Definition web_payload : PyVal :=
  PDict [("type", PStr "web_vulnerability"); ("target", PStr "http://10.0.0.1");
         ("description", PStr "XSS")].

Definition web_result : PyDict :=
  [("success", PBool true); ("plugin", PStr "web_vuln");
   ("findings", PList [web_payload])].

Definition reporting_plugin : BasePlugin.t :=
  BasePlugin.mk "web_vuln" (fun _ => true) (fun _ => Ok web_result).







(** A plugin that returns normally, with its findings given as a list of
    strings. *)
Definition text_findings_result : PyDict :=
  [("success", PBool true); ("plugin", PStr "notes");
   ("findings", PList [PStr "XSS"])].

Definition text_findings_plugin : BasePlugin.t :=
  BasePlugin.mk "notes" (fun _ => true) (fun _ => Ok text_findings_result).

Definition agent_text_findings : Agent.t :=
  Agent.mk cfg_closed [text_findings_plugin].

(** A plugin whose [execute] is interrupted from the keyboard, registered
    before the plugin that reports one finding. *)
Definition interrupted_plugin : BasePlugin.t :=
  BasePlugin.mk "stopper" (fun _ => true) (fun _ => Raise KeyboardInterrupt).

Definition agent_interrupted : Agent.t :=
  Agent.mk cfg_closed [interrupted_plugin; reporting_plugin].

(** [str()] refuses an integer of more than 4300 digits. *)
Definition digits_limit : string :=
  "Exceeds the limit (4300 digits) for integer string conversion; use sys.set_int_max_str_digits() to increase the limit".

Definition env_digits : Collaborators :=
  mkCollaborators clk0 (fun _ _ => Ok "plan")
    (fun v => match v with
              | PInt z => if (Z.abs z <? 10 ^ 4300)%Z then Ok ""
                          else Raise (Exception digits_limit)
              | _ => Ok ""
              end)
    (fun refused => ("invalid Finding: " ++ join ", " (map fst refused))%string)
    true (fun s => (SessionMemory.session_id s, None)).

(** A plugin that returns normally, without findings, with a raw result
    that is an integer of 4301 digits. *)
Definition long_integer_result : PyDict :=
  [("success", PBool true); ("plugin", PStr "counter");
   ("raw_result", PInt (10 ^ 4300))].

Definition long_integer_plugin : BasePlugin.t :=
  BasePlugin.mk "counter" (fun _ => true) (fun _ => Ok long_integer_result).

Definition agent_long_integer : Agent.t :=
  Agent.mk cfg_closed [long_integer_plugin].

End Scenario.

(* ================================================================== *)
(** * Part I, continued — the code around the pipeline

    The tool wrappers and the client they call, the two other built-in
    plugins and their registry, the session store, the query step of the
    command line and the choice of the language model; then the
    vocabulary of the further properties of Part II. *)
(* ================================================================== *)

(** ** More of what the interpreter does with a value of type [Any] *)
Module PyValue.
Import PyStr.

(** [v == n] for an integer [n]: [True] is [1], [False] is [0], a float is
    compared by its exact value. *)
Definition eq_int (v : PyVal) (n : Z) : bool :=
  match v with
  | PBool b => ((if b then 1 else 0) =? n)%Z
  | PInt z => (z =? n)%Z
  | PFloat m e =>
      if (0 <=? e)%Z then (m * 2 ^ e =? n)%Z else (m =? n * 2 ^ (- e))%Z
  | _ => false
  end.

(** [v == s] for a string [s] *)
Definition eq_str (v : PyVal) (s : string) : bool :=
  match v with
  | PStr s' => (s' =? s)%string
  | _ => false
  end.

(** [v.lower()]; [AttributeError] when [v] is not a string. *)
Definition lower_of (v : PyVal) : result string :=
  match v with
  | PStr s => Ok (lower s)
  | _ => Raise (Exception ("'" ++ PyAny.type_name v
                               ++ "' object has no attribute 'lower'"))
  end.

(** [d[key] = value]: the key keeps its place when it is there, and is
    added at the end when it is not. *)
Fixpoint dict_set (d : PyDict) (key : string) (value : PyVal) : PyDict :=
  match d with
  | [] => [(key, value)]
  | (k, v) :: d' =>
      if (k =? key)%string then (k, value) :: d'
      else (k, v) :: dict_set d' key value
  end.

End PyValue.

(** ** Sets of hashable values *)
Module PySet.

(** The number a numeric value stands for, as a mantissa and a binary
    exponent. *)
Definition numeric (v : PyVal) : option (Z * Z) :=
  match v with
  | PBool b => Some ((if b then 1 else 0)%Z, 0%Z)
  | PInt z => Some (z, 0%Z)
  | PFloat m e => Some (m, e)
  | _ => None
  end.

(** [a == b] for two hashable values: numbers by their value, strings by
    their text, [None] with itself. *)
Definition key_eq (a b : PyVal) : bool :=
  match numeric a, numeric b with
  | Some (m1, e1), Some (m2, e2) =>
      let k := Z.min e1 e2 in
      (m1 * 2 ^ (e1 - k) =? m2 * 2 ^ (e2 - k))%Z
  | None, None =>
      match a, b with
      | PStr s, PStr s' => (s =? s')%string
      | PNone, PNone => true
      | _, _ => false
      end
  | _, _ => false
  end.

(** [key in seen]; [TypeError] when the key cannot be hashed. *)
Definition contains (key : PyVal) (seen : list PyVal) : result bool :=
  match key with
  | PList _ | PDict _ =>
      Raise (Exception ("unhashable type: '" ++ PyAny.type_name key ++ "'"))
  | _ => Ok (existsb (key_eq key) seen)
  end.

End PySet.

(** ** The hexstrike-ai client ([hexstrike_client.py]) *)
Module HexstrikeClient.
(** [execute_tool(tool_name, parameters)]: the answer of the server, any
    JSON value, or the exception the call raises.  The answer is taken as
    a function of the request. *)
Record t : Type := mk {
  execute_tool : string -> PyDict -> result PyVal
}.
End HexstrikeClient.

(** ** The Nmap wrapper ([tools/nmap_wrapper.py]) *)
Module NmapTool.
Import PyStr PyValue Agent.

(** What [json.loads] does with a text: it returns a value, or raises a
    [JSONDecodeError], or raises an exception of another class (a
    [RecursionError] on a deep nesting, a plain [ValueError] on an
    integer of too many digits). *)
Inductive loaded : Type :=
| Loaded (v : PyVal)
| JSONDecodeError
| LoadRaised (e : exn).

Section WithClient.
Variable hexstrike : HexstrikeClient.t.
Variable json_loads : string -> loaded.

(** [[p for p in ports if p.get("state") == "open"]] *)
Fixpoint open_only (ports : list PyVal) : result (list PyVal) :=
  match ports with
  | [] => Ok []
  | p :: rest =>
      state <- PyAny.get p "state" PNone ;;
      kept <- open_only rest ;;
      Ok (if eq_str state "open" then p :: kept else kept)
  end.

(** The [except json.JSONDecodeError] clause answers a text that is not
    JSON; another exception of [json.loads] leaves the method. *)
Definition _parse_nmap_output (raw_output : PyVal) : result PyDict :=
  match (match raw_output with
         | PStr text => json_loads text
         | _ => Loaded raw_output
         end) with
  | JSONDecodeError =>
      Ok [("success", PBool true); ("raw_output", raw_output);
          ("open_ports", PList [])]
  | LoadRaised e => Raise e
  | Loaded raw_output =>
      success <- PyAny.get raw_output "success" (PBool true) ;;
      target <- PyAny.get raw_output "target" (PStr "") ;;
      scan_stats <- PyAny.get raw_output "scan_stats" (PDict []) ;;
      match raw_output with
      | PDict d =>
          open_ports <-
            match dict_get d "open_ports", dict_get d "ports" with
            | Some open_ports, _ => Ok open_ports
            | None, Some ports =>
                ports <- PyAny.iter ports ;;
                kept <- open_only ports ;;
                Ok (PList kept)
            | None, None => Ok (PList [])
            end ;;
          Ok ([("success", success); ("target", target);
               ("open_ports", open_ports); ("scan_stats", scan_stats)]
              ++ match dict_get d "hosts" with
                 | Some hosts => [("hosts", hosts)]
                 | None => []
                 end
              ++ [("raw_output", raw_output)])
      | _ =>
          (* not reached: [get] has raised *)
          Raise (Exception ("'" ++ PyAny.type_name raw_output
                                ++ "' object has no attribute 'get'"))
      end
  end.

(** The parameters [scan] sends. *)
Definition scan_params (target : string) (ports : option string) (scan_type : string)
           (service_detection version_detection : bool) : PyDict :=
  [("target", PStr target)]
  ++ (if truthy ports then [("ports", PStr (or_else ports ""))] else [])
  ++ (if negb (scan_type =? "")%string then [("scan_type", PStr scan_type)] else [])
  ++ (if service_detection || version_detection
      then [("service_detection", PBool true)] else []).

(** What [scan] returns when the call or the parsing raised. *)
Definition scan_failure (target : string) (e : exn) : PyDict :=
  [("success", PBool false); ("error", PStr (str_of_exn e));
   ("target", PStr target); ("open_ports", PList [])].

Definition scan (target : string) (ports : option string) (scan_type : string)
           (service_detection version_detection : bool) : result PyDict :=
  let params := scan_params target ports scan_type
                            service_detection version_detection in
  try_except
    (result_ <- HexstrikeClient.execute_tool hexstrike "nmap" params ;;
     _parse_nmap_output result_)
    (fun e => Ok (scan_failure target e)).

Definition quick_scan (target : string) : result PyDict :=
  scan target (Some "1-1000") "syn" true true.

Definition full_scan (target : string) : result PyDict :=
  scan target (Some "1-65535") "syn" true true.

Definition http_port_numbers : list Z := [80; 443; 8080; 8443; 8000; 8888]%Z.

(** The test of the loop of [scan_http_services] *)
Definition is_http (port_info : PyVal) : result bool :=
  service <- PyAny.get port_info "service" (PStr "") ;;
  service <- lower_of service ;;
  if contains "http" service then Ok true
  else
    port <- PyAny.get port_info "port" PNone ;;
    Ok (existsb (eq_int port) http_port_numbers).

Fixpoint http_only (ports : list PyVal) : result (list PyVal) :=
  match ports with
  | [] => Ok []
  | port_info :: rest =>
      keep <- is_http port_info ;;
      http_ports <- http_only rest ;;
      Ok (if keep then port_info :: http_ports else http_ports)
  end.

Definition scan_http_services (target : string) : result PyDict :=
  result_ <- scan target (Some "80,443,8080,8443,8000,8888") "syn" true true ;;
  match dict_get result_ "open_ports" with
  | Some open_ports =>
      ports <- PyAny.iter open_ports ;;
      http_ports <- http_only ports ;;
      Ok (dict_set result_ "open_ports" (PList http_ports))
  | None => Ok result_
  end.

(** The wrapper as the plugin sees it. *)
Definition wrapper : NmapWrapper.t :=
  NmapWrapper.mk quick_scan full_scan scan_http_services.

End WithClient.
End NmapTool.

(** ** The web tools ([tools/web_tools.py]) *)
Module WebToolsWrapper.
Import PyStr PyValue Agent.

(** [s.replace(old, "")] for a non-empty [old]: the occurrences of [old]
    are dropped from left to right; [skip] counts the characters of an
    occurrence still to drop. *)
Fixpoint remove_from (old : string) (skip : nat) (s : string) : string :=
  match s with
  | EmptyString => EmptyString
  | String c s' =>
      match skip with
      | S k => remove_from old k s'
      | O =>
          if prefix old s then remove_from old (String.length old - 1) s'
          else String c (remove_from old 0 s')
      end
  end.

Definition remove (old s : string) : string := remove_from old 0 s.

Section WithClient.
Variable hexstrike : HexstrikeClient.t.

Definition _parse_nikto_output (raw_output : PyVal) : result PyDict :=
  success <- PyAny.get raw_output "success" (PBool true) ;;
  target <- PyAny.get raw_output "target" (PStr "") ;;
  match raw_output with
  | PDict d =>
      let findings :=
        match dict_get d "findings", dict_get d "vulnerabilities" with
        | Some findings, _ => findings
        | None, Some vulnerabilities => vulnerabilities
        | None, None => PList []
        end in
      Ok [("success", success); ("target", target); ("findings", findings);
          ("raw_output", raw_output)]
  | _ =>
      (* not reached: [get] has raised *)
      Raise (Exception ("'" ++ PyAny.type_name raw_output
                            ++ "' object has no attribute 'get'"))
  end.

Definition _parse_nuclei_output (raw_output : PyVal) : result PyDict :=
  success <- PyAny.get raw_output "success" (PBool true) ;;
  target <- PyAny.get raw_output "target" (PStr "") ;;
  match raw_output with
  | PDict d =>
      let findings :=
        match dict_get d "matches", dict_get d "results", dict_get d "findings" with
        | Some matches, _, _ => matches
        | None, Some results, _ => results
        | None, None, Some findings => findings
        | None, None, None => PList []
        end in
      Ok [("success", success); ("target", target); ("findings", findings);
          ("raw_output", raw_output)]
  | _ =>
      (* not reached: [get] has raised *)
      Raise (Exception ("'" ++ PyAny.type_name raw_output
                            ++ "' object has no attribute 'get'"))
  end.

(** What a scan returns when the call or the parsing raised. *)
Definition tool_failure (target : string) (e : exn) : PyDict :=
  [("success", PBool false); ("error", PStr (str_of_exn e));
   ("target", PStr target); ("findings", PList [])].

Definition nikto_scan (target : string) (port : Z) (ssl : bool)
  : result PyDict :=
  let params := [("target", PStr target); ("port", PInt port); ("ssl", PBool ssl)] in
  try_except
    (result_ <- HexstrikeClient.execute_tool hexstrike "nikto" params ;;
     _parse_nikto_output result_)
    (fun e => Ok (tool_failure target e)).

Definition nuclei_scan (target : string) (templates : option (list string))
  : result PyDict :=
  let params :=
    [("target", PStr target)]
    ++ match templates with
       | Some (t :: ts) => [("templates", PList (map PStr (t :: ts)))]
       | _ => []
       end in
  try_except
    (result_ <- HexstrikeClient.execute_tool hexstrike "nuclei" params ;;
     _parse_nuclei_output result_)
    (fun e => Ok (tool_failure target e)).

(** [results["findings"].extend(scan["findings"])], when the key is there *)
Definition findings_to_extend (scan : PyDict) : result (list PyVal) :=
  match dict_get scan "findings" with
  | Some findings => PyAny.iter findings
  | None => Ok []
  end.

Definition quick_web_scan (target : string) : result PyDict :=
  let '(url, ssl, port) :=
    if prefix "https://" target then (target, true, 443%Z)
    else if prefix "http://" target then (target, false, 80%Z)
         else (("http://" ++ target)%string, false, 80%Z) in
  nikto <- nikto_scan (remove "https://" (remove "http://" target)) port ssl ;;
  nuclei <- nuclei_scan url (Some ["cves"; "vulnerabilities"; "exposures"]) ;;
  from_nikto <- findings_to_extend nikto ;;
  from_nuclei <- findings_to_extend nuclei ;;
  Ok [("target", PStr target); ("nikto", PDict nikto); ("nuclei", PDict nuclei);
      ("findings", PList (from_nikto ++ from_nuclei))].

End WithClient.
End WebToolsWrapper.

(** ** The web plugin ([plugins/web_vuln_plugin.py]) *)
Module WebVulnPlugin.
Import PyStr PyValue WebToolsWrapper.

Definition name : string := "web_vuln".

Definition web_keywords : list string :=
  ["web"; "http"; "https"; "website"; "nikto"; "nuclei"; "web vuln";
   "web vulnerability"; "web scan"].

Definition matches (query : string) : bool :=
  let query_lower := lower query in
  existsb (fun keyword => contains keyword query_lower) web_keywords.

(** [for port_info in open_ports: if port_info.get("port", 0) == 443: ...] *)
Definition use_https (open_ports : list OpenPort.t) : bool :=
  existsb (fun port_info => eq_int (OpenPort.port port_info) 443) open_ports.

(** The payload appended for one finding of the scan *)
Definition web_finding (target : string) (finding : PyVal) : result PyVal :=
  severity <- PyAny.get finding "severity" (PStr "medium") ;;
  name_ <- PyAny.get finding "name" (PStr "") ;;
  description <- PyAny.get finding "description" name_ ;;
  Ok (PDict [("type", PStr "web_vulnerability"); ("target", PStr target);
             ("severity", severity); ("description", description);
             ("evidence", finding)]).

Fixpoint web_findings (target : string) (found : list PyVal)
  : result (list PyVal) :=
  match found with
  | [] => Ok []
  | finding :: rest =>
      payload <- web_finding target finding ;;
      payloads <- web_findings target rest ;;
      Ok (payload :: payloads)
  end.

Definition execute (hexstrike : HexstrikeClient.t) (context : RequestContext.t)
  : result PyDict :=
  let target := or_else (RequestContext.target context) "" in
  if (target =? "")%string then
    Ok [("success", PBool false); ("error", PStr "No target specified")]
  else
    let target :=
      if prefix "http://" target || prefix "https://" target then target
      else ((if use_https (RequestContext.open_ports context)
             then "https" else "http") ++ "://" ++ target)%string in
    result_ <- quick_web_scan hexstrike target ;;
    findings <-
      (found <- PyAny.iter (get_or result_ "findings" (PList [])) ;;
       web_findings target found) ;;
    Ok [("success", get_or result_ "success" (PBool true));
        ("plugin", PStr name);
        ("target", PStr target);
        ("findings", PList findings);
        ("nikto_results", get_or result_ "nikto" (PDict []));
        ("nuclei_results", get_or result_ "nuclei" (PDict []));
        ("raw_result", PDict result_)].

Definition plugin (hexstrike : HexstrikeClient.t) : BasePlugin.t :=
  BasePlugin.mk name matches (execute hexstrike).

End WebVulnPlugin.

(** ** The Metasploit wrapper ([tools/metasploit_wrapper.py]) *)
Module MetasploitWrapper.
Import PyStr PyValue.

Section WithClient.
Variable hexstrike : HexstrikeClient.t.

Definition search_modules (search_term : string) (module_type : option string)
  : result PyVal :=
  let params :=
    [("search", PStr search_term)]
    ++ (if truthy module_type then [("type", PStr (or_else module_type ""))]
        else []) in
  try_except
    (result_ <- HexstrikeClient.execute_tool hexstrike "metasploit"
                  (("action", PStr "search") :: params) ;;
     Ok match result_ with
        | PDict d =>
            match dict_get d "modules" with
            | Some modules => modules
            | None => PList []
            end
        | PList l => PList l
        | _ => PList []
        end)
    (fun _ => Ok (PList [])).

(** [module.get("fullname") or module.get("path", "")] *)
Definition module_path (module : PyVal) : result PyVal :=
  fullname <- PyAny.get module "fullname" PNone ;;
  if PyAny.truthy fullname then Ok fullname
  else PyAny.get module "path" (PStr "").

(** The loop that keeps the first module of each path; [seen] holds the
    paths met so far. *)
Fixpoint unique_modules (modules : list PyVal) (seen : list PyVal)
  : result (list PyVal) :=
  match modules with
  | [] => Ok []
  | module :: rest =>
      path <- module_path module ;;
      if PyAny.truthy path then
        met <- PySet.contains path seen ;;
        if met then unique_modules rest seen
        else
          kept <- unique_modules rest (path :: seen) ;;
          Ok (module :: kept)
      else unique_modules rest seen
  end.

(** [for term in search_terms: all_modules.extend(search_modules(term, "exploit"))] *)
Fixpoint all_modules (search_terms : list string) : result (list PyVal) :=
  match search_terms with
  | [] => Ok []
  | term :: rest =>
      found <- search_modules term (Some "exploit") ;;
      modules <- PyAny.iter found ;;
      more <- all_modules rest ;;
      Ok (modules ++ more)
  end.

Definition suggest_exploits (service : string) (version : option string)
  : result (list PyVal) :=
  let search_terms :=
    [service]
    ++ (if truthy version then [(service ++ " " ++ or_else version "")%string]
        else []) in
  modules <- all_modules search_terms ;;
  unique_modules modules [].

End WithClient.
End MetasploitWrapper.

(** ** The Metasploit plugin ([plugins/metasploit_plugin.py]) *)
Module MetasploitPlugin.
Import PyStr PyValue MetasploitWrapper.

Definition name : string := "metasploit".

Definition metasploit_keywords : list string :=
  ["exploit"; "metasploit"; "msf"; "vulnerability"; "cve"; "eternalblue";
   "suggest exploit"].

Definition matches (query : string) : bool :=
  let query_lower := lower query in
  existsb (fun keyword => contains keyword query_lower) metasploit_keywords.

(** [for port_info in open_ports: services.add(port_info["service"].lower())]:
    the names in the order they are added.  (The loop over the findings
    adds nothing: a dumped [Finding] has no key [service].) *)
Fixpoint service_names (open_ports : list OpenPort.t) : result (list string) :=
  match open_ports with
  | [] => Ok []
  | port_info :: rest =>
      service <- lower_of (OpenPort.service port_info) ;;
      services <- service_names rest ;;
      Ok (service :: services)
  end.

Section WithClient.
Variable hexstrike : HexstrikeClient.t.
(** The order in which a set of strings is iterated, given the strings in
    the order they were added. *)
Variable iteration : list string -> list string.

(** [for service in services: suggested_exploits.extend(suggest_exploits(service))] *)
Fixpoint exploits_for (services : list string) : result (list PyVal) :=
  match services with
  | [] => Ok []
  | service :: rest =>
      exploits <- suggest_exploits hexstrike service None ;;
      more <- exploits_for rest ;;
      Ok (exploits ++ more)
  end.

Definition execute (context : RequestContext.t) : result PyDict :=
  let query := RequestContext.query context in
  added <- service_names (RequestContext.open_ports context) ;;
  let services := iteration added in
  suggested_exploits <- exploits_for services ;;
  by_query <-
    (if contains "eternalblue" (lower query) || contains "ms17-010" (lower query)
     then (found <- search_modules hexstrike "ms17-010" (Some "exploit") ;;
           PyAny.iter found)
     else Ok []) ;;
  unique_exploits <- unique_modules (suggested_exploits ++ by_query) [] ;;
  Ok [("success", PBool true);
      ("plugin", PStr name);
      ("services_detected", PList (map PStr services));
      ("suggested_exploits", PList unique_exploits);
      ("count", PInt (Z.of_nat (length unique_exploits)))].

Definition plugin : BasePlugin.t := BasePlugin.mk name matches execute.

End WithClient.
End MetasploitPlugin.

(** ** The built-in plugins ([plugins/__init__.py]) *)
Module Plugins.

Section WithIteration.
Variable iteration : list string -> list string.

(** [create_builtin_plugins]: a plugin for each wrapper that is given, in
    the order Nmap, Metasploit, web.  The Metasploit wrapper and the web
    tools wrapper are given by the client they hold. *)
Definition create_builtin_plugins (nmap_wrapper : option NmapWrapper.t)
           (metasploit_wrapper web_tools_wrapper : option HexstrikeClient.t)
  : list BasePlugin.t :=
  (match nmap_wrapper with
   | Some nmap => [NmapPlugin.plugin nmap]
   | None => []
   end)
  ++ (match metasploit_wrapper with
      | Some metasploit => [MetasploitPlugin.plugin metasploit iteration]
      | None => []
      end)
  ++ (match web_tools_wrapper with
      | Some web_tools => [WebVulnPlugin.plugin web_tools]
      | None => []
      end).

(** The plugins of an agent, as [OrchestratorAgent.__init__] creates them
    over its client. *)
Definition of_agent (hexstrike : HexstrikeClient.t)
           (json_loads : string -> NmapTool.loaded) : list BasePlugin.t :=
  create_builtin_plugins (Some (NmapTool.wrapper hexstrike json_loads))
                         (Some hexstrike) (Some hexstrike).

End WithIteration.
End Plugins.

(** ** The session store ([MemoryManager], the methods on files)

    [World.disk] holds the files of [base_dir] by name, the newest
    writing of a name first, each with its text.  A session id is a file
    name: it holds no slash. *)
Module MemoryStore.
Import PyStr SessionMemory World MemoryManager.

(** The text of the file [name], if there is one. *)
Fixpoint read_file (name : string) (disk : list (string * string))
  : option string :=
  match disk with
  | [] => None
  | (n, s) :: rest => if (n =? name)%string then Some s else read_file name rest
  end.


Definition session_file (session_id : string) : string :=
  (session_id ++ ".json")%string.




(** A name that the pattern [session_*.json] matches. *)
Definition is_session_file (name : string) : bool :=
  prefix "session_" name && endswith name ".json"
  && (13 <=? String.length name) && negb (contains "/" name).

(** [file.stem] of a name that ends in [.json] *)
Definition stem (name : string) : string :=
  substring 0 (String.length name - 5) name.

(** The names of the files, each once. *)
Definition file_names (disk : list (string * string)) : list string :=
  nodup string_dec (map fst disk).

(** [sorted(sessions, reverse=True)] *)
Fixpoint insert_desc (x : string) (l : list string) : list string :=
  match l with
  | [] => [x]
  | y :: l' => if (y <=? x)%string then x :: l else y :: insert_desc x l'
  end.

Definition sorted_desc (l : list string) : list string :=
  fold_right insert_desc [] l.

(** [list_sessions()] *)
Definition list_sessions (w : World.t) : list string :=
  sorted_desc (map stem (filter is_session_file (file_names (disk w)))).

(** [l[-n:]] for an integer [n] of either sign: the last [n] items when
    [n] is positive, the whole list when [n] is zero, the list without
    its first [-n] items when [n] is negative. *)
Definition slice_from_minus {A : Type} (n : Z) (l : list A) : list A :=
  if (0 <? n)%Z then skipn (length l - Z.to_nat n) l
  else skipn (Z.to_nat (- n)) l.

(** [get_context(max_history)] *)
Definition get_context_of (max_history : Z) (w : World.t) : option LLMContext :=
  match current_session w with
  | None => None
  | Some s =>
      Some (mkLLMContext (slice_from_minus max_history (conversation_history s))
              (slice_from_minus 5 (findings s))
              (slice_from_minus 5 (tool_executions s))
              (length (findings s)) (session_id s) (context s))
  end.

End MemoryStore.

(** ** The command line ([main.py]) *)
Module Main.
Import Agent.

(** The query step of the [run] command of [main.py], the same in its two
    modes: the query is processed; when the envelope asks for
    confirmation the user is asked, and on a yes the query is processed
    again with [require_confirmation=False].  [confirm] is the user's
    answer. *)
Definition run_query (env : Collaborators) (self : Agent.t) (confirm : bool)
           (query : string) (w : World.t) : result Envelope.t * World.t :=
  match process_query env self query None w with
  | (Ok result_, w) =>
      if opt_or (Envelope.requires_confirmation result_) false then
        if confirm then process_query env self query (Some false) w
        else (Ok result_, w)
      else (Ok result_, w)
  | (Raise e, w) => (Raise e, w)
  end.

End Main.

(** ** The choice of the language model ([config.py], [llm_backends.py]) *)
Module LLM.
Import PyStr.

(** [LLMConfig], with the fields of its three sections *)
Record LLMConfig : Type := mkLLMConfig {
  primary_llm : string;
  ollama_model : string;
  ollama_base_url : string;
  gemini_api_key : string;
  openai_api_key : string
}.

Definition allowed : list string :=
  ["ollama"; "gemini-cli"; "google-generativeai"; "openai"].

(** The validator of [primary_llm] *)
Definition validate_primary_llm (v : string) : result string :=
  if mem v allowed then Ok v
  else Raise (Exception
                "primary_llm must be one of ['ollama', 'gemini-cli', 'google-generativeai', 'openai']").

(** The backends, with what their constructors set. *)
Inductive LLMBackend : Type :=
| OllamaBackend (model base_url : string)
| GeminiCLIBackend (mcp_enabled : bool)
| GoogleGenerativeAIBackend (api_key : string).

(** [s.rstrip("/")] *)
Fixpoint rstrip_slash (s : string) : string :=
  match s with
  | EmptyString => EmptyString
  | String c s' =>
      let rest := rstrip_slash s' in
      if (rest =? "")%string && Ascii.eqb c "/" then EmptyString
      else String c rest
  end.

Section WithEnvironment.
(** [os.getenv("KALI_ORCHESTRATOR_LLM__OLLAMA__BASE_URL")] *)
Variable env_url : option string.
(** Whether the package [google.generativeai] could be imported. *)
Variable genai_installed : bool.

Definition new_OllamaBackend (config : LLMConfig) : result LLMBackend :=
  if truthy env_url
  then Ok (OllamaBackend (ollama_model config) (rstrip_slash (or_else env_url "")))
  else Ok (OllamaBackend (ollama_model config)
                         (rstrip_slash (ollama_base_url config))).

Definition new_GeminiCLIBackend (config : LLMConfig) : result LLMBackend :=
  Ok (GeminiCLIBackend true).

Definition new_GoogleGenerativeAIBackend (config : LLMConfig) : result LLMBackend :=
  if negb genai_installed then
    Raise (Exception
             "google-generativeai package not installed. Install with: pip install google-generativeai")
  else if (gemini_api_key config =? "")%string then
    Raise (Exception
             "Gemini API key not configured. Set it in config.yaml or KALI_ORCHESTRATOR_LLM__GEMINI__API_KEY")
  else Ok (GoogleGenerativeAIBackend (gemini_api_key config)).

Definition create_llm_backend (config : LLMConfig) (force_local : bool)
  : result LLMBackend :=
  if force_local then new_OllamaBackend config
  else
    let backend_type := lower (primary_llm config) in
    if (backend_type =? "ollama")%string then new_OllamaBackend config
    else if (backend_type =? "gemini-cli")%string then new_GeminiCLIBackend config
    else if (backend_type =? "google-generativeai")%string
         then new_GoogleGenerativeAIBackend config
         else Raise (Exception ("Unknown LLM backend: " ++ backend_type)).

End WithEnvironment.
End LLM.

(** ** Vocabulary of the further properties *)

(** Targets and strings *)
Module Vocabulary.
Import PyStr Spec.

(** The characters a target can hold: decimal digits (of any script),
    ASCII letters, the hyphen, the dot and the slash. *)
Definition target_char (c : N) : bool :=
  Re.is_digit c || letter c || (c =? hyphen)%N || (c =? dot)%N || (c =? slash)%N.

(** The first character of a target: a decimal digit or an ASCII letter. *)
Definition target_head (c : N) : bool := Re.is_digit c || letter c.


(** [_extract_target] with the exclusion list reduced to "example.com". *)
Definition extract_target_but_example_text (query : Unicode.text)
  : option Unicode.text :=
  match Re.findall Agent.ip_pattern query with
  | m :: _ => Some m
  | [] => find (fun d => negb (Unicode.eqb d (Unicode.codes "example.com")))
               (Re.findall Agent.domain_pattern query)
  end.

Definition extract_target_but_example (query : string) : option string :=
  option_map Unicode.string_of_codes
             (extract_target_but_example_text (Unicode.codes query)).


End Vocabulary.

(** The ways a call of [process_query] ends *)
Module Outcomes.
Import PyStr Config Scope MemoryManager Agent Spec.

(** The conversation of the current session (empty when no session is
    open). *)
Definition history_of (w : World.t) : list (string * string) :=
  match World.current_session w with
  | Some s => SessionMemory.conversation_history s
  | None => []
  end.


Section Ways.
Variable env : Collaborators.
Variable self : Agent.t.
Variable query : string.
Variable rc : option bool.
Variable w : World.t.

(** The ways a call of [process_query] ends, with what each leaves.  An
    exception that is not an [Exception] (raised by the language model, a
    plugin, the text of a value or the writing of the session) leaves the
    method from where it arose. *)
Inductive ends : result Envelope.t * World.t -> Prop :=
| EndsRaised t e :
    _extract_target query = Some t ->
    _check_scope (scope (config self)) t = Raise e ->
    ends (Raise e, entry env query w)
| EndsOutOfScope t :
    _extract_target query = Some t ->
    _check_scope (scope (config self)) t = Ok false ->
    ends (Ok (out_of_scope_envelope ("Target " ++ t ++ " is out of scope") t),
          add_conversation (clk env) "assistant"
            ("Error: " ++ "Target " ++ t ++ " is out of scope")
            (entry env query w))
| EndsAwaitingConfirmation :
    scope_gate_open self query ->
    _is_dangerous_action (safety (config self)) query = true ->
    confirmation_required self rc = true ->
    ends (Ok (requires_confirmation_envelope query), entry env query w)
| EndsPlanningFailed e :
    scope_gate_open self query ->
    safety_gate_open self query rc ->
    planning env query
             (build_context query (_extract_target query) (entry env query w))
             (entry env query w) = Raise e ->
    is_exception e = true ->
    ends (Ok (error_envelope ("Error processing query: " ++ str_of_exn e) query),
          add_conversation (clk env) "assistant"
            ("Error processing query: " ++ str_of_exn e) (entry env query w))
| EndsPlanningInterrupted e :
    scope_gate_open self query ->
    safety_gate_open self query rc ->
    planning env query
             (build_context query (_extract_target query) (entry env query w))
             (entry env query w) = Raise e ->
    is_exception e = false ->
    ends (Raise e, entry env query w)
| EndsDispatchInterrupted resp matching w2 e :
    scope_gate_open self query ->
    safety_gate_open self query rc ->
    planning_returns env query w resp ->
    dispatch env self query
             (build_context query (_extract_target query) (entry env query w))
             (_extract_target query) (entry env query w)
    = (matching, (Raise e, w2)) ->
    is_exception e = false ->
    ends (Raise e, w2)
| EndsSummaryFailed resp matching results w2 e :
    scope_gate_open self query ->
    safety_gate_open self query rc ->
    planning_returns env query w resp ->
    dispatch env self query
             (build_context query (_extract_target query) (entry env query w))
             (_extract_target query) (entry env query w)
    = (matching, (Ok results, w2)) ->
    _generate_response_summary env w2 query results resp = Raise e ->
    is_exception e = true ->
    ends (Ok (error_envelope ("Error processing query: " ++ str_of_exn e) query),
          add_conversation (clk env) "assistant"
            ("Error processing query: " ++ str_of_exn e) w2)
| EndsSummaryInterrupted resp matching results w2 e :
    scope_gate_open self query ->
    safety_gate_open self query rc ->
    planning_returns env query w resp ->
    dispatch env self query
             (build_context query (_extract_target query) (entry env query w))
             (_extract_target query) (entry env query w)
    = (matching, (Ok results, w2)) ->
    _generate_response_summary env w2 query results resp = Raise e ->
    is_exception e = false ->
    ends (Raise e, w2)
| EndsSaveInterrupted resp matching results w2 response w3 e :
    scope_gate_open self query ->
    safety_gate_open self query rc ->
    planning_returns env query w resp ->
    dispatch env self query
             (build_context query (_extract_target query) (entry env query w))
             (_extract_target query) (entry env query w)
    = (matching, (Ok results, w2)) ->
    _generate_response_summary env w2 query results resp = Ok response ->
    save_session (clk env) (disk_writable env) (json_dump env)
                 (add_conversation (clk env) "assistant" response w2)
    = (Raise e, w3) ->
    is_exception e = false ->
    ends (Raise e, w3)
| EndsCompleted resp matching results w2 response saved w3 :
    scope_gate_open self query ->
    safety_gate_open self query rc ->
    planning_returns env query w resp ->
    dispatch env self query
             (build_context query (_extract_target query) (entry env query w))
             (_extract_target query) (entry env query w)
    = (matching, (Ok results, w2)) ->
    _generate_response_summary env w2 query results resp = Ok response ->
    save_session (clk env) (disk_writable env) (json_dump env)
                 (add_conversation (clk env) "assistant" response w2)
    = (Ok saved, w3) ->
    ends (Ok (completed_envelope query (_extract_target query)
                (map BasePlugin.name matching) results response resp),
          w3).

End Ways.
End Outcomes.

(** The tool executions the plugin loop logs *)
Module RunsVocabulary.
Import PyStr Config Scope MemoryManager Agent Spec.

Section Runs.
Variable env : Collaborators.

(** The runs of the plugins [ps] that leave a tool execution: the plugin
    returned a result that holds a raw result, the recording of its
    findings did not raise, and the text of the raw result and the text
    of the result were obtained.  Each comes with the name of the
    plugin. *)
Definition logged_runs (context : RequestContext.t) (target : option string)
           (ps : list BasePlugin.t) : list (string * PyDict) :=
  flat_map
    (fun p =>
       match BasePlugin.execute p context with
       | Ok r =>
           match dict_get r "raw_result", recording_error env target r with
           | Some _, None => [(BasePlugin.name p, r)]
           | _, _ => []
           end
       | Raise _ => []
       end) ps.

(** [x] is the tool execution logged for the run [nr]. *)
Definition logged_for (target : option string) (nr : string * PyDict)
           (x : ToolExecution.t) : Prop :=
  ToolExecution.tool x = fst nr /\
  ToolExecution.target x = or_else target "" /\
  option_map (py_str env) (dict_get (snd nr) "raw_result")
  = Some (Ok (ToolExecution.command x)) /\
  py_str env (PDict (snd nr)) = Ok (ToolExecution.output x) /\
  ToolExecution.exit_code x
  = (if PyAny.truthy (get_or (snd nr) "success" PNone) then 0%Z else 1%Z) /\
  ToolExecution.duration_seconds x = 0%Z.

End Runs.
End RunsVocabulary.

(** Results that can be summarised, and the blank open port *)
Module SummaryVocabulary.
Import Agent.

(** The name a result gives for its plugin can be put in a line: it is a
    string, or [str()] returns its text. *)
Definition nameable (env : Collaborators) (r : PyDict) : bool :=
  match py_str env (get_or r "plugin" (PStr "unknown")) with
  | Ok _ => true
  | Raise _ => false
  end.

(** The values [len] applies to. *)
Definition sized (v : PyVal) : bool :=
  match v with
  | PStr _ | PList _ | PDict _ => true
  | _ => false
  end.

(** A result whose findings and suggested exploits, where it has any, can
    be counted. *)
Definition countable (r : PyDict) : bool :=
  match dict_get r "findings" with Some v => sized v | None => true end
  && match dict_get r "suggested_exploits" with Some v => sized v | None => true end.

(** A result that can be put in the summary. *)
Definition summarisable (env : Collaborators) (r : PyDict) : bool :=
  nameable env r && countable r.

(** The entry of [open_ports] that stands for a finding without
    evidence. *)
Definition blank_port : OpenPort.t := OpenPort.mk PNone (PStr "") (PStr "").
End SummaryVocabulary.

(** Open ports and scans *)
Module NmapVocabulary.
Import PyStr PyValue Spec.

(** What the payload of an open port holds. *)
Definition port_payload (target : string) (fd : PyVal) : Prop :=
  exists port service version,
    fd = PDict [("type", PStr "open_port"); ("target", PStr target);
                ("port", port); ("service", service); ("version", version);
                ("severity", PStr "info")].

(** An entry the loop of [scan_http_services] can test: a dictionary whose
    service, where it has one, is a string. *)
Definition testable (port_info : PyVal) : bool :=
  match port_info with
  | PDict d => is_string (get_or d "service" (PStr ""))
  | _ => false
  end.

(** An entry the loop keeps: its service holds [http] in any case, or its
    port is one of the six. *)
Definition http_like (port_info : PyVal) : bool :=
  match port_info with
  | PDict d =>
      match get_or d "service" (PStr "") with
      | PStr service =>
          contains "http" (lower service)
          || existsb (eq_int (get_or d "port" PNone)) NmapTool.http_port_numbers
      | _ => false
      end
  | _ => false
  end.

(** The scan that [NmapPlugin.execute] asks for. *)
Definition requested_scan (nmap : NmapWrapper.t) (query target : string)
  : result PyDict :=
  if contains "full" (lower query) || contains "all ports" (lower query)
  then NmapWrapper.full_scan nmap target
  else if contains "http" (lower query) || contains "web" (lower query)
       then NmapWrapper.scan_http_services nmap target
       else NmapWrapper.quick_scan nmap target.

(** The open ports of a scan can be turned into findings: they are a list
    (or the keys of a dictionary, the characters of a string) whose items
    are all dictionaries. *)
Definition reportable (scanned : PyDict) : bool :=
  match dict_get scanned "open_ports" with
  | None => true
  | Some v =>
      match PyAny.iter v with
      | Ok ports => forallb is_dictionary ports
      | Raise _ => false
      end
  end.

End NmapVocabulary.

(** The web scan *)
Module WebVocabulary.
Import PyStr PyValue WebToolsWrapper WebVulnPlugin.

(** The templates of the quick scan. *)
Definition quick_templates : option (list string) :=
  Some ["cves"; "vulnerabilities"; "exposures"].

(** The target [WebVulnPlugin.execute] hands to the scan. *)
Definition web_url (context : RequestContext.t) : string :=
  let target := or_else (RequestContext.target context) "" in
  if prefix "http://" target || prefix "https://" target then target
  else ((if use_https (RequestContext.open_ports context)
         then "https" else "http") ++ "://" ++ target)%string.

(** The Nikto scan and the Nuclei scan that [quick_web_scan] runs for a
    target. *)
Definition nikto_of (hexstrike : HexstrikeClient.t) (target : string)
  : result PyDict :=
  nikto_scan hexstrike (remove "https://" (remove "http://" target))
             (if prefix "https://" target then 443%Z else 80%Z)
             (prefix "https://" target).

Definition nuclei_of (hexstrike : HexstrikeClient.t) (target : string)
  : result PyDict :=
  nuclei_scan hexstrike
              (if prefix "https://" target || prefix "http://" target
               then target else ("http://" ++ target)%string)
              quick_templates.

(** The findings of a scan, as [quick_web_scan] reads them. *)
Definition scan_findings (scan : PyDict) : PyVal :=
  get_or scan "findings" (PList []).

End WebVocabulary.

(** The invariant of the built-in plugins *)
Module BuiltinVocabulary.
Import Spec.

(** The findings of the type [open_port] carry no evidence. *)
Definition ports_without_evidence (w : World.t) : Prop :=
  Forall (fun f => Finding.type f = "open_port" -> Finding.evidence f = [])
         (findings_of w).

End BuiltinVocabulary.

(** Keywords *)
Module KeywordVocabulary.
Import PyStr.

(** The query holds one of the keywords, in any case. *)
Definition mentions (keywords : list string) (query : string) : bool :=
  existsb (fun keyword => contains keyword (lower query)) keywords.

End KeywordVocabulary.

(** ** More scenarios

    A scan that finds one port, a server that cannot be reached, and the
    contexts handed to the plugins. *)
Module ToolScenario.
Import Scenario.

(** A scan that finds the port 22 open. *)
Definition ssh_open : PyDict :=
  [("success", PBool true);
   ("open_ports",
    PList [PDict [("port", PInt 22); ("service", PStr "ssh");
                  ("version", PStr "OpenSSH 8.9")]])].

Definition nmap_ssh : NmapWrapper.t :=
  NmapWrapper.mk (fun _ => Ok ssh_open) (fun _ => Ok ssh_open)
                 (fun _ => Ok ssh_open).

Definition agent_ssh : Agent.t :=
  Agent.mk cfg_lab [NmapPlugin.plugin nmap_ssh].

(** The server cannot be reached. *)
Definition hexstrike_down : HexstrikeClient.t :=
  HexstrikeClient.mk
    (fun _ _ =>
       Raise (Exception
                "hexstrike-ai MCP server is not running and could not be started")).

(** The server runs Nmap only, and Nmap finds the port 443 open. *)
Definition hexstrike_https : HexstrikeClient.t :=
  HexstrikeClient.mk
    (fun tool _ =>
       if (tool =? "nmap")%string
       then Ok (PDict [("success", PBool true);
                       ("open_ports",
                        PList [PDict [("port", PInt 443); ("service", PStr "https");
                                      ("version", PStr "nginx 1.24")]])])
       else Raise (Exception "tool not available")).

(** No text is JSON. *)
Definition loads_nothing : string -> NmapTool.loaded :=
  fun _ => NmapTool.JSONDecodeError.

Definition scan_context : RequestContext.t :=
  RequestContext.mk "scan 192.168.1.10" (Some "192.168.1.10") [] [] [].

(** What the plugin returns for the scan that finds the port 22. *)
Definition ssh_result : PyDict :=
  [("success", PBool true); ("plugin", PStr "nmap");
   ("target", PStr "192.168.1.10"); ("scan_type", PStr "quick");
   ("open_ports",
    PList [PDict [("port", PInt 22); ("service", PStr "ssh");
                  ("version", PStr "OpenSSH 8.9")]]);
   ("findings",
    PList [PDict [("type", PStr "open_port"); ("target", PStr "192.168.1.10");
                  ("port", PInt 22); ("service", PStr "ssh");
                  ("version", PStr "OpenSSH 8.9"); ("severity", PStr "info")]]);
   ("raw_result", PDict ssh_open)].

(** A web scan of a host on which the port 443 was found open. *)
Definition https_context : RequestContext.t :=
  RequestContext.mk "scan the web server 192.168.1.10" (Some "192.168.1.10") []
    [OpenPort.mk (PInt 443) (PStr "https") (PStr "")] [].

End ToolScenario.

(* ================================================================== *)
(** * Part II — lemmas and theorems *)
(* ================================================================== *)

(** ** Strings *)
Module PyStrFacts.
Import PyStr Spec.

Lemma append_nil_r (s : string) : (s ++ "")%string = s.
Proof. induction s; simpl; congruence. Qed.

Lemma append_assoc (a b c : string) :
  ((a ++ b) ++ c)%string = (a ++ (b ++ c))%string.
Proof. induction a; simpl; congruence. Qed.

Lemma length_append (a b : string) :
  String.length (a ++ b) = String.length a + String.length b.
Proof. induction a; simpl; congruence. Qed.

Lemma prefix_true_iff (p s : string) :
  prefix p s = true <-> exists post, s = (p ++ post)%string.
Proof.
  revert s; induction p as [|c p IH]; intros s; simpl.
  - destruct s; simpl; split; eauto.
  - destruct s as [|d s]; simpl.
    + split; [discriminate | intros [post H]; discriminate].
    + destruct (ascii_dec c d) as [->|Hne].
      * rewrite IH. split; intros [post H]; exists post; congruence.
      * split; [discriminate | intros [post H]; congruence].
Qed.

(** [contains] is the substring test. *)
Lemma contains_occurs (k s : string) : contains k s = true <-> occurs k s.
Proof.
  unfold occurs. induction s as [|c s IH].
  - cbn [contains]. rewrite orb_false_r, prefix_true_iff. split.
    + intros [post H]. exists "", post. exact H.
    + intros [pre [post H]]. destruct pre; simpl in H.
      * eauto.
      * discriminate.
  - cbn [contains]. rewrite orb_true_iff, prefix_true_iff, IH. split.
    + intros [[post H] | [pre [post H]]].
      * exists "", post. exact H.
      * exists (String c pre), post. simpl. congruence.
    + intros [pre [post H]]. destruct pre as [|d pre]; simpl in H.
      * left. eauto.
      * right. exists pre, post. congruence.
Qed.

Lemma substring_skip (p s : string) (m : nat) :
  substring (String.length p) m (p ++ s) = substring 0 m s.
Proof. induction p; simpl; auto. Qed.

Lemma substring_all (s : string) : substring 0 (String.length s) s = s.
Proof. induction s; simpl; congruence. Qed.

Lemma substring_split (s : string) (n : nat) :
  n <= String.length s ->
  exists p, String.length p = n /\
            s = (p ++ substring n (String.length s - n) s)%string.
Proof.
  revert s; induction n as [|n IH]; intros s Hn.
  - exists "". rewrite Nat.sub_0_r, substring_all. auto.
  - destruct s as [|c s]; simpl in Hn; [lia|].
    destruct (IH s) as [p [Hl Hs]]; [lia|].
    exists (String c p). simpl. split; [congruence|].
    f_equal. exact Hs.
Qed.

(** [endswith] is the suffix test. *)
Lemma endswith_ends_with (s suf : string) :
  endswith s suf = true <-> ends_with s suf.
Proof.
  unfold endswith, ends_with. rewrite andb_true_iff, Nat.leb_le, String.eqb_eq.
  split.
  - intros [Hle Hsub].
    destruct (substring_split s (String.length s - String.length suf)) as [p [_ Hs]];
      [lia|].
    exists p. rewrite Hs at 1. f_equal.
    replace (String.length s - (String.length s - String.length suf))
      with (String.length suf) by lia.
    exact Hsub.
  - intros [p ->]. rewrite length_append. split; [lia|].
    replace (String.length p + String.length suf - String.length suf)
      with (String.length p) by lia.
    rewrite substring_skip. apply substring_all.
Qed.

End PyStrFacts.

(** ** The dangerous-action check *)
Module SafetyFacts.
Import PyStr Spec PyStrFacts Config Agent.

Lemma any_keyword_in_iff (keywords : list string) (query_lower : string) :
  any_keyword_in keywords query_lower = true <->
  exists k, In k keywords /\ occurs k query_lower.
Proof.
  induction keywords as [|k ks IH]; simpl.
  - split; [discriminate | intros [k [[] _]]].
  - destruct (contains k query_lower) eqn:E.
    + split; [intros _ | reflexivity].
      exists k. split; [now left | now apply contains_occurs].
    + rewrite IH. split.
      * intros [k' [Hin Hocc]]. exists k'. split; [now right | exact Hocc].
      * intros [k' [[<- | Hin] Hocc]].
        -- apply contains_occurs in Hocc. congruence.
        -- exists k'. split; assumption.
Qed.

(** What the code computes: a configured keyword, as written, occurs in the
    lower-cased query. *)
Lemma is_dangerous_action_iff (cfg : SafetyConfig) (query : string) :
  _is_dangerous_action cfg query = true <->
  exists k, In k (dangerous_actions cfg) /\ occurs k (lower query).
Proof. unfold _is_dangerous_action. apply any_keyword_in_iff. Qed.

(** With keywords configured in lower case the check ignores letter case. *)
Lemma is_dangerous_action_lowercase_keywords (cfg : SafetyConfig) (query : string) :
  Forall (fun k => lower k = k) (dangerous_actions cfg) ->
  (_is_dangerous_action cfg query = true <->
   exists k, In k (dangerous_actions cfg) /\ occurs_ignoring_case k query).
Proof.
  intros Hlow. rewrite is_dangerous_action_iff. rewrite Forall_forall in Hlow.
  unfold occurs_ignoring_case.
  split; intros [k [Hin Hocc]]; exists k; split; auto.
  - rewrite (Hlow k Hin). exact Hocc.
  - rewrite (Hlow k Hin) in Hocc. exact Hocc.
Qed.

(** C3 (the code departs from the claim).  The check lower-cases the query
    only.  The claim's own example holds: "Run EXPLOIT now" matches the
    keyword "exploit".  But a keyword configured with a capital letter,
    "Exploit", occurs in "Run exploit now" when case is ignored, and the
    check answers false. *)
Theorem dangerous_check_misses_capitalised_keyword :
  _is_dangerous_action default_safety "Run EXPLOIT now" = true /\
  occurs_ignoring_case "Exploit" "Run exploit now" /\
  _is_dangerous_action (mkSafetyConfig true ["Exploit"] true) "Run exploit now" = false.
Proof.
  split; [reflexivity|]. split; [|reflexivity].
  exists "run ", " now". reflexivity.
Qed.

End SafetyFacts.

(** ** Scope enforcement: strict mode off, and the domain rules *)
Module ScopeFacts.
Import PyStr Spec PyStrFacts Config Scope.

(** C6.  When [strict_mode] is false, [_check_scope] returns true for every
    target string, whatever the allow-lists hold: no rule is consulted. *)
Theorem non_strict_scope_accepts_every_target (cfg : ScopeConfig) (target : string) :
  strict_mode cfg = false -> _check_scope cfg target = Ok true.
Proof.
  intros Hstrict. unfold _check_scope. rewrite Hstrict. reflexivity.
Qed.

(** An unparsable target, and allow-lists that would be consulted (and
    reject) in strict mode. *)
Lemma non_strict_scope_accepts_every_target_witness :
  _check_scope (mkScopeConfig ["10.0.0.0/8"] ["example.com"] true) "not//an::ip" = Ok false /\
  _check_scope (mkScopeConfig ["10.0.0.0/8"] ["example.com"] false) "not//an::ip" = Ok true.
Proof.
  split.
  - vm_compute. reflexivity.
  - apply (non_strict_scope_accepts_every_target
             (mkScopeConfig ["10.0.0.0/8"] ["example.com"] false) "not//an::ip").
    reflexivity.
Defined.

Lemma domain_rule_iff (target allowed_domain : string) :
  domain_rule target allowed_domain = true <->
  target = allowed_domain \/ ends_with target ("." ++ allowed_domain).
Proof.
  unfold domain_rule.
  rewrite orb_true_iff, String.eqb_eq, endswith_ends_with. reflexivity.
Qed.

Lemma check_domains_iff (rules : list string) (target : string) :
  check_domains rules target = true <->
  exists d, In d rules /\ domain_rule target d = true.
Proof.
  induction rules as [|d ds IH]; simpl.
  - split; [discriminate | intros [d [[] _]]].
  - destruct (domain_rule target d) eqn:E.
    + split; [intros _; exists d; auto | reflexivity].
    + rewrite IH. split.
      * intros [d' [Hin H]]. exists d'. auto.
      * intros [d' [[<- | Hin] H]]; [congruence | exists d'; auto].
Qed.

(** C7.  In strict mode the rule of an allowed-domain entry [D] accepts a
    target [T] exactly when [T = D] or [T] ends with ["." ++ D]; once the
    IP rules have not matched, [_check_scope] accepts exactly when some
    allowed-domain entry does.  Rule "example.com" accepts
    "api.example.com" and rejects "notexample.com". *)
Theorem domain_rule_is_suffix_exact :
  (forall T D : string,
      domain_rule T D = true <-> T = D \/ ends_with T ("." ++ D)) /\
  (forall (ips doms : list string) (T : string),
      check_ips ips T = Ok false ->
      (_check_scope (mkScopeConfig ips doms true) T = Ok true <->
       exists D, In D doms /\ (T = D \/ ends_with T ("." ++ D)))) /\
  _check_scope (mkScopeConfig [] ["example.com"] true) "api.example.com" = Ok true /\
  _check_scope (mkScopeConfig [] ["example.com"] true) "notexample.com" = Ok false.
Proof.
  split; [exact domain_rule_iff|]. split; [|split; reflexivity].
  intros ips doms T Hips. unfold _check_scope. simpl. rewrite Hips.
  split.
  - intros H. injection H as H. apply check_domains_iff in H.
    destruct H as [D [Hin HD]]. exists D. split; [exact Hin|].
    now apply domain_rule_iff.
  - intros [D [Hin HD]]. f_equal. apply check_domains_iff.
    exists D. split; [exact Hin|]. now apply domain_rule_iff.
Qed.

(** The second part at an instance: an address rule that does not match,
    then the domain rule for a subdomain. *)
Lemma domain_rule_is_suffix_exact_witness :
  check_ips ["10.0.0.0/8"] "api.example.com" = Ok false /\
  _check_scope (mkScopeConfig ["10.0.0.0/8"] ["example.com"] true) "api.example.com" = Ok true.
Proof.
  assert (H : check_ips ["10.0.0.0/8"] "api.example.com" = Ok false)
    by (vm_compute; reflexivity).
  split; [exact H|].
  apply (proj1 (proj2 domain_rule_is_suffix_exact) ["10.0.0.0/8"] ["example.com"]
               "api.example.com" H).
  exists "example.com". split; [now left|].
  right. exists "api". reflexivity.
Defined.

End ScopeFacts.

(** ** The session store *)
Module MemoryFacts.
Import PyStr Spec MemoryManager.

Section WithClock.
Variable clk : Clock.t.

Lemma findings_ensure_session (w : World.t) :
  findings_of (ensure_session clk w) = findings_of w.
Proof. unfold ensure_session, findings_of. destruct w as [[s|] c d]; reflexivity. Qed.

Lemma executions_ensure_session (w : World.t) :
  executions_of (ensure_session clk w) = executions_of w.
Proof. unfold ensure_session, executions_of. destruct w as [[s|] c d]; reflexivity. Qed.

Lemma findings_tick (w : World.t) : findings_of (tick w) = findings_of w.
Proof. reflexivity. Qed.

Lemma executions_tick (w : World.t) : executions_of (tick w) = executions_of w.
Proof. reflexivity. Qed.

Lemma findings_add_conversation (role content : string) (w : World.t) :
  findings_of (add_conversation clk role content w) = findings_of w.
Proof. destruct w as [[s|] c d]; reflexivity. Qed.

Lemma executions_add_conversation (role content : string) (w : World.t) :
  executions_of (add_conversation clk role content w) = executions_of w.
Proof. destruct w as [[s|] c d]; reflexivity. Qed.

Lemma findings_add_finding (f : Finding.t) (w : World.t) :
  findings_of (add_finding clk f w) = findings_of w ++ [f].
Proof. destruct w as [[s|] c d]; reflexivity. Qed.

Lemma executions_add_finding (f : Finding.t) (w : World.t) :
  executions_of (add_finding clk f w) = executions_of w.
Proof. destruct w as [[s|] c d]; reflexivity. Qed.

Lemma findings_add_tool_execution (x : ToolExecution.t) (w : World.t) :
  findings_of (add_tool_execution clk x w) = findings_of w.
Proof. destruct w as [[s|] c d]; reflexivity. Qed.

Lemma executions_add_tool_execution (x : ToolExecution.t) (w : World.t) :
  executions_of (add_tool_execution clk x w) = executions_of w ++ [x].
Proof. destruct w as [[s|] c d]; reflexivity. Qed.

Lemma findings_save_session (writable : bool)
      (dump : SessionMemory.t -> string * option exn) (w : World.t) :
  findings_of (snd (save_session clk writable dump w)) = findings_of w.
Proof.
  destruct w as [[s|] c d]; [|reflexivity]. unfold save_session. simpl.
  destruct writable; [|reflexivity].
  destruct (dump _) as [written [e|]]; reflexivity.
Qed.

Lemma executions_save_session (writable : bool)
      (dump : SessionMemory.t -> string * option exn) (w : World.t) :
  executions_of (snd (save_session clk writable dump w)) = executions_of w.
Proof.
  destruct w as [[s|] c d]; [|reflexivity]. unfold save_session. simpl.
  destruct writable; [|reflexivity].
  destruct (dump _) as [written [e|]]; reflexivity.
Qed.

(** An exception that leaves [save_session] is not an [Exception]. *)
Lemma save_session_raises (writable : bool)
      (dump : SessionMemory.t -> string * option exn) (w : World.t) (e : exn) :
  fst (save_session clk writable dump w) = Raise e -> is_exception e = false.
Proof.
  destruct w as [[s|] c d]; [|discriminate]. unfold save_session. simpl.
  destruct writable; [|discriminate].
  destruct (dump _) as [written [e'|]]; [|discriminate]. simpl.
  destruct (is_exception e') eqn:E; [discriminate|].
  intros H. injection H as <-. exact E.
Qed.

End WithClock.

End MemoryFacts.

(** ** The recorder *)
Module RecorderFacts.
Import PyStr Spec MemoryManager MemoryFacts Agent.

(** The validation refuses or accepts whatever the id and the timestamp. *)
Lemma validate_refuses (id ts id' ts' : string) (a b c d e f : PyVal)
      (r : list (string * PyVal)) :
  Finding.validate id ts a b c d e f = inr r ->
  Finding.validate id' ts' a b c d e f = inr r.
Proof.
  unfold Finding.validate.
  destruct (Finding.as_str a), (Finding.as_str b), (Finding.as_str c),
           (Finding.as_str d), (Finding.as_dict e), (Finding.as_str_list f);
    intros H; first [discriminate H | exact H].
Qed.

Lemma validate_accepts (id ts id' ts' : string) (a b c d e f : PyVal)
      (x : Finding.t) :
  Finding.validate id ts a b c d e f = inl x ->
  exists y, Finding.validate id' ts' a b c d e f = inl y.
Proof.
  unfold Finding.validate.
  destruct (Finding.as_str a), (Finding.as_str b), (Finding.as_str c),
           (Finding.as_str d), (Finding.as_dict e), (Finding.as_str_list f);
    intros H; first [discriminate H | eexists; reflexivity].
Qed.

Lemma as_str_is_string (v : PyVal) :
  is_string v = true -> exists s, v = PStr s /\ Finding.as_str v = Some s.
Proof. destruct v; try discriminate. intros _. eexists. split; reflexivity. Qed.

Lemma as_dict_is_dictionary (v : PyVal) :
  is_dictionary v = true -> exists d, Finding.as_dict v = Some d.
Proof. destruct v; try discriminate. intros _. eexists. reflexivity. Qed.

Lemma as_strs_all_strings (l : list PyVal) :
  forallb is_string l = true -> exists r, Finding.as_strs l = Some r.
Proof.
  induction l as [|v l IH]; simpl.
  - intros _. eexists. reflexivity.
  - intros H. apply andb_true_iff in H as [Hv Hl].
    destruct (as_str_is_string v Hv) as [s [-> _]].
    destruct (IH Hl) as [r ->]. simpl. eexists. reflexivity.
Qed.

Lemma as_str_list_is_string_list (v : PyVal) :
  is_string_list v = true -> exists r, Finding.as_str_list v = Some r.
Proof. destruct v; try discriminate. simpl. apply as_strs_all_strings. Qed.

Section WithEnv.
Variable env : Collaborators.

(** From a dictionary every argument is obtained, and the validation
    decides. *)
Lemma make_finding_dict (name : string) (target : option string) (c : nat)
      (d : PyDict) :
  make_finding env name target c (PDict d) =
  match Finding.validate
          (name ++ "_" ++ Clock.timestamp (clk env) c)%string
          (Clock.isoformat (clk env) (c + 1))
          (if truthy target then PStr (or_else target "")
           else get_or d "target" (PStr ""))
          (get_or d "type" (PStr "unknown"))
          (get_or d "severity" (PStr "info"))
          (get_or d "description" (PStr ""))
          (get_or d "evidence" (PDict []))
          (get_or d "recommendations" (PList [])) with
  | inl finding => Ok finding
  | inr refused => Raise (Exception (validation_message env refused))
  end.
Proof. unfold make_finding. destruct (truthy target); reflexivity. Qed.

(** From anything else the first [.get] that is reached raises. *)
Lemma make_finding_not_dict (name : string) (target : option string) (c : nat)
      (fd : PyVal) :
  (forall d, fd <> PDict d) ->
  make_finding env name target c fd =
  Raise (Exception ("'" ++ PyAny.type_name fd ++ "' object has no attribute 'get'")).
Proof.
  intros Hnd. unfold make_finding.
  destruct fd; try (destruct (truthy target); reflexivity).
  exfalso. eapply Hnd. reflexivity.
Qed.

(** Whether a payload is refused, and with which exception, depends
    neither on the clock nor on the plugin. *)
Lemma make_finding_raises (name name' : string) (target : option string)
      (c c' : nat) (fd : PyVal) (e : exn) :
  make_finding env name target c fd = Raise e ->
  make_finding env name' target c' fd = Raise e.
Proof.
  destruct fd as [ | b | z | m x | s | l | d ];
    try (rewrite !make_finding_not_dict by (intros d'; discriminate);
         intros H; exact H).
  rewrite !make_finding_dict.
  destruct (Finding.validate (name ++ "_" ++ Clock.timestamp (clk env) c)%string _ _ _ _ _ _ _)
    as [x|r] eqn:E; [discriminate|].
  intros H. rewrite (validate_refuses _ _ _ _ _ _ _ _ _ _ _ E). exact H.
Qed.

Lemma make_finding_returns (name name' : string) (target : option string)
      (c c' : nat) (fd : PyVal) (f : Finding.t) :
  make_finding env name target c fd = Ok f ->
  exists f', make_finding env name' target c' fd = Ok f'.
Proof.
  destruct fd as [ | b | z | m x | s | l | d ];
    try (rewrite make_finding_not_dict by (intros d'; discriminate);
         discriminate).
  rewrite !make_finding_dict.
  destruct (Finding.validate (name ++ "_" ++ Clock.timestamp (clk env) c)%string _ _ _ _ _ _ _)
    as [x|r] eqn:E; [|discriminate].
  intros _.
  destruct (validate_accepts _ _ (name' ++ "_" ++ Clock.timestamp (clk env) c')%string
              (Clock.isoformat (clk env) (c' + 1)) _ _ _ _ _ _ _ E) as [y ->].
  eexists. reflexivity.
Qed.

Lemma payload_error_some (name : string) (target : option string) (c : nat)
      (fd : PyVal) (e : exn) :
  payload_error env target fd = Some e ->
  make_finding env name target c fd = Raise e.
Proof.
  unfold payload_error.
  destruct (make_finding env "" target 0 fd) as [f|e'] eqn:E; [discriminate|].
  intros H. injection H as <-. exact (make_finding_raises _ _ _ _ _ _ _ E).
Qed.

Lemma payload_error_none (name : string) (target : option string) (c : nat)
      (fd : PyVal) :
  payload_error env target fd = None ->
  exists f, make_finding env name target c fd = Ok f.
Proof.
  unfold payload_error.
  destruct (make_finding env "" target 0 fd) as [f|e'] eqn:E; [|discriminate].
  intros _. exact (make_finding_returns _ _ _ _ _ _ _ E).
Qed.

(** A well-formed payload is accepted; the target and the severity of the
    [Finding] built from it. *)
Lemma make_finding_well_formed (name : string) (target : option string)
      (c : nat) (d : PyDict) :
  well_formed_fields target d = true ->
  exists f,
    make_finding env name target c (PDict d) = Ok f /\
    PStr (Finding.target f) =
      (if truthy target then PStr (or_else target "")
       else get_or d "target" (PStr "")) /\
    PStr (Finding.severity f) = get_or d "severity" (PStr "info").
Proof.
  unfold well_formed_fields. intros H.
  repeat (apply andb_true_iff in H; destruct H as [H ?]).
  rewrite make_finding_dict.
  assert (Ht : exists t,
             (if truthy target then PStr (or_else target "")
              else get_or d "target" (PStr "")) = PStr t).
  { destruct (truthy target); [eexists; reflexivity|].
    simpl in H. destruct (as_str_is_string _ H) as [t [-> _]].
    eexists; reflexivity. }
  destruct Ht as [t ->].
  destruct (as_str_is_string (get_or d "type" (PStr "unknown"))) as [ty [-> _]];
    [assumption|].
  destruct (as_str_is_string (get_or d "severity" (PStr "info"))) as [sv [-> _]];
    [assumption|].
  destruct (as_str_is_string (get_or d "description" (PStr ""))) as [de [-> _]];
    [assumption|].
  unfold Finding.validate. cbn [Finding.as_str].
  destruct (as_dict_is_dictionary (get_or d "evidence" (PDict []))) as [ev ->];
    [assumption|].
  destruct (as_str_list_is_string_list (get_or d "recommendations" (PList [])))
    as [rc ->]; [assumption|].
  eexists. split; [reflexivity|]. split; reflexivity.
Qed.

Lemma findings_record_finding_ok (name : string) (target : option string)
      (w w' : World.t) (fd : PyVal) :
  record_finding env name target w fd = (Ok tt, w') ->
  exists f,
    make_finding env name target (World.clock w) fd = Ok f /\
    findings_of w' = findings_of w ++ [f] /\
    executions_of w' = executions_of w.
Proof.
  unfold record_finding.
  destruct (make_finding env name target (World.clock w) fd) as [f|e];
    [|discriminate].
  intros H. injection H as <-. exists f.
  rewrite findings_add_finding, executions_add_finding, !findings_tick,
    !executions_tick.
  repeat split.
Qed.

(** The loop over the payloads: the payloads before the first refused are
    recorded, one [Finding] each, in order; the exception of the first
    refused ends the loop. *)
Lemma record_each_spec (name : string) (target : option string)
      (payloads : list PyVal) (w : World.t) :
  exists fs,
    fst (record_each env name target payloads w)
    = match snd (accepted_prefix env target payloads) with
      | Some e => Raise e
      | None => Ok tt
      end /\
    findings_of (snd (record_each env name target payloads w))
    = findings_of w ++ fs /\
    Forall2 (fun fd f => built_from env target (name, fd) f)
            (fst (accepted_prefix env target payloads)) fs /\
    executions_of (snd (record_each env name target payloads w))
    = executions_of w.
Proof.
  revert w. induction payloads as [|fd rest IH]; intros w; simpl.
  - exists []. rewrite app_nil_r. repeat split. constructor.
  - destruct (payload_error env target fd) as [e|] eqn:Epe.
    + unfold record_finding.
      rewrite (payload_error_some name target (World.clock w) fd e Epe). simpl.
      exists []. rewrite app_nil_r. repeat split. constructor.
    + destruct (payload_error_none name target (World.clock w) fd Epe) as [f Hf].
      unfold record_finding. rewrite Hf.
      destruct (IH (add_finding (clk env) f (tick (tick w))))
        as [fs [Hres [Hfs [Hall Hx]]]].
      destruct (accepted_prefix env target rest) as [l oe]. simpl in *.
      exists (f :: fs). rewrite Hres, Hfs, Hx.
      rewrite findings_add_finding, executions_add_finding, !findings_tick,
        !executions_tick, <- app_assoc.
      repeat split.
      constructor; [|exact Hall]. exists (World.clock w). exact Hf.
Qed.

(** Recording the findings of a result. *)
Lemma record_findings_spec (name : string) (target : option string)
      (pr : PyDict) (w : World.t) :
  exists fs,
    fst (record_findings env name target pr w)
    = match snd (recording_of env target pr) with
      | Some e => Raise e
      | None => Ok tt
      end /\
    findings_of (snd (record_findings env name target pr w))
    = findings_of w ++ fs /\
    Forall2 (fun fd f => built_from env target (name, fd) f)
            (fst (recording_of env target pr)) fs /\
    executions_of (snd (record_findings env name target pr w))
    = executions_of w.
Proof.
  unfold record_findings, recording_of.
  destruct (dict_get pr "findings") as [v|].
  - destruct (PyAny.iter v) as [payloads|e].
    + apply record_each_spec.
    + exists []. simpl. rewrite app_nil_r. repeat split. constructor.
  - exists []. simpl. rewrite app_nil_r. repeat split. constructor.
Qed.

Lemma findings_record_execution (name : string) (target : option string)
      (pr : PyDict) (w : World.t) :
  findings_of (snd (record_execution env name target pr w)) = findings_of w.
Proof.
  unfold record_execution. destruct (dict_get pr "raw_result"); [|reflexivity].
  destruct (py_str env p); [|apply findings_tick].
  destruct (py_str env (PDict pr)); [|apply findings_tick]. simpl.
  rewrite findings_add_tool_execution. apply findings_tick.
Qed.

(** Logging the tool execution of a result raises what the first text
    that is refused raises. *)
Lemma record_execution_spec (name : string) (target : option string)
      (pr : PyDict) (w : World.t) :
  fst (record_execution env name target pr w)
  = match logging_error env pr with
    | Some e => Raise e
    | None => Ok tt
    end.
Proof.
  unfold record_execution, logging_error, str_error.
  destruct (dict_get pr "raw_result"); [|reflexivity].
  destruct (py_str env p); [|reflexivity].
  destruct (py_str env (PDict pr)); reflexivity.
Qed.

(** The loop over well-formed payloads records every one of them. *)
Lemma record_each_well_formed (name : string) (target : option string)
      (payloads : list PyVal) (w : World.t) :
  Forall (fun fd => well_formed_payload target fd = true) payloads ->
  exists fs w',
    record_each env name target payloads w = (Ok tt, w') /\
    findings_of w' = findings_of w ++ fs /\
    Forall2 (fun fd f =>
               exists d, fd = PDict d /\
                 PStr (Finding.target f) =
                   (if truthy target then PStr (or_else target "")
                    else get_or d "target" (PStr "")) /\
                 PStr (Finding.severity f) = get_or d "severity" (PStr "info"))
            payloads fs.
Proof.
  intros Hwf. revert w. induction Hwf as [|fd rest Hfd _ IH]; intros w; simpl.
  - exists [], w. rewrite app_nil_r. repeat split. constructor.
  - destruct fd as [ | b | z | m x | s | l | d ]; try discriminate Hfd.
    destruct (make_finding_well_formed name target (World.clock w) d Hfd)
      as [f [Hf [Ht Hs]]].
    unfold record_finding. rewrite Hf.
    destruct (IH (add_finding (clk env) f (tick (tick w))))
      as [fs [w' [Hrec [Hfs Hall]]]].
    exists (f :: fs), w'. split; [exact Hrec|]. split.
    + rewrite Hfs, findings_add_finding, !findings_tick, <- app_assoc. reflexivity.
    + constructor; [|exact Hall]. exists d. repeat split; assumption.
Qed.

(** Nothing is refused in a well-formed result. *)
Lemma accepted_prefix_well_formed (target : option string)
      (payloads : list PyVal) :
  forallb (well_formed_payload target) payloads = true ->
  accepted_prefix env target payloads = (payloads, None).
Proof.
  induction payloads as [|fd rest IH]; simpl; [reflexivity|].
  intros H. apply andb_true_iff in H as [Hfd Hrest].
  destruct fd as [ | b | z | m x | s | l | d ]; try discriminate Hfd.
  destruct (make_finding_well_formed "" target 0 d Hfd) as [f [Hf _]].
  unfold payload_error. rewrite Hf. rewrite (IH Hrest). reflexivity.
Qed.

Lemma recording_of_well_formed (target : option string) (r : PyDict) :
  well_formed_result target r = true ->
  recording_of env target r = (declared_payloads r, None).
Proof.
  unfold well_formed_result, recording_of, declared_payloads.
  destruct (dict_get r "findings") as [v|]; [|reflexivity].
  destruct v; try discriminate. simpl.
  apply accepted_prefix_well_formed.
Qed.

(** C9, as amended.  For a plugin result whose finding payloads are well
    formed, the recorder appends to the session's findings one [Finding]
    per payload, in order; its target is the pipeline-extracted target when
    there is one (the payload's own target is used only when the pipeline
    extracted none, and the empty string when neither gives one); its
    severity is the payload's, "info" when the payload gives none. *)
Theorem recorder_builds_one_finding_per_payload
        (name : string) (target : option string) (pr : PyDict)
        (payloads : list PyVal) (w : World.t) :
  dict_get pr "findings" = Some (PList payloads) ->
  Forall (fun fd => well_formed_payload target fd = true) payloads ->
  exists fs w',
    record_findings env name target pr w = (Ok tt, w') /\
    findings_of w' = findings_of w ++ fs /\
    Forall2 (fun fd f =>
               exists d, fd = PDict d /\
                 PStr (Finding.target f) =
                   (if truthy target then PStr (or_else target "")
                    else get_or d "target" (PStr "")) /\
                 PStr (Finding.severity f) = get_or d "severity" (PStr "info"))
            payloads fs.
Proof.
  intros Hpay Hwf. unfold record_findings. rewrite Hpay. simpl.
  apply record_each_well_formed. exact Hwf.
Qed.

End WithEnv.

End RecorderFacts.

(** C9 at an instance: the pipeline target is "10.0.0.1", the payload has
    no severity and a target of its own. *)
Lemma recorder_builds_one_finding_per_payload_witness :
  exists fs w',
    Agent.record_findings Scenario.env0 "web_vuln" (Some "10.0.0.1")
                          Scenario.web_result Scenario.w0 = (Ok tt, w') /\
    Spec.findings_of w' = Spec.findings_of Scenario.w0 ++ fs /\
    Forall2 (fun fd f =>
               exists d, fd = PDict d /\
                 PStr (Finding.target f) =
                   (if PyStr.truthy (Some "10.0.0.1")
                    then PStr (PyStr.or_else (Some "10.0.0.1") "")
                    else get_or d "target" (PStr "")) /\
                 PStr (Finding.severity f) = get_or d "severity" (PStr "info"))
            [Scenario.web_payload] fs.
Proof.
  apply (RecorderFacts.recorder_builds_one_finding_per_payload
           Scenario.env0 "web_vuln" (Some "10.0.0.1") Scenario.web_result
           [Scenario.web_payload] Scenario.w0).
  - reflexivity.
  - repeat constructor.
Defined.

(** C9 as stated fails: the payload specifies the target
    "http://10.0.0.1", the pipeline extracted "10.0.0.1", and the recorded
    [Finding] carries the pipeline's target, not the payload's. *)
Lemma payload_target_does_not_override_pipeline_target :
  PyAny.get Scenario.web_payload "target" (PStr "") = Ok (PStr "http://10.0.0.1") /\
  map Finding.target
      (Spec.findings_of
         (snd (Agent.record_findings Scenario.env0 "web_vuln" (Some "10.0.0.1")
                                     Scenario.web_result Scenario.w0)))
  = ["10.0.0.1"].
Proof. split; reflexivity. Qed.

(** ** The pipeline *)
Module PipelineFacts.
Import PyStr Spec PyStrFacts Config Scope MemoryManager MemoryFacts Agent
       RecorderFacts SafetyFacts.

Lemma Forall2_map_pair {A B C : Type} (R : C * A -> B -> Prop) (c : C)
      (l : list A) (l' : list B) :
  Forall2 (fun a b => R (c, a) b) l l' -> Forall2 R (map (pair c) l) l'.
Proof. induction 1; simpl; constructor; auto. Qed.

Section WithEnv.
Variable env : Collaborators.

Lemma findings_entry (query : string) (w : World.t) :
  findings_of (entry env query w) = findings_of w.
Proof.
  unfold entry. rewrite findings_add_conversation. apply findings_ensure_session.
Qed.

Lemma executions_entry (query : string) (w : World.t) :
  executions_of (entry env query w) = executions_of w.
Proof.
  unfold entry. rewrite executions_add_conversation. apply executions_ensure_session.
Qed.

(** The entries of a selected plugin: the result it returned, then the
    failed result for the exception that ended its turn. *)
Lemma entries_of_turn (context : RequestContext.t) (target : option string)
      (p : BasePlugin.t) :
  entries_of env context target p
  = match BasePlugin.execute p context with
    | Ok r => [r]
    | Raise _ => []
    end
    ++ match turn_error env context target p with
       | Some e => [failed_result (BasePlugin.name p) e]
       | None => []
       end.
Proof.
  unfold entries_of, turn_error.
  destruct (BasePlugin.execute p context) as [r|e]; [|reflexivity].
  destruct (recording_error env target r); reflexivity.
Qed.

(** One turn of the loop: the result is appended when [execute] returned
    one, the payloads accepted are recorded, and the turn ends with the
    first exception that arises. *)
Lemma try_plugin_spec (context : RequestContext.t) (target : option string)
      (p : BasePlugin.t) (results : list PyDict) (w : World.t) :
  exists fs,
    fst (try_plugin env p context target results w)
    = (results ++ match BasePlugin.execute p context with
                  | Ok r => [r]
                  | Raise _ => []
                  end,
       turn_error env context target p) /\
    findings_of (snd (try_plugin env p context target results w))
    = findings_of w ++ fs /\
    Forall2 (built_from env target) (payloads_of env context target p) fs.
Proof.
  unfold try_plugin, turn_error, payloads_of, recording_error.
  destruct (BasePlugin.execute p context) as [pr|e].
  - destruct (record_findings_spec env (BasePlugin.name p) target pr w)
      as [fs [Hres [Hf [Hall _]]]].
    destruct (record_findings env (BasePlugin.name p) target pr w) as [res w1].
    simpl in Hres, Hf.
    exists fs. destruct (snd (recording_of env target pr)) as [e|]; subst res.
    + simpl. split; [reflexivity|]. split; [exact Hf|].
      now apply Forall2_map_pair.
    + pose proof (record_execution_spec env (BasePlugin.name p) target pr w1) as Hx.
      pose proof (findings_record_execution env (BasePlugin.name p) target pr w1)
        as Hfx.
      destruct (record_execution env (BasePlugin.name p) target pr w1) as [res w2].
      simpl in Hx, Hfx.
      destruct (logging_error env pr) as [e|]; subst res; simpl;
        (split; [reflexivity|]); (split; [congruence|]);
        now apply Forall2_map_pair.
  - exists []. simpl. rewrite !app_nil_r. repeat split. constructor.
Qed.

(** The plugin loop: it runs to its end unless a turn leaves it; the
    entries every selected plugin leaves in [results], in order, and the
    findings recorded by the turns that came, in order. *)
Lemma run_plugins_spec (context : RequestContext.t) (target : option string)
      (ps : list BasePlugin.t) (results : list PyDict) (w : World.t) :
  exists fs,
    fst (run_plugins env ps context target results w)
    = match snd (turns env context target ps) with
      | Some e => Raise e
      | None => Ok (results ++ flat_map (entries_of env context target) ps)
      end /\
    findings_of (snd (run_plugins env ps context target results w))
    = findings_of w ++ fs /\
    Forall2 (built_from env target)
            (flat_map (payloads_of env context target)
                      (fst (turns env context target ps))) fs.
Proof.
  revert results w. induction ps as [|p ps IH]; intros results w.
  - exists []. simpl. rewrite !app_nil_r. repeat split. constructor.
  - cbn [run_plugins turns flat_map].
    destruct (try_plugin_spec context target p results w) as [fs1 [Ht [Hf1 Hall1]]].
    destruct (try_plugin env p context target results w) as [[res oe] w1].
    cbn [fst snd] in Ht, Hf1. injection Ht as -> ->.
    rewrite entries_of_turn. unfold interrupt_of.
    destruct (turn_error env context target p) as [e|].
    + destruct (is_exception e).
      * destruct (IH ((results ++ match BasePlugin.execute p context with
                                  | Ok r => [r]
                                  | Raise _ => []
                                  end)
                      ++ [failed_result (BasePlugin.name p) e]) w1)
          as [fs2 [Hr [Hf2 Hall2]]].
        destruct (turns env context target ps) as [l oe]. cbn [fst snd] in *.
        exists (fs1 ++ fs2). rewrite Hr, Hf2, Hf1, <- !app_assoc.
        split; [reflexivity|]. split; [reflexivity|].
        apply Forall2_app; assumption.
      * exists fs1. cbn [fst snd flat_map]. rewrite app_nil_r.
        repeat split; assumption.
    + destruct (IH (results ++ match BasePlugin.execute p context with
                               | Ok r => [r]
                               | Raise _ => []
                               end) w1)
        as [fs2 [Hr [Hf2 Hall2]]].
      destruct (turns env context target ps) as [l oe]. cbn [fst snd] in *.
      exists (fs1 ++ fs2). rewrite Hr, Hf2, Hf1, app_nil_r, <- !app_assoc.
      split; [reflexivity|]. split; [reflexivity|].
      apply Forall2_app; assumption.
Qed.

(** An exception that leaves the loop is not an [Exception]. *)
Lemma turns_interrupt (context : RequestContext.t) (target : option string)
      (ps : list BasePlugin.t) (e : exn) :
  snd (turns env context target ps) = Some e -> is_exception e = false.
Proof.
  induction ps as [|p ps IH]; simpl; [discriminate|].
  unfold interrupt_of.
  destruct (turn_error env context target p) as [e'|].
  - destruct (is_exception e') eqn:E.
    + destruct (turns env context target ps) as [l oe]. exact IH.
    + simpl. intros H. injection H as <-. exact E.
  - destruct (turns env context target ps) as [l oe]. exact IH.
Qed.


(** The plugins whose turn comes are among those selected. *)
Lemma turns_incl (context : RequestContext.t) (target : option string)
      (ps : list BasePlugin.t) :
  incl (fst (turns env context target ps)) ps.
Proof.
  induction ps as [|p ps IH]; simpl; [intros x []|].
  destruct (interrupt_of env context target p); simpl.
  - intros x [<- | []]. now left.
  - destruct (turns env context target ps) as [l oe]. simpl in *.
    intros x [<- | Hx]; [now left | right; now apply IH].
Qed.




Section WithAgent.
Variable self : Agent.t.

(** The dispatch stage. *)
Lemma dispatch_spec (query : string) (context : RequestContext.t)
      (target : option string) (w : World.t) :
  let matching := filter (fun p => BasePlugin.matches p query) (plugins self) in
  exists (w' : World.t) (fs : list Finding.t),
    dispatch env self query context target w
    = (matching,
       (match snd (turns env context target matching) with
        | Some e => Raise e
        | None => Ok (flat_map (entries_of env context target) matching)
        end, w')) /\
    findings_of w' = findings_of w ++ fs /\
    Forall2 (built_from env target)
            (flat_map (payloads_of env context target)
                      (fst (turns env context target matching))) fs.
Proof.
  intros matching. unfold dispatch. fold matching.
  destruct (run_plugins_spec context target matching [] w) as [fs [Hr [Hf Hall]]].
  destruct (run_plugins env matching context target [] w) as [results w'].
  simpl in Hr, Hf. subst results. exists w', fs. repeat split; assumption.
Qed.

(** An exception that leaves the dispatch stage is not an [Exception]. *)
Lemma dispatch_raises (query : string) (context : RequestContext.t)
      (target : option string) (w : World.t) (e : exn) :
  fst (snd (dispatch env self query context target w)) = Raise e ->
  is_exception e = false.
Proof.
  destruct (dispatch_spec query context target w) as [w' [fs [Hd _]]].
  rewrite Hd. cbn [fst snd].
  destruct (snd (turns env context target
                   (filter (fun p => BasePlugin.matches p query) (plugins self))))
    as [e'|] eqn:E; [|discriminate].
  intros H. injection H as <-. exact (turns_interrupt _ _ _ _ E).
Qed.

(** What the summary stage returns: the completed envelope, the envelope
    of the outer handler, or the exception that leaves the method. *)
Lemma summarise_cases (query : string) (target : option string) (resp : string)
      (matching : list BasePlugin.t) (results : result (list PyDict))
      (w : World.t) :
  (exists rs response,
      results = Ok rs /\
      fst (summarise env query target resp (matching, (results, w)))
      = Ok (completed_envelope query target (map BasePlugin.name matching)
                               rs response resp)) \/
  (exists msg,
      fst (summarise env query target resp (matching, (results, w)))
      = Ok (error_envelope msg query)) \/
  (exists e,
      fst (summarise env query target resp (matching, (results, w))) = Raise e).
Proof.
  unfold summarise, pipeline_failed.
  destruct results as [rs|e].
  - destruct (_generate_response_summary env w query rs resp) as [response|e].
    + destruct (save_session (clk env) (disk_writable env) (json_dump env) _)
        as [[saved|e] w'].
      * left. exists rs, response. split; reflexivity.
      * destruct (is_exception e); [right; left | right; right];
          eexists; reflexivity.
    + destruct (is_exception e); [right; left | right; right];
        eexists; reflexivity.
  - destruct (is_exception e); [right; left | right; right];
      eexists; reflexivity.
Qed.



(** Past the scope gate, [process_query] is the safety gate and what
    follows it. *)
Lemma process_query_past_scope (query : string) (rc : option bool) (w : World.t) :
  scope_gate_open self query ->
  process_query env self query rc w =
  safety_gate env self query rc (_extract_target query) (entry env query w).
Proof.
  unfold scope_gate_open, process_query.
  destruct (_extract_target query) as [t|].
  - intros Hopen. destruct (truthy (Some t)).
    + rewrite (Hopen eq_refl). reflexivity.
    + reflexivity.
  - intros _. reflexivity.
Qed.

(** Past both gates, with the planning text obtained: the dispatch stage
    is run, then the summary stage. *)
Lemma process_query_dispatched (query : string) (rc : option bool) (w : World.t)
      (resp : string) :
  scope_gate_open self query ->
  safety_gate_open self query rc ->
  planning_returns env query w resp ->
  let target := _extract_target query in
  let context := build_context query target (entry env query w) in
  process_query env self query rc w
  = summarise env query target resp
              (dispatch env self query context target (entry env query w)).
Proof.
  intros Hscope Hsafe Hplan target context.
  rewrite (process_query_past_scope query rc w Hscope).
  unfold safety_gate. unfold safety_gate_open, confirmation_required in Hsafe.
  rewrite Hsafe. unfold plan_and_dispatch. fold target. fold context.
  unfold planning_returns in Hplan. fold target in Hplan. fold context in Hplan.
  rewrite Hplan. reflexivity.
Qed.

(** An envelope of the stages after the scope gate that has a results
    list is a completed envelope: its results are those of the dispatch. *)
Lemma safety_gate_results (query : string) (rc : option bool)
      (target : option string) (w : World.t) (e : Envelope.t)
      (rs : list PyDict) :
  fst (safety_gate env self query rc target w) = Ok e ->
  Envelope.results e = Some rs ->
  Envelope.success e = true /\
  exists resp,
    planning env query (build_context query target w) w = Ok resp /\
    fst (snd (dispatch env self query (build_context query target w) target w))
    = Ok rs.
Proof.
  unfold safety_gate.
  destruct (_is_dangerous_action (safety (config self)) query
            && opt_or rc (require_confirmation (safety (config self)))).
  - simpl. intros H. injection H as <-. discriminate.
  - unfold plan_and_dispatch, pipeline_failed.
    destruct (planning env query (build_context query target w) w) as [resp|ex].
    + destruct (dispatch env self query (build_context query target w) target w)
        as [matching [results w1]].
      unfold summarise, pipeline_failed.
      destruct results as [results|ex].
      * destruct (_generate_response_summary env w1 query results resp)
          as [response|ex].
        -- destruct (save_session (clk env) (disk_writable env) (json_dump env) _)
             as [[saved|ex] w2].
           ++ simpl. intros H. injection H as <-. intros H. injection H as <-.
              split; [reflexivity|]. exists resp. split; reflexivity.
           ++ destruct (is_exception ex); simpl; intros H;
                [injection H as <-|]; discriminate.
        -- destruct (is_exception ex); simpl; intros H;
             [injection H as <-|]; discriminate.
      * destruct (is_exception ex); simpl; intros H;
          [injection H as <-|]; discriminate.
    + destruct (is_exception ex); simpl; intros H;
        [injection H as <-|]; discriminate.
Qed.

End WithAgent.
End WithEnv.

End PipelineFacts.

(** ** The pipeline: the claims *)
Module PipelineTheorems.
Import PyStr Spec PyStrFacts Config Scope MemoryManager MemoryFacts Agent
       RecorderFacts SafetyFacts PipelineFacts Scenario.

Lemma safety_gate_not_out_of_scope (env : Collaborators) (self : Agent.t)
      (query : string) (rc : option bool) (target : option string) (w : World.t)
      (msg t : string) :
  fst (safety_gate env self query rc target w) <> Ok (out_of_scope_envelope msg t).
Proof.
  unfold safety_gate.
  destruct (_is_dangerous_action (safety (config self)) query
            && opt_or rc (require_confirmation (safety (config self)))).
  - simpl. discriminate.
  - unfold plan_and_dispatch.
    destruct (planning env query (build_context query target w) w) as [resp|e].
    + destruct (dispatch env self query (build_context query target w) target w)
        as [matching [results w1]].
      destruct (summarise_cases env query target resp matching results w1)
        as [[rs [response [_ ->]]] | [[m ->] | [e ->]]]; discriminate.
    + unfold pipeline_failed. destruct (is_exception e); simpl; discriminate.
Qed.

(** C1, as amended.  For a query that the scope gate lets through (no
    target extracted, or the target in scope), in whose lower-cased text a
    configured keyword occurs, and with confirmation required (by the
    per-call override, else by the configuration): [process_query] returns
    the envelope with [requires_confirmation = true], [success = false]
    and the query as [action]; the session's findings and tool executions
    are what they were; and the outcome is the same whatever plugins are
    registered, none being run. *)
Theorem dangerous_query_awaits_confirmation
        (env : Collaborators) (self : Agent.t) (query : string)
        (rc : option bool) (w : World.t) :
  scope_gate_open self query ->
  (exists k, In k (dangerous_actions (safety (config self))) /\
             occurs k (lower query)) ->
  confirmation_required self rc = true ->
  exists (e : Envelope.t) (w' : World.t),
    process_query env self query rc w = (Ok e, w') /\
    Envelope.requires_confirmation e = Some true /\
    Envelope.success e = false /\
    Envelope.action e = Some query /\
    Envelope.results e = None /\
    findings_of w' = findings_of w /\
    executions_of w' = executions_of w /\
    forall ps : list BasePlugin.t,
      process_query env (Agent.mk (config self) ps) query rc w = (Ok e, w').
Proof.
  intros Hscope Hkw Hconf.
  apply is_dangerous_action_iff in Hkw.
  exists (requires_confirmation_envelope query), (entry env query w).
  assert (Hgate : forall ps,
             process_query env (Agent.mk (config self) ps) query rc w
             = (Ok (requires_confirmation_envelope query), entry env query w)).
  { intros ps. rewrite process_query_past_scope by exact Hscope.
    unfold safety_gate. simpl. unfold confirmation_required in Hconf.
    rewrite Hkw, Hconf. reflexivity. }
  split.
  - destruct self as [cfg ps]. apply (Hgate ps).
  - repeat split; try reflexivity; auto using findings_entry, executions_entry.
Qed.

(** The specification's scenario: keyword "exploit", confirmation on, a
    target inside 192.168.1.0/24. *)
Lemma dangerous_query_awaits_confirmation_witness :
  exists (e : Envelope.t) (w' : World.t),
    process_query env0 agent_lab "exploit ms17-010 on 192.168.1.10" None w0
    = (Ok e, w') /\
    Envelope.requires_confirmation e = Some true /\
    Envelope.success e = false /\
    Envelope.action e = Some "exploit ms17-010 on 192.168.1.10" /\
    Envelope.results e = None /\
    findings_of w' = findings_of w0 /\
    executions_of w' = executions_of w0 /\
    forall ps : list BasePlugin.t,
      process_query env0 (Agent.mk (config agent_lab) ps)
                    "exploit ms17-010 on 192.168.1.10" None w0 = (Ok e, w').
Proof.
  apply (dangerous_query_awaits_confirmation
           env0 agent_lab "exploit ms17-010 on 192.168.1.10" None w0).
  - unfold scope_gate_open.
    replace (_extract_target "exploit ms17-010 on 192.168.1.10")
      with (Some "192.168.1.10") by (vm_compute; reflexivity).
    intros _. vm_compute. reflexivity.
  - exists "exploit". split; [now left|].
    exists "", " ms17-010 on 192.168.1.10". reflexivity.
  - reflexivity.
Defined.

(** C1 as stated fails: the query contains the keyword "exploit" and
    confirmation is required, but its target 10.0.0.5 is outside
    192.168.1.0/24; the scope gate comes first and answers with the
    out-of-scope envelope, which has no [requires_confirmation] key. *)
Lemma out_of_scope_precedes_confirmation :
  occurs "exploit" "exploit ms17-010 on 10.0.0.5" /\
  In "exploit" (dangerous_actions (safety (config agent_lab))) /\
  confirmation_required agent_lab None = true /\
  fst (process_query env0 agent_lab "exploit ms17-010 on 10.0.0.5" None w0)
  = Ok (out_of_scope_envelope "Target 10.0.0.5 is out of scope" "10.0.0.5") /\
  Envelope.requires_confirmation
    (out_of_scope_envelope "Target 10.0.0.5 is out of scope" "10.0.0.5") = None.
Proof.
  split; [exists "", " ms17-010 on 10.0.0.5"; reflexivity|].
  split; [now left|]. split; [reflexivity|].
  split; [vm_compute; reflexivity | reflexivity].
Qed.

(** C4.  When [_extract_target] returns no target, [process_query] does
    not consult the scope configuration (the outcome is the same under any
    two of them), never answers with the out-of-scope envelope, and goes on
    to the safety gate; when that gate is open and the planning text is
    obtained, the plugins that match the query are dispatched and the
    outcome is that of the summary stage after them. *)
Theorem untargeted_query_is_never_scope_checked
        (env : Collaborators) (safety_cfg : SafetyConfig)
        (ps : list BasePlugin.t) (query : string) (rc : option bool)
        (w : World.t) :
  _extract_target query = None ->
  forall sc : ScopeConfig,
    let self := Agent.mk (mkOrchestratorConfig sc safety_cfg) ps in
    (forall sc' : ScopeConfig,
        process_query env (Agent.mk (mkOrchestratorConfig sc' safety_cfg) ps)
                      query rc w
        = process_query env self query rc w) /\
    (forall msg t : string,
        fst (process_query env self query rc w) <> Ok (out_of_scope_envelope msg t)) /\
    process_query env self query rc w
    = safety_gate env self query rc None (entry env query w) /\
    (safety_gate_open self query rc ->
     forall resp, planning_returns env query w resp ->
       let context := build_context query None (entry env query w) in
       let dispatched := dispatch env self query context None (entry env query w) in
       fst dispatched = filter (fun p => BasePlugin.matches p query) ps /\
       process_query env self query rc w
       = summarise env query None resp dispatched).
Proof.
  intros Hnone sc self.
  assert (Hopen : forall sc',
             scope_gate_open (Agent.mk (mkOrchestratorConfig sc' safety_cfg) ps) query).
  { intros sc'. unfold scope_gate_open. rewrite Hnone. exact I. }
  assert (Hpast : forall sc',
             process_query env (Agent.mk (mkOrchestratorConfig sc' safety_cfg) ps)
                           query rc w
             = safety_gate env self query rc None (entry env query w)).
  { intros sc'. rewrite process_query_past_scope by apply Hopen.
    rewrite Hnone. reflexivity. }
  split; [|split; [|split]].
  - intros sc'. rewrite (Hpast sc'). symmetry. apply (Hpast sc).
  - intros msg t. unfold self. rewrite (Hpast sc).
    apply safety_gate_not_out_of_scope.
  - apply (Hpast sc).
  - intros Hsafe resp Hplan context dispatched. split; [reflexivity|].
    pose proof (process_query_dispatched env self query rc w resp
                  (Hopen sc) Hsafe Hplan) as Hq.
    rewrite Hnone in Hq. exact Hq.
Qed.

(** Strict mode with both allow-lists empty: the untargeted query is
    dispatched all the same, to the Nmap plugin. *)
Lemma untargeted_query_is_never_scope_checked_witness :
  _extract_target "scan for open ports" = None /\
  strict_mode (scope cfg_closed) = true /\
  let context := build_context "scan for open ports" None
                               (entry env0 "scan for open ports" w0) in
  let dispatched := dispatch env0 agent_closed "scan for open ports" context None
                             (entry env0 "scan for open ports" w0) in
  fst dispatched
  = filter (fun p => BasePlugin.matches p "scan for open ports")
           [NmapPlugin.plugin nmap0] /\
  process_query env0 agent_closed "scan for open ports" None w0
  = summarise env0 "scan for open ports" None "plan" dispatched.
Proof.
  assert (Hnone : _extract_target "scan for open ports" = None)
    by (vm_compute; reflexivity).
  split; [exact Hnone|]. split; [reflexivity|].
  refine (proj2 (proj2 (proj2
            (untargeted_query_is_never_scope_checked
               env0 default_safety [NmapPlugin.plugin nmap0]
               "scan for open ports" None w0 Hnone (mkScopeConfig [] [] true))))
            _ "plan" _); reflexivity.
Defined.



(** C5 as stated fails.  Two plugins are registered and both match the
    query.  The [execute] of the first raises [KeyboardInterrupt], which
    neither the handler of the loop nor the outer handler catches (both
    are [except Exception]): [process_query] raises, no failed result is
    recorded for the first plugin, and the second plugin, which would
    report one finding, is not executed. *)
Lemma interrupt_ends_the_dispatch :
  filter (fun p => BasePlugin.matches p "check the site")
         (plugins agent_interrupted) = [interrupted_plugin; reporting_plugin] /\
  (forall context, BasePlugin.execute interrupted_plugin context
                   = Raise KeyboardInterrupt) /\
  (forall context, BasePlugin.execute reporting_plugin context = Ok web_result) /\
  fst (process_query env0 agent_interrupted "check the site" None w0)
  = Raise KeyboardInterrupt /\
  findings_of (snd (process_query env0 agent_interrupted "check the site" None w0))
  = [] /\
  map Finding.description
      (findings_of
         (snd (process_query env0 (Agent.mk cfg_closed [reporting_plugin])
                             "check the site" None w0)))
  = ["XSS"].
Proof.
  split; [reflexivity|]. split; [reflexivity|]. split; [reflexivity|].
  split; [vm_compute; reflexivity|]. split; vm_compute; reflexivity.
Qed.


(** The same with a plugin that gives its findings as a list of strings:
    the first [finding_data.get] raises. *)
Example recording_failure_on_text_findings :
  exists (e : Envelope.t) (w' : World.t),
    process_query env0 agent_text_findings "check the site" None w0 = (Ok e, w') /\
    Envelope.plugins_executed e = Some ["notes"] /\
    Envelope.results e =
    Some [text_findings_result;
          failed_result "notes" (Exception "'str' object has no attribute 'get'")].
Proof.
  eexists. eexists. split; [vm_compute; reflexivity|].
  repeat split.
Qed.

(** The same with a well-formed result whose raw result is an integer of
    4301 digits: [str(raw_result)] raises inside the [try], the handler
    appends a failed result, and no tool execution is logged. *)
Example recording_failure_on_long_integer :
  well_formed_result None long_integer_result = true /\
  exists (e : Envelope.t) (w' : World.t),
    process_query env_digits agent_long_integer "check the site" None w0
    = (Ok e, w') /\
    Envelope.plugins_executed e = Some ["counter"] /\
    Envelope.results e =
    Some [long_integer_result;
          failed_result "counter" (Exception digits_limit)] /\
    executions_of w' = [].
Proof.
  split; [reflexivity|].
  eexists. eexists. split; [vm_compute; reflexivity|].
  repeat split.
Qed.

(** C10.  Whenever [process_query] returns an envelope that has a results
    list, that envelope has [success = true], and the list is the one the
    dispatch stage produced, whatever the [success] flags of its entries
    are.  It does return such an envelope when the two gates are open, the
    planning text is obtained, the plugin loop runs to its end, the
    summary of the results is made and the saving of the session is not
    interrupted. *)
Theorem completed_query_reports_success
        (env : Collaborators) (self : Agent.t) (query : string)
        (rc : option bool) (w : World.t) :
  let target := _extract_target query in
  let context := build_context query target (entry env query w) in
  let dispatched := dispatch env self query context target (entry env query w) in
  (forall (e : Envelope.t) (w' : World.t) (rs : list PyDict),
      process_query env self query rc w = (Ok e, w') ->
      Envelope.results e = Some rs ->
      Envelope.success e = true /\ fst (snd dispatched) = Ok rs) /\
  (forall (resp response : string) (results : list PyDict) (saved : bool),
      scope_gate_open self query ->
      safety_gate_open self query rc ->
      planning_returns env query w resp ->
      fst (snd dispatched) = Ok results ->
      _generate_response_summary env (snd (snd dispatched)) query results resp
      = Ok response ->
      fst (save_session (clk env) (disk_writable env) (json_dump env)
             (add_conversation (clk env) "assistant" response
                               (snd (snd dispatched)))) = Ok saved ->
      exists (e : Envelope.t) (w' : World.t),
        process_query env self query rc w = (Ok e, w') /\
        Envelope.results e = Some results /\
        Envelope.success e = true).
Proof.
  intros target context dispatched. split.
  - intros e w' rs Hq Hrs.
    assert (Hgate : fst (safety_gate env self query rc target (entry env query w))
                    = Ok e ->
                    Envelope.success e = true /\ fst (snd dispatched) = Ok rs).
    { intros He.
      destruct (safety_gate_results env self query rc _ _ e rs He Hrs)
        as [Hs [resp [_ Hd]]].
      split; [exact Hs | exact Hd]. }
    unfold process_query in Hq. fold target in Hq.
    destruct target as [t|].
    + destruct (truthy (Some t)).
      * destruct (_check_scope (scope (config self)) t) as [[|]|ex].
        -- apply Hgate. rewrite Hq. reflexivity.
        -- injection Hq as <- _. simpl in Hrs. discriminate.
        -- discriminate.
      * apply Hgate. rewrite Hq. reflexivity.
    + apply Hgate. rewrite Hq. reflexivity.
  - intros resp response results saved Hscope Hsafe Hplan Hres Hsum Hsave.
    pose proof (process_query_dispatched env self query rc w resp
                  Hscope Hsafe Hplan) as Hq.
    cbv zeta in Hq. fold target in Hq. fold context in Hq. fold dispatched in Hq.
    rewrite Hq. clear Hq.
    destruct dispatched as [matching [res w1]]. simpl in Hres, Hsum, Hsave |- *.
    subst res. unfold summarise. rewrite Hsum.
    destruct (save_session (clk env) (disk_writable env) (json_dump env) _)
      as [sv w2]. simpl in Hsave. subst sv.
    eexists. eexists. split; [reflexivity|]. split; reflexivity.
Qed.

(** The Nmap plugin matches "scan for open ports", finds no target in the
    context and reports [success = false] with "No target specified": the
    only result fails, the envelope succeeds. *)
Lemma completed_query_reports_success_witness :
  fst (snd (dispatch env0 agent_closed "scan for open ports"
              (build_context "scan for open ports" None
                             (entry env0 "scan for open ports" w0))
              None (entry env0 "scan for open ports" w0)))
  = Ok [[("success", PBool false); ("error", PStr "No target specified")]] /\
  exists (e : Envelope.t) (w' : World.t),
    process_query env0 agent_closed "scan for open ports" None w0 = (Ok e, w') /\
    Envelope.results e
    = Some [[("success", PBool false); ("error", PStr "No target specified")]] /\
    Envelope.success e = true.
Proof.
  split; [vm_compute; reflexivity|].
  assert (Hnone : _extract_target "scan for open ports" = None)
    by (vm_compute; reflexivity).
  generalize (proj2 (completed_query_reports_success
                       env0 agent_closed "scan for open ports" None w0) "plan").
  cbv zeta. rewrite Hnone. intros H. eapply H.
  - unfold scope_gate_open. rewrite Hnone. exact I.
  - reflexivity.
  - reflexivity.
  - vm_compute. reflexivity.
  - vm_compute. reflexivity.
  - vm_compute. reflexivity.
Defined.

End PipelineTheorems.

(** ** The backtracking matcher against what a pattern denotes *)
Module ReFacts.
Import Unicode Re.

Lemma last_of_app (p : option N) (w1 w2 : text) :
  last_of p (w1 ++ w2) = last_of (last_of p w1) w2.
Proof. apply fold_left_app. Qed.

(** Inversion of [matches], one lemma per shape of pattern. *)
Lemma matches_Empty_inv p w rest : matches Empty p w rest -> w = [].
Proof. inversion 1; reflexivity. Qed.

Lemma matches_Chars_inv cs p w rest :
  matches (Chars cs) p w rest -> exists c, w = [c] /\ in_set cs c = true.
Proof. inversion 1; subst; eauto. Qed.

Lemma matches_Cat_inv r1 r2 p w rest :
  matches (Cat r1 r2) p w rest ->
  exists w1 w2, w = w1 ++ w2 /\ matches r1 p w1 (w2 ++ rest) /\
                matches r2 (last_of p w1) w2 rest.
Proof. inversion 1; subst; eauto. Qed.

Lemma matches_Or_inv r1 r2 p w rest :
  matches (Or r1 r2) p w rest -> matches r1 p w rest \/ matches r2 p w rest.
Proof. inversion 1; subst; auto. Qed.

Lemma matches_Plus_inv r p w rest :
  matches (Plus r) p w rest ->
  matches r p w rest \/
  exists w1 w2, w = w1 ++ w2 /\ matches r p w1 (w2 ++ rest) /\
                matches (Plus r) (last_of p w1) w2 rest.
Proof. inversion 1; subst; eauto 6. Qed.

Lemma matches_Boundary_inv p w rest :
  matches Boundary p w rest -> w = [] /\ is_boundary p rest = true.
Proof. inversion 1; subst; auto. Qed.

(** The loop of [+] is sound once its body is. *)
Lemma iterate_sound (r : regex)
      (IH : forall p s k x, run r p s k = Some x ->
              exists w rest, s = w ++ rest /\ matches r p w rest /\
                             k (last_of p w) rest = Some x)
      (k : cont) (fuel : nat) :
  forall p s x,
    iterate (run r) k fuel p s = Some x ->
    exists w rest, s = w ++ rest /\ matches (Plus r) p w rest /\
                   k (last_of p w) rest = Some x.
Proof.
  induction fuel as [|fuel IHf]; intros p s x H; simpl in H; [discriminate|].
  apply IH in H. destruct H as [w1 [rest1 [-> [Hm HK]]]].
  destruct (length rest1 <? length (w1 ++ rest1)).
  - destruct (iterate (run r) k fuel (last_of p w1) rest1) as [y|] eqn:E.
    + injection HK as ->. apply IHf in E.
      destruct E as [w2 [rest [-> [Hm2 Hk]]]].
      exists (w1 ++ w2), rest. rewrite app_assoc. split; [reflexivity|].
      split; [now apply MPlusS|]. now rewrite last_of_app.
    + exists w1, rest1. repeat split; auto. now apply MPlus1.
  - exists w1, rest1. repeat split; auto. now apply MPlus1.
Qed.

(** Soundness: when the matcher succeeds, it has read a word the pattern
    denotes, and the continuation accepted the position after it. *)
Lemma run_sound (r : regex) :
  forall p s k x,
    run r p s k = Some x ->
    exists w rest, s = w ++ rest /\ matches r p w rest /\
                   k (last_of p w) rest = Some x.
Proof.
  induction r as [|cs|r1 IH1 r2 IH2|r1 IH1 r2 IH2|r IH|]; intros p s k x H; simpl in H.
  - exists [], s. repeat split; auto. constructor.
  - destruct s as [|c s]; [discriminate|].
    destruct (in_set cs c) eqn:E; [|discriminate].
    exists [c], s. repeat split; auto. now constructor.
  - apply IH1 in H. destruct H as [w1 [rest1 [-> [Hm1 H]]]].
    apply IH2 in H. destruct H as [w2 [rest [-> [Hm2 H]]]].
    exists (w1 ++ w2), rest. rewrite app_assoc. split; [reflexivity|].
    split; [now apply MCat|]. now rewrite last_of_app.
  - destruct (run r1 p s k) as [y|] eqn:E.
    + injection H as ->. apply IH1 in E.
      destruct E as [w [rest [-> [Hm Hk]]]].
      exists w, rest. repeat split; auto. now apply MOrL.
    + apply IH2 in H. destruct H as [w [rest [-> [Hm Hk]]]].
      exists w, rest. repeat split; auto. now apply MOrR.
  - now apply (iterate_sound r IH k (S (length s))).
  - destruct (is_boundary p s) eqn:E; [|discriminate].
    exists [], s. repeat split; auto. now constructor.
Qed.

(** The loop of [+] is complete once its body is. *)
Lemma iterate_complete (r : regex)
      (IH : forall p w rest (k : cont) x,
          matches r p w rest -> k (last_of p w) rest = Some x ->
          exists y, run r p (w ++ rest) k = Some y)
      (k : cont) :
  forall R p w rest,
    matches R p w rest -> R = Plus r ->
    forall fuel x,
      length (w ++ rest) < fuel ->
      k (last_of p w) rest = Some x ->
      exists y, iterate (run r) k fuel p (w ++ rest) = Some y.
Proof.
  induction 1 as [| | | | |r' p w rest Hm _|r' p w1 w2 rest Hm1 _ Hm2 IHm2|];
    intros HR fuel x Hfuel Hk; try discriminate; injection HR as ->.
  - destruct fuel as [|fuel]; [lia|]. simpl.
    destruct (length rest <? length (w ++ rest)) eqn:El.
    + destruct (iterate (run r) k fuel (last_of p w) rest) as [y|] eqn:Ei.
      * apply (IH p w rest _ y Hm). rewrite El, Ei. reflexivity.
      * apply (IH p w rest _ x Hm). rewrite El, Ei. exact Hk.
    + apply (IH p w rest _ x Hm). rewrite El. exact Hk.
  - destruct w1 as [|c w1].
    + simpl in *. now apply (IHm2 eq_refl fuel x).
    + destruct fuel as [|fuel]; [lia|].
      rewrite <- app_assoc. cbn [iterate].
      rewrite last_of_app in Hk.
      assert (Hlen : length (w2 ++ rest) < length ((c :: w1) ++ w2 ++ rest))
        by (rewrite !length_app; simpl; lia).
      destruct (IHm2 eq_refl fuel x) as [y Hy].
      { rewrite <- app_assoc, length_app in Hfuel. simpl in Hfuel.
        rewrite !length_app in *. lia. }
      { exact Hk. }
      apply (IH p (c :: w1) (w2 ++ rest) _ y Hm1).
      apply Nat.ltb_lt in Hlen. rewrite Hlen, Hy. reflexivity.
Qed.

(** Completeness: when the pattern denotes a word at the current position
    and the continuation accepts the position after it, the matcher
    succeeds (possibly with another word of higher priority). *)
Lemma run_complete (r : regex) :
  forall p w rest (k : cont) x,
    matches r p w rest -> k (last_of p w) rest = Some x ->
    exists y, run r p (w ++ rest) k = Some y.
Proof.
  induction r as [|cs|r1 IH1 r2 IH2|r1 IH1 r2 IH2|r IH|]; intros p w rest k x Hm Hk.
  - apply matches_Empty_inv in Hm. subst. simpl in *. eauto.
  - apply matches_Chars_inv in Hm. destruct Hm as [c [-> Hc]].
    simpl in *. rewrite Hc. eauto.
  - apply matches_Cat_inv in Hm. destruct Hm as [w1 [w2 [-> [Hm1 Hm2]]]].
    rewrite last_of_app in Hk.
    destruct (IH2 _ _ _ k x Hm2 Hk) as [y Hy].
    rewrite <- app_assoc. simpl.
    apply (IH1 p w1 (w2 ++ rest) _ y Hm1). exact Hy.
  - simpl. destruct (run r1 p (w ++ rest) k) as [y|] eqn:E; [eauto|].
    apply matches_Or_inv in Hm. destruct Hm as [Hm | Hm].
    + destruct (IH1 _ _ _ k x Hm Hk) as [y Hy]. congruence.
    + apply (IH2 _ _ _ k x Hm Hk).
  - change (exists y, iterate (run r) k (S (length (w ++ rest))) p (w ++ rest) = Some y).
    apply (iterate_complete r IH k (Plus r) p w rest Hm eq_refl _ x); auto.
  - apply matches_Boundary_inv in Hm. destruct Hm as [-> Hb].
    simpl in *. rewrite Hb. eauto.
Qed.

(** The equations of the matcher, and what a success tells. *)
Lemma run_Cat_eq r1 r2 p s k :
  run (Cat r1 r2) p s k = run r1 p s (fun p' s' => run r2 p' s' k).
Proof. reflexivity. Qed.

Lemma run_Plus_eq r p s k :
  run (Plus r) p s k = iterate (run r) k (S (length s)) p s.
Proof. reflexivity. Qed.

Lemma run_Cat_inv r1 r2 p s k x :
  run (Cat r1 r2) p s k = Some x ->
  exists w1 s1, s = w1 ++ s1 /\ matches r1 p w1 s1 /\
                run r2 (last_of p w1) s1 k = Some x.
Proof. rewrite run_Cat_eq. apply run_sound. Qed.

Lemma run_Or_inv r1 r2 p s k x :
  run (Or r1 r2) p s k = Some x ->
  run r1 p s k = Some x \/ (run r1 p s k = None /\ run r2 p s k = Some x).
Proof.
  cbn [run]. destruct (run r1 p s k) as [y|]; intros H.
  - left. exact H.
  - right. auto.
Qed.

Lemma run_Boundary_inv p s k x :
  run Boundary p s k = Some x -> is_boundary p s = true /\ k p s = Some x.
Proof. cbn [run]. destruct (is_boundary p s); [auto | discriminate]. Qed.

(** A greedy [+] over a body that consumes text and has one way to match
    at each position: the loop goes on as long as the continuation can
    still accept later, so what it returns comes from the longest
    repetition the continuation accepts. *)
Section Greedy.
Variable r : regex.
Hypothesis consuming : forall p rest, ~ matches r p [] rest.
Hypothesis forced :
  forall p w1 rest1 w2 rest2,
    w1 ++ rest1 = w2 ++ rest2 ->
    matches r p w1 rest1 -> matches r p w2 rest2 -> w1 = w2.

Lemma iterate_greedy (k : cont) :
  forall fuel p s x,
    length s < fuel ->
    iterate (run r) k fuel p s = Some x ->
    exists w rest,
      s = w ++ rest /\ matches (Plus r) p w rest /\
      k (last_of p w) rest = Some x /\
      forall w' rest',
        s = w' ++ rest' -> matches (Plus r) p w' rest' ->
        length w < length w' -> k (last_of p w') rest' = None.
Proof.
  induction fuel as [|fuel IH]; intros p s x Hfuel H; [lia|].
  cbn [iterate] in H. apply run_sound in H.
  destruct H as [w1 [rest1 [-> [Hm1 HK]]]].
  assert (Hne : w1 <> []) by (intros ->; exact (consuming _ _ Hm1)).
  assert (Hlt : length rest1 < length (w1 ++ rest1)).
  { rewrite length_app. destruct w1; [congruence | simpl; lia]. }
  pose proof Hlt as Hltb. apply Nat.ltb_lt in Hltb. rewrite Hltb in HK.
  destruct (iterate (run r) k fuel (last_of p w1) rest1) as [y|] eqn:E.
  - injection HK as ->.
    apply IH in E; [|lia]. destruct E as [w2 [rest [-> [Hm2 [Hk Hmax]]]]].
    exists (w1 ++ w2), rest. rewrite app_assoc. split; [reflexivity|].
    split; [now apply MPlusS|]. split; [now rewrite last_of_app|].
    intros w' rest' Hs Hm' Hl. apply matches_Plus_inv in Hm'.
    destruct Hm' as [Hm' | [a [b [-> [Ha Hb]]]]].
    + rewrite <- app_assoc in Hs.
      pose proof (forced _ _ _ _ _ Hs Hm1 Hm') as <-.
      rewrite length_app in Hl. lia.
    + rewrite <- !app_assoc in Hs.
      pose proof (forced _ _ _ _ _ Hs Hm1 Ha) as <-.
      apply app_inv_head in Hs. rewrite last_of_app.
      apply (Hmax b rest' Hs Hb). rewrite !length_app in Hl. lia.
  - exists w1, rest1. split; [reflexivity|]. split; [now apply MPlus1|].
    split; [exact HK|].
    intros w' rest' Hs Hm' Hl. apply matches_Plus_inv in Hm'.
    destruct Hm' as [Hm' | [a [b [-> [Ha Hb]]]]].
    + pose proof (forced _ _ _ _ _ Hs Hm1 Hm') as <-. lia.
    + rewrite <- app_assoc in Hs.
      pose proof (forced _ _ _ _ _ Hs Hm1 Ha) as <-.
      apply app_inv_head in Hs. subst rest1.
      destruct (k (last_of p (w1 ++ b)) rest') as [t|] eqn:Ek; [|reflexivity].
      exfalso. rewrite last_of_app in Ek.
      destruct (iterate_complete r (run_complete r) k (Plus r)
                  (last_of p w1) b rest' Hb eq_refl fuel t) as [y Hy];
        [lia | exact Ek | congruence].
Qed.

End Greedy.

End ReFacts.

(** ** The scan of [findall] *)
Module ScanFacts.
Import Unicode Re Spec ReFacts.

Lemma consumed_app (w rest : text) : consumed (w ++ rest) rest = w.
Proof.
  unfold consumed. rewrite length_app.
  replace (length w + length rest - length rest) with (length w) by lia.
  rewrite firstn_app, Nat.sub_diag, firstn_all. simpl. apply app_nil_r.
Qed.

Lemma match_here_sound (r : regex) (p : option N) (s rest : text) :
  match_here r p s = Some rest ->
  exists w, s = w ++ rest /\ matches r p w rest.
Proof.
  unfold match_here. intros H. apply run_sound in H.
  destruct H as [w [rest' [-> [Hm Hk]]]]. injection Hk as ->. eauto.
Qed.

Lemma match_here_complete (r : regex) (p : option N) (w rest : text) :
  matches r p w rest -> exists rest', match_here r p (w ++ rest) = Some rest'.
Proof.
  intros Hm. unfold match_here.
  apply (run_complete r p w rest _ rest Hm). reflexivity.
Qed.

(** Two ways to cut one text at the same offset are the same. *)
Lemma app_eq_length (a b a' b' : text) :
  a ++ b = a' ++ b' -> length a = length a' -> a = a' /\ b = b'.
Proof.
  revert a'. induction a as [|x a IH]; intros [|y a'] H Hl;
    try discriminate Hl; simpl in *; [auto|].
  injection H as -> H. injection Hl as Hl.
  destruct (IH a' H Hl) as [-> ->]. auto.
Qed.

Section WithPattern.
Variable r : regex.
(** The pattern never matches the empty word. *)
Hypothesis consuming : forall p rest, ~ matches r p [] rest.
(** The match the search finds at a position is the longest word the
    pattern denotes there. *)
Hypothesis longest :
  forall p s rest, match_here r p s = Some rest ->
    forall w' rest', s = w' ++ rest' -> matches r p w' rest' ->
                     length rest <= length rest'.

(** A tokenisation of the tail, with no token at the head, is one of the
    whole. *)
Lemma Tokens_cons (p : option N) (c : N) (s : text)
      (ms : list text) :
  (forall m rest, c :: s = m ++ rest -> ~ matches r p m rest) ->
  Tokens (matches r) (Some c) s ms ->
  Tokens (matches r) p (c :: s) ms.
Proof.
  intros Hhead Htail.
  inversion Htail as [p' s' Hnone | p' gap m rest ms' Hne Hm Hleft Hlong Hrest]; subst.
  - apply TokensNone. intros [|g gap] m rest Heq.
    + apply Hhead. exact Heq.
    + simpl in Heq. injection Heq as -> Heq. apply (Hnone gap m rest Heq).
  - change (c :: gap ++ m ++ rest) with ((c :: gap) ++ m ++ rest).
    apply TokensHit; auto.
    intros [|g gap'] m' rest' Heq Hlen.
    + apply Hhead. exact Heq.
    + simpl in Heq. injection Heq as -> Heq.
      apply (Hleft gap' m' rest' Heq). simpl in Hlen. lia.
Qed.

(** The scan yields the left-to-right tokenisation. *)
Lemma scan_Tokens (fuel : nat) :
  forall p s, length s < fuel -> Tokens (matches r) p s (scan fuel r p s).
Proof.
  induction fuel as [|fuel IH]; intros p s Hlen; [lia|].
  cbn [scan]. destruct (match_here r p s) as [rest|] eqn:E.
  - destruct (match_here_sound r p s rest E) as [w [-> Hm]].
    rewrite consumed_app. destruct w as [|c w].
    + exfalso. apply (consuming p rest Hm).
    + change ((c :: w) ++ rest) with ([] ++ (c :: w) ++ rest).
      apply TokensHit.
      * discriminate.
      * exact Hm.
      * intros gap' m' rest' _ Hl. simpl in Hl. lia.
      * intros m' rest' Heq Hm'. cbn [last_of fold_left] in Hm'.
        pose proof (longest p _ rest E m' rest' Heq Hm') as Hl.
        apply (f_equal (@length N)) in Heq. rewrite !length_app in Heq. lia.
      * apply IH. rewrite length_app in Hlen. simpl in Hlen. lia.
  - assert (Hhead : forall m rest, s = m ++ rest -> ~ matches r p m rest).
    { intros m rest -> Hm. destruct (match_here_complete r p m rest Hm) as [y Hy].
      congruence. }
    destruct s as [|c s].
    + apply TokensNone. intros gap m rest Heq.
      destruct gap; [|discriminate]. apply Hhead. exact Heq.
    + apply Tokens_cons; [exact Hhead|]. apply IH. simpl in Hlen. lia.
Qed.

(** [findall] returns the left-to-right tokenisation of the text. *)
Lemma findall_Tokens (q : text) : Tokens (matches r) None q (findall r q).
Proof. apply scan_Tokens. lia. Qed.

End WithPattern.

Section WithTokens.
Variable P : option N -> text -> text -> Prop.





End WithTokens.

End ScanFacts.

(** ** What the combinators denote *)
Module DenotesFacts.
Import Unicode Re Spec ReFacts.

Lemma denotes_ext (r : regex) (L L' : text -> Prop) :
  denotes r L -> (forall w, L w <-> L' w) -> denotes r L'.
Proof. intros H HL p w rest. rewrite (H p w rest). apply HL. Qed.

Lemma denotes_Empty : denotes Empty (fun w => w = []).
Proof.
  intros p w rest. split.
  - apply matches_Empty_inv.
  - intros ->. constructor.
Qed.

Lemma denotes_Chars (cs : list class_item) :
  denotes (Chars cs) (fun w => exists c, w = [c] /\ in_set cs c = true).
Proof.
  intros p w rest. split.
  - apply matches_Chars_inv.
  - intros [c [-> Hc]]. now constructor.
Qed.

Lemma denotes_Cat (r1 r2 : regex) (L1 L2 : text -> Prop) :
  denotes r1 L1 -> denotes r2 L2 ->
  denotes (Cat r1 r2) (fun w => exists w1 w2, w = w1 ++ w2 /\ L1 w1 /\ L2 w2).
Proof.
  intros H1 H2 p w rest. split.
  - intros Hm. apply matches_Cat_inv in Hm.
    destruct Hm as [w1 [w2 [-> [Hm1 Hm2]]]].
    exists w1, w2. split; [reflexivity|]. split; [eapply H1 | eapply H2]; eauto.
  - intros [w1 [w2 [-> [Hl1 Hl2]]]]. apply MCat; [apply H1 | apply H2]; auto.
Qed.

Lemma denotes_Or (r1 r2 : regex) (L1 L2 : text -> Prop) :
  denotes r1 L1 -> denotes r2 L2 -> denotes (Or r1 r2) (fun w => L1 w \/ L2 w).
Proof.
  intros H1 H2 p w rest. split.
  - intros Hm. apply matches_Or_inv in Hm.
    destruct Hm as [Hm|Hm]; [left; eapply H1 | right; eapply H2]; eauto.
  - intros [Hl|Hl]; [apply MOrL, H1 | apply MOrR, H2]; auto.
Qed.

Lemma denotes_Plus (r : regex) (L : text -> Prop) :
  denotes r L -> denotes (Plus r) (rep1 L).
Proof.
  intros H p w rest. split.
  - intros Hm. remember (Plus r) as R eqn:ER.
    induction Hm; try discriminate; injection ER as ->.
    + apply rep1_one. eapply H; eauto.
    + apply rep1_more; [eapply H; eauto | auto].
  - intros Hl. revert p. induction Hl as [w Hw | w1 w2 Hw1 _ IH]; intros p.
    + apply MPlus1, H, Hw.
    + apply MPlusS; [apply H, Hw1 | apply IH].
Qed.

Lemma denotes_Opt (r : regex) (L : text -> Prop) :
  denotes r L -> denotes (Opt r) (fun w => L w \/ w = []).
Proof. intros H. apply denotes_Or; [exact H | exact denotes_Empty]. Qed.

(** Runs of characters of one set *)
Section Runs.
Variable cs : list class_item.
Lemma denotes_Times_class (n : nat) :
  denotes (Times n (Chars cs)) (fun w => length w = n /\ all_chars (in_set cs) w).
Proof.
  induction n as [|n IH]; simpl.
  - eapply denotes_ext; [exact denotes_Empty|].
    intros w. split.
    + intros ->. split; [reflexivity | constructor].
    + intros [Hl _]. now destruct w.
  - eapply denotes_ext; [exact (denotes_Cat _ _ _ _ (denotes_Chars cs) IH)|].
    intros w. split.
    + intros [w1 [w2 [-> [[c [-> Hc]] [Hl Hall]]]]]. simpl.
      split; [congruence | now constructor].
    + intros [Hl Hall]. destruct w as [|c w]; [discriminate|].
      inversion Hall; subst.
      exists [c], w. simpl in Hl. repeat split; eauto.
Qed.

Lemma denotes_UpTo_class (n : nat) :
  denotes (UpTo n (Chars cs)) (fun w => length w <= n /\ all_chars (in_set cs) w).
Proof.
  induction n as [|n IH]; simpl.
  - eapply denotes_ext; [exact denotes_Empty|].
    intros w. split.
    + intros ->. split; [reflexivity | constructor].
    + intros [Hl _]. destruct w; [reflexivity | simpl in Hl; lia].
  - eapply denotes_ext;
      [exact (denotes_Opt _ _ (denotes_Cat _ _ _ _ (denotes_Chars cs) IH))|].
    intros w. split.
    + intros [[w1 [w2 [-> [[c [-> Hc]] [Hl Hall]]]]] | ->]; simpl.
      * split; [lia | now constructor].
      * split; [lia | constructor].
    + intros [Hl Hall]. destruct w as [|c w]; [now right|].
      left. inversion Hall; subst. simpl in Hl.
      exists [c], w. repeat split; eauto. lia.
Qed.

Lemma all_chars_app (f : N -> bool) (w1 w2 : text) :
  all_chars f (w1 ++ w2) <-> all_chars f w1 /\ all_chars f w2.
Proof. apply Forall_app. Qed.

Lemma denotes_Between_class (m n : nat) :
  m <= n ->
  denotes (Between m n (Chars cs)) (fun w => m <= length w <= n /\ all_chars (in_set cs) w).
Proof.
  intros Hmn. unfold Between.
  eapply denotes_ext;
    [exact (denotes_Cat _ _ _ _ (denotes_Times_class m) (denotes_UpTo_class (n - m)))|].
  intros w. split.
  - intros [w1 [w2 [-> [[Hl1 Ha1] [Hl2 Ha2]]]]].
    rewrite length_app. split; [lia|]. apply all_chars_app. auto.
  - intros [Hl Hall]. exists (firstn m w), (skipn m w).
    rewrite firstn_skipn. split; [reflexivity|].
    rewrite <- (firstn_skipn m w) in Hall. apply all_chars_app in Hall.
    destruct Hall as [Ha1 Ha2].
    rewrite length_firstn, length_skipn. repeat split; auto; lia.
Qed.

Lemma rep1_class_iff (w : text) :
  rep1 (fun w => exists c, w = [c] /\ in_set cs c = true) w <->
  w <> [] /\ all_chars (in_set cs) w.
Proof.
  split.
  - induction 1 as [w [c [-> Hc]] | w1 w2 [c [-> Hc]] _ [_ IH]].
    + split; [discriminate | now constructor].
    + split; [discriminate | now constructor].
  - intros [Hne Hall]. induction w as [|c w IH]; [congruence|].
    inversion Hall; subst. destruct w as [|d w].
    + apply rep1_one. eauto.
    + change (c :: d :: w) with ([c] ++ d :: w).
      apply rep1_more; [eauto|]. apply IH; [discriminate | assumption].
Qed.

Lemma denotes_Plus_class :
  denotes (Plus (Chars cs)) (fun w => w <> [] /\ all_chars (in_set cs) w).
Proof.
  eapply denotes_ext; [exact (denotes_Plus _ _ (denotes_Chars cs))|].
  exact rep1_class_iff.
Qed.

Lemma denotes_Star_class : denotes (Star (Chars cs)) (all_chars (in_set cs)).
Proof.
  eapply denotes_ext; [exact (denotes_Opt _ _ denotes_Plus_class)|].
  intros w. split.
  - intros [[_ H] | ->]; [exact H | constructor].
  - intros H. destruct w; [now right | left; split; [discriminate | exact H]].
Qed.

Lemma denotes_AtLeast_class (m : nat) :
  denotes (AtLeast m (Chars cs)) (fun w => m <= length w /\ all_chars (in_set cs) w).
Proof.
  unfold AtLeast.
  eapply denotes_ext;
    [exact (denotes_Cat _ _ _ _ (denotes_Times_class m) denotes_Star_class)|].
  intros w. split.
  - intros [w1 [w2 [-> [[Hl1 Ha1] Ha2]]]].
    rewrite length_app. split; [lia|]. apply all_chars_app. auto.
  - intros [Hl Hall]. exists (firstn m w), (skipn m w).
    rewrite firstn_skipn. split; [reflexivity|].
    rewrite <- (firstn_skipn m w) in Hall. apply all_chars_app in Hall.
    destruct Hall as [Ha1 Ha2].
    rewrite length_firstn. repeat split; auto; lia.
Qed.

End Runs.

(** Patterns between word boundaries *)
Lemma matches_Cat_Boundary_l (r : regex) p w rest :
  matches (Cat Boundary r) p w rest <->
  is_boundary p (w ++ rest) = true /\ matches r p w rest.
Proof.
  split.
  - intros Hm. apply matches_Cat_inv in Hm.
    destruct Hm as [w1 [w2 [-> [Hb Hm]]]].
    apply matches_Boundary_inv in Hb. destruct Hb as [-> Hb]. simpl in *. auto.
  - intros [Hb Hm]. change w with ([] ++ w). apply MCat; [now constructor | exact Hm].
Qed.

Lemma matches_Cat_Boundary_r (r : regex) (L : text -> Prop) p w rest :
  denotes r L ->
  (matches (Cat r Boundary) p w rest <->
   L w /\ is_boundary (last_of p w) rest = true).
Proof.
  intros H. split.
  - intros Hm. apply matches_Cat_inv in Hm.
    destruct Hm as [w1 [w2 [-> [Hm Hb]]]].
    apply matches_Boundary_inv in Hb. destruct Hb as [-> Hb].
    rewrite app_nil_r. split; [eapply H; eauto | exact Hb].
  - intros [Hl Hb]. rewrite <- (app_nil_r w).
    apply MCat; [apply H, Hl | now constructor].
Qed.

Lemma matches_Cat_denotes (r x : regex) (L : text -> Prop) p w rest :
  denotes r L ->
  (matches (Cat r x) p w rest <->
   exists a b, w = a ++ b /\ L a /\ matches x (last_of p a) b rest).
Proof.
  intros H. split.
  - intros Hm. apply matches_Cat_inv in Hm.
    destruct Hm as [w1 [w2 [-> [Hm1 Hm2]]]].
    exists w1, w2. repeat split; auto. eapply H; eauto.
  - intros [a [b [-> [Hl Hm]]]]. apply MCat; [apply H, Hl | exact Hm].
Qed.

End DenotesFacts.

(** ** What the two patterns of [_extract_target] denote *)
Module ShapeFacts.
Import Unicode Re Spec ReFacts DenotesFacts Agent.

Lemma all_chars_ext (f g : N -> bool) (w : text) :
  (forall c, f c = g c) -> all_chars f w <-> all_chars g w.
Proof.
  intros Hfg. unfold all_chars.
  split; apply Forall_impl; intros c; rewrite Hfg; auto.
Qed.

Lemma in_set_digit (c : N) : in_set [CDigit] c = is_digit c.
Proof. unfold in_set. simpl. apply orb_false_r. Qed.

Lemma in_set_alnum (c : N) :
  in_set [CRange "a" "z"; CRange "A" "Z"; CRange "0" "9"] c = alphanumeric c.
Proof.
  unfold in_set, alphanumeric, letter. cbn [existsb item_has].
  rewrite orb_false_r, orb_assoc. reflexivity.
Qed.

Lemma in_set_alnum_dash (c : N) :
  in_set [CRange "a" "z"; CRange "A" "Z"; CRange "0" "9"; CChar "-"] c = label_char c.
Proof.
  unfold in_set, label_char, alphanumeric, letter. cbn [existsb item_has].
  rewrite orb_false_r, !orb_assoc. reflexivity.
Qed.

Lemma in_set_alpha (c : N) :
  in_set [CRange "a" "z"; CRange "A" "Z"] c = letter c.
Proof.
  unfold in_set, letter. cbn [existsb item_has].
  rewrite orb_false_r. reflexivity.
Qed.

Lemma denotes_Lit (c : ascii) : denotes (Lit c) (fun w => w = [code c]).
Proof.
  eapply denotes_ext; [exact (denotes_Chars [CChar c])|].
  intros w. unfold in_set. cbn [existsb item_has]. split.
  - intros [d [-> Hd]]. rewrite orb_false_r in Hd.
    apply N.eqb_eq in Hd. now subst.
  - intros ->. exists (code c). rewrite N.eqb_refl. auto.
Qed.

(** *** The address pattern *)

Lemma denotes_octet : denotes (Between 1 3 digit) octet_shaped.
Proof.
  eapply denotes_ext; [apply (denotes_Between_class [CDigit] 1 3); lia|].
  intros w. unfold octet_shaped.
  rewrite (all_chars_ext _ _ w in_set_digit). tauto.
Qed.

Lemma denotes_octet_dot :
  denotes (Cat (Between 1 3 digit) (Lit "."))
          (fun w => exists o, w = o ++ [dot] /\ octet_shaped o).
Proof.
  eapply denotes_ext; [exact (denotes_Cat _ _ _ _ denotes_octet (denotes_Lit "."))|].
  intros w. split.
  - intros [o [d [-> [Ho ->]]]]. eauto.
  - intros [o [-> Ho]]. eauto.
Qed.

Lemma denotes_three_octets :
  denotes (Times 3 (Cat (Between 1 3 digit) (Lit ".")))
          (fun w => exists o1 o2 o3,
               w = (o1 ++ [dot]) ++ (o2 ++ [dot]) ++ (o3 ++ [dot]) /\
               octet_shaped o1 /\ octet_shaped o2 /\ octet_shaped o3).
Proof.
  simpl.
  eapply denotes_ext;
    [exact (denotes_Cat _ _ _ _ denotes_octet_dot
              (denotes_Cat _ _ _ _ denotes_octet_dot
                 (denotes_Cat _ _ _ _ denotes_octet_dot denotes_Empty)))|].
  intros w. split.
  - intros [d1 [x1 [-> [[o1 [-> H1]] Hx1]]]].
    destruct Hx1 as [d2 [x2 [-> [[o2 [-> H2]] Hx2]]]].
    destruct Hx2 as [d3 [x3 [-> [[o3 [-> H3]] ->]]]].
    exists o1, o2, o3. rewrite app_nil_r. auto.
  - intros [o1 [o2 [o3 [-> [H1 [H2 H3]]]]]].
    exists (o1 ++ [dot]), ((o2 ++ [dot]) ++ o3 ++ [dot]).
    split; [reflexivity|]. split; [eauto|].
    exists (o2 ++ [dot]), (o3 ++ [dot]).
    split; [reflexivity|]. split; [eauto|].
    exists (o3 ++ [dot]), []. rewrite app_nil_r. eauto.
Qed.

Lemma denotes_prefix_suffix :
  denotes (Opt (Cat (Lit "/") (Between 1 2 digit))) prefix_suffix_shaped.
Proof.
  assert (Hd : denotes (Between 1 2 digit)
                       (fun w => all_chars is_digit w /\ 1 <= length w <= 2)).
  { eapply denotes_ext; [apply (denotes_Between_class [CDigit] 1 2); lia|].
    intros w. cbv beta. rewrite (all_chars_ext _ _ w in_set_digit). tauto. }
  eapply denotes_ext;
    [exact (denotes_Opt _ _ (denotes_Cat _ _ _ _ (denotes_Lit "/") Hd))|].
  intros w. unfold prefix_suffix_shaped. split.
  - intros [[s [d [-> [-> [Ha Hl]]]]] | ->]; [right | now left].
    exists d. auto.
  - intros [-> | [d [-> [Ha Hl]]]]; [now right | left].
    exists [slash], d. auto.
Qed.

(** The address pattern denotes the IPv4-shaped words that stand between
    two word boundaries. *)
Lemma ip_pattern_denotes (p : option N) (w rest : text) :
  matches ip_pattern p w rest <-> ipv4_literal p w rest.
Proof.
  unfold ip_pattern, ipv4_literal, bounded, ipv4_shaped.
  rewrite matches_Cat_Boundary_l.
  rewrite (matches_Cat_denotes _ _ _ p w rest denotes_three_octets).
  split.
  - intros [Hb [a [x [-> [[o1 [o2 [o3 [-> [H1 [H2 H3]]]]]] Hm]]]]].
    apply (matches_Cat_denotes _ _ _ _ _ _ denotes_octet) in Hm.
    destruct Hm as [o4 [y [-> [H4 Hm]]]].
    apply (matches_Cat_Boundary_r _ _ _ _ _ denotes_prefix_suffix) in Hm.
    destruct Hm as [Hs Hb'].
    split; [exact Hb|]. split.
    + exists o1, o2, o3, o4, y. rewrite <- !app_assoc. auto 10.
    + rewrite !last_of_app. rewrite !last_of_app in Hb'. exact Hb'.
  - intros [Hb [[o1 [o2 [o3 [o4 [sfx [-> [H1 [H2 [H3 [H4 Hs]]]]]]]]]] Hb']].
    split; [exact Hb|].
    exists ((o1 ++ [dot]) ++ (o2 ++ [dot]) ++ (o3 ++ [dot])), (o4 ++ sfx).
    split; [now rewrite <- !app_assoc|]. split; [eauto 10|].
    apply (matches_Cat_denotes _ _ _ _ _ _ denotes_octet).
    exists o4, sfx. split; [reflexivity|]. split; [exact H4|].
    apply (matches_Cat_Boundary_r _ _ _ _ _ denotes_prefix_suffix).
    split; [exact Hs|].
    rewrite !last_of_app in Hb'. rewrite !last_of_app. exact Hb'.
Qed.

(** *** The domain pattern *)

Lemma denotes_label : denotes label label_shaped.
Proof.
  assert (Hmid : denotes (Between 0 61 alnum_dash)
                         (fun w => all_chars label_char w /\ length w <= 61)).
  { eapply denotes_ext; [apply (denotes_Between_class _ 0 61); lia|].
    intros w. cbv beta. rewrite (all_chars_ext _ _ w in_set_alnum_dash).
    split; intros H; repeat split; try tauto; lia. }
  assert (Hone : denotes alnum (fun w => exists c, w = [c] /\ alphanumeric c = true)).
  { eapply denotes_ext; [exact (denotes_Chars _)|].
    intros w. split; intros [c [-> Hc]]; exists c;
      (split; [reflexivity|]); [rewrite <- in_set_alnum | rewrite in_set_alnum]; exact Hc. }
  eapply denotes_ext;
    [exact (denotes_Cat _ _ _ _ Hone
              (denotes_Opt _ _ (denotes_Cat _ _ _ _ Hmid Hone)))|].
  intros w. unfold label_shaped. split.
  - intros [h [t [-> [[c1 [-> Hc1]] Ht]]]].
    exists c1, t. split; [reflexivity|]. split; [exact Hc1|].
    destruct Ht as [[mid [e [-> [[Ha Hl] [c2 [-> Hc2]]]]]] | ->]; [right | now left].
    exists mid, c2. auto.
  - intros [c1 [t [-> [Hc1 Ht]]]].
    exists [c1], t. split; [reflexivity|]. split; [eauto|].
    destruct Ht as [-> | [mid [c2 [-> [Ha [Hl Hc2]]]]]]; [now right | left].
    exists mid, [c2]. eauto 10.
Qed.

Lemma denotes_label_dot :
  denotes (Cat label (Lit "."))
          (fun w => exists l, w = l ++ [dot] /\ label_shaped l).
Proof.
  eapply denotes_ext; [exact (denotes_Cat _ _ _ _ denotes_label (denotes_Lit "."))|].
  intros w. split.
  - intros [l [d [-> [Hl ->]]]]. eauto.
  - intros [l [-> Hl]]. eauto.
Qed.

Lemma rep1_labels (w : text) :
  rep1 (fun w => exists l, w = l ++ [dot] /\ label_shaped l) w <->
  exists labels,
    labels <> [] /\ Forall label_shaped labels /\
    w = concat (map (fun l => l ++ [dot]) labels).
Proof.
  split.
  - induction 1 as [w [l [-> Hl]] | w1 w2 [l [-> Hl]] _ [ls [Hne [Hall ->]]]].
    + exists [l]. simpl. rewrite app_nil_r.
      split; [discriminate|]. split; [now constructor | reflexivity].
    + exists (l :: ls). simpl.
      split; [discriminate|]. split; [now constructor | reflexivity].
  - intros [labels [Hne [Hall ->]]].
    induction labels as [|l ls IH]; [congruence|].
    inversion Hall; subst. destruct ls as [|l' ls].
    + simpl. rewrite app_nil_r. apply rep1_one. eauto.
    + change (concat (map (fun l => l ++ [dot]) (l :: l' :: ls)))
        with ((l ++ [dot]) ++ concat (map (fun l => l ++ [dot]) (l' :: ls))).
      apply rep1_more; [eauto|]. apply IH; [discriminate | assumption].
Qed.

Lemma denotes_label_chain :
  denotes (Plus (Cat label (Lit ".")))
          (fun w => exists labels,
               labels <> [] /\ Forall label_shaped labels /\
               w = concat (map (fun l => l ++ [dot]) labels)).
Proof.
  eapply denotes_ext; [exact (denotes_Plus _ _ denotes_label_dot)|].
  exact rep1_labels.
Qed.

Lemma denotes_tld :
  denotes (AtLeast 2 alpha) (fun w => all_chars letter w /\ 2 <= length w).
Proof.
  eapply denotes_ext; [exact (denotes_AtLeast_class _ 2)|].
  intros w. cbv beta. rewrite (all_chars_ext _ _ w in_set_alpha). tauto.
Qed.

(** The domain pattern denotes the domain-shaped words that stand between
    two word boundaries. *)
Lemma domain_pattern_denotes (p : option N) (w rest : text) :
  matches domain_pattern p w rest <-> domain_literal p w rest.
Proof.
  unfold domain_pattern, domain_literal, bounded, domain_shaped.
  rewrite matches_Cat_Boundary_l.
  rewrite (matches_Cat_denotes _ _ _ p w rest denotes_label_chain).
  split.
  - intros [Hb [a [x [-> [[labels [Hne [Hall ->]]] Hm]]]]].
    apply (matches_Cat_Boundary_r _ _ _ _ _ denotes_tld) in Hm.
    destruct Hm as [[Ha Hl] Hb'].
    split; [exact Hb|]. split.
    + exists labels, x. auto.
    + rewrite last_of_app. exact Hb'.
  - intros [Hb [[labels [tld [Hne [Hall [-> [Ha Hl]]]]]] Hb']].
    split; [exact Hb|].
    exists (concat (map (fun l => l ++ [dot]) labels)), tld.
    split; [reflexivity|]. split; [eauto|].
    apply (matches_Cat_Boundary_r _ _ _ _ _ denotes_tld).
    split; [auto|]. rewrite <- last_of_app. exact Hb'.
Qed.

End ShapeFacts.

(** ** The match found at a position is the longest one *)
Module LongestFacts.
Import Unicode Re Spec ReFacts ScanFacts DenotesFacts ShapeFacts Agent.

(** *** Classes of characters *)

Lemma in_ranges_intro (ranges : list (N * N)) (r : N * N) (c : N) :
  In r ranges -> between (fst r) (snd r) c = true -> in_ranges ranges c = true.
Proof.
  intros Hin Hb. unfold in_ranges. apply existsb_exists. exists r. auto.
Qed.

Lemma is_digit_is_word (c : N) : is_digit c = true -> is_word c = true.
Proof.
  unfold is_word, isalnum, is_digit. intros ->.
  destruct (isalpha c); reflexivity.
Qed.

Lemma letter_is_word (c : N) : letter c = true -> is_word c = true.
Proof.
  unfold letter. intros H. unfold is_word, isalnum.
  assert (Ha : isalpha c = true).
  { apply orb_true_iff in H as [H|H].
    - apply (in_ranges_intro _ (97, 122)%N); [|exact H].
      unfold alpha_ranges. right. left. reflexivity.
    - apply (in_ranges_intro _ (65, 90)%N); [|exact H].
      unfold alpha_ranges. left. reflexivity. }
  rewrite Ha. reflexivity.
Qed.

Lemma ascii_digit_is_digit (c : N) : ascii_digit c = true -> is_digit c = true.
Proof.
  intros H. apply (in_ranges_intro _ (48, 57)%N); [|exact H].
  unfold decimal_ranges. left. reflexivity.
Qed.

Lemma label_char_not_dot (c : N) : label_char c = true -> (c =? dot)%N = false.
Proof.
  intros H. destruct (N.eqb_spec c dot) as [->|_]; [|reflexivity].
  vm_compute in H. discriminate H.
Qed.

Lemma alphanumeric_label_char (c : N) : alphanumeric c = true -> label_char c = true.
Proof. unfold label_char. intros ->. reflexivity. Qed.

Lemma letter_label_char (c : N) : letter c = true -> label_char c = true.
Proof. unfold label_char, alphanumeric. intros ->. reflexivity. Qed.

Lemma all_chars_impl (f g : N -> bool) (w : text) :
  (forall c, f c = true -> g c = true) -> all_chars f w -> all_chars g w.
Proof. intros H. unfold all_chars. apply Forall_impl. exact H. Qed.

(** *** Runs of characters of a class *)

(** The text [r] does not go on with a character of the class. *)
Definition stops (cls : N -> bool) (r : text) : Prop :=
  match r with
  | [] => True
  | c :: _ => cls c = false
  end.

Lemma stops_impl (f g : N -> bool) (r : text) :
  (forall c, f c = true -> g c = true) -> stops g r -> stops f r.
Proof.
  intros H. destruct r as [|c r]; [auto|]. simpl. intros Hg.
  destruct (f c) eqn:E; [|reflexivity]. apply H in E. congruence.
Qed.

(** A text has one longest run of a class at its head. *)
Lemma run_unique (cls : N -> bool) (w1 r1 w2 r2 : text) :
  w1 ++ r1 = w2 ++ r2 ->
  all_chars cls w1 -> all_chars cls w2 -> stops cls r1 -> stops cls r2 ->
  w1 = w2 /\ r1 = r2.
Proof.
  revert w2. induction w1 as [|x w1 IH]; intros [|y w2] H A1 A2 S1 S2; simpl in H.
  - auto.
  - subst r1. simpl in S1. inversion A2; subst. congruence.
  - subst r2. simpl in S2. inversion A1; subst. congruence.
  - injection H as -> H. inversion A1; subst. inversion A2; subst.
    destruct (IH w2 H) as [-> ->]; auto.
Qed.

(** A run of a class, cut by a text that holds none of it before a
    character outside both: the run is no longer than that text. *)
Lemma run_within (cls : N -> bool) (d : N) (w r l y : text) :
  w ++ r = l ++ d :: y -> all_chars cls w -> cls d = false ->
  length w <= length l.
Proof.
  intros H A Hd. revert w H A.
  induction l as [|c l IH]; intros [|x w] H A; simpl in *; try lia.
  - injection H as -> _. inversion A; subst. congruence.
  - injection H as _ H. inversion A as [|? ? _ A']; subst.
    specialize (IH w H A'). lia.
Qed.

(** After a run of word characters, a word boundary means the text does
    not go on with a word character. *)
Lemma last_of_word (p : option N) (v : text) :
  v <> [] -> all_chars is_word v -> word_opt (last_of p v) = true.
Proof.
  revert p. induction v as [|c v IH]; intros p Hne A; [congruence|].
  inversion A; subst. destruct v as [|d v].
  - simpl. assumption.
  - change (last_of p (c :: d :: v)) with (last_of (Some c) (d :: v)).
    apply IH; [discriminate | assumption].
Qed.

Lemma boundary_after (p : option N) (v rest : text) :
  v <> [] -> all_chars is_word v ->
  is_boundary (last_of p v) rest = true -> stops is_word rest.
Proof.
  intros Hne A Hb. unfold is_boundary in Hb.
  rewrite (last_of_word p v Hne A) in Hb.
  destruct rest as [|c rest]; [exact I|]. simpl in *.
  destruct (is_word c); [discriminate | reflexivity].
Qed.

Lemma octet_nonempty (o : text) : octet_shaped o -> o <> [].
Proof. intros [_ Hl] ->. simpl in Hl. lia. Qed.

Lemma octet_word (o : text) : octet_shaped o -> all_chars is_word o.
Proof. intros [A _]. exact (all_chars_impl _ _ _ is_digit_is_word A). Qed.

Lemma stops_digit_dot (y : text) : stops is_digit (dot :: y).
Proof. reflexivity. Qed.

Lemma stops_digit_slash (y : text) : stops is_digit (slash :: y).
Proof. reflexivity. Qed.

(** *** The address pattern *)

Definition prefix_group : regex := Cat (Lit "/") (Between 1 2 digit).

Lemma denotes_prefix_group :
  denotes prefix_group
          (fun w => exists d, w = slash :: d /\ all_chars is_digit d /\
                              1 <= length d <= 2).
Proof.
  assert (Hd : denotes (Between 1 2 digit)
                       (fun w => all_chars is_digit w /\ 1 <= length w <= 2)).
  { eapply denotes_ext; [apply (denotes_Between_class [CDigit] 1 2); lia|].
    intros w. cbv beta. rewrite (all_chars_ext _ _ w in_set_digit). tauto. }
  eapply denotes_ext; [exact (denotes_Cat _ _ _ _ (denotes_Lit "/") Hd)|].
  intros w. split.
  - intros [x [d [-> [-> H]]]]. exists d. auto.
  - intros [d [-> H]]. exists [slash], d. auto.
Qed.

(** At a position, the search for the address pattern returns the longest
    address literal that starts there. *)
Lemma ip_pattern_longest (p : option N) (s rest : text) :
  match_here ip_pattern p s = Some rest ->
  forall w' rest', s = w' ++ rest' -> matches ip_pattern p w' rest' ->
                   length rest <= length rest'.
Proof.
  intros H w' rest' Hs Hm'.
  apply ip_pattern_denotes in Hm'.
  destruct Hm' as [_ [[o1 [o2 [o3 [o4 [sfx' [Hw' [H1 [H2 [H3 [H4 Hs']]]]]]]]]] He']].
  unfold match_here, ip_pattern in H.
  apply run_Cat_inv in H. destruct H as [w0 [s0 [E0 [Hb H]]]].
  apply matches_Boundary_inv in Hb. destruct Hb as [-> _].
  cbn [app last_of fold_left] in E0, H. subst s0.
  apply run_Cat_inv in H. destruct H as [a [s1 [Ea [Ha H]]]].
  apply run_Cat_inv in H. destruct H as [a4 [s2 [Ea4 [Ha4 H]]]].
  apply (proj1 (denotes_three_octets _ _ _)) in Ha.
  destruct Ha as [a1 [a2 [a3 [-> [A1 [A2 A3]]]]]].
  apply (proj1 (denotes_octet _ _ _)) in Ha4.
  rewrite run_Cat_eq in H. unfold Opt in H.
  fold prefix_group in H.
  set (kB := fun (p' : option N) (s' : text) =>
               run Boundary p' s' (fun _ rest0 => Some rest0)) in H.
  (* what follows the fourth group is not a digit *)
  assert (Hstop2 : stops is_digit s2).
  { apply run_Or_inv in H. destruct H as [H | [_ H]].
    - apply run_sound in H. destruct H as [ws [s3 [-> [Hws _]]]].
      apply (proj1 (denotes_prefix_group _ _ _)) in Hws.
      destruct Hws as [d [-> _]]. reflexivity.
    - cbn [run] in H. unfold kB in H. apply run_Boundary_inv in H.
      destruct H as [Hb _].
      apply (stops_impl _ _ _ is_digit_is_word).
      exact (boundary_after _ a4 s2 (octet_nonempty _ Ha4) (octet_word _ Ha4) Hb). }
  assert (Hstop' : stops is_digit (sfx' ++ rest')).
  { destruct Hs' as [-> | [d' [-> _]]]; [|reflexivity].
    subst w'. rewrite app_nil_r in He'. rewrite !last_of_app in He'.
    apply (stops_impl _ _ _ is_digit_is_word).
    exact (boundary_after _ o4 rest' (octet_nonempty _ H4) (octet_word _ H4) He'). }
  (* the four groups are the same *)
  assert (Heq : o1 ++ dot :: o2 ++ dot :: o3 ++ dot :: o4 ++ sfx' ++ rest'
                = a1 ++ dot :: a2 ++ dot :: a3 ++ dot :: a4 ++ s2).
  { subst w' s1. rewrite Hs in Ea. clear - Ea.
    repeat rewrite <- app_assoc in Ea. exact Ea. }
  destruct (run_unique is_digit _ _ _ _ Heq (proj1 H1) (proj1 A1)
              (stops_digit_dot _) (stops_digit_dot _)) as [E1 Heq1].
  injection Heq1 as Heq1.
  destruct (run_unique is_digit _ _ _ _ Heq1 (proj1 H2) (proj1 A2)
              (stops_digit_dot _) (stops_digit_dot _)) as [E2 Heq2].
  injection Heq2 as Heq2.
  destruct (run_unique is_digit _ _ _ _ Heq2 (proj1 H3) (proj1 A3)
              (stops_digit_dot _) (stops_digit_dot _)) as [E3 Heq3].
  injection Heq3 as Heq3.
  destruct (run_unique is_digit _ _ _ _ Heq3 (proj1 H4) (proj1 Ha4)
              Hstop' Hstop2) as [E4 Heq4].
  subst a1 a2 a3 a4 s2.
  (* the optional group *)
  apply run_Or_inv in H. destruct H as [H | [Hnone H]].
  - apply run_sound in H. destruct H as [ws [s3 [Es3 [Hws Hk]]]].
    unfold kB in Hk. apply run_Boundary_inv in Hk. destruct Hk as [Hb Hk].
    injection Hk as ->.
    destruct Hs' as [-> | [d' [-> [Hd' Hl']]]].
    + simpl in Es3. subst rest'. rewrite length_app. lia.
    + apply (proj1 (denotes_prefix_group _ _ _)) in Hws.
      destruct Hws as [d [-> [Hd Hl]]].
      simpl in Es3. injection Es3 as Es3.
      assert (Sd : stops is_digit rest).
      { apply (stops_impl _ _ _ is_digit_is_word).
        apply (boundary_after (Some slash) d rest).
        - intros ->. simpl in Hl. lia.
        - exact (all_chars_impl _ _ _ is_digit_is_word Hd).
        - rewrite last_of_app in Hb. exact Hb. }
      assert (Sd' : stops is_digit rest').
      { apply (stops_impl _ _ _ is_digit_is_word).
        apply (boundary_after (Some slash) d' rest').
        - intros ->. simpl in Hl'. lia.
        - exact (all_chars_impl _ _ _ is_digit_is_word Hd').
        - subst w'. rewrite !last_of_app in He'.
          change (slash :: d') with ([slash] ++ d') in He'.
          rewrite last_of_app in He'. exact He'. }
      destruct (run_unique is_digit _ _ _ _ Es3 Hd' Hd Sd' Sd) as [_ ->].
      lia.
  - cbn [run] in H. unfold kB in H. apply run_Boundary_inv in H.
    destruct H as [_ H]. injection H as <-.
    destruct Hs' as [-> | [d' [-> [Hd' Hl']]]].
    + simpl. lia.
    + exfalso.
      assert (Hm : matches prefix_group
                     (last_of (last_of p ((o1 ++ [dot]) ++ (o2 ++ [dot]) ++ o3 ++ [dot])) o4)
                     (slash :: d') rest').
      { apply denotes_prefix_group. exists d'. auto. }
      destruct (run_complete prefix_group _ _ _ kB rest' Hm) as [y Hy].
      { unfold kB. cbn [run]. subst w'. rewrite !last_of_app in He'.
        rewrite !last_of_app. rewrite He'. reflexivity. }
      congruence.
Qed.

(** *** The domain pattern *)

Definition label_dot : regex := Cat label (Lit ".").
Definition chain (labels : list text) : text :=
  concat (map (fun l => l ++ [dot]) labels).

Lemma label_chars (l : text) : label_shaped l -> all_chars label_char l.
Proof.
  intros [c1 [tail [-> [Hc1 Ht]]]].
  constructor; [now apply alphanumeric_label_char|].
  destruct Ht as [-> | [mid [c2 [-> [Hmid [_ Hc2]]]]]]; [constructor|].
  apply Forall_app. split; [exact Hmid|].
  constructor; [now apply alphanumeric_label_char | constructor].
Qed.

Lemma stops_label_dot (y : text) : stops label_char (dot :: y).
Proof. reflexivity. Qed.

Lemma label_dot_consuming (p : option N) (rest : text) :
  ~ matches label_dot p [] rest.
Proof.
  intros H. apply (proj1 (denotes_label_dot _ _ _)) in H.
  destruct H as [l [H _]]. destruct l; discriminate H.
Qed.

Lemma label_dot_forced (p : option N) (w1 rest1 w2 rest2 : text) :
  w1 ++ rest1 = w2 ++ rest2 ->
  matches label_dot p w1 rest1 -> matches label_dot p w2 rest2 -> w1 = w2.
Proof.
  intros H M1 M2.
  apply (proj1 (denotes_label_dot _ _ _)) in M1. destruct M1 as [l1 [-> L1]].
  apply (proj1 (denotes_label_dot _ _ _)) in M2. destruct M2 as [l2 [-> L2]].
  rewrite <- !app_assoc in H. cbn [app] in H.
  destruct (run_unique label_char _ _ _ _ H (label_chars _ L1) (label_chars _ L2)
              (stops_label_dot _) (stops_label_dot _)) as [-> _].
  reflexivity.
Qed.

(** Of two chains of labels at the head of one text, the shorter one is
    followed by a further label and its dot. *)
Lemma chain_prefix (labels' : list text) :
  forall (labels : list text) (x x' : text),
    Forall label_shaped labels -> Forall label_shaped labels' ->
    chain labels ++ x = chain labels' ++ x' ->
    length (chain labels') < length (chain labels) ->
    exists l y, x' = l ++ dot :: y /\
                length (chain labels') + length l < length (chain labels).
Proof.
  induction labels' as [|l' ls' IH]; intros [|l ls] x x' F F' H Hl;
    try (simpl in Hl; lia).
  - unfold chain in *. cbn [map concat app] in *.
    exists l, (concat (map (fun l0 => l0 ++ [dot]) ls) ++ x). split.
    + rewrite <- H. rewrite <- !app_assoc. reflexivity.
    + rewrite !length_app. simpl. lia.
  - inversion F as [|? ? L Fs]; subst. inversion F' as [|? ? L' Fs']; subst.
    unfold chain in H, Hl. cbn [map concat] in H, Hl.
    rewrite <- !app_assoc in H. cbn [app] in H.
    destruct (run_unique label_char _ _ _ _ H (label_chars _ L) (label_chars _ L')
                (stops_label_dot _) (stops_label_dot _)) as [-> H'].
    injection H' as H'.
    destruct (IH ls x x' Fs Fs' H') as [l [y [-> Hlen]]].
    { rewrite !length_app in Hl. unfold chain. lia. }
    exists l, y. split; [reflexivity|].
    unfold chain in *. cbn [map concat]. rewrite !length_app. lia.
Qed.

(** At a position, the search for the domain pattern returns the longest
    domain literal that starts there. *)
Lemma domain_pattern_longest (p : option N) (s rest : text) :
  match_here domain_pattern p s = Some rest ->
  forall w' rest', s = w' ++ rest' -> matches domain_pattern p w' rest' ->
                   length rest <= length rest'.
Proof.
  intros H w' rest' Hs Hm'.
  apply domain_pattern_denotes in Hm'.
  destruct Hm' as [_ [[labels' [tld' [Hne' [F' [Hw' [Ht' Hl']]]]]] He']].
  fold (chain labels') in Hw'.
  unfold match_here, domain_pattern in H.
  apply run_Cat_inv in H. destruct H as [w0 [s0 [E0 [Hb H]]]].
  apply matches_Boundary_inv in Hb. destruct Hb as [-> _].
  cbn [app last_of fold_left] in E0, H. subst s0.
  rewrite run_Cat_eq, run_Plus_eq in H. fold label_dot in H.
  set (k1 := fun (p' : option N) (s' : text) =>
               run (Cat (AtLeast 2 alpha) Boundary) p' s'
                   (fun _ rest0 => Some rest0)) in H.
  apply (iterate_greedy label_dot label_dot_consuming label_dot_forced) in H;
    [|lia].
  destruct H as [w [rest1 [Ew [Hw [Hk Hmax]]]]].
  apply (proj1 (denotes_label_chain _ _ _)) in Hw.
  destruct Hw as [labels [Hne [F Hw]]]. fold (chain labels) in Hw.
  unfold k1 in Hk. apply run_Cat_inv in Hk.
  destruct Hk as [tld [rest2 [-> [Htld Hk]]]].
  apply run_Boundary_inv in Hk. destruct Hk as [Hb Hk]. injection Hk as ->.
  apply (proj1 (denotes_tld _ _ _)) in Htld. destruct Htld as [Ht Hl].
  (* the continuation accepts the other chain as well *)
  assert (Hacc : k1 (last_of p (chain labels')) (tld' ++ rest') <> None).
  { assert (Hm : matches (Cat (AtLeast 2 alpha) Boundary)
                         (last_of p (chain labels')) tld' rest').
    { apply (matches_Cat_Boundary_r _ _ _ _ _ denotes_tld).
      split; [auto|]. rewrite <- last_of_app, <- Hw'. exact He'. }
    destruct (run_complete _ _ _ _ (fun _ rest0 => Some rest0) rest' Hm eq_refl)
      as [y Hy].
    unfold k1. rewrite Hy. discriminate. }
  assert (Hle : length (chain labels') <= length w).
  { destruct (Nat.le_gt_cases (length (chain labels')) (length w)) as [Hle|Hgt];
      [exact Hle|].
    exfalso. apply Hacc. apply Hmax; [| |exact Hgt].
    - rewrite Hs, Hw', <- app_assoc. reflexivity.
    - apply denotes_label_chain. exists labels'. auto. }
  assert (Heq : chain labels ++ tld ++ rest = chain labels' ++ tld' ++ rest').
  { rewrite <- Hw. rewrite <- Ew. rewrite Hs, Hw'. rewrite <- app_assoc. reflexivity. }
  assert (Hlen : length (w' ++ rest') = length ((w ++ tld) ++ rest)).
  { rewrite <- Hs, Ew. rewrite <- app_assoc. reflexivity. }
  rewrite !length_app in Hlen.
  enough (length w' <= length w + length tld) by lia.
  rewrite Hw', length_app.
  destruct (Nat.eq_dec (length (chain labels')) (length w)) as [Eq|Neq].
  - rewrite Hw in Eq.
    destruct (app_eq_length _ _ _ _ Heq (eq_sym Eq)) as [_ Heq'].
    assert (St : stops letter rest).
    { apply (stops_impl _ _ _ letter_is_word).
      apply (boundary_after (last_of p w) tld rest).
      - intros ->. simpl in Hl. lia.
      - exact (all_chars_impl _ _ _ letter_is_word Ht).
      - exact Hb. }
    assert (St' : stops letter rest').
    { apply (stops_impl _ _ _ letter_is_word).
      apply (boundary_after (last_of p (chain labels')) tld' rest').
      - intros ->. simpl in Hl'. lia.
      - exact (all_chars_impl _ _ _ letter_is_word Ht').
      - rewrite <- last_of_app, <- Hw'. exact He'. }
    destruct (run_unique letter _ _ _ _ Heq' Ht Ht' St St') as [-> _].
    rewrite Hw. lia.
  - rewrite Hw in Hle, Neq.
    destruct (chain_prefix labels' labels _ _ F F' Heq) as [l [y [Ey Hlen']]];
      [lia|].
    pose proof (run_within label_char dot tld' rest' l y Ey
                  (all_chars_impl _ _ _ letter_label_char Ht') eq_refl) as Hin.
    rewrite Hw. lia.
Qed.

End LongestFacts.

(** ** The target extractor *)
Module ExtractFacts.
Import PyStr Unicode Re Spec ReFacts ScanFacts DenotesFacts ShapeFacts
       LongestFacts Agent.

Lemma Tokens_ext (P Q : option N -> text -> text -> Prop) :
  (forall p m rest, P p m rest <-> Q p m rest) ->
  forall p s ms, Tokens P p s ms -> Tokens Q p s ms.
Proof.
  intros HPQ p s ms H.
  induction H as [p s Hnone | p gap m rest ms Hne Hm Hleft Hlong _ IH].
  - apply TokensNone. intros gap m rest Heq HQ.
    apply (Hnone gap m rest Heq). now apply HPQ.
  - apply TokensHit; auto.
    + now apply HPQ.
    + intros gap' m' rest' Heq Hl HQ. apply (Hleft gap' m' rest' Heq Hl). now apply HPQ.
    + intros m' rest' Heq HQ. apply (Hlong m' rest' Heq). now apply HPQ.
Qed.

(** The tokens of a text are made of characters of the text. *)
Lemma Tokens_incl (P : option N -> text -> text -> Prop)
      (p : option N) (s : text) (ms : list text) :
  Tokens P p s ms -> Forall (fun m => incl m s) ms.
Proof.
  induction 1 as [p s _ | p gap m rest ms _ _ _ _ _ IH]; constructor.
  - intros c Hc. apply in_or_app. right. apply in_or_app. now left.
  - revert IH. apply Forall_impl. intros m' Hm' c Hc.
    apply in_or_app. right. apply in_or_app. right. now apply Hm'.
Qed.

Lemma Tokens_Forall (P : option N -> text -> text -> Prop)
      (p : option N) (s : text) (ms : list text) :
  Tokens P p s ms -> Forall (fun m => exists p' rest, P p' m rest) ms.
Proof.
  induction 1 as [p s _ | p gap m rest ms _ Hm _ _ _ IH].
  - constructor.
  - constructor; [eauto | exact IH].
Qed.

Lemma ipv4_shaped_nonempty : ~ ipv4_shaped [].
Proof.
  intros [o1 [o2 [o3 [o4 [sfx [H _]]]]]].
  apply (f_equal (@length N)) in H.
  rewrite !length_app in H. simpl in H. lia.
Qed.

Lemma domain_shaped_nonempty : ~ domain_shaped [].
Proof.
  intros [labels [tld [_ [_ [H [_ Hl]]]]]].
  apply (f_equal (@length N)) in H.
  rewrite length_app in H. simpl in H. lia.
Qed.

Lemma ip_pattern_consuming (p : option N) (rest : text) :
  ~ matches ip_pattern p [] rest.
Proof.
  intros H. apply ip_pattern_denotes in H.
  destruct H as [_ [H _]]. exact (ipv4_shaped_nonempty H).
Qed.

Lemma domain_pattern_consuming (p : option N) (rest : text) :
  ~ matches domain_pattern p [] rest.
Proof.
  intros H. apply domain_pattern_denotes in H.
  destruct H as [_ [H _]]. exact (domain_shaped_nonempty H).
Qed.

(** [findall] on the two patterns: the left-to-right tokenisation of the
    text into address literals, resp. domain literals. *)
Lemma findall_ip_pattern (q : text) :
  Tokens ipv4_literal None q (findall ip_pattern q).
Proof.
  apply (Tokens_ext _ _ ip_pattern_denotes).
  apply findall_Tokens; [exact ip_pattern_consuming | exact ip_pattern_longest].
Qed.

Lemma findall_domain_pattern (q : text) :
  Tokens domain_literal None q (findall domain_pattern q).
Proof.
  apply (Tokens_ext _ _ domain_pattern_denotes).
  apply findall_Tokens;
    [exact domain_pattern_consuming | exact domain_pattern_longest].
Qed.

Lemma eqb_eq (a b : text) : Unicode.eqb a b = true <-> a = b.
Proof.
  revert b. induction a as [|x a IH]; intros [|y b]; simpl;
    try (split; [discriminate | discriminate]); [tauto|].
  rewrite andb_true_iff, N.eqb_eq, IH. split.
  - intros [-> ->]. reflexivity.
  - intros H. injection H as -> ->. auto.
Qed.



(** *** Strings of the model *)

Lemma codes_bounded (s : string) : Forall (fun c => (c < 256)%N) (codes s).
Proof.
  unfold codes. apply Forall_forall. intros c Hc.
  apply in_map_iff in Hc as [a [<- _]]. apply N_ascii_bounded.
Qed.

Lemma codes_string_of_codes (t : text) :
  Forall (fun c => (c < 256)%N) t -> codes (string_of_codes t) = t.
Proof.
  intros H. unfold codes, string_of_codes.
  rewrite list_ascii_of_string_of_list_ascii, map_map.
  induction H as [|c t Hc _ IH]; simpl; [reflexivity|].
  rewrite (N_ascii_embedding c Hc), IH. reflexivity.
Qed.

Lemma string_of_codes_codes (s : string) : string_of_codes (codes s) = s.
Proof.
  unfold codes, string_of_codes. rewrite map_map.
  rewrite (map_ext _ (fun a => a)) by apply ascii_N_embedding.
  rewrite map_id. apply string_of_list_ascii_of_string.
Qed.


Lemma codes_inj (s s' : string) : codes s = codes s' -> s = s'.
Proof.
  intros H. rewrite <- (string_of_codes_codes s), <- (string_of_codes_codes s').
  now rewrite H.
Qed.

(** What the extractor returns is made of characters of the query. *)
Lemma first_not_excluded_In (ds : list text) (d : text) :
  first_not_excluded ds = Some d ->
  In d ds /\ Unicode.mem d (map codes excluded) = false.
Proof.
  induction ds as [|x xs IH]; cbn [first_not_excluded]; [discriminate|].
  destruct (Unicode.mem x (map codes excluded)) eqn:E; cbn [negb].
  - intros H. destruct (IH H). split; [now right | assumption].
  - intros H. injection H as <-. split; [now left | assumption].
Qed.

Lemma extract_target_text_incl (q t : text) :
  _extract_target_text q = Some t -> incl t q.
Proof.
  unfold _extract_target_text.
  pose proof (Tokens_incl _ _ _ _ (findall_ip_pattern q)) as Hi.
  pose proof (Tokens_incl _ _ _ _ (findall_domain_pattern q)) as Hd.
  destruct (findall ip_pattern q) as [|m ms].
  - intros H. apply first_not_excluded_In in H as [H _].
    rewrite Forall_forall in Hd. exact (Hd t H).
  - intros H. injection H as <-. now inversion Hi.
Qed.

Lemma extract_target_text_bounded (query : string) (t : text) :
  _extract_target_text (codes query) = Some t ->
  codes (string_of_codes t) = t.
Proof.
  intros H. apply codes_string_of_codes.
  pose proof (codes_bounded query) as Hq. rewrite Forall_forall in *.
  intros c Hc. apply Hq. exact (extract_target_text_incl _ _ H c Hc).
Qed.



(** The digits of the address pattern are the decimal digits of any
    script.  In the text below the dotted quad of the specification
    (groups of the digits 0 to 9) that comes first is 10.0.0.2, at offset
    19; the extractor returns the word at offset 5, written with
    Arabic-Indic digits, which is no such dotted quad. *)
Definition arabic_indic_quad : text :=
  [1633; 1632; 46; 1632; 46; 1632; 46; 1633]%N.

Definition arabic_indic_query : text :=
  codes "scan " ++ arabic_indic_quad ++ codes " then 10.0.0.2".

Lemma ascii_ipv4_head (m : text) :
  ascii_ipv4_shaped m -> exists c r, m = c :: r /\ ascii_digit c = true.
Proof.
  intros [[o1 [o2 [o3 [o4 [sfx [-> [[D1 H1] _]]]]]]] A].
  destruct o1 as [|c r]; [simpl in H1; lia|].
  eexists c, _. split; [reflexivity|].
  inversion A as [|? ? Hc _]; subst. inversion D1 as [|? ? Hd _]; subst.
  destruct (ascii_digit c); [reflexivity|]. exfalso.
  cbn [orb] in Hc. apply orb_true_iff in Hc as [Hc|Hc];
    apply N.eqb_eq in Hc; subst c; discriminate Hd.
Qed.

Lemma unicode_digits_are_returned :
  first_token ascii_ipv4_literal arabic_indic_query (codes "10.0.0.2") /\
  _extract_target_text arabic_indic_query = Some arabic_indic_quad /\
  ~ ascii_ipv4_shaped arabic_indic_quad /\
  arabic_indic_quad <> codes "10.0.0.2".
Proof.
  split; [|split; [|split]].
  - exists 19. split.
    + exists (codes "scan " ++ arabic_indic_quad ++ codes " then "), [].
      split; [reflexivity|]. split; [reflexivity|].
      split; [reflexivity|]. split; [|reflexivity].
      split.
      * exists (codes "10"), (codes "0"), (codes "0"), (codes "2"), [].
        split; [reflexivity|].
        unfold octet_shaped, prefix_suffix_shaped, all_chars. simpl.
        repeat split; try lia; try (repeat constructor); now left.
      * repeat constructor.
    + intros j m' [pre [post [Hq [Hl [_ [Hm' _]]]]]].
      destruct (ascii_ipv4_head _ Hm') as [c [r [-> Hc]]].
      assert (Hn : nth_error arabic_indic_query j = Some c).
      { rewrite Hq, <- Hl. rewrite nth_error_app2 by lia.
        rewrite Nat.sub_diag. reflexivity. }
      assert (Hlen : length pre + length (c :: r) + length post = 27).
      { apply (f_equal (@length N)) in Hq. rewrite !length_app in Hq.
        change (length arabic_indic_query) with 27 in Hq. lia. }
      split.
      * destruct (le_lt_dec 19 j) as [Hle|Hlt]; [exact Hle|]. exfalso.
        do 19 (destruct j as [|j];
               [vm_compute in Hn; injection Hn as <-; discriminate Hc|]).
        lia.
      * intros ->. change (length (codes "10.0.0.2")) with 8. lia.
  - vm_compute. reflexivity.
  - intros [_ A]. inversion A as [|? ? Hc _]. discriminate Hc.
  - discriminate.
Qed.

(** The extractor on some texts, as CPython answers on them. *)
Example extract_target_examples :
  _extract_target "scan 192.168.1.10 for open ports" = Some "192.168.1.10" /\
  _extract_target "scan 10.0.0.0/8 then 10.1.2.3" = Some "10.0.0.0/8" /\
  _extract_target "scan 10.0.0.0/8a" = Some "10.0.0.0" /\
  _extract_target "scan 10.0.0.1/244" = Some "10.0.0.1" /\
  _extract_target "scan 1.2.3.4.5" = Some "1.2.3.4" /\
  _extract_target "host_10.0.0.1" = None /\
  _extract_target "look at api.test.org and 10.1.2.3" = Some "10.1.2.3" /\
  _extract_target "compare example.com with api.test.org" = Some "api.test.org" /\
  _extract_target "a.bc.de " = Some "a.bc.de" /\
  _extract_target "a.bc.d " = Some "a.bc" /\
  _extract_target "scan a-.b.com" = Some "b.com" /\
  _extract_target "ping 127.0.0.1" = Some "127.0.0.1" /\
  _extract_target "is example.com up" = None /\
  _extract_target "list my findings" = None /\
  _extract_target_text (codes "caf" ++ [233%N] ++ codes ".example.org x")
  = Some (codes "example.org") /\
  _extract_target_text (codes "x.example.org" ++ [233%N])
  = Some (codes "x.example") /\
  _extract_target_text (codes "ab.cd" ++ [1633%N]) = None.
Proof. vm_compute. repeat split. Qed.

End ExtractFacts.

(** ** The [ipaddress] model: masks, blocks and parsed values *)
Module IpFacts.
Import PyStr IpAddress Spec.
Local Open Scope Z_scope.

(** Netmasks bit by bit *)









(** Parsed values are in range *)
























(** Parsed addresses and networks are well formed. *)








(** The parsers raise nothing but [ValueError]. *)
Lemma ip_network_raises (s : string) (e : exn) :
  ip_network s = Raise e -> e = ValueError.
Proof.
  unfold ip_network. destruct (IPv4Network s); [discriminate|].
  destruct (IPv6Network s); [discriminate|]. congruence.
Qed.

Lemma ip_address_raises (s : string) (e : exn) :
  ip_address s = Raise e -> e = ValueError.
Proof.
  unfold ip_address. destruct (IPv4Address s); [discriminate|].
  destruct (IPv6Address s); [discriminate|]. congruence.
Qed.

End IpFacts.

(** ** The address rules of the scope check *)
Module ScopeRuleFacts.
Import PyStr IpAddress Spec IpFacts Config Scope.
Local Open Scope Z_scope.






(** A target network of the other IP version makes [subnet_of] raise
    [TypeError], which [ip_rule] does not catch. *)
Lemma subnet_of_raises (m n : Network) (e : exn) :
  subnet_of m n = Raise e ->
  e = TypeError /\ net_version m <> net_version n.
Proof.
  unfold subnet_of.
  destruct (net_version m =? net_version n)%nat eqn:Ev; simpl; [discriminate|].
  apply Nat.eqb_neq in Ev. intros H. injection H as <-. auto.
Qed.

End ScopeRuleFacts.

(** ** The address rules of the scope check: the claim *)
Module ScopeRuleTheorems.
Import PyStr IpAddress Spec IpFacts Config Scope ScopeRuleFacts.

(** A rule in CIDR form against a target in CIDR form. *)
Lemma ip_rule_cidr_cidr (R T : string) :
  contains "/" R = true -> contains "/" T = true ->
  ip_rule R T =
  match ip_network R, ip_network T with
  | Ok N, Ok M => subnet_of M N
  | _, _ => Ok false
  end.
Proof.
  intros HR HT. unfold ip_rule, ip_rule_body. rewrite HR, HT.
  destruct (ip_network R) as [N|e] eqn:EN.
  - destruct (ip_network T) as [M|e'] eqn:EM.
    + destruct (subnet_of M N) as [b|e''] eqn:Es; [reflexivity|].
      destruct (subnet_of_raises _ _ _ Es) as [-> _]. reflexivity.
    + rewrite (ip_network_raises _ _ EM). reflexivity.
  - rewrite (ip_network_raises _ _ EN). reflexivity.
Qed.

(** A rule in CIDR form against a target without a slash. *)
Lemma ip_rule_cidr_address (R T : string) :
  contains "/" R = true -> contains "/" T = false ->
  ip_rule R T =
  match ip_network R, ip_address T with
  | Ok N, Ok a => Ok (net_contains N a)
  | _, _ => Ok false
  end.
Proof.
  intros HR HT. unfold ip_rule, ip_rule_body. rewrite HR, HT.
  destruct (ip_network R) as [N|e] eqn:EN.
  - destruct (ip_address T) as [a|e'] eqn:Ea; [reflexivity|].
    rewrite (ip_address_raises _ _ Ea). reflexivity.
  - rewrite (ip_network_raises _ _ EN). reflexivity.
Qed.





(** The scope check on the specification's examples, and on inputs at the
    edges: a mask in dotted form, host bits set in the rule, a malformed
    rule skipped before a matching one, an address target, and a zone id
    that differs at the same network address. *)
Example check_scope_examples :
  _check_scope (mkScopeConfig ["10.0.0.0/8"] [] true) "10.1.2.0/24" = Ok true /\
  _check_scope (mkScopeConfig ["10.0.0.0/8"] [] true) "11.0.0.0/24" = Ok false /\
  _check_scope (mkScopeConfig ["10.0.0.0/255.0.0.0"] [] true) "10.1.2.0/24" = Ok true /\
  _check_scope (mkScopeConfig ["10.9.9.9/8"] [] true) "10.1.2.0/24" = Ok true /\
  _check_scope (mkScopeConfig ["10.0.0.0/33"; "10.0.0.0/8"] [] true) "10.1.2.0/24" = Ok true /\
  _check_scope (mkScopeConfig ["192.168.1.0/24"] [] true) "192.168.1.10" = Ok true /\
  _check_scope (mkScopeConfig ["192.168.1.0/24"] [] true) "192.168.2.10" = Ok false /\
  _check_scope (mkScopeConfig ["192.168.1.0/24"] [] true) "192.168.1.0/33" = Ok false /\
  _check_scope (mkScopeConfig ["fe80::%a/64"] [] true) "fe80::%a/64" = Ok true /\
  _check_scope (mkScopeConfig ["fe80::%a/64"] [] true) "fe80::%b/64" = Ok false.
Proof. vm_compute. repeat split. Qed.

(** A target network of the other IP version than a rule makes the check
    raise [TypeError] before the remaining rules are tried. *)
Example check_scope_mixed_versions :
  _check_scope (mkScopeConfig ["2001:db8::/32"; "10.0.0.0/8"] [] true) "10.1.2.0/24"
  = Raise TypeError.
Proof. vm_compute. reflexivity. Qed.

End ScopeRuleTheorems.

(* ================================================================== *)
(** * Part II, continued — further properties of the code *)
(* ================================================================== *)

(** ** More on target extraction *)
Module ExtractShape.
Import PyStr Unicode Re Spec Vocabulary ReFacts ScanFacts DenotesFacts
       ShapeFacts LongestFacts ExtractFacts Agent.

Lemma is_digit_target_char (c : N) : is_digit c = true -> target_char c = true.
Proof. unfold target_char. intros ->. reflexivity. Qed.

Lemma letter_target_char (c : N) : letter c = true -> target_char c = true.
Proof. unfold target_char. intros ->. rewrite orb_true_r. reflexivity. Qed.

Lemma alphanumeric_target_head (c : N) :
  alphanumeric c = true -> target_head c = true.
Proof.
  unfold alphanumeric, target_head. intros H.
  apply orb_true_iff in H as [-> | H]; [apply orb_true_r|].
  fold (ascii_digit c) in H. now rewrite (ascii_digit_is_digit c H).
Qed.

Lemma alphanumeric_target_char (c : N) :
  alphanumeric c = true -> target_char c = true.
Proof.
  intros H. apply alphanumeric_target_head in H. unfold target_head in H.
  unfold target_char. rewrite H. reflexivity.
Qed.

Lemma label_char_target_char (c : N) :
  label_char c = true -> target_char c = true.
Proof.
  unfold label_char. intros H.
  apply orb_true_iff in H as [H | H]; [now apply alphanumeric_target_char|].
  unfold target_char. rewrite H, orb_true_r. reflexivity.
Qed.

Lemma all_chars_target (cls : N -> bool) (w : text) :
  (forall c, cls c = true -> target_char c = true) ->
  all_chars cls w -> Forall (fun c => target_char c = true) w.
Proof. intros H. unfold all_chars. apply Forall_impl. exact H. Qed.

Lemma octet_target (o : text) :
  octet_shaped o ->
  Forall (fun c => target_char c = true) o /\
  exists c r, o = c :: r /\ is_digit c = true.
Proof.
  intros [Hall Hlen]. split.
  - exact (all_chars_target _ _ is_digit_target_char Hall).
  - destruct o as [|c r]; [simpl in Hlen; lia|].
    exists c, r. split; [reflexivity|]. now inversion Hall.
Qed.

Lemma ipv4_shaped_chars (w : text) :
  ipv4_shaped w ->
  Forall (fun c => target_char c = true) w /\
  exists c r, w = c :: r /\ is_digit c = true.
Proof.
  intros [o1 [o2 [o3 [o4 [sfx [-> [H1 [H2 [H3 [H4 Hs]]]]]]]]]].
  destruct (octet_target _ H1) as [F1 [c [r [-> Hc]]]].
  destruct (octet_target _ H2) as [F2 _].
  destruct (octet_target _ H3) as [F3 _].
  destruct (octet_target _ H4) as [F4 _].
  assert (Fdot : Forall (fun c => target_char c = true) [dot])
    by (repeat constructor).
  assert (Fs : Forall (fun c => target_char c = true) sfx).
  { destruct Hs as [-> | [d [-> [Hd _]]]]; [constructor|].
    constructor; [reflexivity|].
    exact (all_chars_target _ _ is_digit_target_char Hd). }
  split.
  - repeat (apply Forall_app; split); assumption.
  - exists c, ((r ++ [dot]) ++ (o2 ++ [dot]) ++ (o3 ++ [dot]) ++ o4 ++ sfx).
    split; [reflexivity | exact Hc].
Qed.

Lemma label_target (l : text) :
  label_shaped l ->
  Forall (fun c => target_char c = true) l /\
  exists c r, l = c :: r /\ alphanumeric c = true.
Proof.
  intros Hl. split.
  - exact (all_chars_target _ _ label_char_target_char (label_chars _ Hl)).
  - destruct Hl as [c1 [tail [-> [Hc1 _]]]]. exists c1, tail. auto.
Qed.

Lemma labels_target (labels : list text) :
  Forall label_shaped labels ->
  Forall (fun c => target_char c = true)
         (concat (map (fun l => l ++ [dot]) labels)).
Proof.
  induction 1 as [|l ls Hl _ IH]; simpl; [constructor|].
  apply Forall_app. split; [|exact IH].
  apply Forall_app. split; [exact (proj1 (label_target _ Hl))|].
  repeat constructor.
Qed.

Lemma domain_shaped_chars (w : text) :
  domain_shaped w ->
  Forall (fun c => target_char c = true) w /\
  (exists c r, w = c :: r /\ alphanumeric c = true) /\
  In dot w /\
  exists pre c, w = pre ++ [c] /\ letter c = true.
Proof.
  intros [labels [tld [Hne [Hl [-> [Htld Hlen]]]]]].
  split; [|split; [|split]].
  - apply Forall_app. split; [now apply labels_target|].
    exact (all_chars_target _ _ letter_target_char Htld).
  - destruct labels as [|l ls]; [congruence|].
    inversion Hl as [|? ? Hl1 _]; subst.
    destruct (label_target _ Hl1) as [_ [c [r [-> Hc]]]].
    simpl. eexists c, _. split; [reflexivity | exact Hc].
  - destruct labels as [|l ls]; [congruence|]. simpl.
    apply in_or_app. left. apply in_or_app. left. apply in_or_app. right.
    now left.
  - destruct (exists_last (l := tld)) as [pre [c ->]].
    { intros ->. simpl in Hlen. lia. }
    exists (concat (map (fun l => l ++ [dot]) labels) ++ pre), c.
    rewrite <- app_assoc. split; [reflexivity|].
    unfold all_chars in Htld. apply Forall_app in Htld as [_ Hc].
    now inversion Hc.
Qed.

(** What [_extract_target] returns is an address literal of the text or a
    domain literal of the text. *)
Lemma extract_target_literal (q t : text) :
  _extract_target_text q = Some t ->
  ipv4_shaped t \/
  (domain_shaped t /\ Unicode.mem t (map codes excluded) = false).
Proof.
  unfold _extract_target_text.
  pose proof (Tokens_Forall _ _ _ _ (findall_ip_pattern q)) as Hi.
  pose proof (Tokens_Forall _ _ _ _ (findall_domain_pattern q)) as Hd.
  destruct (findall ip_pattern q) as [|m0 ms].
  - intros H. destruct (first_not_excluded_In _ _ H) as [Hin Hex].
    right. split; [|exact Hex].
    rewrite Forall_forall in Hd.
    destruct (Hd t Hin) as [p' [rest [_ [Hs _]]]]. exact Hs.
  - intros H. injection H as <-. left.
    inversion Hi as [|? ? [p' [rest [_ [Hs _]]]] _]; subst. exact Hs.
Qed.








(** A domain literal is neither "localhost" nor "127.0.0.1". *)
Lemma domain_literal_excluded (m : text) :
  domain_shaped m ->
  Unicode.mem m (map codes excluded) = Unicode.eqb m (codes "example.com").
Proof.
  intros Hm. destruct (domain_shaped_chars _ Hm) as [_ [_ [Hdot [pre [c [Hlast Hc]]]]]].
  unfold Unicode.mem, excluded. cbn [existsb map].
  destruct (Unicode.eqb m (codes "localhost")) eqn:E1.
  { exfalso. apply eqb_eq in E1. rewrite E1 in Hdot.
    vm_compute in Hdot. repeat (destruct Hdot as [Hdot|Hdot]; [discriminate Hdot|]).
    exact Hdot. }
  destruct (Unicode.eqb m (codes "127.0.0.1")) eqn:E2.
  { exfalso. apply eqb_eq in E2. rewrite Hlast in E2.
    change (codes "127.0.0.1") with (codes "127.0.0." ++ [49%N]) in E2.
    apply app_inj_tail in E2 as [_ ->]. discriminate Hc. }
  rewrite !orb_false_r. reflexivity.
Qed.

Lemma first_not_excluded_find (ms : list text) :
  Forall domain_shaped ms ->
  first_not_excluded ms
  = find (fun d => negb (Unicode.eqb d (codes "example.com"))) ms.
Proof.
  induction 1 as [|m ms Hm _ IH]; cbn [first_not_excluded find]; [reflexivity|].
  rewrite (domain_literal_excluded m Hm), IH. reflexivity.
Qed.

(** The exclusion list on a query of any code points. *)
Lemma exclusion_on_text (q : text) :
  _extract_target_text q = extract_target_but_example_text q /\
  _extract_target_text q <> Some (codes "example.com").
Proof.
  split.
  - unfold _extract_target_text, extract_target_but_example_text.
    destruct (findall ip_pattern q); [|reflexivity].
    apply first_not_excluded_find.
    pose proof (Tokens_Forall _ _ _ _ (findall_domain_pattern q)) as Hall.
    revert Hall. apply Forall_impl. intros m [p' [rest [_ [Hs _]]]]. exact Hs.
  - intros H. destruct (extract_target_literal _ _ H) as [Hs | [_ Hex]].
    + destruct (ipv4_shaped_chars _ Hs) as [_ [c [r [E Hc]]]].
      injection E as <- _. discriminate Hc.
    + discriminate Hex.
Qed.

(** X2. Of the three names _extract_target excludes, only example.com can
    be matched by its domain pattern: the function returns the first
    IPv4-shaped match, else the first domain match other than example.com,
    and it never returns example.com. *)
Theorem exclusion_list_reduces_to_example_com (query : string) :
  _extract_target query = extract_target_but_example query /\
  _extract_target query <> Some "example.com".
Proof.
  destruct (exclusion_on_text (codes query)) as [He Hn].
  split.
  - unfold _extract_target, extract_target_but_example. now rewrite He.
  - unfold _extract_target.
    destruct (_extract_target_text (codes query)) as [m|] eqn:E; [|discriminate].
    intros H. injection H as H. apply Hn. f_equal.
    rewrite <- (extract_target_text_bounded _ _ E), H. reflexivity.
Qed.
End ExtractShape.

(** ** More on the scope check *)
Module ScopeOrderFacts.
Import PyStr IpAddress Config Scope Spec PyStrFacts IpFacts ScopeRuleFacts
       ScopeRuleTheorems.

(** A rule raises only [TypeError], on a target network of the other
    version. *)
Lemma ip_rule_raises (R T : string) (e : exn) :
  ip_rule R T = Raise e ->
  e = TypeError /\ contains "/" R = true /\ contains "/" T = true /\
  exists N M, ip_network R = Ok N /\ ip_network T = Ok M /\
              net_version M <> net_version N.
Proof.
  destruct (contains "/" R) eqn:HR.
  - destruct (contains "/" T) eqn:HT.
    + rewrite (ip_rule_cidr_cidr R T HR HT).
      destruct (ip_network R) as [N|]; [|discriminate].
      destruct (ip_network T) as [M|]; [|discriminate].
      intros H. destruct (subnet_of_raises _ _ _ H) as [-> Hv].
      repeat split. exists N, M. auto.
    + rewrite (ip_rule_cidr_address R T HR HT).
      destruct (ip_network R); [|discriminate].
      destruct (ip_address T); discriminate.
  - unfold ip_rule, ip_rule_body. rewrite HR. discriminate.
Qed.

(** The loop over the allowed IPs stops at the first rule that does not
    answer false. *)
Lemma check_ips_true (rules : list string) (T : string) :
  check_ips rules T = Ok true <->
  exists pre R post,
    rules = pre ++ R :: post /\
    Forall (fun r => ip_rule r T = Ok false) pre /\
    ip_rule R T = Ok true.
Proof.
  induction rules as [|r rs IH]; simpl.
  - split; [discriminate|]. intros [pre [R [post [H _]]]].
    destruct pre; discriminate H.
  - destruct (ip_rule r T) as [[|]|e] eqn:Er.
    + split; [|reflexivity]. intros _. exists [], r, rs. repeat split; auto.
    + rewrite IH. split.
      * intros [pre [R [post [-> [Hp HR]]]]].
        exists (r :: pre), R, post. repeat split; auto.
      * intros [pre [R [post [Heq [Hp HR]]]]].
        destruct pre as [|x pre]; simpl in Heq; injection Heq as -> ->.
        -- congruence.
        -- inversion Hp; subst. exists pre, R, post. auto.
    + split; [discriminate|].
      intros [pre [R [post [Heq [Hp HR]]]]].
      destruct pre as [|x pre]; simpl in Heq; injection Heq as -> ->.
      * congruence.
      * inversion Hp; subst. congruence.
Qed.

Lemma check_ips_false (rules : list string) (T : string) :
  check_ips rules T = Ok false <-> Forall (fun r => ip_rule r T = Ok false) rules.
Proof.
  induction rules as [|r rs IH]; simpl.
  - split; [constructor | reflexivity].
  - destruct (ip_rule r T) as [[|]|e] eqn:Er.
    + split; [discriminate|]. intros H. inversion H; subst. congruence.
    + rewrite IH. split; [now constructor|]. intros H. now inversion H.
    + split; [discriminate|]. intros H. inversion H; subst. congruence.
Qed.

Lemma check_ips_raises (rules : list string) (T : string) (e : exn) :
  check_ips rules T = Raise e <->
  exists pre R post,
    rules = pre ++ R :: post /\
    Forall (fun r => ip_rule r T = Ok false) pre /\
    ip_rule R T = Raise e.
Proof.
  induction rules as [|r rs IH]; simpl.
  - split; [discriminate|]. intros [pre [R [post [H _]]]].
    destruct pre; discriminate H.
  - destruct (ip_rule r T) as [[|]|e'] eqn:Er.
    + split; [discriminate|].
      intros [pre [R [post [Heq [Hp HR]]]]].
      destruct pre as [|x pre]; simpl in Heq; injection Heq as -> ->.
      * congruence.
      * inversion Hp; subst. congruence.
    + rewrite IH. split.
      * intros [pre [R [post [-> [Hp HR]]]]].
        exists (r :: pre), R, post. repeat split; auto.
      * intros [pre [R [post [Heq [Hp HR]]]]].
        destruct pre as [|x pre]; simpl in Heq; injection Heq as -> ->.
        -- congruence.
        -- inversion Hp; subst. exists pre, R, post. auto.
    + split.
      * intros H. injection H as ->. exists [], r, rs. repeat split; auto.
      * intros [pre [R [post [Heq [Hp HR]]]]].
        destruct pre as [|x pre]; simpl in Heq; injection Heq as -> ->.
        -- congruence.
        -- inversion Hp; subst. congruence.
Qed.

Lemma check_domains_true (rules : list string) (T : string) :
  check_domains rules T = true <-> exists D, In D rules /\ domain_rule T D = true.
Proof.
  induction rules as [|d ds IH]; simpl.
  - split; [discriminate | intros [D [[] _]]].
  - destruct (domain_rule T d) eqn:Ed.
    + split; [|reflexivity]. intros _. exists d. auto.
    + rewrite IH. split.
      * intros [D [Hin HD]]. exists D. auto.
      * intros [D [[<- | Hin] HD]]; [congruence|]. exists D. auto.
Qed.

(** X3. In strict mode _check_scope is decided by the first allowed-IP
    rule that does not answer False: it returns True when that rule
    accepts the target and raises what that rule raises; only when every
    IP rule answers False does it accept through a matching allowed
    domain, and it returns False when no domain matches either. *)
Theorem check_scope_tries_rules_in_order (cfg : ScopeConfig) (target : string) :
  strict_mode cfg = true ->
  (_check_scope cfg target = Ok true <->
   (exists pre R post,
       allowed_ips cfg = pre ++ R :: post /\
       Forall (fun r => ip_rule r target = Ok false) pre /\
       ip_rule R target = Ok true) \/
   (Forall (fun r => ip_rule r target = Ok false) (allowed_ips cfg) /\
    exists D, In D (allowed_domains cfg) /\ domain_rule target D = true)) /\
  (_check_scope cfg target = Ok false <->
   Forall (fun r => ip_rule r target = Ok false) (allowed_ips cfg) /\
   Forall (fun D => domain_rule target D = false) (allowed_domains cfg)) /\
  (forall e,
      _check_scope cfg target = Raise e <->
      exists pre R post,
        allowed_ips cfg = pre ++ R :: post /\
        Forall (fun r => ip_rule r target = Ok false) pre /\
        ip_rule R target = Raise e).
Proof.
  intros Hstrict. unfold _check_scope. rewrite Hstrict. simpl.
  pose proof (check_ips_true (allowed_ips cfg) target) as Ht.
  pose proof (check_ips_false (allowed_ips cfg) target) as Hf.
  pose proof (check_ips_raises (allowed_ips cfg) target) as Hr.
  pose proof (check_domains_true (allowed_domains cfg) target) as Hd.
  assert (Hdf : check_domains (allowed_domains cfg) target = false <->
                Forall (fun D => domain_rule target D = false) (allowed_domains cfg)).
  { rewrite Forall_forall. split.
    - intros H D Hin. destruct (domain_rule target D) eqn:E; [|reflexivity].
      assert (check_domains (allowed_domains cfg) target = true)
        by (apply check_domains_true; exists D; auto).
      congruence.
    - intros H. destruct (check_domains (allowed_domains cfg) target) eqn:E;
        [|reflexivity].
      apply check_domains_true in E as [D [Hin HD]].
      rewrite (H D Hin) in HD. discriminate. }
  destruct (check_ips (allowed_ips cfg) target) as [[|]|e0] eqn:Ec.
  - split; [|split].
    + split; [|reflexivity]. intros _. left. now apply Ht.
    + split; [discriminate|]. intros [H _]. apply Hf in H. discriminate.
    + intros e. split; [discriminate|]. intros H. apply Hr in H. discriminate.
  - split; [|split].
    + split.
      * intros H. injection H as H. right. split; [now apply Hf | now apply Hd].
      * intros [H | [_ H]]; [apply Ht in H; discriminate|].
        apply Hd in H. now rewrite H.
    + split.
      * intros H. injection H as H. split; [now apply Hf | now apply Hdf].
      * intros [_ H]. apply Hdf in H. now rewrite H.
    + intros e. split; [discriminate|]. intros H. apply Hr in H. discriminate.
  - split; [|split].
    + split; [discriminate|].
      intros [H | [H _]]; [apply Ht in H | apply Hf in H]; discriminate.
    + split; [discriminate|]. intros [H _]. apply Hf in H. discriminate.
    + intros e. split.
      * intros H. injection H as <-. now apply Hr.
      * intros H. apply Hr in H. exact H.
Qed.

Lemma check_scope_tries_rules_in_order_witness :
  _check_scope (mkScopeConfig ["10.0.0.0/33"; "10.0.0.0/8"] ["test.org"] true)
               "10.1.2.0/24" = Ok true <->
  (exists pre R post,
      ["10.0.0.0/33"; "10.0.0.0/8"] = pre ++ R :: post /\
      Forall (fun r => ip_rule r "10.1.2.0/24" = Ok false) pre /\
      ip_rule R "10.1.2.0/24" = Ok true) \/
  (Forall (fun r => ip_rule r "10.1.2.0/24" = Ok false)
          ["10.0.0.0/33"; "10.0.0.0/8"] /\
   exists D, In D ["test.org"] /\ domain_rule "10.1.2.0/24" D = true).
Proof.
  apply (proj1 (check_scope_tries_rules_in_order
                  (mkScopeConfig ["10.0.0.0/33"; "10.0.0.0/8"] ["test.org"] true)
                  "10.1.2.0/24" eq_refl)).
Defined.

(** The scope check raises only [TypeError], in strict mode, on a target
    network of another version than an allowed network. *)
Lemma check_scope_raises (cfg : ScopeConfig) (target : string) (e : exn) :
  _check_scope cfg target = Raise e ->
  e = TypeError /\ strict_mode cfg = true /\ contains "/" target = true /\
  exists R N M,
    In R (allowed_ips cfg) /\ contains "/" R = true /\
    ip_network R = Ok N /\ ip_network target = Ok M /\
    net_version M <> net_version N.
Proof.
  intros H. unfold _check_scope in H.
  destruct (strict_mode cfg) eqn:Hs; simpl in H; [|discriminate].
  destruct (check_ips (allowed_ips cfg) target) as [[|]|e'] eqn:Ec;
    try discriminate.
  injection H as ->.
  apply check_ips_raises in Ec as [pre [R [post [Heq [_ HR]]]]].
  destruct (ip_rule_raises _ _ _ HR) as [-> [HsR [HsT [N [M [HN [HM Hv]]]]]]].
  repeat split; auto. exists R, N, M. repeat split; auto.
  rewrite Heq. apply in_or_app. right. now left.
Qed.

(** X4. _check_scope raises only TypeError, only in strict mode, and only
    for a target written with a slash whose network has another IP version
    than an allowed network; for a target without a slash it always
    returns a boolean. *)
Theorem check_scope_raises_only_on_mixed_versions
        (cfg : ScopeConfig) (target : string) :
  (forall e,
      _check_scope cfg target = Raise e ->
      e = TypeError /\ strict_mode cfg = true /\ contains "/" target = true /\
      exists R N M,
        In R (allowed_ips cfg) /\ contains "/" R = true /\
        ip_network R = Ok N /\ ip_network target = Ok M /\
        net_version M <> net_version N) /\
  (contains "/" target = false -> exists b, _check_scope cfg target = Ok b).
Proof.
  split; [intros e; apply check_scope_raises|].
  intros Hns. destruct (_check_scope cfg target) as [b|e] eqn:E.
  - exists b. reflexivity.
  - destruct (check_scope_raises _ _ _ E) as [_ [_ [Hc _]]]. congruence.
Qed.

End ScopeOrderFacts.

(** ** Addresses without a colon *)
Module ColonFacts.
Import Vocabulary PyStr IpAddress.









End ColonFacts.

(** ** The ways a call ends *)
Module OutcomeFacts.
Import PyStr Config Scope MemoryManager Agent Spec Outcomes MemoryFacts
       RecorderFacts PipelineFacts.

Lemma truthy_some_neq (t : string) : truthy (Some t) = false -> t = "".
Proof.
  unfold truthy. destruct (String.eqb_spec t ""); [auto | discriminate].
Qed.

Section WithEnv.
Variable env : Collaborators.
Variable self : Agent.t.

(** From the safety gate on. *)
Lemma safety_gate_ends (query : string) (rc : option bool) (w : World.t) :
  scope_gate_open self query ->
  ends env self query rc w
       (safety_gate env self query rc (_extract_target query)
                    (entry env query w)).
Proof.
  intros Hscope. unfold safety_gate.
  destruct (_is_dangerous_action (safety (config self)) query
            && opt_or rc (require_confirmation (safety (config self)))) eqn:Eg.
  - apply andb_true_iff in Eg as [Hd Hc].
    now apply EndsAwaitingConfirmation.
  - unfold plan_and_dispatch.
    destruct (planning env query
                (build_context query (_extract_target query) (entry env query w))
                (entry env query w)) as [resp|e] eqn:Ep.
    + pose proof (dispatch_raises env self query
                    (build_context query (_extract_target query) (entry env query w))
                    (_extract_target query) (entry env query w)) as Hraise.
      destruct (dispatch env self query
                  (build_context query (_extract_target query) (entry env query w))
                  (_extract_target query) (entry env query w))
        as [matching [results w2]] eqn:Ed.
      unfold summarise. destruct results as [results|e].
      * destruct (_generate_response_summary env w2 query results resp)
          as [response|e] eqn:Es.
        -- pose proof (save_session_raises (clk env) (disk_writable env)
                         (json_dump env)
                         (add_conversation (clk env) "assistant" response w2))
             as Hsave.
           destruct (save_session (clk env) (disk_writable env) (json_dump env)
                       (add_conversation (clk env) "assistant" response w2))
             as [[saved|e] w3] eqn:Ev.
           ++ eapply EndsCompleted; eauto.
           ++ unfold pipeline_failed. rewrite (Hsave e eq_refl).
              eapply EndsSaveInterrupted; eauto.
        -- unfold pipeline_failed. destruct (is_exception e) eqn:Ee.
           ++ eapply EndsSummaryFailed; eauto.
           ++ eapply EndsSummaryInterrupted; eauto.
      * unfold pipeline_failed. rewrite (Hraise e eq_refl).
        eapply EndsDispatchInterrupted; eauto.
    + unfold pipeline_failed. destruct (is_exception e) eqn:Ee.
      * eapply EndsPlanningFailed; eauto.
      * eapply EndsPlanningInterrupted; eauto.
Qed.

(** Every call ends in one of these ways. *)
Lemma process_query_ends (query : string) (rc : option bool) (w : World.t) :
  ends env self query rc w (process_query env self query rc w).
Proof.
  destruct (_extract_target query) as [t|] eqn:Et.
  - destruct (truthy (Some t)) eqn:Etr.
    + destruct (_check_scope (scope (config self)) t) as [[|]|e] eqn:Ec.
      * assert (Hopen : scope_gate_open self query).
        { unfold scope_gate_open. rewrite Et. intros _. exact Ec. }
        rewrite (process_query_past_scope env self query rc w Hopen).
        now apply safety_gate_ends.
      * unfold process_query. rewrite Et, Etr, Ec.
        now apply EndsOutOfScope.
      * unfold process_query. rewrite Et, Etr, Ec.
        eapply EndsRaised; eauto.
    + assert (Hopen : scope_gate_open self query).
      { unfold scope_gate_open. rewrite Et. rewrite Etr. discriminate. }
      rewrite (process_query_past_scope env self query rc w Hopen).
      now apply safety_gate_ends.
  - assert (Hopen : scope_gate_open self query).
    { unfold scope_gate_open. rewrite Et. exact I. }
    rewrite (process_query_past_scope env self query rc w Hopen).
    now apply safety_gate_ends.
Qed.

End WithEnv.
End OutcomeFacts.

(** ** What the pipeline leaves in the session and on disk *)
Module StoreFacts.
Import PyStr Config Scope MemoryManager Agent Spec Outcomes MemoryFacts
       RecorderFacts PipelineFacts RunsVocabulary.

Section WithClock.
Variable clk : Clock.t.

Lemma history_ensure_session (w : World.t) :
  history_of (ensure_session clk w) = history_of w.
Proof. destruct w as [[s|] c d]; reflexivity. Qed.

Lemma history_add_conversation (role content : string) (w : World.t) :
  history_of (add_conversation clk role content w) = history_of w ++ [(role, content)].
Proof. destruct w as [[s|] c d]; reflexivity. Qed.

Lemma history_add_finding (f : Finding.t) (w : World.t) :
  history_of (add_finding clk f w) = history_of w.
Proof. destruct w as [[s|] c d]; reflexivity. Qed.

Lemma history_add_tool_execution (x : ToolExecution.t) (w : World.t) :
  history_of (add_tool_execution clk x w) = history_of w.
Proof. destruct w as [[s|] c d]; reflexivity. Qed.

Lemma history_save_session (writable : bool)
      (dump : SessionMemory.t -> string * option exn) (w : World.t) :
  history_of (snd (save_session clk writable dump w)) = history_of w.
Proof.
  destruct w as [[s|] c d]; [|reflexivity]. unfold save_session. simpl.
  destruct writable; [|reflexivity].
  destruct (dump _) as [written [e|]]; reflexivity.
Qed.

Lemma history_tick (w : World.t) : history_of (tick w) = history_of w.
Proof. reflexivity. Qed.

Lemma disk_tick (w : World.t) : World.disk (tick w) = World.disk w.
Proof. reflexivity. Qed.

Lemma disk_ensure_session (w : World.t) :
  World.disk (ensure_session clk w) = World.disk w.
Proof. destruct w as [[s|] c d]; reflexivity. Qed.

Lemma disk_add_conversation (role content : string) (w : World.t) :
  World.disk (add_conversation clk role content w) = World.disk w.
Proof. destruct w as [[s|] c d]; reflexivity. Qed.

Lemma disk_add_finding (f : Finding.t) (w : World.t) :
  World.disk (add_finding clk f w) = World.disk w.
Proof. destruct w as [[s|] c d]; reflexivity. Qed.

Lemma disk_add_tool_execution (x : ToolExecution.t) (w : World.t) :
  World.disk (add_tool_execution clk x w) = World.disk w.
Proof. destruct w as [[s|] c d]; reflexivity. Qed.

End WithClock.

Section WithEnv.
Variable env : Collaborators.

Lemma history_entry (query : string) (w : World.t) :
  history_of (entry env query w) = history_of w ++ [("user", query)].
Proof.
  unfold entry. rewrite history_add_conversation, history_ensure_session.
  reflexivity.
Qed.

Lemma disk_entry (query : string) (w : World.t) :
  World.disk (entry env query w) = World.disk w.
Proof. unfold entry. rewrite disk_add_conversation. apply disk_ensure_session. Qed.

(** The recorder touches neither the conversation nor the store. *)
Lemma record_each_keeps (name : string) (target : option string)
      (payloads : list PyVal) (w : World.t) :
  history_of (snd (record_each env name target payloads w)) = history_of w /\
  World.disk (snd (record_each env name target payloads w)) = World.disk w.
Proof.
  revert w. induction payloads as [|fd rest IH]; intros w; simpl; [auto|].
  unfold record_finding.
  destruct (make_finding env name target (World.clock w) fd) as [f|e].
  - destruct (IH (add_finding (clk env) f (tick (tick w)))) as [Hh Hd].
    rewrite Hh, Hd, history_add_finding, disk_add_finding. auto.
  - simpl. auto.
Qed.

Lemma record_findings_keeps (name : string) (target : option string)
      (pr : PyDict) (w : World.t) :
  history_of (snd (record_findings env name target pr w)) = history_of w /\
  World.disk (snd (record_findings env name target pr w)) = World.disk w.
Proof.
  unfold record_findings. destruct (dict_get pr "findings") as [v|]; [|auto].
  destruct (PyAny.iter v); [apply record_each_keeps | auto].
Qed.

Lemma record_execution_keeps (name : string) (target : option string)
      (pr : PyDict) (w : World.t) :
  history_of (snd (record_execution env name target pr w)) = history_of w /\
  World.disk (snd (record_execution env name target pr w)) = World.disk w.
Proof.
  unfold record_execution. destruct (dict_get pr "raw_result"); [|auto].
  destruct (py_str env p); [|auto].
  destruct (py_str env (PDict pr)); [|auto]. cbn [snd].
  rewrite history_add_tool_execution, disk_add_tool_execution. auto.
Qed.

(** What logging the execution of a returned result adds. *)
Lemma executions_record_execution (name : string) (target : option string)
      (pr : PyDict) (w : World.t) :
  exists xs,
    executions_of (snd (record_execution env name target pr w))
    = executions_of w ++ xs /\
    Forall2 (logged_for env target)
            (match dict_get pr "raw_result", logging_error env pr with
             | Some _, None => [(name, pr)]
             | _, _ => []
             end) xs.
Proof.
  unfold record_execution, logging_error, str_error.
  destruct (dict_get pr "raw_result") as [raw|] eqn:Er.
  - destruct (py_str env raw) as [command|e] eqn:Ec.
    + destruct (py_str env (PDict pr)) as [output|e] eqn:Eo.
      * eexists. cbn [snd]. rewrite executions_add_tool_execution.
        split; [reflexivity|].
        constructor; [|constructor].
        unfold logged_for. cbn [fst snd]. rewrite Er. cbn [option_map].
        rewrite Ec, Eo. repeat split.
      * exists []. simpl. rewrite app_nil_r. split; [reflexivity | constructor].
    + exists []. simpl. rewrite app_nil_r. split; [reflexivity | constructor].
  - exists []. rewrite app_nil_r. split; [reflexivity | constructor].
Qed.

(** One turn of the loop: the tool execution it logs, and what it leaves
    alone. *)
Lemma try_plugin_executions (context : RequestContext.t) (target : option string)
      (p : BasePlugin.t) (results : list PyDict) (w : World.t) :
  exists xs,
    executions_of (snd (try_plugin env p context target results w))
    = executions_of w ++ xs /\
    Forall2 (logged_for env target) (logged_runs env context target [p]) xs /\
    history_of (snd (try_plugin env p context target results w)) = history_of w /\
    World.disk (snd (try_plugin env p context target results w)) = World.disk w.
Proof.
  unfold try_plugin, logged_runs. cbn [flat_map]. rewrite app_nil_r.
  unfold recording_error.
  destruct (BasePlugin.execute p context) as [pr|e].
  - destruct (record_findings_spec env (BasePlugin.name p) target pr w)
      as [fs1 [Hres [_ [_ Hx1]]]].
    destruct (record_findings_keeps (BasePlugin.name p) target pr w) as [Hh1 Hd1].
    destruct (record_findings env (BasePlugin.name p) target pr w) as [res w1].
    simpl in Hres, Hx1, Hh1, Hd1.
    destruct (snd (recording_of env target pr)) as [e|]; subst res.
    + exists []. cbn [snd]. rewrite app_nil_r.
      destruct (dict_get pr "raw_result"); repeat split; auto; constructor.
    + destruct (executions_record_execution (BasePlugin.name p) target pr w1)
        as [xs [Hx2 Hall]].
      destruct (record_execution_keeps (BasePlugin.name p) target pr w1)
        as [Hh2 Hd2].
      destruct (record_execution env (BasePlugin.name p) target pr w1)
        as [[u|e] w2]; cbn [snd] in *;
        exists xs; rewrite Hx2, Hx1, Hh2, Hd2; repeat split; auto.
  - exists []. cbn [snd]. rewrite app_nil_r. repeat split. constructor.
Qed.

(** The plugin loop: the tool executions it logs, one for each run of a
    plugin whose turn came, and what it leaves alone. *)
Lemma run_plugins_executions (context : RequestContext.t) (target : option string)
      (ps : list BasePlugin.t) (results : list PyDict) (w : World.t) :
  exists xs,
    executions_of (snd (run_plugins env ps context target results w))
    = executions_of w ++ xs /\
    Forall2 (logged_for env target)
            (logged_runs env context target (fst (turns env context target ps)))
            xs /\
    history_of (snd (run_plugins env ps context target results w)) = history_of w /\
    World.disk (snd (run_plugins env ps context target results w)) = World.disk w.
Proof.
  revert results w. induction ps as [|p ps IH]; intros results w.
  - exists []. simpl. rewrite app_nil_r. repeat split. constructor.
  - cbn [run_plugins turns].
    destruct (try_plugin_executions context target p results w)
      as [xs1 [Hx1 [Hall1 [Hh1 Hd1]]]].
    destruct (try_plugin_spec env context target p results w) as [fs1 [Ht _]].
    destruct (try_plugin env p context target results w) as [[res oe] w1].
    cbn [fst snd] in *. injection Ht as -> ->.
    unfold interrupt_of.
    assert (Hstep : forall rs,
               exists xs,
                 executions_of (snd (run_plugins env ps context target rs w1))
                 = executions_of w ++ xs /\
                 Forall2 (logged_for env target)
                         (logged_runs env context target
                            (p :: fst (turns env context target ps))) xs /\
                 history_of (snd (run_plugins env ps context target rs w1))
                 = history_of w /\
                 World.disk (snd (run_plugins env ps context target rs w1))
                 = World.disk w).
    { intros rs. destruct (IH rs w1) as [xs [Hx [Hall [Hh Hd]]]].
      exists (xs1 ++ xs). rewrite Hx, Hx1, Hh, Hd, Hh1, Hd1, <- app_assoc.
      repeat split.
      change (p :: fst (turns env context target ps))
        with ([p] ++ fst (turns env context target ps)).
      unfold logged_runs in *. rewrite flat_map_app.
      apply Forall2_app; assumption. }
    destruct (turn_error env context target p) as [e|].
    + destruct (is_exception e).
      * destruct (Hstep ((results ++ match BasePlugin.execute p context with
                                      | Ok r => [r]
                                      | Raise _ => []
                                      end)
                         ++ [failed_result (BasePlugin.name p) e]))
          as [xs H].
        exists xs. destruct (turns env context target ps) as [l oe]. exact H.
      * exists xs1. cbn [fst snd]. repeat split; assumption.
    + destruct (Hstep (results ++ match BasePlugin.execute p context with
                                   | Ok r => [r]
                                   | Raise _ => []
                                   end))
        as [xs H].
      exists xs. destruct (turns env context target ps) as [l oe]. exact H.
Qed.

End WithEnv.
End StoreFacts.

(** ** Invariants of [process_query] *)
Module PipelineInvariants.
Import PyStr IpAddress Config Scope MemoryManager Agent Spec Vocabulary
       Outcomes RunsVocabulary MemoryFacts RecorderFacts PipelineFacts
       OutcomeFacts StoreFacts ExtractShape ScopeOrderFacts ColonFacts
       Scenario.











(** X6. Called with require_confirmation=False, as the web interface
    always calls it, process_query never returns an envelope that asks for
    confirmation: once the scope check passes, the query goes to planning
    and dispatch, however dangerous its text. *)
Theorem override_false_never_asks_confirmation
        (env : Collaborators) (self : Agent.t) (query : string) (w : World.t) :
  (forall e w', process_query env self query (Some false) w = (Ok e, w') ->
                Envelope.requires_confirmation e = None) /\
  (scope_gate_open self query ->
   process_query env self query (Some false) w
   = plan_and_dispatch env self query (_extract_target query)
                       (entry env query w)).
Proof.
  split.
  - intros e w' H.
    pose proof (process_query_ends env self query (Some false) w) as He.
    rewrite H in He.
    inversion He as [ | | Hs Hd Hc | | | | | | | ]; subst; try reflexivity.
    discriminate Hc.
  - intros Hscope.
    rewrite (process_query_past_scope env self query (Some false) w Hscope).
    unfold safety_gate. simpl. rewrite andb_false_r. reflexivity.
Qed.

(** What the dispatch stage leaves in the session. *)
Lemma dispatch_keeps
        (env : Collaborators) (self : Agent.t) (query : string) (w : World.t)
        (matching : list BasePlugin.t) (results : result (list PyDict))
        (w2 : World.t) :
  dispatch env self query
    (build_context query (_extract_target query) (entry env query w))
    (_extract_target query) (entry env query w)
  = (matching, (results, w2)) ->
  (exists fs xs,
      findings_of w2 = findings_of w ++ fs /\
      executions_of w2 = executions_of w ++ xs) /\
  history_of w2 = history_of w ++ [("user", query)] /\
  World.disk w2 = World.disk w.
Proof.
  intros Hd. unfold dispatch in Hd. injection Hd as _ Hr.
  destruct (run_plugins_spec env
              (build_context query (_extract_target query) (entry env query w))
              (_extract_target query)
              (filter (fun p => BasePlugin.matches p query) (plugins self))
              [] (entry env query w)) as [fs [_ [Hf _]]].
  destruct (run_plugins_executions env
              (build_context query (_extract_target query) (entry env query w))
              (_extract_target query)
              (filter (fun p => BasePlugin.matches p query) (plugins self))
              [] (entry env query w)) as [xs [Hx [_ [Hh Hk]]]].
  rewrite Hr in Hf, Hx, Hh, Hk. cbn [snd] in Hf, Hx, Hh, Hk.
  split; [|split].
  - exists fs, xs. rewrite Hf, Hx, findings_entry, executions_entry. auto.
  - rewrite Hh. apply history_entry.
  - rewrite Hk. apply disk_entry.
Qed.


(** X7. A call of process_query only appends to the findings and to the
    tool executions of the session; when it raises an Exception (the
    scope check does), or returns the out-of-scope or the confirmation
    envelope (the two without a query field), both lists are unchanged.
    (An exception that does not derive from Exception leaves what was
    recorded before it arose.) *)
Theorem session_records_only_grow
        (env : Collaborators) (self : Agent.t) (query : string)
        (rc : option bool) (w : World.t) :
  let out := process_query env self query rc w in
  (exists fs xs,
      findings_of (snd out) = findings_of w ++ fs /\
      executions_of (snd out) = executions_of w ++ xs) /\
  (match fst out with
   | Raise e => is_exception e = true
   | Ok e => Envelope.query e = None
   end ->
   findings_of (snd out) = findings_of w /\
   executions_of (snd out) = executions_of w).
Proof.
  intros out. unfold out.
  assert (Hnil : exists fs xs : list _,
             findings_of w = findings_of w ++ fs /\
             executions_of w = executions_of w ++ xs)
    by (exists [], []; rewrite !app_nil_r; auto).
  destruct (process_query_ends env self query rc w)
    as [t e Ht Hc | t Ht Hc | Hs Hd Hc | e Hs Hg Hp He | e Hs Hg Hp He
        | resp matching w2 e Hs Hg Hp Hd He
        | resp matching results w2 e Hs Hg Hp Hd Hsum He
        | resp matching results w2 e Hs Hg Hp Hd Hsum He
        | resp matching results w2 response w3 e Hs Hg Hp Hd Hsum Hsv He
        | resp matching results w2 response saved w3 Hs Hg Hp Hd Hsum Hsv];
    cbn [fst snd Envelope.query out_of_scope_envelope
         requires_confirmation_envelope error_envelope completed_envelope];
    rewrite ?findings_add_conversation, ?executions_add_conversation,
      ?findings_entry, ?executions_entry;
    try (split; [exact Hnil | auto]; fail).
  - split; [exact (proj1 (dispatch_keeps _ _ _ _ _ _ _ Hd))|].
    rewrite He. discriminate.
  - split; [exact (proj1 (dispatch_keeps _ _ _ _ _ _ _ Hd)) | discriminate].
  - split; [exact (proj1 (dispatch_keeps _ _ _ _ _ _ _ Hd))|].
    rewrite He. discriminate.
  - pose proof (findings_save_session (clk env) (disk_writable env) (json_dump env)
                  (add_conversation (clk env) "assistant" response w2)) as Hf.
    pose proof (executions_save_session (clk env) (disk_writable env) (json_dump env)
                  (add_conversation (clk env) "assistant" response w2)) as Hx.
    rewrite Hsv in Hf, Hx. cbn [snd] in Hf, Hx.
    rewrite Hf, Hx, findings_add_conversation, executions_add_conversation.
    split; [exact (proj1 (dispatch_keeps _ _ _ _ _ _ _ Hd))|].
    rewrite He. discriminate.
  - pose proof (findings_save_session (clk env) (disk_writable env) (json_dump env)
                  (add_conversation (clk env) "assistant" response w2)) as Hf.
    pose proof (executions_save_session (clk env) (disk_writable env) (json_dump env)
                  (add_conversation (clk env) "assistant" response w2)) as Hx.
    rewrite Hsv in Hf, Hx. cbn [snd] in Hf, Hx.
    rewrite Hf, Hx, findings_add_conversation, executions_add_conversation.
    split; [exact (proj1 (dispatch_keeps _ _ _ _ _ _ _ Hd)) | discriminate].
Qed.

(** What a call leaves in the conversation, by the way it ends. *)
Lemma history_of_a_call
        (env : Collaborators) (self : Agent.t) (query : string)
        (rc : option bool) (w : World.t) :
  let out := process_query env self query rc w in
  exists tail,
    history_of (snd out) = history_of w ++ ("user", query) :: tail /\
    match fst out with
    | Raise e =>
        tail = [] \/
        (is_exception e = false /\ exists response, tail = [("assistant", response)])
    | Ok e =>
        match Envelope.requires_confirmation e, Envelope.response e,
              Envelope.error e, Envelope.target e with
        | Some _, _, _, _ => tail = []
        | None, Some response, _, _ => tail = [("assistant", response)]
        | None, None, Some msg, Some _ => tail = [("assistant", ("Error: " ++ msg)%string)]
        | None, None, Some msg, None => tail = [("assistant", msg)]
        | None, None, None, _ => False
        end
    end.
Proof.
  intros out. unfold out.
  destruct (process_query_ends env self query rc w)
    as [t e Ht Hc | t Ht Hc | Hs Hd Hc | e Hs Hg Hp He | e Hs Hg Hp He
        | resp matching w2 e Hs Hg Hp Hd He
        | resp matching results w2 e Hs Hg Hp Hd Hsum He
        | resp matching results w2 e Hs Hg Hp Hd Hsum He
        | resp matching results w2 response w3 e Hs Hg Hp Hd Hsum Hsv He
        | resp matching results w2 response saved w3 Hs Hg Hp Hd Hsum Hsv];
    cbn [fst snd Envelope.requires_confirmation Envelope.response
         Envelope.error Envelope.target out_of_scope_envelope
         requires_confirmation_envelope error_envelope completed_envelope].
  - exists []. rewrite history_entry. auto.
  - eexists. rewrite history_add_conversation, history_entry, <- app_assoc.
    split; reflexivity.
  - exists []. rewrite history_entry. auto.
  - eexists. rewrite history_add_conversation, history_entry, <- app_assoc.
    split; reflexivity.
  - exists []. rewrite history_entry. auto.
  - exists []. rewrite (proj1 (proj2 (dispatch_keeps _ _ _ _ _ _ _ Hd))). auto.
  - eexists.
    rewrite history_add_conversation,
      (proj1 (proj2 (dispatch_keeps _ _ _ _ _ _ _ Hd))), <- app_assoc.
    split; reflexivity.
  - exists []. rewrite (proj1 (proj2 (dispatch_keeps _ _ _ _ _ _ _ Hd))). auto.
  - pose proof (history_save_session (clk env) (disk_writable env) (json_dump env)
                  (add_conversation (clk env) "assistant" response w2)) as Hh.
    rewrite Hsv in Hh. cbn [snd] in Hh.
    exists [("assistant", response)].
    rewrite Hh, history_add_conversation,
      (proj1 (proj2 (dispatch_keeps _ _ _ _ _ _ _ Hd))), <- app_assoc.
    split; [reflexivity|]. right. split; [exact He|]. eexists. reflexivity.
  - pose proof (history_save_session (clk env) (disk_writable env) (json_dump env)
                  (add_conversation (clk env) "assistant" response w2)) as Hh.
    rewrite Hsv in Hh. cbn [snd] in Hh.
    eexists.
    rewrite Hh, history_add_conversation,
      (proj1 (proj2 (dispatch_keeps _ _ _ _ _ _ _ Hd))), <- app_assoc.
    split; reflexivity.
Qed.

(** A call logs the query as a user turn. *)
Lemma process_query_logs_the_query
        (env : Collaborators) (self : Agent.t) (query : string)
        (rc : option bool) (w : World.t) :
  exists tail,
    history_of (snd (process_query env self query rc w))
    = history_of w ++ ("user", query) :: tail.
Proof.
  destruct (history_of_a_call env self query rc w) as [tail [H _]].
  exists tail. exact H.
Qed.

(** X8. Each call of process_query appends the user's query to the
    conversation, followed by at most one assistant turn: the response on
    completion, the error text prefixed with Error: when the target is out
    of scope, the error text alone after a failure in planning or
    summarising, and nothing when the call raises or asks for
    confirmation; the one call that raises after an assistant turn is the
    one an exception that does not derive from Exception leaves while the
    session is saved, the response being logged already. *)
Theorem conversation_log_of_a_call
        (env : Collaborators) (self : Agent.t) (query : string)
        (rc : option bool) (w : World.t) :
  let out := process_query env self query rc w in
  exists tail,
    history_of (snd out) = history_of w ++ ("user", query) :: tail /\
    match fst out with
    | Raise e =>
        tail = [] \/
        (is_exception e = false /\ exists response, tail = [("assistant", response)])
    | Ok e =>
        match Envelope.requires_confirmation e, Envelope.response e,
              Envelope.error e, Envelope.target e with
        | Some _, _, _, _ => tail = []
        | None, Some response, _, _ => tail = [("assistant", response)]
        | None, None, Some msg, Some _ => tail = [("assistant", ("Error: " ++ msg)%string)]
        | None, None, Some msg, None => tail = [("assistant", msg)]
        | None, None, None, _ => False
        end
    end.
Proof. exact (history_of_a_call env self query rc w). Qed.



End PipelineInvariants.

(** ** The command line *)
Module CallerFacts.
Import PyStr Config Scope MemoryManager Agent Spec Vocabulary Outcomes
       RunsVocabulary SummaryVocabulary Main MemoryFacts RecorderFacts
       PipelineFacts OutcomeFacts StoreFacts SafetyFacts PipelineInvariants
       Scenario ToolScenario.

(** X11. In the run command, a dangerous query that the user confirms is
    processed twice: the first call logs the user turn and returns the
    confirmation envelope, the second logs the same user turn again and
    runs planning and dispatch, so the conversation holds the query twice.
    When the user declines, only the first call happens. *)
Theorem confirmed_query_is_processed_twice
        (env : Collaborators) (self : Agent.t) (query : string) (w : World.t) :
  scope_gate_open self query ->
  _is_dangerous_action (safety (config self)) query = true ->
  require_confirmation (safety (config self)) = true ->
  let w1 := entry env query w in
  let again := plan_and_dispatch env self query (_extract_target query)
                                 (entry env query w1) in
  run_query env self false query w = (Ok (requires_confirmation_envelope query), w1) /\
  run_query env self true query w = again /\
  history_of w1 = history_of w ++ [("user", query)] /\
  exists tail,
    history_of (snd (run_query env self true query w))
    = history_of w ++ ("user", query) :: ("user", query) :: tail.
Proof.
  intros Hscope Hd Hc w1 again.
  assert (H1 : process_query env self query None w
               = (Ok (requires_confirmation_envelope query), w1)).
  { rewrite (process_query_past_scope env self query None w Hscope).
    unfold safety_gate. simpl. rewrite Hd, Hc. reflexivity. }
  assert (H2 : process_query env self query (Some false) w1 = again).
  { rewrite (process_query_past_scope env self query (Some false) w1 Hscope).
    unfold safety_gate. simpl. rewrite andb_false_r. reflexivity. }
  assert (Hh : history_of w1 = history_of w ++ [("user", query)])
    by apply history_entry.
  unfold run_query. rewrite H1. simpl. rewrite H2.
  split; [reflexivity|]. split; [reflexivity|]. split; [exact Hh|].
  destruct (process_query_logs_the_query env self query (Some false) w1) as [tail Ht].
  exists tail. rewrite H2 in Ht. rewrite Ht, Hh, <- app_assoc. reflexivity.
Qed.

Lemma confirmed_query_is_processed_twice_witness :
  let query := "exploit ms17-010 on 192.168.1.10" in
  let w1 := entry env0 query w0 in
  let again := plan_and_dispatch env0 agent_lab query (_extract_target query)
                                 (entry env0 query w1) in
  run_query env0 agent_lab false query w0
  = (Ok (requires_confirmation_envelope query), w1) /\
  run_query env0 agent_lab true query w0 = again /\
  history_of w1 = history_of w0 ++ [("user", query)] /\
  exists tail,
    history_of (snd (run_query env0 agent_lab true query w0))
    = history_of w0 ++ ("user", query) :: ("user", query) :: tail.
Proof.
  apply (confirmed_query_is_processed_twice
           env0 agent_lab "exploit ms17-010 on 192.168.1.10" w0).
  - unfold scope_gate_open.
    replace (_extract_target "exploit ms17-010 on 192.168.1.10")
      with (Some "192.168.1.10") by (vm_compute; reflexivity).
    intros _. vm_compute. reflexivity.
  - vm_compute. reflexivity.
  - reflexivity.
Defined.

End CallerFacts.

(** ** The Nmap plugin and the recorder *)
Module NmapPluginFacts.
Import NmapVocabulary PyStr Config Scope MemoryManager Agent Spec Vocabulary
       Outcomes RunsVocabulary SummaryVocabulary MemoryFacts RecorderFacts
       PipelineFacts OutcomeFacts StoreFacts Scenario ToolScenario.

Lemma port_finding_payload (target : string) (port_info fd : PyVal) :
  NmapPlugin.port_finding target port_info = Ok fd -> port_payload target fd.
Proof.
  unfold NmapPlugin.port_finding.
  destruct port_info; simpl; try discriminate.
  intros H. injection H as <-. eexists _, _, _. reflexivity.
Qed.

Lemma port_findings_payloads (target : string) (ports fds : list PyVal) :
  NmapPlugin.port_findings target ports = Ok fds ->
  Forall (port_payload target) fds /\ length fds = length ports.
Proof.
  revert fds. induction ports as [|p ps IH]; intros fds; simpl.
  - intros H. injection H as <-. split; [constructor | reflexivity].
  - destruct (NmapPlugin.port_finding target p) as [fd|] eqn:Ep; simpl;
      [|discriminate].
    destruct (NmapPlugin.port_findings target ps) as [l|]; simpl; [|discriminate].
    intros H. injection H as <-. destruct (IH l eq_refl) as [Hall Hlen].
    split; [|simpl; congruence].
    constructor; [exact (port_finding_payload _ _ _ Ep) | exact Hall].
Qed.

Lemma port_payload_well_formed (target : string) (tgt : option string) (fd : PyVal) :
  port_payload target fd -> well_formed_payload tgt fd = true.
Proof.
  intros [port [service [version ->]]].
  unfold well_formed_payload, well_formed_fields. simpl.
  rewrite orb_true_r. reflexivity.
Qed.

(** What [execute] returns: without a target the failure, else a result
    whose findings are the payloads of the open ports. *)
Lemma nmap_execute_result (nmap : NmapWrapper.t) (context : RequestContext.t)
      (r : PyDict) :
  NmapPlugin.execute nmap context = Ok r ->
  (or_else (RequestContext.target context) "" = "" /\
   r = [("success", PBool false); ("error", PStr "No target specified")]) \/
  (or_else (RequestContext.target context) "" <> "" /\
   exists fds,
     dict_get r "findings" = Some (PList fds) /\
     Forall (port_payload (or_else (RequestContext.target context) "")) fds).
Proof.
  unfold NmapPlugin.execute.
  destruct (String.eqb_spec (or_else (RequestContext.target context) "") "")
    as [E|E].
  - intros H. injection H as <-. left. auto.
  - intros H. right. split; [exact E|].
    set (target := or_else (RequestContext.target context) "") in *.
    destruct (if (_ =? "full")%string then _ else _) as [result|]; simpl in H;
      [|discriminate].
    destruct (dict_get result "open_ports") as [v|].
    + destruct (PyAny.iter v) as [ports|]; simpl in H; [|discriminate].
      destruct (NmapPlugin.port_findings target ports) as [fds|] eqn:Ef;
        simpl in H; [|discriminate].
      injection H as <-. exists fds. split; [reflexivity|].
      exact (proj1 (port_findings_payloads _ _ _ Ef)).
    + simpl in H. injection H as <-. exists []. split; [reflexivity | constructor].
Qed.

Lemma forallb_Forall_true {A : Type} (f : A -> bool) (l : list A) :
  Forall (fun x => f x = true) l -> forallb f l = true.
Proof. induction 1; simpl; [reflexivity|]. now rewrite H, IHForall. Qed.

Lemma nmap_result_well_formed (nmap : NmapWrapper.t) (context : RequestContext.t)
      (r : PyDict) (tgt : option string) :
  NmapPlugin.execute nmap context = Ok r -> well_formed_result tgt r = true.
Proof.
  intros H. destruct (nmap_execute_result _ _ _ H) as [[_ ->] | [_ [fds [Hf Hall]]]].
  - reflexivity.
  - unfold well_formed_result. rewrite Hf. apply forallb_Forall_true.
    revert Hall. apply Forall_impl. intros fd. apply port_payload_well_formed.
Qed.

Lemma nmap_results_hold
        (env : Collaborators) (nmap : NmapWrapper.t) (context : RequestContext.t)
        (r : PyDict) (tgt : option string) :
  NmapPlugin.execute nmap context = Ok r ->
  recording_of env tgt r = (declared_payloads r, None) /\
  Forall (port_payload (or_else (RequestContext.target context) ""))
         (declared_payloads r).
Proof.
  intros H. pose proof (nmap_result_well_formed nmap context r tgt H) as Hwf.
  split; [exact (recording_of_well_formed env tgt r Hwf)|].
  destruct (nmap_execute_result _ _ _ H) as [[_ ->] | [_ [fds [Hf Hall]]]].
  - constructor.
  - unfold declared_payloads. rewrite Hf. exact Hall.
Qed.

(** X12. Whatever the Nmap wrapper returns, a result that
    NmapPlugin.execute returns is accepted in full by the recorder: its
    findings are open_port payloads for the target of the context, each
    well formed for the Finding model, so recording them never raises. *)
Theorem nmap_results_are_always_recorded
        (env : Collaborators) (nmap : NmapWrapper.t) (context : RequestContext.t)
        (r : PyDict) (tgt : option string) :
  NmapPlugin.execute nmap context = Ok r ->
  well_formed_result tgt r = true /\
  recording_of env tgt r = (declared_payloads r, None) /\
  Forall (port_payload (or_else (RequestContext.target context) ""))
         (declared_payloads r).
Proof.
  intros H. pose proof (nmap_result_well_formed nmap context r tgt H) as Hwf.
  split; [exact Hwf|]. split; [exact (recording_of_well_formed env tgt r Hwf)|].
  destruct (nmap_execute_result _ _ _ H) as [[_ ->] | [_ [fds [Hf Hall]]]].
  - constructor.
  - unfold declared_payloads. rewrite Hf. exact Hall.
Qed.

Lemma nmap_results_are_always_recorded_witness :
  well_formed_result (Some "192.168.1.10") ssh_result = true /\
  recording_of env0 (Some "192.168.1.10") ssh_result
  = (declared_payloads ssh_result, None) /\
  Forall (port_payload (or_else (RequestContext.target scan_context) ""))
         (declared_payloads ssh_result).
Proof.
  apply (nmap_results_are_always_recorded env0 nmap_ssh scan_context ssh_result
           (Some "192.168.1.10")).
  reflexivity.
Defined.

(** The [Finding] built from the payload of an open port has no
    evidence. *)
Lemma port_payload_finding (env : Collaborators) (target name : string)
      (tgt : option string) (c : nat) (fd : PyVal) (f : Finding.t) :
  port_payload target fd ->
  make_finding env name tgt c fd = Ok f ->
  Finding.type f = "open_port" /\ Finding.evidence f = [] /\
  Finding.severity f = "info".
Proof.
  intros [port [service [version ->]]]. rewrite make_finding_dict.
  destruct (truthy tgt); simpl; intros H; injection H as <-; repeat split.
Qed.

(** The findings a call adds are built from the payloads recorded for the
    selected plugins. *)
Lemma process_query_findings (env : Collaborators) (self : Agent.t)
      (query : string) (rc : option bool) (w : World.t) :
  exists fs nps,
    findings_of (snd (process_query env self query rc w)) = findings_of w ++ fs /\
    Forall2 (built_from env (_extract_target query)) nps fs /\
    incl nps
         (flat_map (payloads_of env
                      (build_context query (_extract_target query)
                                     (entry env query w))
                      (_extract_target query))
                   (plugins self)).
Proof.
  assert (Hnone : forall w', findings_of w' = findings_of w ->
             exists fs nps,
               findings_of w' = findings_of w ++ fs /\
               Forall2 (built_from env (_extract_target query)) nps fs /\
               incl nps
                    (flat_map (payloads_of env
                                 (build_context query (_extract_target query)
                                                (entry env query w))
                                 (_extract_target query))
                              (plugins self))).
  { intros w' H. exists [], []. rewrite H, app_nil_r.
    split; [reflexivity|]. split; [constructor | intros x []]. }
  assert (Hdisp : forall matching results w2 w',
             dispatch env self query
               (build_context query (_extract_target query) (entry env query w))
               (_extract_target query) (entry env query w)
             = (matching, (results, w2)) ->
             findings_of w' = findings_of w2 ->
             exists fs nps,
               findings_of w' = findings_of w ++ fs /\
               Forall2 (built_from env (_extract_target query)) nps fs /\
               incl nps
                    (flat_map (payloads_of env
                                 (build_context query (_extract_target query)
                                                (entry env query w))
                                 (_extract_target query))
                              (plugins self))).
  { intros matching results w2 w' Hd Hw.
    destruct (dispatch_spec env self query
                (build_context query (_extract_target query) (entry env query w))
                (_extract_target query) (entry env query w))
      as [w3 [fs [Hd' [Hf Hall]]]].
    rewrite Hd in Hd'. injection Hd' as _ _ <-.
    eexists fs, _.
    rewrite Hw, Hf, findings_entry. split; [reflexivity|]. split; [exact Hall|].
    intros x Hx. apply in_flat_map in Hx as [p [Hp Hx]].
    apply in_flat_map. exists p. split; [|exact Hx].
    apply turns_incl in Hp. apply filter_In in Hp. tauto. }
  assert (Hsaved : forall response w2 r w3,
             save_session (clk env) (disk_writable env) (json_dump env)
                          (add_conversation (clk env) "assistant" response w2)
             = (r, w3) ->
             findings_of w3 = findings_of w2).
  { intros response w2 r w3 Hsv.
    pose proof (findings_save_session (clk env) (disk_writable env) (json_dump env)
                  (add_conversation (clk env) "assistant" response w2)) as Hf.
    rewrite Hsv in Hf. cbn [snd] in Hf. rewrite Hf.
    apply findings_add_conversation. }
  destruct (process_query_ends env self query rc w)
    as [t e Ht Hc | t Ht Hc | Hs Hd Hc | e Hs Hg Hp He | e Hs Hg Hp He
        | resp matching w2 e Hs Hg Hp Hd He
        | resp matching results w2 e Hs Hg Hp Hd Hsum He
        | resp matching results w2 e Hs Hg Hp Hd Hsum He
        | resp matching results w2 response w3 e Hs Hg Hp Hd Hsum Hsv He
        | resp matching results w2 response saved w3 Hs Hg Hp Hd Hsum Hsv];
    cbn [snd].
  - apply Hnone. apply findings_entry.
  - apply Hnone. rewrite findings_add_conversation. apply findings_entry.
  - apply Hnone. apply findings_entry.
  - apply Hnone. rewrite findings_add_conversation. apply findings_entry.
  - apply Hnone. apply findings_entry.
  - apply (Hdisp _ _ _ _ Hd). reflexivity.
  - apply (Hdisp _ _ _ _ Hd). apply findings_add_conversation.
  - apply (Hdisp _ _ _ _ Hd). reflexivity.
  - apply (Hdisp _ _ _ _ Hd). exact (Hsaved _ _ _ _ Hsv).
  - apply (Hdisp _ _ _ _ Hd). exact (Hsaved _ _ _ _ Hsv).
Qed.

(** The scan found the port 22 with its service; the session holds one
    finding, and the open ports read back from it are blank. *)
Example open_port_is_read_back_blank :
  let out := process_query env0 agent_ssh "scan 192.168.1.10" None w0 in
  map Finding.type (findings_of (snd out)) = ["open_port"] /\
  _extract_open_ports_from_memory (snd out) = [blank_port].
Proof. vm_compute. split; reflexivity. Qed.

End NmapPluginFacts.

(** ** The response summary *)
Module SummaryFacts.
Import PyStr Agent Spec SummaryVocabulary.

Section WithEnv.
Variable env : Collaborators.

Lemma len_sized (v : PyVal) :
  (exists n, PyAny.len v = Ok n) <-> sized v = true.
Proof.
  destruct v; simpl; split; try discriminate; eauto;
    intros [n H]; discriminate H.
Qed.




(** A plugin name that is an integer of 4301 digits cannot be put in a
    line, although the result has nothing to count. *)
Example long_integer_name_is_not_summarisable :
  countable [("plugin", PInt (10 ^ 4300))] = true /\
  summarisable Scenario.env_digits [("plugin", PInt (10 ^ 4300))] = false /\
  _generate_response_summary Scenario.env_digits Scenario.w0 "q"
    [[("plugin", PInt (10 ^ 4300))]] "plan"
  = Raise (Exception Scenario.digits_limit).
Proof. vm_compute. repeat split. Qed.

End WithEnv.
End SummaryFacts.

(** ** The session store *)
Module MemoryStoreFacts.
Import PyStr SessionMemory World MemoryManager MemoryStore Spec PyStrFacts
       MemoryFacts.




Lemma read_file_In (name : string) (disk : list (string * string)) :
  read_file name disk <> None <-> In name (map fst disk).
Proof.
  induction disk as [|[n s] d IH]; simpl; [intuition|].
  destruct (String.eqb_spec n name) as [->|Hne].
  - split; [auto | discriminate].
  - rewrite IH. intuition.
Qed.


Lemma insert_desc_In (x y : string) (l : list string) :
  In y (insert_desc x l) <-> y = x \/ In y l.
Proof.
  induction l as [|z l IH]; simpl; [intuition|].
  destruct (z <=? x)%string; simpl; [intuition|].
  rewrite IH. intuition.
Qed.

Lemma sorted_desc_In (y : string) (l : list string) :
  In y (sorted_desc l) <-> In y l.
Proof.
  induction l as [|x l IH]; simpl; [reflexivity|].
  rewrite insert_desc_In, IH. intuition.
Qed.

Lemma insert_desc_sorted (x : string) (l : list string) :
  Sorted (fun a b => (b <=? a)%string = true) l ->
  Sorted (fun a b => (b <=? a)%string = true) (insert_desc x l).
Proof.
  induction 1 as [|y l Hs IH Hd]; simpl; [repeat constructor|].
  destruct (y <=? x)%string eqn:E.
  - constructor; [constructor; assumption | constructor; exact E].
  - constructor; [exact IH|].
    assert (Hxy : (x <=? y)%string = true).
    { destruct (String.leb_total x y) as [H|H]; [exact H | congruence]. }
    destruct l as [|z l']; simpl.
    + constructor. exact Hxy.
    + destruct (z <=? x)%string; constructor; [exact Hxy|].
      now inversion Hd.
Qed.

Lemma sorted_desc_sorted (l : list string) :
  Sorted (fun a b => (b <=? a)%string = true) (sorted_desc l).
Proof.
  induction l as [|x l IH]; simpl; [constructor|].
  now apply insert_desc_sorted.
Qed.

Lemma insert_desc_NoDup (x : string) (l : list string) :
  ~ In x l -> NoDup l -> NoDup (insert_desc x l).
Proof.
  intros Hx Hl. induction Hl as [|y l Hy Hl IH]; simpl.
  - constructor; [auto | constructor].
  - destruct (y <=? x)%string.
    + constructor; [exact Hx | constructor; assumption].
    + constructor.
      * rewrite insert_desc_In. simpl in Hx. intuition congruence.
      * apply IH. simpl in Hx. tauto.
Qed.

Lemma sorted_desc_NoDup (l : list string) : NoDup l -> NoDup (sorted_desc l).
Proof.
  induction 1 as [|x l Hx Hl IH]; simpl; [constructor|].
  apply insert_desc_NoDup; [|exact IH]. now rewrite sorted_desc_In.
Qed.

Lemma substring_prefix (p q : string) :
  substring 0 (String.length p) (p ++ q) = p.
Proof.
  induction p as [|c p IH]; simpl; [destruct q; reflexivity | congruence].
Qed.

(** A name that ends in [.json] is its stem followed by [.json]. *)
Lemma stem_json (name : string) :
  endswith name ".json" = true -> name = (stem name ++ ".json")%string.
Proof.
  intros H. apply endswith_ends_with in H as [p ->].
  unfold stem. rewrite length_append. simpl.
  replace (String.length p + 5 - 5) with (String.length p) by lia.
  now rewrite substring_prefix.
Qed.

Lemma is_session_file_json (name : string) :
  is_session_file name = true -> endswith name ".json" = true.
Proof.
  unfold is_session_file. rewrite !andb_true_iff. tauto.
Qed.

(** X16. list_sessions returns, each once and in descending order, exactly
    the ids whose file in the base directory matches session_*.json. *)
Theorem list_sessions_is_sorted_and_complete (w : World.t) :
  Sorted (fun a b => (b <=? a)%string = true) (list_sessions w) /\
  NoDup (list_sessions w) /\
  (forall id, In id (list_sessions w) <->
              read_file (session_file id) (disk w) <> None /\
              is_session_file (session_file id) = true).
Proof.
  unfold list_sessions. split; [apply sorted_desc_sorted|]. split.
  - apply sorted_desc_NoDup. apply NoDup_map_NoDup_ForallPairs.
    + intros a b Ha Hb Heq.
      apply filter_In in Ha as [_ Ha]. apply filter_In in Hb as [_ Hb].
      rewrite (stem_json a (is_session_file_json a Ha)).
      rewrite (stem_json b (is_session_file_json b Hb)). now rewrite Heq.
    + apply NoDup_filter. apply NoDup_nodup.
  - intros id. rewrite sorted_desc_In, in_map_iff. split.
    + intros [name [<- Hin]]. apply filter_In in Hin as [Hin Hs].
      unfold session_file.
      rewrite <- (stem_json name (is_session_file_json name Hs)).
      split; [|exact Hs]. apply read_file_In.
      unfold file_names in Hin. now apply nodup_In in Hin.
    + intros [Hr Hs]. exists (session_file id). split.
      * unfold stem, session_file. rewrite length_append. simpl.
        replace (String.length id + 5 - 5) with (String.length id) by lia.
        apply substring_prefix.
      * apply filter_In. split; [|exact Hs].
        unfold file_names. apply nodup_In. now apply read_file_In.
Qed.

(** X17. get_context(max_history) returns a suffix of the conversation:
    its last max_history turns for a positive value, but the whole
    conversation for 0 and all but the first -max_history turns for a
    negative value; with the default 10 it is the context process_query
    uses. *)
Theorem get_context_slices_the_history (max_history : Z) (w : World.t)
        (s : SessionMemory.t) :
  current_session w = Some s ->
  exists ctx,
    get_context_of max_history w = Some ctx /\
    (exists older, conversation_history s = older ++ ctx_conversation_history ctx) /\
    ((0 < max_history)%Z ->
     length (ctx_conversation_history ctx)
     = Nat.min (Z.to_nat max_history) (length (conversation_history s))) /\
    (max_history = 0%Z ->
     ctx_conversation_history ctx = conversation_history s) /\
    ((max_history < 0)%Z ->
     length (ctx_conversation_history ctx)
     = length (conversation_history s) - Z.to_nat (- max_history)) /\
    (max_history = 10%Z -> MemoryManager.get_context w = Some ctx).
Proof.
  intros Hc. unfold get_context_of, MemoryManager.get_context. rewrite Hc.
  eexists. split; [reflexivity|]. simpl. repeat split.
  - unfold slice_from_minus. destruct (0 <? max_history)%Z.
    + exists (firstn (length (conversation_history s) - Z.to_nat max_history)
                     (conversation_history s)).
      symmetry. apply firstn_skipn.
    + exists (firstn (Z.to_nat (- max_history)) (conversation_history s)).
      symmetry. apply firstn_skipn.
  - intros Hpos. unfold slice_from_minus.
    apply Z.ltb_lt in Hpos. rewrite Hpos. rewrite length_skipn. lia.
  - intros ->. reflexivity.
  - intros Hneg. unfold slice_from_minus.
    destruct (0 <? max_history)%Z eqn:E; [apply Z.ltb_lt in E; lia|].
    apply length_skipn.
  - intros ->. reflexivity.
Qed.

Lemma get_context_slices_the_history_witness :
  let w := add_conversation Scenario.clk0 "user" "scan 192.168.1.10" Scenario.w0 in
  exists ctx,
    get_context_of 0 w = Some ctx /\
    (exists older,
        conversation_history (session_of w) = older ++ ctx_conversation_history ctx) /\
    ((0 < 0)%Z ->
     length (ctx_conversation_history ctx)
     = Nat.min (Z.to_nat 0) (length (conversation_history (session_of w)))) /\
    (0%Z = 0%Z ->
     ctx_conversation_history ctx = conversation_history (session_of w)) /\
    ((0 < 0)%Z ->
     length (ctx_conversation_history ctx)
     = length (conversation_history (session_of w)) - Z.to_nat (- 0)) /\
    (0%Z = 10%Z -> MemoryManager.get_context w = Some ctx).
Proof.
  exact (get_context_slices_the_history 0
           (add_conversation Scenario.clk0 "user" "scan 192.168.1.10" Scenario.w0)
           (session_of (add_conversation Scenario.clk0 "user" "scan 192.168.1.10"
                                         Scenario.w0))
           eq_refl).
Defined.

End MemoryStoreFacts.

(** ** The Nmap wrapper *)
Module NmapToolFacts.
Import PyStr PyValue Agent Spec NmapTool NmapVocabulary.

Section WithClient.
Variable hexstrike : HexstrikeClient.t.
Variable json_loads : string -> loaded.

Lemma parse_keys (raw : PyVal) (r : PyDict) :
  _parse_nmap_output json_loads raw = Ok r ->
  exists success open_ports,
    dict_get r "success" = Some success /\
    dict_get r "open_ports" = Some open_ports.
Proof.
  unfold _parse_nmap_output.
  destruct (match raw with PStr text => json_loads text | _ => Loaded raw end)
    as [v| |e].
  - destruct v as [| | | | |l|d]; simpl; try discriminate.
    destruct (match dict_get d "open_ports", dict_get d "ports" with
              | Some open_ports, _ => Ok open_ports
              | None, Some ports =>
                  ports <- PyAny.iter ports ;;
                  kept <- open_only ports ;; Ok (PList kept)
              | None, None => Ok (PList [])
              end) as [op|e]; simpl; [|discriminate].
    intros H. injection H as <-. simpl. eauto.
  - intros H. injection H as <-. simpl. eauto.
  - discriminate.
Qed.

(** What [scan] makes of the call and the parsing. *)
Lemma scan_cases (target : string) (ports : option string) (scan_type : string)
      (sd vd : bool) :
  scan hexstrike json_loads target ports scan_type sd vd
  = match (answer <- HexstrikeClient.execute_tool hexstrike "nmap"
                       (scan_params target ports scan_type sd vd) ;;
           _parse_nmap_output json_loads answer) with
    | Ok parsed => Ok parsed
    | Raise e => if is_exception e then Ok (scan_failure target e) else Raise e
    end.
Proof. reflexivity. Qed.

Lemma scan_keys (target : string) (ports : option string) (scan_type : string)
      (sd vd : bool) (r : PyDict) :
  scan hexstrike json_loads target ports scan_type sd vd = Ok r ->
  exists success open_ports,
    dict_get r "success" = Some success /\
    dict_get r "open_ports" = Some open_ports.
Proof.
  rewrite scan_cases.
  destruct (HexstrikeClient.execute_tool hexstrike "nmap" _) as [answer|e]; simpl.
  - destruct (_parse_nmap_output json_loads answer) as [p|e] eqn:Ep; simpl.
    + intros H. injection H as <-. exact (parse_keys _ _ Ep).
    + destruct (is_exception e); [|discriminate].
      intros H. injection H as <-. simpl. eauto.
  - destruct (is_exception e); [|discriminate].
    intros H. injection H as <-. simpl. eauto.
Qed.

(** An exception that leaves [scan] is not an [Exception]. *)
Lemma scan_raises (target : string) (ports : option string) (scan_type : string)
      (sd vd : bool) (e : exn) :
  scan hexstrike json_loads target ports scan_type sd vd = Raise e ->
  is_exception e = false.
Proof.
  rewrite scan_cases.
  destruct (_ <- _ ;; _) as [parsed|e']; [discriminate|].
  destruct (is_exception e') eqn:E; [discriminate|].
  intros H. injection H as <-. exact E.
Qed.

(** X18. NmapWrapper.scan returns a dictionary with the keys success and
    open_ports, and nothing but an exception that does not derive from
    Exception leaves it. When the tool call or the parsing raises an
    Exception (for instance on an answer that is no dictionary) it is
    success False with the error text and no ports; an answer in text
    that is not JSON gives success True with no ports; the open_ports of
    a dictionary answer are passed on as they are. *)
Theorem scan_always_reports_success_and_open_ports
        (target : string) (ports : option string) (scan_type : string)
        (sd vd : bool) :
  let params := scan_params target ports scan_type sd vd in
  let out := scan hexstrike json_loads target ports scan_type sd vd in
  (forall r, out = Ok r ->
             exists success open_ports,
               dict_get r "success" = Some success /\
               dict_get r "open_ports" = Some open_ports) /\
  (forall e,
      (answer <- HexstrikeClient.execute_tool hexstrike "nmap" params ;;
       _parse_nmap_output json_loads answer) = Raise e ->
      out = if is_exception e
            then Ok [("success", PBool false); ("error", PStr (str_of_exn e));
                     ("target", PStr target); ("open_ports", PList [])]
            else Raise e) /\
  (forall e, out = Raise e -> is_exception e = false) /\
  (forall answer,
      HexstrikeClient.execute_tool hexstrike "nmap" params = Ok answer ->
      match answer with
      | PStr text =>
          json_loads text = JSONDecodeError ->
          out = Ok [("success", PBool true); ("raw_output", PStr text);
                    ("open_ports", PList [])]
      | PDict d =>
          forall v, dict_get d "open_ports" = Some v ->
                    exists r, out = Ok r /\
                              dict_get r "open_ports" = Some v /\
                              dict_get r "success"
                              = Some (get_or d "success" (PBool true))
      | _ =>
          out = Ok (scan_failure target
                      (Exception ("'" ++ PyAny.type_name answer
                                      ++ "' object has no attribute 'get'")))
      end).
Proof.
  intros params out. unfold out. clear out.
  split; [|split; [|split]].
  - apply scan_keys.
  - intros e H. rewrite scan_cases. fold params. rewrite H. reflexivity.
  - apply scan_raises.
  - intros answer H. rewrite scan_cases. fold params. rewrite H. simpl.
    destruct answer as [| | | |text|l|d]; try reflexivity.
    + intros Hl. unfold _parse_nmap_output. rewrite Hl. reflexivity.
    + intros v Hv. unfold _parse_nmap_output. simpl. rewrite Hv. simpl.
      eexists. split; [reflexivity|]. simpl. auto.
Qed.

Lemma is_http_spec (p : PyVal) :
  is_http p = if testable p then Ok (http_like p) else is_http p.
Proof.
  destruct (testable p) eqn:E; [|reflexivity].
  destruct p as [| | | | | |d]; try discriminate E.
  unfold is_http, testable, http_like in *. simpl.
  destruct (get_or d "service" (PStr "")) as [| | | |s| |]; try discriminate E.
  simpl. destruct (contains "http" (lower s)); reflexivity.
Qed.

Lemma is_http_returns (p : PyVal) :
  (exists b, is_http p = Ok b) <-> testable p = true.
Proof.
  split.
  - intros [b H]. destruct p as [| | | | | |d]; try discriminate H.
    unfold is_http, testable in *. simpl in H.
    destruct (get_or d "service" (PStr "")) as [| | | |s| |]; try discriminate H.
    reflexivity.
  - intros H. rewrite is_http_spec, H. eauto.
Qed.

Lemma http_only_spec (ports : list PyVal) :
  (forallb testable ports = true -> http_only ports = Ok (filter http_like ports)) /\
  ((exists kept, http_only ports = Ok kept) -> forallb testable ports = true).
Proof.
  induction ports as [|p ps [IH1 IH2]]; simpl; [auto|]. split.
  - intros H. apply andb_true_iff in H as [Hp Hps].
    rewrite is_http_spec, Hp. simpl. rewrite (IH1 Hps). simpl.
    destruct (http_like p); reflexivity.
  - intros [kept H].
    destruct (is_http p) as [b|e] eqn:Ep; simpl in H; [|discriminate].
    destruct (http_only ps) as [k|e] eqn:Eps; simpl in H; [|discriminate].
    rewrite (proj1 (is_http_returns p)) by eauto. simpl. apply IH2. eauto.
Qed.

(** X19. scan_http_services returns exactly when its scan returns and
    the open ports of the scan can be iterated and each is a dictionary
    whose service, if present, is a string (a null service makes it
    raise); it then replaces open_ports by the entries whose service
    holds http in any case or whose port equals 80, 443, 8080, 8443, 8000
    or 8888, in their order. The exception that leaves the scan, which
    does not derive from Exception, leaves scan_http_services. *)
Theorem http_scan_keeps_the_http_ports (target : string) :
  match scan hexstrike json_loads target
             (Some "80,443,8080,8443,8000,8888") "syn" true true with
  | Ok scanned =>
      exists open_ports,
        dict_get scanned "open_ports" = Some open_ports /\
        ((exists r, scan_http_services hexstrike json_loads target = Ok r) <->
         (exists ports, PyAny.iter open_ports = Ok ports /\
                        forallb testable ports = true)) /\
        (forall ports, PyAny.iter open_ports = Ok ports ->
                       forallb testable ports = true ->
                       scan_http_services hexstrike json_loads target
                       = Ok (dict_set scanned "open_ports"
                                      (PList (filter http_like ports))))
  | Raise e =>
      is_exception e = false /\
      scan_http_services hexstrike json_loads target = Raise e
  end.
Proof.
  pose proof (scan_keys target (Some "80,443,8080,8443,8000,8888") "syn" true true)
    as Hkeys.
  pose proof (scan_raises target (Some "80,443,8080,8443,8000,8888") "syn" true true)
    as Hraise.
  unfold scan_http_services.
  destruct (scan hexstrike json_loads target
                 (Some "80,443,8080,8443,8000,8888") "syn" true true)
    as [scanned|e]; [|split; [exact (Hraise e eq_refl) | reflexivity]].
  destruct (Hkeys scanned eq_refl) as [success [open_ports [_ Ho]]].
  exists open_ports. split; [exact Ho|].
  simpl. rewrite Ho.
  split.
  - split.
    + intros [r H]. destruct (PyAny.iter open_ports) as [ports|e]; simpl in H;
        [|discriminate].
      exists ports. split; [reflexivity|].
      destruct (http_only ports) as [kept|e] eqn:Ek; simpl in H; [|discriminate].
      apply http_only_spec. eauto.
    + intros [ports [Hi Ht]]. rewrite Hi. simpl.
      rewrite (proj1 (http_only_spec ports) Ht). simpl. eauto.
  - intros ports Hi Ht. rewrite Hi. simpl.
    rewrite (proj1 (http_only_spec ports) Ht). reflexivity.
Qed.

End WithClient.
End NmapToolFacts.

(** ** The Nmap plugin over its wrapper *)
Module NmapExecuteFacts.
Import PyStr PyValue Agent Spec NmapTool NmapVocabulary NmapToolFacts
       ToolScenario.

Lemma port_finding_returns (target : string) (p : PyVal) :
  (exists fd, NmapPlugin.port_finding target p = Ok fd) <-> is_dictionary p = true.
Proof.
  unfold NmapPlugin.port_finding.
  destruct p; simpl; split; try discriminate; eauto; intros [fd H]; discriminate H.
Qed.

Lemma port_findings_returns (target : string) (ports : list PyVal) :
  (forallb is_dictionary ports = true ->
   exists fds, NmapPlugin.port_findings target ports = Ok fds /\
               length fds = length ports) /\
  ((exists fds, NmapPlugin.port_findings target ports = Ok fds) ->
   forallb is_dictionary ports = true).
Proof.
  induction ports as [|p ps [IH1 IH2]]; simpl.
  - split; eauto.
  - split.
    + intros H. apply andb_true_iff in H as [Hp Hps].
      apply port_finding_returns with (target := target) in Hp as [fd Hp].
      destruct (IH1 Hps) as [fds [Hf Hl]].
      rewrite Hp, Hf. simpl. eexists. split; [reflexivity|]. simpl. congruence.
    + intros [fds H].
      destruct (NmapPlugin.port_finding target p) as [fd|e] eqn:Ep; simpl in H;
        [|discriminate].
      destruct (NmapPlugin.port_findings target ps) as [l|e] eqn:Eps; simpl in H;
        [|discriminate].
      rewrite (proj1 (port_finding_returns target p)) by eauto.
      simpl. apply IH2. eauto.
Qed.

(** [execute] asks for the requested scan. *)
Lemma execute_requested_scan (nmap : NmapWrapper.t) (context : RequestContext.t) :
  or_else (RequestContext.target context) "" <> "" ->
  NmapPlugin.execute nmap context
  = (let target := or_else (RequestContext.target context) "" in
     result_ <- requested_scan nmap (RequestContext.query context) target ;;
     findings <-
       match dict_get result_ "open_ports" with
       | Some open_ports =>
           ports <- PyAny.iter open_ports ;; NmapPlugin.port_findings target ports
       | None => Ok []
       end ;;
     Ok [("success", get_or result_ "success" (PBool true));
         ("plugin", PStr NmapPlugin.name);
         ("target", PStr target);
         ("scan_type",
          PStr (if contains "full" (lower (RequestContext.query context))
                   || contains "all ports" (lower (RequestContext.query context))
                then "full"
                else if contains "http" (lower (RequestContext.query context))
                        || contains "web" (lower (RequestContext.query context))
                     then "http" else "quick"));
         ("open_ports", get_or result_ "open_ports" (PList []));
         ("findings", PList findings);
         ("raw_result", PDict result_)]).
Proof.
  intros Ht. unfold NmapPlugin.execute, requested_scan.
  destruct (String.eqb_spec (or_else (RequestContext.target context) "") "");
    [contradiction|].
  destruct (contains "full" (lower (RequestContext.query context))
            || contains "all ports" (lower (RequestContext.query context)));
    [reflexivity|].
  destruct (contains "http" (lower (RequestContext.query context))
            || contains "web" (lower (RequestContext.query context)));
    reflexivity.
Qed.

(** X20. With a target, NmapPlugin.execute returns exactly when the scan
    it requests returns and the open ports of that scan can be iterated
    and are all dictionaries; raw_result is then the scan, success is the
    scan's success (True when absent), and there is one finding for each
    open port. *)
Theorem nmap_execute_returns_iff_ports_are_dictionaries
        (nmap : NmapWrapper.t) (context : RequestContext.t) :
  let target := or_else (RequestContext.target context) "" in
  target <> "" ->
  ((exists r, NmapPlugin.execute nmap context = Ok r) <->
   (exists scanned,
       requested_scan nmap (RequestContext.query context) target = Ok scanned /\
       reportable scanned = true)) /\
  (forall scanned r,
      requested_scan nmap (RequestContext.query context) target = Ok scanned ->
      NmapPlugin.execute nmap context = Ok r ->
      dict_get r "raw_result" = Some (PDict scanned) /\
      dict_get r "success" = Some (get_or scanned "success" (PBool true)) /\
      exists fds ports,
        dict_get r "findings" = Some (PList fds) /\
        PyAny.iter (get_or scanned "open_ports" (PList [])) = Ok ports /\
        length fds = length ports).
Proof.
  intros target Ht. rewrite (execute_requested_scan nmap context Ht).
  fold target. cbv zeta.
  destruct (requested_scan nmap (RequestContext.query context) target)
    as [scanned|e]; simpl.
  - assert (Hrep : forall s, Ok scanned = Ok s -> reportable s = reportable scanned)
      by (intros s H; injection H as <-; reflexivity).
    unfold get_or. unfold reportable in Hrep at 2.
    destruct (dict_get scanned "open_ports") as [v|] eqn:Eo.
    + destruct (PyAny.iter v) as [ports|e] eqn:Ei; simpl.
      * destruct (port_findings_returns target ports) as [H1 H2].
        destruct (NmapPlugin.port_findings target ports) as [fds|e] eqn:Ef; simpl.
        -- assert (Hd : forallb is_dictionary ports = true) by (apply H2; eauto).
           destruct (H1 Hd) as [fds' [Hf' Hl]]. injection Hf' as <-.
           split.
           ++ split; [|eauto]. intros _. exists scanned.
              split; [reflexivity|]. now rewrite (Hrep scanned eq_refl).
           ++ intros s r Hs Hr. injection Hs as <-. injection Hr as <-. simpl.
              rewrite Eo, Ei. repeat split. exists fds, ports. auto.
        -- split.
           ++ split; [intros [r H]; discriminate H|].
              intros [s [Hs Hd]]. rewrite (Hrep s Hs) in Hd.
              destruct (H1 Hd) as [fds [Hf _]]. discriminate Hf.
           ++ intros s r _ Hr. discriminate Hr.
      * split.
        -- split; [intros [r H]; discriminate H|].
           intros [s [Hs Hd]]. rewrite (Hrep s Hs) in Hd. discriminate Hd.
        -- intros s r _ Hr. discriminate Hr.
    + simpl. split.
      * split; [|eauto]. intros _. exists scanned.
        split; [reflexivity|]. now rewrite (Hrep scanned eq_refl).
      * intros s r Hs Hr. injection Hs as <-. injection Hr as <-. simpl.
        rewrite Eo. repeat split. exists [], []. auto.
  - split.
    + split; [intros [r H]; discriminate H | intros [s [H _]]; discriminate H].
    + intros s r H. discriminate H.
Qed.

Lemma nmap_execute_returns_iff_ports_are_dictionaries_witness :
  let target := "192.168.1.10" in
  ((exists r, NmapPlugin.execute ToolScenario.nmap_ssh scan_context = Ok r) <->
   (exists scanned,
       requested_scan ToolScenario.nmap_ssh "scan 192.168.1.10" target = Ok scanned /\
       reportable scanned = true)) /\
  (forall scanned r,
      requested_scan ToolScenario.nmap_ssh "scan 192.168.1.10" target = Ok scanned ->
      NmapPlugin.execute ToolScenario.nmap_ssh scan_context = Ok r ->
      dict_get r "raw_result" = Some (PDict scanned) /\
      dict_get r "success" = Some (get_or scanned "success" (PBool true)) /\
      exists fds ports,
        dict_get r "findings" = Some (PList fds) /\
        PyAny.iter (get_or scanned "open_ports" (PList [])) = Ok ports /\
        length fds = length ports).
Proof.
  apply (nmap_execute_returns_iff_ports_are_dictionaries
           ToolScenario.nmap_ssh scan_context).
  discriminate.
Defined.

Section WithClient.
Variable hexstrike : HexstrikeClient.t.
Variable json_loads : string -> loaded.

Lemma scan_of_failed_call (e : exn) (target : string) (ports : option string)
      (scan_type : string) (sd vd : bool) :
  (forall params, HexstrikeClient.execute_tool hexstrike "nmap" params = Raise e) ->
  scan hexstrike json_loads target ports scan_type sd vd
  = if is_exception e then Ok (scan_failure target e) else Raise e.
Proof. intros H. rewrite scan_cases, H. reflexivity. Qed.

(** X21. When the hexstrike call for nmap raises an Exception,
    NmapPlugin.execute over the Nmap wrapper does not raise: it returns
    success False with no open ports and no findings, and without an
    error key of its own, the error text being kept only inside
    raw_result. An exception that does not derive from Exception leaves
    execute as it left the call. *)
Theorem failed_scan_is_a_returned_result (context : RequestContext.t) (e : exn) :
  let target := or_else (RequestContext.target context) "" in
  target <> "" ->
  (forall params, HexstrikeClient.execute_tool hexstrike "nmap" params = Raise e) ->
  if is_exception e
  then exists scan_type,
      NmapPlugin.execute (wrapper hexstrike json_loads) context
      = Ok [("success", PBool false); ("plugin", PStr "nmap");
            ("target", PStr target); ("scan_type", PStr scan_type);
            ("open_ports", PList []); ("findings", PList []);
            ("raw_result",
             PDict [("success", PBool false); ("error", PStr (str_of_exn e));
                    ("target", PStr target); ("open_ports", PList [])])]
  else NmapPlugin.execute (wrapper hexstrike json_loads) context = Raise e.
Proof.
  intros target Ht Hdown.
  rewrite (execute_requested_scan _ context Ht). fold target. cbv zeta.
  assert (Hs : requested_scan (wrapper hexstrike json_loads)
                              (RequestContext.query context) target
               = if is_exception e then Ok (scan_failure target e) else Raise e).
  { unfold requested_scan, wrapper, quick_scan, full_scan, scan_http_services.
    cbn [NmapWrapper.quick_scan NmapWrapper.full_scan NmapWrapper.scan_http_services].
    rewrite !(scan_of_failed_call e) by exact Hdown.
    destruct (is_exception e);
      (destruct (_ || _); [reflexivity|]); destruct (_ || _); reflexivity. }
  rewrite Hs. destruct (is_exception e); [eexists|]; reflexivity.
Qed.

End WithClient.

Lemma failed_scan_is_a_returned_result_witness :
  exists scan_type,
    NmapPlugin.execute (wrapper hexstrike_down loads_nothing) scan_context
    = Ok [("success", PBool false); ("plugin", PStr "nmap");
          ("target", PStr "192.168.1.10"); ("scan_type", PStr scan_type);
          ("open_ports", PList []); ("findings", PList []);
          ("raw_result",
           PDict [("success", PBool false);
                  ("error",
                   PStr "hexstrike-ai MCP server is not running and could not be started");
                  ("target", PStr "192.168.1.10"); ("open_ports", PList [])])].
Proof.
  apply (failed_scan_is_a_returned_result hexstrike_down loads_nothing scan_context
           (Exception
              "hexstrike-ai MCP server is not running and could not be started")).
  - discriminate.
  - reflexivity.
Defined.

End NmapExecuteFacts.

(** ** The web tools and the web plugin *)
Module WebFacts.
Import PyStr PyValue Agent Spec WebToolsWrapper WebVulnPlugin WebVocabulary
       PyStrFacts ToolScenario.

(** A string without a colon does not start with a text that holds one. *)
Lemma prefix_needs_colon (old s : string) :
  contains ":" old = true -> contains ":" s = false -> prefix old s = false.
Proof.
  intros Ho Hs. destruct (prefix old s) eqn:E; [|reflexivity].
  apply prefix_true_iff in E as [post ->].
  apply contains_occurs in Ho as [a [b ->]].
  assert (H : contains ":" ((a ++ ":" ++ b) ++ post) = true).
  { apply contains_occurs. exists a, (b ++ post)%string.
    rewrite !append_assoc. reflexivity. }
  congruence.
Qed.

Lemma prefix_app (p s : string) : prefix p (p ++ s) = true.
Proof. apply prefix_true_iff. eauto. Qed.

Lemma contains_tail (k : string) (c : ascii) (s : string) :
  contains k (String c s) = false -> contains k s = false.
Proof.
  cbn [contains]. intros H. apply orb_false_iff in H as [_ H]. exact H.
Qed.

(** Nothing is dropped from a string without a colon. *)
Lemma remove_without_colon (old s : string) :
  contains ":" old = true -> contains ":" s = false -> remove old s = s.
Proof.
  intros Ho. unfold remove. induction s as [|c s IH]; intros Hs; [reflexivity|].
  cbn [remove_from]. rewrite (prefix_needs_colon old (String c s) Ho Hs).
  f_equal. apply IH. exact (contains_tail _ _ _ Hs).
Qed.

Lemma remove_from_skip (old p s : string) :
  remove_from old (String.length p) (p ++ s) = remove_from old 0 s.
Proof. induction p as [|c p IH]; simpl; auto. Qed.

(** An occurrence at the start is dropped. *)
Lemma remove_prefix (c : ascii) (old s : string) :
  remove (String c old) (String c old ++ s) = remove (String c old) s.
Proof.
  unfold remove. change (String c old ++ s)%string with (String c (old ++ s)).
  cbn [remove_from].
  change (String c (old ++ s)) with (String c old ++ s)%string.
  rewrite prefix_app.
  replace (String.length (String c old) - 1) with (String.length old)
    by (simpl; lia).
  apply remove_from_skip.
Qed.

Section WithClient.
Variable hexstrike : HexstrikeClient.t.

Lemma nikto_has_findings (target : string) (port : Z) (ssl : bool) (n : PyDict) :
  nikto_scan hexstrike target port ssl = Ok n ->
  exists f, dict_get n "findings" = Some f /\ dict_get n "success" <> None.
Proof.
  unfold nikto_scan, try_except.
  destruct (HexstrikeClient.execute_tool hexstrike "nikto" _) as [answer|e]; simpl.
  - destruct answer; simpl; intros H; injection H as <-;
      (eexists; split; [reflexivity | discriminate]).
  - destruct (is_exception e); [|discriminate].
    intros H; injection H as <-. eexists; split; [reflexivity | discriminate].
Qed.

Lemma nuclei_has_findings (target : string) (templates : option (list string))
      (n : PyDict) :
  nuclei_scan hexstrike target templates = Ok n ->
  exists f, dict_get n "findings" = Some f /\ dict_get n "success" <> None.
Proof.
  unfold nuclei_scan, try_except.
  destruct (HexstrikeClient.execute_tool hexstrike "nuclei" _) as [answer|e]; simpl.
  - destruct answer; simpl; intros H; injection H as <-;
      (eexists; split; [reflexivity | discriminate]).
  - destruct (is_exception e); [|discriminate].
    intros H; injection H as <-. eexists; split; [reflexivity | discriminate].
Qed.

(** An exception that leaves a scan is not an [Exception]. *)
Lemma nikto_raises (target : string) (port : Z) (ssl : bool) (e : exn) :
  nikto_scan hexstrike target port ssl = Raise e -> is_exception e = false.
Proof.
  unfold nikto_scan, try_except.
  destruct (_ <- _ ;; _) as [parsed|e']; [discriminate|].
  destruct (is_exception e') eqn:E; [discriminate|].
  intros H. injection H as <-. exact E.
Qed.

Lemma nuclei_raises (target : string) (templates : option (list string))
      (e : exn) :
  nuclei_scan hexstrike target templates = Raise e -> is_exception e = false.
Proof.
  unfold nuclei_scan, try_except.
  destruct (_ <- _ ;; _) as [parsed|e']; [discriminate|].
  destruct (is_exception e') eqn:E; [discriminate|].
  intros H. injection H as <-. exact E.
Qed.

(** What [quick_web_scan] asks of the two tools. *)
Lemma quick_web_scan_calls (target : string) :
  quick_web_scan hexstrike target
  = (nikto <- nikto_of hexstrike target ;;
     nuclei <- nuclei_of hexstrike target ;;
     from_nikto <- findings_to_extend nikto ;;
     from_nuclei <- findings_to_extend nuclei ;;
     Ok [("target", PStr target);
         ("nikto", PDict nikto);
         ("nuclei", PDict nuclei);
         ("findings", PList (from_nikto ++ from_nuclei))]).
Proof.
  unfold quick_web_scan, nikto_of, nuclei_of, quick_templates.
  destruct (prefix "https://" target); [reflexivity|].
  destruct (prefix "http://" target); reflexivity.
Qed.

(** X22. quick_web_scan runs Nikto on the target without its scheme (port
    443 with ssl for https, else port 80) and Nuclei on the URL, http://
    being put before a target without a scheme. A result of either always
    carries a findings key; quick_web_scan returns exactly when both
    scans return and both findings can be iterated, and its own findings
    are then Nikto's followed by Nuclei's. An exception that leaves a
    scan, which does not derive from Exception, leaves quick_web_scan. *)
Theorem quick_web_scan_joins_the_findings (target : string) :
  let nikto := nikto_of hexstrike target in
  let nuclei := nuclei_of hexstrike target in
  (forall n, nikto = Ok n -> dict_get n "findings" <> None) /\
  (forall m, nuclei = Ok m -> dict_get m "findings" <> None) /\
  ((exists r, quick_web_scan hexstrike target = Ok r) <->
   (exists n m from_nikto from_nuclei,
       nikto = Ok n /\ nuclei = Ok m /\
       PyAny.iter (scan_findings n) = Ok from_nikto /\
       PyAny.iter (scan_findings m) = Ok from_nuclei)) /\
  (forall n m from_nikto from_nuclei,
      nikto = Ok n -> nuclei = Ok m ->
      PyAny.iter (scan_findings n) = Ok from_nikto ->
      PyAny.iter (scan_findings m) = Ok from_nuclei ->
      quick_web_scan hexstrike target
      = Ok [("target", PStr target); ("nikto", PDict n);
            ("nuclei", PDict m);
            ("findings", PList (from_nikto ++ from_nuclei))]) /\
  (forall e, nikto = Raise e ->
             is_exception e = false /\
             quick_web_scan hexstrike target = Raise e) /\
  (forall n e, nikto = Ok n -> nuclei = Raise e ->
               is_exception e = false /\
               quick_web_scan hexstrike target = Raise e).
Proof.
  intros nikto nuclei. rewrite quick_web_scan_calls. fold nikto nuclei.
  assert (H1 : forall n, nikto = Ok n ->
                         exists f, dict_get n "findings" = Some f).
  { intros n Hn. destruct (nikto_has_findings _ _ _ n Hn) as [f [H _]]. eauto. }
  assert (H2 : forall m, nuclei = Ok m ->
                         exists f, dict_get m "findings" = Some f).
  { intros m Hm. unfold nuclei, nuclei_of in Hm.
    destruct (nuclei_has_findings _ _ m Hm) as [f [H _]]. eauto. }
  assert (R1 : forall e, nikto = Raise e -> is_exception e = false)
    by (intros e; apply nikto_raises).
  assert (R2 : forall e, nuclei = Raise e -> is_exception e = false)
    by (intros e; unfold nuclei, nuclei_of; apply nuclei_raises).
  clearbody nikto nuclei.
  split; [intros n Hn; destruct (H1 n Hn) as [f ->]; discriminate|].
  split; [intros m Hm; destruct (H2 m Hm) as [f ->]; discriminate|].
  split; [|split; [|split]].
  - split.
    + intros [r H]. destruct nikto as [n|]; simpl in H; [|discriminate].
      destruct nuclei as [m|]; simpl in H; [|discriminate].
      destruct (H1 n eq_refl) as [f1 E1]. destruct (H2 m eq_refl) as [f2 E2].
      unfold findings_to_extend in H. rewrite E1, E2 in H.
      destruct (PyAny.iter f1) as [l1|] eqn:I1; simpl in H; [|discriminate].
      destruct (PyAny.iter f2) as [l2|] eqn:I2; simpl in H; [|discriminate].
      exists n, m, l1, l2. unfold scan_findings, get_or. rewrite E1, E2. auto.
    + intros [n [m [l1 [l2 [-> [-> [E1 E2]]]]]]]. simpl.
      destruct (H1 n eq_refl) as [f1 F1]. destruct (H2 m eq_refl) as [f2 F2].
      unfold findings_to_extend. unfold scan_findings, get_or in E1, E2.
      rewrite F1, F2 in *. rewrite E1, E2. simpl. eauto.
  - intros n m l1 l2 -> -> E1 E2. simpl.
    destruct (H1 n eq_refl) as [f1 F1]. destruct (H2 m eq_refl) as [f2 F2].
    unfold findings_to_extend. unfold scan_findings, get_or in E1, E2.
    rewrite F1, F2 in *. rewrite E1, E2. reflexivity.
  - intros e ->. split; [now apply R1 | reflexivity].
  - intros n e -> ->. split; [now apply R2 | reflexivity].
Qed.

Lemma quick_web_scan_keys (target : string) (r : PyDict) :
  quick_web_scan hexstrike target = Ok r ->
  dict_get r "success" = None /\
  exists found, dict_get r "findings" = Some (PList found).
Proof.
  rewrite quick_web_scan_calls.
  destruct (nikto_of hexstrike target) as [n|]; simpl; [|discriminate].
  destruct (nuclei_of hexstrike target) as [m|]; simpl; [|discriminate].
  destruct (findings_to_extend _) as [l1|]; simpl; [|discriminate].
  destruct (findings_to_extend _) as [l2|]; simpl; [|discriminate].
  intros H. injection H as <-. simpl. eauto.
Qed.

(** [execute] scans the URL of the context. *)
Lemma execute_scans (context : RequestContext.t) :
  or_else (RequestContext.target context) "" <> "" ->
  WebVulnPlugin.execute hexstrike context
  = (let url := web_url context in
     result_ <- quick_web_scan hexstrike url ;;
     findings <-
       (found <- PyAny.iter (get_or result_ "findings" (PList [])) ;;
        web_findings url found) ;;
     Ok [("success", get_or result_ "success" (PBool true));
         ("plugin", PStr name);
         ("target", PStr url);
         ("findings", PList findings);
         ("nikto_results", get_or result_ "nikto" (PDict []));
         ("nuclei_results", get_or result_ "nuclei" (PDict []));
         ("raw_result", PDict result_)]).
Proof.
  intros Ht. unfold WebVulnPlugin.execute, web_url.
  destruct (String.eqb_spec (or_else (RequestContext.target context) "") "");
    [contradiction | reflexivity].
Qed.

(** The URL of the context starts with a scheme. *)
Lemma web_url_scheme (context : RequestContext.t) :
  prefix "https://" (web_url context) = true \/
  (prefix "https://" (web_url context) = false /\
   prefix "http://" (web_url context) = true).
Proof.
  unfold web_url.
  destruct (prefix "http://" (or_else (RequestContext.target context) "")) eqn:E1;
    destruct (prefix "https://" (or_else (RequestContext.target context) "")) eqn:E2;
    cbn [orb]; rewrite ?E1, ?E2; auto.
  destruct (use_https (RequestContext.open_ports context)).
  - left. exact (prefix_app "https://" _).
  - right. split; [reflexivity | exact (prefix_app "http://" _)].
Qed.

(** X23. With a target, a result that WebVulnPlugin.execute returns always
    has success True, because the result of quick_web_scan has no success
    key; even when every tool call raises an Exception, the plugin
    returns success True with no findings, the failures showing only
    inside nikto_results and nuclei_results. An exception of the tool
    calls that does not derive from Exception leaves execute. *)
Theorem web_plugin_always_reports_success (context : RequestContext.t) :
  or_else (RequestContext.target context) "" <> "" ->
  (forall r, WebVulnPlugin.execute hexstrike context = Ok r ->
             dict_get r "success" = Some (PBool true) /\
             exists raw, dict_get r "raw_result" = Some (PDict raw) /\
                         dict_get raw "success" = None) /\
  (forall e,
      (forall tool params,
          HexstrikeClient.execute_tool hexstrike tool params = Raise e) ->
      let url := web_url context in
      let host := remove "https://" (remove "http://" url) in
      WebVulnPlugin.execute hexstrike context
      = if is_exception e
        then Ok [("success", PBool true); ("plugin", PStr "web_vuln");
                 ("target", PStr url); ("findings", PList []);
                 ("nikto_results", PDict (tool_failure host e));
                 ("nuclei_results", PDict (tool_failure url e));
                 ("raw_result",
                  PDict [("target", PStr url);
                         ("nikto", PDict (tool_failure host e));
                         ("nuclei", PDict (tool_failure url e));
                         ("findings", PList [])])]
        else Raise e).
Proof.
  intros Ht. rewrite (execute_scans context Ht). cbv zeta.
  split.
  - intros r H.
    destruct (quick_web_scan hexstrike (web_url context)) as [raw|] eqn:Eq;
      simpl in H; [|discriminate].
    destruct (quick_web_scan_keys _ raw Eq) as [Hs [found Hf]].
    unfold get_or in H. rewrite Hs, Hf in H. simpl in H.
    destruct (web_findings (web_url context) found) as [fds|]; simpl in H;
      [|discriminate].
    injection H as <-. simpl. split; [reflexivity|]. eauto.
  - intros e Hdown.
    assert (Hu : (if prefix "https://" (web_url context)
                     || prefix "http://" (web_url context)
                  then web_url context
                  else ("http://" ++ web_url context)%string) = web_url context).
    { destruct (web_url_scheme context) as [E | [E1 E2]].
      - rewrite E. reflexivity.
      - rewrite E1, E2. reflexivity. }
    rewrite quick_web_scan_calls. unfold nikto_of, nuclei_of. rewrite Hu.
    unfold nikto_scan, nuclei_scan. rewrite !Hdown.
    unfold try_except. simpl. destruct (is_exception e); reflexivity.
Qed.

(** X24. For a target without a colon, WebVulnPlugin.execute scans
    https://target when some open port of the context equals 443 and
    http://target otherwise; Nikto is given the bare target, with port 443
    and ssl on or port 80 and ssl off, and Nuclei is given the URL. *)
Theorem web_plugin_routes_host_and_url (context : RequestContext.t) (t : string) :
  RequestContext.target context = Some t ->
  t <> "" ->
  contains ":" t = false ->
  let https := use_https (RequestContext.open_ports context) in
  let url := ((if https then "https://" else "http://") ++ t)%string in
  let nikto := nikto_scan hexstrike t (if https then 443%Z else 80%Z) https in
  let nuclei := nuclei_scan hexstrike url quick_templates in
  web_url context = url /\
  forall r,
    WebVulnPlugin.execute hexstrike context = Ok r ->
    dict_get r "target" = Some (PStr url) /\
    exists n m,
      nikto = Ok n /\ nuclei = Ok m /\
      dict_get r "nikto_results" = Some (PDict n) /\
      dict_get r "nuclei_results" = Some (PDict m).
Proof.
  intros Hctx Hne Hcolon https url nikto nuclei.
  assert (Ht : or_else (RequestContext.target context) "" = t).
  { rewrite Hctx. unfold or_else.
    destruct (String.eqb_spec t ""); [contradiction | reflexivity]. }
  assert (Hurl : web_url context = url).
  { unfold web_url. rewrite Ht.
    rewrite (prefix_needs_colon "http://" t eq_refl Hcolon).
    rewrite (prefix_needs_colon "https://" t eq_refl Hcolon).
    unfold url, https. cbn [orb].
    destruct (use_https (RequestContext.open_ports context)); reflexivity. }
  split; [exact Hurl|].
  intros r. rewrite execute_scans by (rewrite Ht; exact Hne). cbv zeta.
  rewrite Hurl.
  assert (Hq : quick_web_scan hexstrike url
               = (n <- nikto ;;
                  m <- nuclei ;;
                  from_nikto <- findings_to_extend n ;;
                  from_nuclei <- findings_to_extend m ;;
                  Ok [("target", PStr url); ("nikto", PDict n);
                      ("nuclei", PDict m);
                      ("findings", PList (from_nikto ++ from_nuclei))])).
  { rewrite quick_web_scan_calls.
    assert (Hr : remove "http://" t = t)
      by (apply remove_without_colon; [reflexivity | exact Hcolon]).
    assert (Hr' : remove "https://" t = t)
      by (apply remove_without_colon; [reflexivity | exact Hcolon]).
    unfold nikto_of, nuclei_of, nikto, nuclei, url.
    destruct https.
    - rewrite (prefix_app "https://" t).
      replace (remove "http://" ("https://" ++ t))
        with ("https://" ++ remove "http://" t)%string by reflexivity.
      rewrite Hr, (remove_prefix "h" "ttps://" t), Hr'. reflexivity.
    - replace (prefix "https://" ("http://" ++ t)) with false by reflexivity.
      rewrite (prefix_app "http://" t).
      rewrite (remove_prefix "h" "ttp://" t), Hr, Hr'. reflexivity. }
  rewrite Hq.
  destruct nikto as [n|]; simpl; [|discriminate].
  destruct nuclei as [m|]; simpl; [|discriminate].
  destruct (findings_to_extend n) as [l1|]; simpl; [|discriminate].
  destruct (findings_to_extend m) as [l2|]; simpl; [|discriminate].
  destruct (web_findings _ _) as [fds|]; simpl; [|discriminate].
  intros H. injection H as <-. simpl. split; [reflexivity|].
  exists n, m. auto.
Qed.

End WithClient.

Lemma web_plugin_always_reports_success_witness :
  (forall r, WebVulnPlugin.execute hexstrike_down https_context = Ok r ->
             dict_get r "success" = Some (PBool true) /\
             exists raw, dict_get r "raw_result" = Some (PDict raw) /\
                         dict_get raw "success" = None) /\
  (forall e,
      (forall tool params,
          HexstrikeClient.execute_tool hexstrike_down tool params = Raise e) ->
      let url := web_url https_context in
      let host := remove "https://" (remove "http://" url) in
      WebVulnPlugin.execute hexstrike_down https_context
      = if is_exception e
        then Ok [("success", PBool true); ("plugin", PStr "web_vuln");
                 ("target", PStr url); ("findings", PList []);
                 ("nikto_results", PDict (tool_failure host e));
                 ("nuclei_results", PDict (tool_failure url e));
                 ("raw_result",
                  PDict [("target", PStr url);
                         ("nikto", PDict (tool_failure host e));
                         ("nuclei", PDict (tool_failure url e));
                         ("findings", PList [])])]
        else Raise e).
Proof.
  apply (web_plugin_always_reports_success hexstrike_down https_context).
  discriminate.
Defined.

Lemma web_plugin_routes_host_and_url_witness :
  web_url https_context = "https://192.168.1.10" /\
  forall r,
    WebVulnPlugin.execute hexstrike_down https_context = Ok r ->
    dict_get r "target" = Some (PStr "https://192.168.1.10") /\
    exists n m,
      nikto_scan hexstrike_down "192.168.1.10" 443 true = Ok n /\
      nuclei_scan hexstrike_down "https://192.168.1.10" quick_templates = Ok m /\
      dict_get r "nikto_results" = Some (PDict n) /\
      dict_get r "nuclei_results" = Some (PDict m).
Proof.
  apply (web_plugin_routes_host_and_url hexstrike_down https_context
           "192.168.1.10").
  - reflexivity.
  - discriminate.
  - reflexivity.
Defined.

End WebFacts.

(** ** The Metasploit wrapper *)
Module MetasploitFacts.
Import PyStr PyValue PySet MetasploitWrapper Spec.

Lemma key_eq_refl (p : PyVal) (seen : list PyVal) (b : bool) :
  PySet.contains p seen = Ok b -> key_eq p p = true.
Proof.
  destruct p; simpl; try discriminate; intros _; unfold key_eq; simpl;
    try apply Z.eqb_refl; try apply String.eqb_refl; reflexivity.
Qed.

Lemma contains_existsb (p : PyVal) (seen : list PyVal) (b : bool) :
  PySet.contains p seen = Ok b -> b = existsb (key_eq p) seen.
Proof. destruct p; simpl; try discriminate; intros H; injection H as <-; reflexivity. Qed.

(** The loop, for any paths met before. *)
Lemma unique_modules_spec (modules seen kept : list PyVal) :
  unique_modules modules seen = Ok kept ->
  exists paths,
    Forall2 (fun m p => module_path m = Ok p /\ PyAny.truthy p = true) kept paths /\
    incl kept modules /\
    ForallOrdPairs (fun p q => key_eq q p = false) paths /\
    Forall (fun q => existsb (key_eq q) seen = false) paths /\
    (forall m p, In m modules -> module_path m = Ok p -> PyAny.truthy p = true ->
                 exists q, (In q paths \/ In q seen) /\ key_eq p q = true).
Proof.
  revert seen kept. induction modules as [|m ms IH]; intros seen kept H; simpl in H.
  - injection H as <-. exists []. repeat split; try constructor.
    + intros x [].
    + intros m p [].
  - destruct (module_path m) as [p|e] eqn:Ep; simpl in H; [|discriminate].
    destruct (PyAny.truthy p) eqn:Et.
    + destruct (PySet.contains p seen) as [met|e] eqn:Ec; simpl in H; [|discriminate].
      pose proof (contains_existsb _ _ _ Ec) as Hmet.
      pose proof (key_eq_refl _ _ _ Ec) as Hrefl.
      destruct met.
      * destruct (IH seen kept H) as [paths [H2 [Hi [Hd [Hs Hc]]]]].
        exists paths. split; [exact H2|]. split; [intros x Hx; right; auto|].
        split; [exact Hd|]. split; [exact Hs|].
        intros m' p' [<- | Hin] Hp' Ht'.
        -- rewrite Ep in Hp'. injection Hp' as <-.
           symmetry in Hmet. apply existsb_exists in Hmet as [q [Hq Hk]].
           exists q. auto.
        -- exact (Hc m' p' Hin Hp' Ht').
      * destruct (unique_modules ms (p :: seen)) as [kept'|e] eqn:Ek; simpl in H;
          [|discriminate].
        injection H as <-.
        destruct (IH (p :: seen) kept' Ek) as [paths [H2 [Hi [Hd [Hs Hc]]]]].
        exists (p :: paths). split; [constructor; auto|].
        split; [intros x [<- | Hx]; [left; reflexivity | right; auto]|].
        split.
        { constructor; [|exact Hd].
          revert Hs. apply Forall_impl. intros q Hq. simpl in Hq.
          apply orb_false_iff in Hq. tauto. }
        split.
        { constructor; [symmetry; exact Hmet|].
          revert Hs. apply Forall_impl. intros q Hq. simpl in Hq.
          apply orb_false_iff in Hq. tauto. }
        intros m' p' [<- | Hin] Hp' Ht'.
        -- rewrite Ep in Hp'. injection Hp' as <-.
           exists p. split; [left; left; reflexivity | exact Hrefl].
        -- destruct (Hc m' p' Hin Hp' Ht') as [q [[Hq | [<- | Hq]] Hk]].
           ++ exists q. split; [left; right; exact Hq | exact Hk].
           ++ exists p. split; [left; left; reflexivity | exact Hk].
           ++ exists q. split; [right; exact Hq | exact Hk].
    + destruct (IH seen kept H) as [paths [H2 [Hi [Hd [Hs Hc]]]]].
      exists paths. split; [exact H2|]. split; [intros x Hx; right; auto|].
      split; [exact Hd|]. split; [exact Hs|].
      intros m' p' [<- | Hin] Hp' Ht'.
      * rewrite Ep in Hp'. injection Hp' as <-. congruence.
      * exact (Hc m' p' Hin Hp' Ht').
Qed.

(** X25. The de-duplication loop of suggest_exploits and of
    MetasploitPlugin.execute, when it returns, keeps modules of its input
    only, each with a truthy fullname or path, no two of them with equal
    paths, and every module of the input that has a path is represented by
    a kept module with an equal path. *)
Theorem unique_modules_keeps_one_module_of_each_path (modules kept : list PyVal) :
  unique_modules modules [] = Ok kept ->
  exists paths,
    Forall2 (fun m p => module_path m = Ok p /\ PyAny.truthy p = true) kept paths /\
    incl kept modules /\
    ForallOrdPairs (fun p q => key_eq q p = false) paths /\
    (forall m p, In m modules -> module_path m = Ok p -> PyAny.truthy p = true ->
                 exists q, In q paths /\ key_eq p q = true).
Proof.
  intros H. destruct (unique_modules_spec modules [] kept H)
    as [paths [H2 [Hi [Hd [_ Hc]]]]].
  exists paths. repeat split; auto.
  intros m p Hin Hp Ht. destruct (Hc m p Hin Hp Ht) as [q [[Hq | []] Hk]]. eauto.
Qed.

Lemma unique_modules_keeps_one_module_of_each_path_witness :
  exists paths,
    Forall2 (fun m p => module_path m = Ok p /\ PyAny.truthy p = true)
            [PDict [("fullname", PStr "exploit/windows/smb/ms17_010_eternalblue")]]
            paths /\
    incl [PDict [("fullname", PStr "exploit/windows/smb/ms17_010_eternalblue")]]
         [PDict [("fullname", PStr "exploit/windows/smb/ms17_010_eternalblue")];
          PDict [("name", PStr "unnamed")];
          PDict [("fullname", PStr "");
                 ("path", PStr "exploit/windows/smb/ms17_010_eternalblue")]] /\
    ForallOrdPairs (fun p q => key_eq q p = false) paths /\
    (forall m p,
        In m [PDict [("fullname", PStr "exploit/windows/smb/ms17_010_eternalblue")];
              PDict [("name", PStr "unnamed")];
              PDict [("fullname", PStr "");
                     ("path", PStr "exploit/windows/smb/ms17_010_eternalblue")]] ->
        module_path m = Ok p -> PyAny.truthy p = true ->
        exists q, In q paths /\ key_eq p q = true).
Proof.
  apply (unique_modules_keeps_one_module_of_each_path
           [PDict [("fullname", PStr "exploit/windows/smb/ms17_010_eternalblue")];
            PDict [("name", PStr "unnamed")];
            PDict [("fullname", PStr "");
                   ("path", PStr "exploit/windows/smb/ms17_010_eternalblue")]]).
  reflexivity.
Defined.

End MetasploitFacts.

(** ** The built-in plugins together *)
Module BuiltinFacts.
Import PyStr PyValue Config Scope MemoryManager Agent Spec Vocabulary
       Outcomes SummaryVocabulary BuiltinVocabulary MemoryFacts
       RecorderFacts PipelineFacts OutcomeFacts StoreFacts NmapPluginFacts
       WebFacts Scenario ToolScenario.

Lemma accepted_prefix_incl (env : Collaborators) (target : option string)
      (payloads : list PyVal) :
  incl (fst (accepted_prefix env target payloads)) payloads.
Proof.
  induction payloads as [|fd rest IH]; simpl; [intros x []|].
  destruct (payload_error env target fd); [intros x []|].
  destruct (accepted_prefix env target rest) as [l e]. simpl in *.
  intros x [<- | Hx]; [left; reflexivity | right; auto].
Qed.

(** The payloads of the web plugin are of the type [web_vulnerability]. *)
Lemma web_findings_type (target : string) (found payloads : list PyVal) :
  WebVulnPlugin.web_findings target found = Ok payloads ->
  Forall (fun fd => exists d, fd = PDict d /\
                              dict_get d "type" = Some (PStr "web_vulnerability"))
         payloads.
Proof.
  revert payloads. induction found as [|f fs IH]; intros payloads; simpl.
  - intros H. injection H as <-. constructor.
  - destruct (WebVulnPlugin.web_finding target f) as [p|] eqn:Ep; simpl;
      [|discriminate].
    destruct (WebVulnPlugin.web_findings target fs) as [ps|]; simpl; [|discriminate].
    intros H. injection H as <-. constructor; [|auto].
    unfold WebVulnPlugin.web_finding in Ep.
    destruct f; simpl in Ep; try discriminate.
    injection Ep as <-. eexists. split; reflexivity.
Qed.

Lemma web_execute_payloads (hexstrike : HexstrikeClient.t)
      (context : RequestContext.t) (r : PyDict) :
  WebVulnPlugin.execute hexstrike context = Ok r ->
  exists payloads,
    PyAny.iter (get_or r "findings" (PList [])) = Ok payloads /\
    Forall (fun fd => exists d, fd = PDict d /\
                                dict_get d "type" = Some (PStr "web_vulnerability"))
           payloads.
Proof.
  unfold WebVulnPlugin.execute.
  destruct (or_else (RequestContext.target context) "" =? "")%string.
  - intros H. injection H as <-. exists []. split; [reflexivity | constructor].
  - destruct (WebToolsWrapper.quick_web_scan hexstrike _) as [raw|]; simpl;
      [|discriminate].
    destruct (PyAny.iter (get_or raw "findings" (PList []))) as [found|]; simpl;
      [|discriminate].
    destruct (WebVulnPlugin.web_findings _ found) as [payloads|] eqn:Ew; simpl;
      [|discriminate].
    intros H. injection H as <-. exists payloads. split; [reflexivity|].
    exact (web_findings_type _ _ _ Ew).
Qed.

Lemma metasploit_execute_no_findings (hexstrike : HexstrikeClient.t)
      (iteration : list string -> list string)
      (context : RequestContext.t) (r : PyDict) :
  MetasploitPlugin.execute hexstrike iteration context = Ok r ->
  dict_get r "findings" = None.
Proof.
  unfold MetasploitPlugin.execute.
  destruct (MetasploitPlugin.service_names _) as [added|]; simpl; [|discriminate].
  destruct (MetasploitPlugin.exploits_for hexstrike _) as [sug|]; simpl;
    [|discriminate].
  destruct (contains "eternalblue" _ || contains "ms17-010" _).
  - destruct (MetasploitWrapper.search_modules _ _ _) as [found|]; simpl;
      [|discriminate].
    destruct (PyAny.iter found) as [byq|]; simpl; [|discriminate].
    destruct (MetasploitWrapper.unique_modules _ _) as [u|]; simpl; [|discriminate].
    intros H. injection H as <-. reflexivity.
  - simpl.
    destruct (MetasploitWrapper.unique_modules _ _) as [u|]; simpl; [|discriminate].
    intros H. injection H as <-. reflexivity.
Qed.

(** What the recorder builds from a payload of another type than
    [open_port] is not of the type [open_port]. *)
Lemma typed_payload_finding (env : Collaborators) (name : string)
      (tgt : option string) (c : nat) (d : PyDict) (ty : string) (f : Finding.t) :
  dict_get d "type" = Some (PStr ty) ->
  make_finding env name tgt c (PDict d) = Ok f ->
  Finding.type f = ty.
Proof.
  intros Hty. rewrite make_finding_dict. unfold get_or at 2. rewrite Hty.
  unfold Finding.validate.
  destruct (Finding.as_str _); [|discriminate]. simpl.
  destruct (Finding.as_str (get_or d "severity" _)); [|discriminate].
  destruct (Finding.as_str (get_or d "description" _)); [|discriminate].
  destruct (Finding.as_dict _); [|discriminate].
  destruct (Finding.as_str_list _); [|discriminate].
  intros H. injection H as <-. reflexivity.
Qed.

(** The open ports read from a session whose port findings carry no
    evidence are blank. *)
Lemma open_ports_without_evidence (w : World.t) :
  ports_without_evidence w ->
  Forall (eq blank_port) (_extract_open_ports_from_memory w).
Proof.
  unfold ports_without_evidence, _extract_open_ports_from_memory, findings_of.
  destruct (World.current_session w) as [s|]; [|constructor].
  induction 1 as [|f fs Hf _ IH]; simpl; [constructor|].
  destruct (String.eqb_spec (Finding.type f) "open_port") as [E|E]; [|exact IH].
  simpl. constructor; [|exact IH].
  unfold evidence_get. rewrite (Hf E). reflexivity.
Qed.

Lemma blank_ports_no_https (ports : list OpenPort.t) :
  Forall (eq blank_port) ports ->
  WebVulnPlugin.use_https ports = false /\
  MetasploitPlugin.service_names ports = Ok (repeat "" (length ports)).
Proof.
  induction 1 as [|p ps <- _ [IH1 IH2]]; simpl; [auto|].
  unfold WebVulnPlugin.use_https in *. simpl. rewrite IH1, IH2. auto.
Qed.

Section WithAgent.
Variable env : Collaborators.
Variable cfg : OrchestratorConfig.
Variable hexstrike : HexstrikeClient.t.
Variable json_loads : string -> NmapTool.loaded.
Variable iteration : list string -> list string.

(** The payloads the built-in plugins have recorded give findings that
    keep the invariant. *)
Lemma builtin_payload_finding (context : RequestContext.t) (target : option string)
      (np : string * PyVal) (f : Finding.t) :
  In np (flat_map (payloads_of env context target)
                  (Plugins.of_agent iteration hexstrike json_loads)) ->
  built_from env target np f ->
  Finding.type f = "open_port" -> Finding.evidence f = [].
Proof.
  intros Hin [c Hb]. unfold Plugins.of_agent, Plugins.create_builtin_plugins in Hin.
  simpl in Hin. rewrite app_nil_r in Hin.
  apply in_app_or in Hin as [Hin | Hin]; [|apply in_app_or in Hin as [Hin | Hin]].
  - unfold payloads_of in Hin. simpl in Hin.
    destruct (NmapPlugin.execute _ context) as [r|] eqn:Ex; [|destruct Hin].
    apply in_map_iff in Hin as [fd [<- Hfd]].
    destruct (nmap_results_hold env _ context r target Ex) as [Hrec Hpay].
    rewrite Hrec in Hfd. simpl in Hfd.
    rewrite Forall_forall in Hpay.
    destruct (port_payload_finding _ _ _ _ _ _ _ (Hpay fd Hfd) Hb) as [_ [He _]].
    intros _. exact He.
  - unfold payloads_of in Hin. simpl in Hin.
    destruct (MetasploitPlugin.execute hexstrike iteration context) as [r|] eqn:Ex;
      [|destruct Hin].
    unfold recording_of in Hin.
    rewrite (metasploit_execute_no_findings _ _ _ _ Ex) in Hin. destruct Hin.
  - unfold payloads_of in Hin. simpl in Hin.
    destruct (WebVulnPlugin.execute hexstrike context) as [r|] eqn:Ex; [|destruct Hin].
    apply in_map_iff in Hin as [fd [<- Hfd]]. simpl in Hb.
    destruct (web_execute_payloads _ _ _ Ex) as [payloads [Hi Hall]].
    unfold recording_of in Hfd. unfold get_or in Hi.
    destruct (dict_get r "findings") as [v|]; [|destruct Hfd].
    rewrite Hi in Hfd. apply accepted_prefix_incl in Hfd.
    rewrite Forall_forall in Hall. destruct (Hall fd Hfd) as [d [-> Hty]].
    rewrite (typed_payload_finding _ _ _ _ _ _ _ Hty Hb). discriminate.
Qed.

(** X26. In an agent with the three built-in plugins, if the open_port
    findings of the session carry no evidence before a call of
    process_query, they carry none after it; so the open ports handed to
    the plugins have port None and an empty service and version: the web
    plugin never chooses https and the Metasploit plugin only ever
    collects the empty service name. *)
Theorem open_ports_of_a_builtin_agent_are_blank
        (query : string) (rc : option bool) (w : World.t) :
  let self := Agent.mk cfg (Plugins.of_agent iteration hexstrike json_loads) in
  let context := build_context query (_extract_target query) (entry env query w) in
  ports_without_evidence w ->
  ports_without_evidence (snd (process_query env self query rc w)) /\
  Forall (eq blank_port) (RequestContext.open_ports context) /\
  WebVulnPlugin.use_https (RequestContext.open_ports context) = false /\
  MetasploitPlugin.service_names (RequestContext.open_ports context)
  = Ok (repeat "" (length (RequestContext.open_ports context))).
Proof.
  intros self context Hw. split.
  - unfold ports_without_evidence.
    destruct (process_query_findings env self query rc w)
      as [fs [nps [Hf [Hall Hincl]]]].
    rewrite Hf. apply Forall_app. split; [exact Hw|].
    clear Hf. induction Hall as [|np f nps fs Hb _ IH]; [constructor|].
    constructor.
    + apply (builtin_payload_finding context (_extract_target query) np f);
        [|exact Hb].
      apply Hincl. left. reflexivity.
    + apply IH. intros x Hx. apply Hincl. right. exact Hx.
  - assert (Hblank : Forall (eq blank_port) (RequestContext.open_ports context)).
    { unfold context, build_context. simpl.
      apply open_ports_without_evidence.
      unfold ports_without_evidence. rewrite findings_entry. exact Hw. }
    split; [exact Hblank|]. exact (blank_ports_no_https _ Hblank).
Qed.

End WithAgent.

(** A scan finds the port 443 open and the session gains the finding of
    that port; at the next query the open ports handed to the plugins
    are the one blank entry. *)
Lemma open_ports_of_a_builtin_agent_are_blank_witness :
  let self := Agent.mk cfg_lab
                (Plugins.of_agent (fun l => l) hexstrike_https loads_nothing) in
  let w1 := snd (process_query env0 self "scan 192.168.1.10" None w0) in
  let query := "check the web server 192.168.1.10" in
  let context := build_context query (_extract_target query) (entry env0 query w1) in
  (map Finding.type (findings_of w1) = ["open_port"] /\
   map Finding.description (findings_of w1) = [""] /\
   RequestContext.open_ports context = [blank_port]) /\
  ports_without_evidence (snd (process_query env0 self query None w1)) /\
  Forall (eq blank_port) (RequestContext.open_ports context) /\
  WebVulnPlugin.use_https (RequestContext.open_ports context) = false /\
  MetasploitPlugin.service_names (RequestContext.open_ports context)
  = Ok (repeat "" (length (RequestContext.open_ports context))).
Proof.
  split; [vm_compute; repeat split|].
  apply (open_ports_of_a_builtin_agent_are_blank env0 cfg_lab hexstrike_https
           loads_nothing (fun l => l) "check the web server 192.168.1.10" None
           (snd (process_query env0
                   (Agent.mk cfg_lab
                      (Plugins.of_agent (fun l => l) hexstrike_https loads_nothing))
                   "scan 192.168.1.10" None w0))).
  vm_compute. repeat constructor.
Defined.

End BuiltinFacts.

(** ** The choice of the language model *)
Module LLMFacts.
Import PyStr LLM Spec PyStrFacts.

Lemma rstrip_slash_no_slash (s p : string) : rstrip_slash s <> (p ++ "/")%string.
Proof.
  revert p. induction s as [|c s IH]; intros p; simpl.
  - destruct p; discriminate.
  - destruct (String.eqb_spec (rstrip_slash s) "") as [E|E]; simpl.
    + destruct (Ascii.eqb_spec c "/") as [Ec|Ec].
      * destruct p; discriminate.
      * rewrite E. destruct p as [|d p]; simpl.
        -- intros H. injection H as H. contradiction.
        -- intros H. injection H as _ H. destruct p; discriminate.
    + destruct p as [|d p]; simpl.
      * intros H. injection H as _ H. contradiction.
      * intros H. injection H as _ H. exact (IH p H).
Qed.

Section WithEnvironment.
Variable env_url : option string.
Variable genai_installed : bool.

(** X27. A configuration whose primary_llm passed validation gets a
    backend exactly when it is ollama, gemini-cli, or google-generativeai
    with the package installed and an API key set; the validated value
    openai always raises Unknown LLM backend: openai. With force_local an
    Ollama backend is always created, and its base URL never ends with a
    slash. *)
Theorem validated_openai_has_no_backend (config : LLMConfig) :
  (exists v, validate_primary_llm (primary_llm config) = Ok v) ->
  ((exists b, create_llm_backend env_url genai_installed config false = Ok b) <->
   primary_llm config = "ollama" \/
   primary_llm config = "gemini-cli" \/
   (primary_llm config = "google-generativeai" /\
    genai_installed = true /\ gemini_api_key config <> "")) /\
  (primary_llm config = "openai" ->
   create_llm_backend env_url genai_installed config false
   = Raise (Exception "Unknown LLM backend: openai")) /\
  (exists url,
      create_llm_backend env_url genai_installed config true
      = Ok (OllamaBackend (ollama_model config) url) /\
      ~ ends_with url "/" /\
      url = rstrip_slash (if truthy env_url then or_else env_url ""
                          else ollama_base_url config)).
Proof.
  destruct config as [primary model base_url api_key openai_key].
  cbn [primary_llm ollama_model ollama_base_url gemini_api_key].
  intros [v Hv]. unfold validate_primary_llm in Hv.
  destruct (mem primary allowed) eqn:Em; [|discriminate].
  unfold mem, allowed in Em. simpl in Em. rewrite orb_false_r in Em.
  split; [|split].
  - unfold create_llm_backend, new_OllamaBackend, new_GeminiCLIBackend,
      new_GoogleGenerativeAIBackend.
    cbn [primary_llm ollama_model ollama_base_url gemini_api_key].
    destruct (String.eqb_spec primary "ollama") as [->|E1].
    { simpl. split; [auto|]. intros _. destruct (truthy env_url); eauto. }
    destruct (String.eqb_spec primary "gemini-cli") as [->|E2].
    { simpl. split; [auto | eauto]. }
    destruct (String.eqb_spec primary "google-generativeai") as [->|E3].
    { simpl. destruct genai_installed; simpl.
      - destruct (String.eqb_spec api_key "") as [E|E].
        + split; [intros [b H]; discriminate H|].
          intros [H | [H | [_ [_ H]]]]; try discriminate H. contradiction.
        + split; [auto 6 | eauto].
      - split; [intros [b H]; discriminate H|].
        intros [H | [H | [_ [H _]]]]; discriminate H. }
    destruct (String.eqb_spec primary "openai") as [->|E4];
      [|discriminate Em].
    simpl. split; [intros [b H]; discriminate H|].
    intros [H | [H | [H _]]]; discriminate H.
  - intros ->. reflexivity.
  - unfold create_llm_backend, new_OllamaBackend.
    destruct (truthy env_url); eexists; (split; [reflexivity|]);
      (split; [|reflexivity]); intros [p H]; exact (rstrip_slash_no_slash _ _ H).
Qed.

End WithEnvironment.

Lemma validated_openai_has_no_backend_witness :
  let config := mkLLMConfig "openai" "llama3.2" "http://localhost:11434/" "" "" in
  ((exists b, create_llm_backend None false config false = Ok b) <->
   primary_llm config = "ollama" \/
   primary_llm config = "gemini-cli" \/
   (primary_llm config = "google-generativeai" /\
    false = true /\ gemini_api_key config <> "")) /\
  (primary_llm config = "openai" ->
   create_llm_backend None false config false
   = Raise (Exception "Unknown LLM backend: openai")) /\
  (exists url,
      create_llm_backend None false config true
      = Ok (OllamaBackend (ollama_model config) url) /\
      ~ ends_with url "/" /\
      url = rstrip_slash (if truthy None then or_else None ""
                          else ollama_base_url config)).
Proof.
  apply (validated_openai_has_no_backend None false
           (mkLLMConfig "openai" "llama3.2" "http://localhost:11434/" "" "")).
  eexists. reflexivity.
Defined.

End LLMFacts.

(** ** The keywords of the plugins *)
Module KeywordFacts.
Import PyStr Spec PyStrFacts KeywordVocabulary.

(** A text that holds [b] holds every part of [b]. *)
Lemma contains_part (a b s : string) :
  contains a b = true -> contains b s = true -> contains a s = true.
Proof.
  rewrite !contains_occurs. intros [p1 [q1 ->]] [p2 [q2 ->]].
  exists (p2 ++ p1)%string, (q1 ++ q2)%string.
  rewrite !append_assoc. reflexivity.
Qed.

(** X28. The matches predicates of the three built-in plugins are decided
    by their short keywords alone: scan, port, nmap, service for Nmap;
    exploit, metasploit, msf, vulnerability, cve, eternalblue for
    Metasploit; web, http, nikto, nuclei for the web plugin. The keywords
    open port, port scan, suggest exploit, https, website, web vuln, web
    vulnerability and web scan never change the outcome. *)
Theorem builtin_plugins_match_on_their_short_keywords (query : string) :
  NmapPlugin.matches query = mentions ["scan"; "port"; "nmap"; "service"] query /\
  MetasploitPlugin.matches query
  = mentions ["exploit"; "metasploit"; "msf"; "vulnerability"; "cve"; "eternalblue"]
             query /\
  WebVulnPlugin.matches query = mentions ["web"; "http"; "nikto"; "nuclei"] query.
Proof.
  unfold NmapPlugin.matches, MetasploitPlugin.matches, WebVulnPlugin.matches,
    mentions, NmapPlugin.nmap_keywords, MetasploitPlugin.metasploit_keywords,
    WebVulnPlugin.web_keywords.
  cbn [existsb]. set (q := lower query). rewrite !orb_false_r.
  assert (P : forall a b, contains a b = true -> contains b q = true ->
                          contains a q = true) by (intros a b; apply contains_part).
  split; [|split].
  - pose proof (P "port" "open port" eq_refl) as H1.
    pose proof (P "port" "port scan" eq_refl) as H2.
    destruct (contains "scan" q), (contains "port" q), (contains "nmap" q),
      (contains "service" q), (contains "open port" q), (contains "port scan" q);
      simpl; auto; try (discriminate (H1 eq_refl)); try (discriminate (H2 eq_refl)).
  - pose proof (P "exploit" "suggest exploit" eq_refl) as H1.
    destruct (contains "exploit" q), (contains "metasploit" q), (contains "msf" q),
      (contains "vulnerability" q), (contains "cve" q), (contains "eternalblue" q),
      (contains "suggest exploit" q);
      simpl; auto; discriminate (H1 eq_refl).
  - pose proof (P "http" "https" eq_refl) as H1.
    pose proof (P "web" "website" eq_refl) as H2.
    pose proof (P "web" "web vuln" eq_refl) as H3.
    pose proof (P "web" "web vulnerability" eq_refl) as H4.
    pose proof (P "web" "web scan" eq_refl) as H5.
    destruct (contains "web" q), (contains "http" q); simpl; auto.
    + destruct (contains "https" q); [discriminate (H1 eq_refl)|].
      destruct (contains "website" q); [discriminate (H2 eq_refl)|].
      destruct (contains "web vuln" q); [discriminate (H3 eq_refl)|].
      destruct (contains "web vulnerability" q); [discriminate (H4 eq_refl)|].
      destruct (contains "web scan" q); [discriminate (H5 eq_refl)|].
      simpl. destruct (contains "nikto" q), (contains "nuclei" q); reflexivity.
Qed.

End KeywordFacts.
